(* ===== verification/_CoqProject ===== *)
-Q . S2P
Prelude.v
Effects.v
GoFloat.v
GoFlag.v
Kube.v
BrokerScale.v
LoadReport.v
BookKeeper.v
BookieScale.v
BookieAdmin.v
Decommission.v
DecommissionProps.v
DecommissionGuards.v
DecommissionLive.v
ObjectStore.v
ObjectTransfer.v
BackupTypes.v
BackupCtl.v
Utf8.v
Manifest.v
ScanStream.v
RecordCodec.v
Restore.v
RestoreProps.v
BackupCLI.v
BackupChain.v
Cron.v
ScheduleCtl.v
ScheduleProps.v
Config.v
Rollout.v
RolloutProps.v
Workload.v
ClusterTypes.v
MetadataInit.v
Umbrella.v
UmbrellaProps.v
UmbrellaLive.v
MetadataProps.v
FunctionsConf.v
BrokerCtl.v
BookieCtl.v
PodExec.v
ProxyCtl.v
AutoRecoveryCtl.v
FunctionsCtl.v
OxiaCtl.v
WorkloadProps.v
BringUp.v
Deployed.v
PodProps.v
RackCtl.v
RackProps.v
Rbac.v
Manager.v
