(* ===== verification/Prelude.v ===== *)
(** * A verification of the Pulsar operator

    The program is a Kubernetes operator for Apache Pulsar, written in Go.
    Its controllers watch custom resources and drive the cluster towards
    them.  The parts and how they interact:

    - the PulsarCluster umbrella splits a cluster into child resources (Oxia,
      BookKeeper, AutoRecovery, Broker, Proxy, FunctionsWorker), runs the
      metadata-init Job once Oxia is ready, and rolls changes out tier by
      tier: a tier waits until the ones before it report Ready;
    - a controller per child renders its ConfigMap, Services, disruption
      budget and StatefulSet or Deployment, and reports Ready;
    - the rack sync assigns each bookie the zone of its node;
    - the broker and bookie autoscalers write [spec.replicas] of the Broker
      and BookKeeper children, which the umbrella must leave alone;
    - the bookie decommission controller drains the top bookie through a
      persisted state machine and then shrinks the BookKeeper by one;
    - the BackupSchedule controller stamps out Backups, the Backup controller
      runs an export Job for each, the Restore controller checks the
      BookKeeper lineage of the target and runs an import Job; the Jobs run
      the backup engine, which copies Oxia's key space to and from a manifest
      in an object store.

    ** How code becomes definitions

    Pure functions are functions; structs are records (with the fields the
    modelled code reads or writes), enumerations and tagged unions inductive
    types.  An [int32] or [int64] is a [Z] with [wrap32]/[wrap64] written out
    where the code computes with it (a count of the elements of a list is left
    as it is: it cannot wrap before the list has [2^31] of them); a [time.Time] is a count of nanoseconds,
    a [time.Duration] a 64-bit one; [float64] is IEEE 754 binary64 computed
    by the Standard Library's SpecFloat.  Go maps are [gmap]s, slices lists.
    Errors are [goerr], fallible results [res].

    A handler that talks to the API server, the bookie admin API, Oxia, the
    object store, the clock or the event recorder is a program of the free
    monad of Effects.v over the calls of its component (the [call] and [ans]
    of each module): nothing is assumed about the answers.  [runs p t a] says
    that with the answers of trace [t] program [p] returns [a]; [part p t]
    that [t] is an initial part of a run, since the operator can be killed
    after any call; [exec] runs against a concrete world.  Theorems about
    [runs] and [part] hold for every behaviour of the outside world; those
    over a history of reconciles state in a [rely] what the API server
    promises (a read returns the last write).

    Code outside the repository enters as a parameter with its documented
    laws: [ApiMeta] (conditions helpers), [Schedule] (cron), [SortFuncs] and
    [RangeMap] (unstable sorting, random map order), SHA-256, JSON encoding
    (but for the manifest's records, written out in RecordCodec) and the
    decoders of Job termination messages.  Each has an instance in the
    [...Demo] module of the file that uses it.

    ** Files

    - Prelude: notations, tactics, machine integers, time, errors, decimal
      integers, quoting.  Effects: programs, runs, worlds, the rely-guarantee
      rules, and refinement: a call implemented by a program.  GoFloat:
      [float64].  GoFlag: package flag.  Kube: Kubernetes vocabulary and
      internal/builder/labels.go.
    - BrokerScale: internal/autoscaler/broker (decision.go, stabilization.go)
      and controller/cluster/broker_autoscaler_controller.go.  LoadReport:
      its two load clients (k8smetrics.go, pulsarloadreport.go), and the
      autoscaler running on them.
    - BookKeeper: the BookKeeper resource and its defaults.  BookieScale:
      internal/autoscaler/bookkeeper/decision.go and
      bookkeeper_autoscaler_controller.go.  BookieAdmin: its HTTP client
      (client.go), and the autoscaler running on it.
    - Decommission: bookkeeper_decommission_controller.go and
      autoscaler/bookkeeper/guard.go; DecommissionProps: its safety over
      histories; DecommissionGuards: what the single steps guarantee;
      DecommissionLive: that an attempt ends.
      PodExec: podexec.go, the admin client that runs commands in the bookie
      pods, and the decommission controller running on it.
    - ObjectStore: internal/objectstore, locations; ObjectTransfer: its four
      drivers.  BackupTypes: the backup
      API group and what its controllers share.  BackupCtl:
      backup_controller.go and backup_job.go.  Utf8: valid UTF-8, and what Go's
      JSON encoder makes of other bytes.  Manifest: internal/backup
      (manifest.go, export.go, import.go, bookkeeper.go).  ScanStream:
      oxia_client.go, the goroutine behind a scan and the loops that read its
      channel, as a step relation.  RecordCodec: the bytes the manifest's
      checksum covers.  Restore and RestoreProps: restore_controller.go and restore_job.go.  BackupCLI:
      the subcommands the Jobs run (internal/backup: cli.go, upload.go,
      download.go).  BackupChain: Jobs, command line, store and engine put
      together.
    - Cron: backupschedule_cron.go.  ScheduleCtl and ScheduleProps:
      backupschedule_controller.go and backupschedule_backup.go.
    - Config: internal/config.  Rollout and RolloutProps:
      pulsarcluster_upgrade.go and the readiness aggregation of
      pulsarcluster_controller.go.
    - Workload: the Kubernetes objects the workload controllers render,
      internal/builder, readiness.go and these controllers' calls.
      ClusterTypes: the PulsarCluster resource, its children's specs and
      pulsarcluster_offload.go.
    - MetadataInit: pulsarcluster_metadata.go.  Umbrella: the rest of
      pulsarcluster_controller.go and pulsarcluster_functionsworker.go; it
      embeds the programs of Rollout, one instance per tier, and of
      MetadataInit.  UmbrellaProps: the order of a rollout; UmbrellaLive: its
      end; MetadataProps: the init Job and the configuration written into the
      children.
    - FunctionsConf: functions_worker.yml, shared by BrokerCtl
      (broker_controller.go) and FunctionsCtl
      (functionsworker_controller.go).  BookieCtl: bookkeeper_controller.go.
      ProxyCtl: proxy_controller.go.  AutoRecoveryCtl:
      autorecovery_controller.go.  OxiaCtl: controller/metadata.
      WorkloadProps: what a Ready condition rests on, the TLS refusal, the
      status of Oxia; BringUp: what each of them reports once its workload
      has settled; Deployed: the umbrella's rollout with these controllers
      beside it; PodProps: well-formedness of what is written, budgets,
      addresses.
    - RackCtl and RackProps: bookkeeper_rack_controller.go and
      internal/rackawareness.
    - Rbac: the permission markers of all fourteen controllers and
      config/rbac/role.yaml, against the calls the reconcilers make.
      Manager: cmd/main.go and the SetupWithManager methods.

    ** What the theorems show

    - Decommission: over any history of reconciles, crashes included, a
      cookie is invalidated only after a drain, the spec is shrunk by one and
      only below a drained top ordinal, and volume claims are deleted only of
      removed bookies; the trigger, the verification, the deadline and the
      gate behave as stated.  On the deployed admin client this is a statement
      about the commands the pods ran and what they printed.  Among components
      that do what they are asked an attempt ends, seven rounds after the drain
      has, with the bookie removed or back in service ([decommission_ends]).
    - Rollout: no changed spec is written before its upstream tiers have
      settled, an interrupted roll is completed by the next pass, a settled
      cluster is not written, and the autoscaler's replica count survives
      every pass.  For the umbrella as a whole: every change is written in
      tier order and is the spec the cluster asks for ([rollout_order]), and
      five rounds bring every child to exactly that spec and its stamp, if the
      stamps found at the start were true ([rollout_terminates]), also when the
      components come up by the reconciles of their own controllers
      ([deployed_rollout_terminates]).
    - Metadata: the init Job is created and removed only for a reason, its
      condition is earned once and kept, all tiers get one store where the
      user named no other, the user's keys win, and the store's address names a Service that exists.
    - Workloads: Ready is claimed only for a converged workload of the
      current spec (or for none, where none is asked for), everything written
      is well formed and stays so, a Proxy
      without its certificate is not served, budgets keep a quorum.
    - Racks: an assignment follows the node's zone, the pending assignments and
      no others are made, and the cache holds exactly what they put in force.
    - Backup and restore: verdicts rest on observations, an import Job needs
      a lineage check, an import replays exactly what was exported (the
      ephemeral records only when asked to) and fails closed on anything else; the manifest's checksum determines its
      records short of a collision of SHA-256 ([checksum_binds_records]);
      artifact URIs can be read back; the Jobs'
      arguments parse to what the resources ask for, and a Restore replays
      the Backup it names ([restore_replays_backup]).  A scan streamed by a
      goroutine is the list the engine works on, under every schedule; the
      goroutine of a read that returns early never ends
      ([target_stream_sound]).
    - Schedules: at most one Backup per due tick and no tick lost, the O(1)
      due-time computation is exact for evenly spaced schedules, retention
      deletes exactly what the policy says and wakes up on time.
    - Autoscalers: decisions stay within bounds, need unanimity (brokers) or
      complete polls (bookies), and the reconcile loops write only under
      their guards; a broker is added or removed, and a bookie added, only on
      what every broker, or bookie, reported in the same tick.
    - The process: the manager starts only with every controller and check in
      place, what a workload controller handles it also watches
      ([handled_is_watched]), and the ClusterRole allows every call the
      reconcilers make, but for their events ([permissions_suffice]).
    - Configuration: rendered properties read back exactly when no key looks
      like a comment and no value begins with a blank; checksums are framed.
    - Some theorems state where the code falls short of its documentation:
      [gate_off_freezes], [Decide_scale_up_can_shrink],
      [KeyFromURI_trailing_slash], [lineage_capture_vs_check],
      [mostRecentDueTime_irregular], [retention_boundary_gap],
      [bookie_ready_before_roll], [oxia_status_written],
      [override_not_initialized].

    ** Bounds and fuel

    No definition that models code runs on fuel (the scheduler of ScanStream
    that runs its example does); an execution of ScanStream takes at most
    [3 * n + 2] steps for a scan of [n] results.  Loops over lists are structural; the walk of
    [mostRecentDueTime] recurses on the well-founded order of the time left,
    so it is total for every schedule whose [Next] moves forward.

    ** What is not modelled

    What the SDKs, the pod-exec stream, HTTP, the manager and the workqueue do
    with a request (each is a call; that a watched change leads to a
    reconcile is controller-runtime's); the JSON text of a manifest's lines,
    which are typed values in Manifest (what the text cannot carry, bytes that
    are not UTF-8, is: they are replaced when a line is read back; the text of
    a record as the checksum sees it is written out in RecordCodec); the flags other packages register (a
    parameter) and the usage texts of package flag; white space outside ASCII
    in TrimSpace; the registration of the API types in the scheme; logging but
    for the messages of cmd/main.go; generated deep copies, except where the
    sharing inside a copy matters (the conditions of an OxiaCluster's status).
    The records of Kubernetes objects have the fields the code sets or
    reads. *)

From Stdlib Require Export ZArith Lia Ascii.
From stdpp Require Export sorting pretty.
From stdpp Require Export base option strings gmap list.

(** * Notations *)

Declare Scope go_scope.
Delimit Scope go_scope with go.

(** Go string concatenation, and the [%d] verb of [fmt]. *)
Notation "s ++! t" := (String.append s t)
  (at level 60, right associativity) : go_scope.
Notation "'%d' z" := (pretty (z : Z)) (at level 9, z at level 9) : go_scope.

Lemma append_cons c (s t : string) : (String c s ++! t = String c (s ++! t))%go.
Proof. done. Qed.

Lemma append_nil (t : string) : ("" ++! t = t)%go.
Proof. done. Qed.

(** * Tactics *)

(** Case analysis on every [if]/[match] scrutinee in the goal or in a named
    hypothesis, remembering the equations. *)
Ltac break_goal :=
  repeat match goal with
  | |- context [match ?x with _ => _ end] =>
      lazymatch x with
      | context [match _ with _ => _ end] => fail
      | _ => destruct x eqn:?
      end
  end.

Ltac break_in H :=
  repeat match type of H with
  | context [match ?x with _ => _ end] =>
      lazymatch x with
      | context [match _ with _ => _ end] => fail
      | _ => destruct x eqn:?
      end
  end.

(** Turn boolean integer tests into propositions. *)
Ltac zbool :=
  repeat match goal with
  | H : (_ && _)%bool = true |- _ => apply andb_true_iff in H as [? ?]
  | H : (_ && _)%bool = false |- _ => apply andb_false_iff in H
  | H : (_ || _)%bool = false |- _ => apply orb_false_iff in H as [? ?]
  | H : (_ || _)%bool = true |- _ => apply orb_true_iff in H
  | H : negb _ = true |- _ => apply negb_true_iff in H
  | H : negb _ = false |- _ => apply negb_false_iff in H
  | H : (_ <? _)%Z = true |- _ => apply Z.ltb_lt in H
  | H : (_ <? _)%Z = false |- _ => apply Z.ltb_ge in H
  | H : (_ >? _)%Z = true |- _ => apply Z.gtb_lt in H
  | H : (_ >? _)%Z = false |- _ => rewrite Z.gtb_ltb in H; apply Z.ltb_ge in H
  | H : (_ <=? _)%Z = true |- _ => apply Z.leb_le in H
  | H : (_ <=? _)%Z = false |- _ => apply Z.leb_gt in H
  | H : (_ =? _)%Z = true |- _ => apply Z.eqb_eq in H
  | H : (_ =? _)%Z = false |- _ => apply Z.eqb_neq in H
  | H : (_ >=? _)%Z = true |- _ => rewrite Z.geb_leb in H; apply Z.leb_le in H
  | H : (_ >=? _)%Z = false |- _ => rewrite Z.geb_leb in H; apply Z.leb_gt in H
  | H : String.eqb _ _ = true |- _ => apply String.eqb_eq in H
  | H : String.eqb _ _ = false |- _ => apply String.eqb_neq in H
  end.

Create HintDb operator.

(** * Machine integers *)

(** A Go [int32] is a [Z] in [[-2^31, 2^31)]; arithmetic wraps around. *)
Definition wrap32 (z : Z) : Z := (z + 2 ^ 31) `mod` 2 ^ 32 - 2 ^ 31.
Definition in32 (z : Z) : Prop := (- 2 ^ 31 <= z < 2 ^ 31)%Z.

(** A Go [int64]. *)
Definition wrap64 (z : Z) : Z := (z + 2 ^ 63) `mod` 2 ^ 64 - 2 ^ 63.
Definition in64 (z : Z) : Prop := (- 2 ^ 63 <= z < 2 ^ 63)%Z.

Definition max_int64 : Z := 2 ^ 63 - 1.
Definition min_int64 : Z := - 2 ^ 63.

Lemma wrap32_id z : in32 z → wrap32 z = z.
Proof. unfold in32, wrap32. intros. rewrite Z.mod_small; lia. Qed.

Lemma wrap32_range z : in32 (wrap32 z).
Proof.
  unfold in32, wrap32.
  pose proof (Z.mod_pos_bound (z + 2 ^ 31) (2 ^ 32) ltac:(lia)). lia.
Qed.

Lemma wrap64_id z : in64 z → wrap64 z = z.
Proof. unfold in64, wrap64. intros. rewrite Z.mod_small; lia. Qed.

Lemma wrap64_range z : in64 (wrap64 z).
Proof.
  unfold in64, wrap64.
  pose proof (Z.mod_pos_bound (z + 2 ^ 63) (2 ^ 64) ltac:(lia)). lia.
Qed.

#[export] Hint Resolve wrap32_range wrap64_range : operator.

(** * Time *)

(** [time.Time] is a count of nanoseconds since the Unix epoch.  The zero
    [time.Time] (January 1, year 1 UTC) is the sentinel [IsZero] tests for.
    A [time.Duration] is an [int64] count of nanoseconds. *)
Definition Second : Z := 1000000000.
Definition Minute : Z := 60 * Second.
Definition zeroTime : Z := - 62135596800 * Second.
Definition IsZero (t : Z) : bool := (t =? zeroTime)%Z.
Definition Before (t u : Z) : bool := (t <? u)%Z.
Definition After (t u : Z) : bool := (u <? t)%Z.

(** [t.Sub u] saturates at the bounds of [time.Duration]. *)
Definition Sub (t u : Z) : Z := Z.max min_int64 (Z.min max_int64 (t - u)).

(** [time.Duration(s) * time.Second] for an [int32] (or [int64]) number of
    seconds: the product wraps at 64 bits. *)
Definition seconds (s : Z) : Z := wrap64 (s * Second).

Lemma seconds_int32 s : in32 s → seconds s = (s * Second)%Z.
Proof.
  unfold in32, seconds, Second. intros. apply wrap64_id. unfold in64. lia.
Qed.

Lemma Sub_gt_0 t u : (0 < Sub t u)%Z ↔ (u < t)%Z.
Proof. unfold Sub, min_int64, max_int64. lia. Qed.

Lemma Sub_small t u : in64 (t - u) → Sub t u = (t - u)%Z.
Proof. unfold Sub, in64, min_int64, max_int64. lia. Qed.

(** * Results *)

(** Go errors: the classes the code tells apart, and the [%w] wrapping of
    [fmt.Errorf]: one error at the end of the text, one followed by more text,
    or two of them.  [ConnectionError] is the error type of
    internal/autoscaler/bookkeeper/client.go. *)
Inductive goerr : Type :=
| ErrNotFound (msg : string)
| ErrAlreadyExists (msg : string)
| ErrConflict (msg : string)
| ErrPlain (msg : string)
| ConnectionError (addr : string) (e : goerr)
| Errorf (msg : string) (e : goerr)
| ErrorfWith (msg : string) (e : goerr) (tail : string)
| Errorf2 (msg : string) (e1 : goerr) (mid : string) (e2 : goerr).

Inductive res (A : Type) : Type :=
| Ok (a : A)
| Err (e : goerr).
Arguments Ok {A} a.
Arguments Err {A} e.

Definition res_is_ok {A} (r : res A) : bool :=
  match r with Ok _ => true | Err _ => false end.

(** [apierrors.IsNotFound] and [apierrors.IsAlreadyExists] look through
    wrapped errors, as [errors.As] does. *)
Fixpoint IsNotFound (e : goerr) : bool :=
  match e with
  | ErrNotFound _ => true
  | ConnectionError _ e' | Errorf _ e' | ErrorfWith _ e' _ => IsNotFound e'
  | Errorf2 _ e1 _ e2 => IsNotFound e1 || IsNotFound e2
  | _ => false
  end.

Fixpoint IsAlreadyExists (e : goerr) : bool :=
  match e with
  | ErrAlreadyExists _ => true
  | ConnectionError _ e' | Errorf _ e' | ErrorfWith _ e' _ => IsAlreadyExists e'
  | Errorf2 _ e1 _ e2 => IsAlreadyExists e1 || IsAlreadyExists e2
  | _ => false
  end.

(** The [Error()] text. *)
Fixpoint error_text (e : goerr) : string :=
  match e with
  | ErrNotFound m | ErrAlreadyExists m | ErrConflict m | ErrPlain m => m
  | ConnectionError a e' => ("bookie " ++! a ++! " unreachable: " ++! error_text e')%go
  | Errorf m e' => (m ++! ": " ++! error_text e')%go
  | ErrorfWith m e' tail => (m ++! ": " ++! error_text e' ++! tail)%go
  | Errorf2 m e1 mid e2 => (m ++! error_text e1 ++! mid ++! error_text e2)%go
  end.

(** [errors.Join]: nothing for no errors; the texts on lines of their own. *)
Fixpoint errors_Join (es : list goerr) : option goerr :=
  match es with
  | [] => None
  | e :: es' =>
      Some (match errors_Join es' with
            | None => e
            | Some e' => Errorf2 "" e (String "010" "") e'
            end)
  end.

(** * Sorted keys of a Go map *)

(** [slices.Sort] on the keys of a map: Go map iteration order is random, the
    sorted key list is not. *)
Definition sorted_keys {A} (m : gmap string A) : list string :=
  merge_sort String.le (map_to_list m).*1.

Lemma elem_of_sorted_keys {A} (m : gmap string A) k :
  k ∈ sorted_keys m ↔ is_Some (m !! k).
Proof.
  unfold sorted_keys. rewrite merge_sort_Permutation, list_elem_of_fmap. split.
  - intros ([k' v] & -> & H%elem_of_map_to_list). eauto.
  - intros [v H%elem_of_map_to_list]. by exists (k, v).
Qed.

Lemma NoDup_sorted_keys {A} (m : gmap string A) : NoDup (sorted_keys m).
Proof. unfold sorted_keys. rewrite merge_sort_Permutation. apply NoDup_fst_map_to_list. Qed.

Lemma sorted_sorted_keys {A} (m : gmap string A) :
  StronglySorted String.le (sorted_keys m).
Proof. apply StronglySorted_merge_sort; apply _. Qed.

(** * Lists *)

(** [0, 1, ..., n-1] as Go's [for ord := range n] over an [int32] visits it:
    nothing at all when [n <= 0]. *)
Definition range32 (n : Z) : list Z := seqZ 0 n.

Lemma elem_of_range32 n k : k ∈ range32 n ↔ (0 <= k < n)%Z.
Proof. unfold range32. rewrite elem_of_seqZ. lia. Qed.

(** * Decimal integers *)

(** [strconv.ParseInt(s, 10, bits)]: an optional sign, at least one digit,
    nothing else, and a value that fits in [bits] bits. *)
Definition digit_value (c : Ascii.ascii) : option Z :=
  Z.of_nat <$> strings.Ascii.is_nat c.

Fixpoint parse_digits (s : string) (acc : Z) : option Z :=
  match s with
  | EmptyString => Some acc
  | String c s' => d ← digit_value c; parse_digits s' (acc * 10 + d)%Z
  end.

(** The value if it fits in [bits] bits, a range error otherwise. *)
Definition fit_bits (bits z : Z) : option Z :=
  if ((- 2 ^ (bits - 1) <=? z) && (z <? 2 ^ (bits - 1)))%Z%bool then Some z else None.

Definition ParseInt (bits : Z) (s : string) : option Z :=
  match s with
  | EmptyString => None
  | String c s' =>
      if Ascii.eqb c "-" then
        if String.eqb s' "" then None else z ← parse_digits s' 0; fit_bits bits (- z)
      else if Ascii.eqb c "+" then
        if String.eqb s' "" then None else z ← parse_digits s' 0; fit_bits bits z
      else z ← parse_digits s 0; fit_bits bits z
  end.

Lemma pretty_digit (x : N) :
  (x < 10)%N → digit_value (pretty_N_char x) = Some (Z.of_N x).
Proof.
  intros H. assert (x ∈ [0;1;2;3;4;5;6;7;8;9]%N) as Hin.
  { rewrite !elem_of_cons, elem_of_nil. lia. }
  rewrite !elem_of_cons, elem_of_nil in Hin.
  by repeat destruct Hin as [->|Hin].
Qed.

Lemma parse_pretty_N_go (x : N) (s : string) :
  parse_digits (pretty_N_go x s) 0 = parse_digits s (Z.of_N x).
Proof.
  revert s. induction (N.lt_wf_0 x) as [x _ IH]; intros s.
  destruct (decide (x = 0%N)) as [->|Hx]; [by rewrite pretty_N_go_0|].
  rewrite pretty_N_go_step by lia.
  assert (x `div` 10 < x)%N as Hlt by (apply N.div_lt; lia).
  rewrite (IH _ Hlt). simpl.
  rewrite pretty_digit by (apply N.mod_lt; lia). simpl. f_equal.
  pose proof (N.div_mod x 10 ltac:(done)). lia.
Qed.

Lemma parse_pretty_N (x : N) : parse_digits (pretty x) 0 = Some (Z.of_N x).
Proof.
  unfold pretty, pretty_N. case_decide as Hx; [by subst|]. apply parse_pretty_N_go.
Qed.

Lemma pretty_N_go_head (x : N) s :
  (0 < x)%N → ∃ c s' d, pretty_N_go x s = String c s' ∧ digit_value c = Some d.
Proof.
  revert s. induction (N.lt_wf_0 x) as [x _ IH]; intros s Hx.
  rewrite pretty_N_go_step by lia.
  destruct (decide (x `div` 10 = 0)%N) as [->|Hd].
  - rewrite pretty_N_go_0. eexists _, _, _. split; [done|].
    apply pretty_digit, N.mod_lt. lia.
  - apply IH; [by apply N.div_lt|]. by apply N.neq_0_lt_0.
Qed.

Lemma pretty_N_head (x : N) :
  ∃ c s' d, pretty x = String c s' ∧ digit_value c = Some d.
Proof.
  unfold pretty, pretty_N. case_decide as Hx.
  - by eexists _, _, _.
  - apply pretty_N_go_head. lia.
Qed.

(** Printing an integer in range and parsing it back is the identity. *)
Lemma ParseInt_pretty bits (z : Z) :
  (- 2 ^ (bits - 1) <= z < 2 ^ (bits - 1))%Z → ParseInt bits (pretty z) = Some z.
Proof.
  intros Hz.
  assert (fit_bits bits z = Some z) as Hfit.
  { unfold fit_bits. by rewrite (proj2 (Z.leb_le _ _)), (proj2 (Z.ltb_lt _ _)) by lia. }
  destruct z as [|p|p]; unfold pretty, pretty_Z; [exact Hfit| |];
    pose proof (parse_pretty_N (N.pos p)) as Hp;
    destruct (pretty_N_head (N.pos p)) as (c & s' & d & E & Hd);
    change (pretty p) with (pretty (N.pos p)); rewrite E in *;
    unfold ParseInt; cbn -[parse_digits fit_bits].
  - destruct (Ascii.eqb_spec c "-") as [->|_]; [done|].
    destruct (Ascii.eqb_spec c "+") as [->|_]; [done|].
    by rewrite Hp.
  - change (String.append "-" (String c s')) with (String "-" (String c s')).
    cbn -[parse_digits fit_bits]. by rewrite Hp.
Qed.

(** The text of the error [strconv.ParseInt] returns. *)
Definition parse_syntax_ok (s : string) : bool :=
  match s with
  | EmptyString => false
  | String c s' =>
      let body := if Ascii.eqb c "-" || Ascii.eqb c "+" then s' else s in
      match body with
      | EmptyString => false
      | _ => bool_decide (is_Some (parse_digits body 0))
      end
  end.

(** [strconv.Quote] of a string of ASCII characters (the [%q] verb). *)
Definition hex_digit (n : nat) : ascii :=
  if (n <? 10)%nat then ascii_of_nat (48 + n) else ascii_of_nat (87 + n).

Definition quote_char (c : ascii) : string :=
  let n := nat_of_ascii c in
  let esc k := String "092" (String k EmptyString) in
  if (n =? 34)%nat then esc "034"%char
  else if (n =? 92)%nat then esc "092"%char
  else if (n =? 7)%nat then esc "a"%char
  else if (n =? 8)%nat then esc "b"%char
  else if (n =? 9)%nat then esc "t"%char
  else if (n =? 10)%nat then esc "n"%char
  else if (n =? 11)%nat then esc "v"%char
  else if (n =? 12)%nat then esc "f"%char
  else if (n =? 13)%nat then esc "r"%char
  else if ((n <? 32) || (126 <? n))%nat%bool then
    (esc "x"%char ++! String (hex_digit (n / 16)) (String (hex_digit (n mod 16)) EmptyString))%go
  else String c EmptyString.

Fixpoint quote_body (s : string) : string :=
  match s with
  | EmptyString => EmptyString
  | String c s' => (quote_char c ++! quote_body s')%go
  end.

Definition quote (s : string) : string :=
  (String "034" EmptyString ++! quote_body s ++! String "034" EmptyString)%go.

Definition parse_int_error (s : string) : goerr :=
  ErrPlain ("strconv.ParseInt: parsing " ++! quote s ++! ": " ++!
            (if parse_syntax_ok s then "value out of range" else "invalid syntax"))%go.
