(* ===== verification/Effects.v ===== *)
(** Effectful handlers.

    A controller is a program that talks to the outside world: the API
    server, the bookie admin API, the clock, the event recorder.  It is
    modelled as a free monad over the calls it makes: [Ret] returns, [Vis c k]
    performs the call [c] and continues with the answer.  Nothing is assumed
    about the answers: a theorem about [runs] holds for every behaviour of the
    outside world.  [exec] runs a program against a concrete world. *)

From S2P Require Import Prelude.

Section Effects.

Context {call : Type} {ans : call → Type}.

Inductive prog (A : Type) : Type :=
| Ret (a : A)
| Vis (c : call) (k : ans c → prog A).

#[local] Arguments Ret {A} a.
#[local] Arguments Vis {A} c k.

Fixpoint bind {A B} (p : prog A) (f : A → prog B) : prog B :=
  match p with
  | Ret a => f a
  | Vis c k => Vis c (λ x, bind (k x) f)
  end.

Definition perform (c : call) : prog (ans c) := Vis c Ret.

(** Go's [if err != nil { return ..., err }]: continue with the value, or
    return the error as it is. *)
Definition bind_ok {A B} (p : prog (res A)) (f : A → prog (res B)) : prog (res B) :=
  bind p (λ r, match r with Ok a => f a | Err e => Ret (Err e) end).

(** The same with the error wrapped by [fmt.Errorf("<msg>: %w", err)]. *)
Definition bind_wrap {A B} (msg : string) (p : prog (res A)) (f : A → prog (res B)) :
    prog (res B) :=
  bind p (λ r, match r with Ok a => f a | Err e => Ret (Err (Errorf msg e)) end).

(** * Runs *)

(** One call with the answer it got. *)
Inductive event : Type := Ev (c : call) (x : ans c).

(** [runs p t a]: with the calls and answers of [t], in order, [p] returns
    [a]. *)
Fixpoint runs {A} (p : prog A) (t : list event) (a : A) : Prop :=
  match p with
  | Ret b => t = [] ∧ a = b
  | Vis c k => ∃ x t', t = Ev c x :: t' ∧ runs (k x) t' a
  end.

Lemma runs_bind {A B} (p : prog A) (f : A → prog B) t b :
  runs (bind p f) t b ↔ ∃ t1 t2 a, t = t1 ++ t2 ∧ runs p t1 a ∧ runs (f a) t2 b.
Proof.
  revert t. induction p as [a|c k IH]; intros t; simpl.
  - split; [intros ?; by exists [], t, a|].
    by intros (? & ? & ? & -> & [-> ->] & ?).
  - split.
    + intros (x & t' & -> & (t1 & t2 & a & -> & ? & ?)%IH).
      exists (Ev c x :: t1), t2, a. simpl. eauto 10.
    + intros (? & t2 & a & -> & (x & t1 & -> & ?) & ?).
      exists x, (t1 ++ t2). split; [done|]. apply IH. by exists t1, t2, a.
Qed.

Lemma runs_perform c t x : runs (perform c) t x ↔ t = [Ev c x].
Proof.
  simpl. split; [by intros (? & ? & -> & -> & ->)|]. intros ->. eauto.
Qed.

(** * Which calls a program makes *)

(** Every call of [p], whatever the answers, satisfies [C]. *)
Fixpoint only {A} (C : call → Prop) (p : prog A) : Prop :=
  match p with
  | Ret _ => True
  | Vis c k => C c ∧ ∀ x, only C (k x)
  end.

Lemma only_mono {A} (C D : call → Prop) (p : prog A) :
  (∀ c, C c → D c) → only C p → only D p.
Proof. intros HCD. induction p; simpl; naive_solver. Qed.

Lemma only_bind {A B} (C : call → Prop) (p : prog A) (f : A → prog B) :
  only C p → (∀ a, only C (f a)) → only C (bind p f).
Proof. intros Hp Hf. induction p; simpl in *; naive_solver. Qed.

Lemma only_bind_ok {A B} (C : call → Prop) (p : prog (res A)) (f : A → prog (res B)) :
  only C p → (∀ a, only C (f a)) → only C (bind_ok p f).
Proof. intros. apply only_bind; [done|]. intros []; simpl; auto. Qed.

Lemma only_bind_wrap {A B} (C : call → Prop) m (p : prog (res A)) (f : A → prog (res B)) :
  only C p → (∀ a, only C (f a)) → only C (bind_wrap m p f).
Proof. intros. apply only_bind; [done|]. intros []; simpl; auto. Qed.

Lemma only_perform (C : call → Prop) c : C c → only C (perform c).
Proof. done. Qed.

Definition ev_call (e : event) : call := match e with Ev c _ => c end.

Lemma only_runs {A} (C : call → Prop) (p : prog A) t a :
  only C p → runs p t a → Forall (λ e, C (ev_call e)) t.
Proof.
  revert t. induction p as [b|c k IH]; simpl; intros t Hp.
  - intros [-> _]. constructor.
  - intros (x & t' & -> & Hr). destruct Hp as [Hc Hk]. constructor; [done|]. by eapply IH.
Qed.

(** * Running against a world *)

Section Exec.
Context {S : Type} (serve : ∀ c : call, S → ans c * S).

Fixpoint exec {A} (p : prog A) (s : S) : A * S * list event :=
  match p with
  | Ret a => (a, s, [])
  | Vis c k =>
      let '(x, s') := serve c s in
      let '(a, s'', t) := exec (k x) s' in
      (a, s'', Ev c x :: t)
  end.

Lemma exec_runs {A} (p : prog A) s :
  runs p (exec p s).2 (exec p s).1.1.
Proof.
  revert s. induction p as [a|c k IH]; intros s; simpl; [done|].
  destruct (serve c s) as [x s'].
  specialize (IH x s'). destruct (exec (k x) s') as [[a s''] t]. eauto.
Qed.

Lemma exec_bind {A B} (p : prog A) (f : A → prog B) s :
  exec (bind p f) s =
    let '(a, s1, t1) := exec p s in
    let '(b, s2, t2) := exec (f a) s1 in (b, s2, t1 ++ t2).
Proof.
  revert s. induction p as [a|c k IH]; intros s; simpl.
  - by destruct (exec (f a) s) as [[? ?] ?].
  - destruct (serve c s) as [x s']. rewrite IH.
    destruct (exec (k x) s') as [[a s1] t1]. by destruct (exec (f a) s1) as [[? ?] ?].
Qed.

(** A trace the world could have served, with the state it leaves. *)
Fixpoint served (s : S) (t : list event) (s' : S) : Prop :=
  match t with
  | [] => s' = s
  | Ev c x :: t => (serve c s).1 = x ∧ served (serve c s).2 t s'
  end.

Lemma exec_served {A} (p : prog A) s : served s (exec p s).2 (exec p s).1.2.
Proof.
  revert s. induction p as [a|c k IH]; intros s; simpl; [done|].
  destruct (serve c s) as [x s'] eqn:E.
  specialize (IH x s'). destruct (exec (k x) s') as [[a s''] t]. simpl in *.
  by rewrite E.
Qed.

(** [I] holds of the world before the program starts and after each of its
    calls. *)
Fixpoint always {A} (I : S → Prop) (p : prog A) (s : S) : Prop :=
  I s ∧ match p with
        | Ret _ => True
        | Vis c k => always I (k (serve c s).1) (serve c s).2
        end.

(** The world is deterministic, so a served run is the executed one. *)
Lemma served_exec {A} (p : prog A) s t s' a :
  runs p t a → served s t s' → exec p s = (a, s', t).
Proof.
  revert s t. induction p as [b|c k IH]; intros s t; simpl.
  - intros [-> ->]. simpl. by intros ->.
  - intros (x & t' & -> & Hr) [Hx Hs]. destruct (serve c s) as [y s1].
    simpl in *. subst y. by rewrite (IH _ _ _ Hr Hs).
Qed.
Lemma always_here {A} (I : S → Prop) (p : prog A) s : always I p s → I s.
Proof. destruct p; simpl; tauto. Qed.

Lemma always_end {A} (I : S → Prop) (p : prog A) s : always I p s → I (exec p s).1.2.
Proof.
  revert s. induction p as [a|c k IH]; intros s; simpl; [tauto|]. intros [_ Hp].
  destruct (serve c s) as [x s']. apply IH in Hp. simpl in Hp.
  by destruct (exec (k x) s') as [[? ?] ?].
Qed.

Lemma always_bind {A B} (I : S → Prop) (p : prog A) (f : A → prog B) s :
  always I p s → always I (f (exec p s).1.1) (exec p s).1.2 → always I (bind p f) s.
Proof.
  revert s. induction p as [a|c k IH]; intros s; simpl; [done|].
  intros [Hs Hp] Hf. split; [done|]. destruct (serve c s) as [x s']. simpl in *.
  destruct (exec (k x) s') as [[a s''] t] eqn:E. simpl in *.
  apply IH; [done|]. by rewrite E.
Qed.
End Exec.

(** * Rely-guarantee reasoning *)

(** [part p t]: the calls and answers of [t] are an initial part of a run of
    [p]; the process may stop (crash, lose its lease) after any call. *)
Fixpoint part {A} (p : prog A) (t : list event) : Prop :=
  match p with
  | Ret _ => t = []
  | Vis c k => t = [] ∨ ∃ x t', t = Ev c x :: t' ∧ part (k x) t'
  end.

Lemma runs_part {A} (p : prog A) t a : runs p t a → part p t.
Proof.
  revert t. induction p; simpl; [naive_solver|].
  intros t (x & t' & -> & ?). right. eauto.
Qed.

Lemma part_prefix {A} (p : prog A) t t' : part p (t ++ t') → part p t.
Proof.
  revert t. induction p as [a|c k IH]; intros t; simpl.
  - by intros [-> _]%app_eq_nil.
  - destruct t as [|e t]; [by left|]. intros [|(x & t1 & E & Ht)]; [done|].
    simplify_eq/=. right. eauto.
Qed.

Lemma only_part {A} (C : call → Prop) (p : prog A) t :
  only C p → part p t → Forall (λ e, C (ev_call e)) t.
Proof.
  revert t. induction p as [b|c k IH]; simpl; intros t Hp; [intros ->; constructor|].
  intros [->|(x & t' & -> & Hr)]; [constructor|]. destruct Hp as [Hc Hk].
  constructor; [done|]. by eapply IH.
Qed.

(** A world that stops answering in the middle of a run. *)
Lemma always_part {S} (serve : ∀ c : call, S → ans c * S) {A} (I : S → Prop) (p : prog A) s t s' :
  always serve I p s → part p t → served serve s t s' → I s'.
Proof.
  revert s t. induction p as [a|c k IH]; intros s t; simpl.
  - intros [Hs _] ->. by intros ->.
  - intros [Hs Hp] [->|(x & t' & -> & Ht)]; [by intros ->|].
    intros [<- Hsv]. eapply IH; eauto.
Qed.

Section Logic.
(** [G h c]: what must hold to make call [c] after history [h].
    [R h e]: what may be assumed of answer [e] after history [h]. *)
Context (G : list event → call → Prop) (R : list event → event → Prop).

(** Every call satisfies the guarantee as long as the answers satisfy the
    rely, and the result satisfies [Q]. *)
Fixpoint wp {A} (p : prog A) (Q : A → list event → Prop) (h : list event) : Prop :=
  match p with
  | Ret a => Q a h
  | Vis c k => G h c ∧ ∀ x, R h (Ev c x) → wp (k x) Q (h ++ [Ev c x])
  end.

Lemma wp_mono {A} (p : prog A) (Q Q' : A → list event → Prop) h :
  (∀ a h', h `prefix_of` h' → Q a h' → Q' a h') → wp p Q h → wp p Q' h.
Proof.
  revert h. induction p as [a|c k IH]; intros h HQ; simpl.
  - by apply HQ.
  - intros [Hc Hk]. split; [done|]. intros x Hx.
    apply IH; [|by apply Hk]. intros a h' Hp. apply HQ.
    by apply (transitivity (prefix_app_r _ _ [Ev c x] (reflexivity h))).
Qed.

Lemma wp_bind {A B} (p : prog A) (f : A → prog B) Q h :
  wp p (λ a h', wp (f a) Q h') h → wp (bind p f) Q h.
Proof.
  revert h. induction p as [a|c k IH]; intros h; simpl; [done|].
  intros [Hc Hk]. split; [done|]. intros x Hx. by apply IH, Hk.
Qed.

Lemma wp_bind_ok {A B} (p : prog (res A)) (f : A → prog (res B)) Q h :
  wp p (λ r h', match r with Ok a => wp (f a) Q h' | Err e => Q (Err e) h' end) h →
  wp (bind_ok p f) Q h.
Proof. intros H. apply wp_bind. eapply wp_mono, H. by intros []. Qed.

Lemma wp_bind_wrap {A B} m (p : prog (res A)) (f : A → prog (res B)) Q h :
  wp p (λ r h', match r with Ok a => wp (f a) Q h' | Err e => Q (Err (Errorf m e)) h' end) h →
  wp (bind_wrap m p f) Q h.
Proof. intros H. apply wp_bind. eapply wp_mono, H. by intros []. Qed.

(** The answers of [t], received after history [h], satisfy the rely. *)
Fixpoint relies (h t : list event) : Prop :=
  match t with
  | [] => True
  | e :: t => R h e ∧ relies (h ++ [e]) t
  end.

Lemma relies_app h t t' : relies h (t ++ t') ↔ relies h t ∧ relies (h ++ t) t'.
Proof.
  clear G. revert h. induction t as [|e t IH]; intros h; simpl.
  { rewrite app_nil_r. naive_solver. }
  rewrite IH, <- (assoc_L (++)). naive_solver.
Qed.

(** Every call of [t] satisfies the guarantee at the moment it is made. *)
Definition guaranteed (h t : list event) : Prop :=
  ∀ t1 e t2, t = t1 ++ e :: t2 → G (h ++ t1) (ev_call e).

Lemma guaranteed_cons h e t :
  G h (ev_call e) → guaranteed (h ++ [e]) t → guaranteed h (e :: t).
Proof.
  intros He Ht [|e' t1] e'' t2 E; simplify_eq/=; [by rewrite app_nil_r|].
  rewrite cons_middle, assoc by apply _. by eapply Ht.
Qed.

Lemma guaranteed_app h t t' :
  guaranteed h t → guaranteed (h ++ t) t' → guaranteed h (t ++ t').
Proof.
  revert h. induction t as [|e t IH]; intros h Ht Ht'; simpl; [by rewrite app_nil_r in Ht'|].
  apply guaranteed_cons.
  - specialize (Ht [] e t eq_refl). by rewrite app_nil_r in Ht.
  - apply IH; [|by rewrite <- (assoc_L (++))]. intros t1 e' t2 ->.
    rewrite <- (assoc_L (++)). by apply (Ht (e :: t1) e' t2).
Qed.

Lemma wp_part {A} (p : prog A) Q h t :
  wp p Q h → part p t → relies h t → guaranteed h t.
Proof.
  revert h t. induction p as [a|c k IH]; intros h t; simpl.
  - by intros _ -> _ [] ? ? ?.
  - intros [Hc Hk] [->|(x & t' & -> & Hp)]; [by intros _ [] ? ? ?|].
    simpl. intros [Hr Hrs]. apply guaranteed_cons; [done|]. eapply IH; eauto.
Qed.

Lemma wp_runs {A} (p : prog A) Q h t a :
  wp p Q h → runs p t a → relies h t → Q a (h ++ t).
Proof.
  revert h t. induction p as [b|c k IH]; intros h t; simpl.
  - intros HQ [-> ->] _. by rewrite app_nil_r.
  - intros [Hc Hk] (x & t' & -> & Hr) [Hx Hrel].
    rewrite cons_middle, assoc by apply _. eapply IH; eauto.
Qed.

(** A program that is not constrained by the history. *)
Lemma wp_only {A} (C : call → Prop) (p : prog A) h :
  (∀ h c, C c → G h c) → only C p → wp p (λ _ _, True) h.
Proof. intros HC. revert h. induction p; simpl; naive_solver. Qed.

(** A fact about the history that persists and licenses every call. *)
Lemma wp_inv {A} (P : list event → Prop) (p : prog A) h :
  (∀ h e, P h → P (h ++ [e])) → (∀ h c, P h → G h c) → P h → wp p (λ _, P) h.
Proof. intros Hs Hg. revert h. induction p; simpl; eauto. Qed.

(** What a program may call bounds what it appends to the history. *)
Lemma wp_extends {A} (C : call → Prop) (p : prog A) Q h :
  only C p → wp p Q h →
  wp p (λ a h', Q a h' ∧ ∃ l, h' = h ++ l ∧ Forall (λ e, C (ev_call e)) l) h.
Proof.
  revert h. induction p as [a|c k IH]; intros h; simpl.
  - intros _ HQ. split; [done|]. exists []. by rewrite app_nil_r.
  - intros [Hc Hk] [HG Hw]. split; [done|]. intros x Hx.
    eapply wp_mono, IH; [|done|by apply Hw]. intros b h' _ (HQ & l & -> & Hl). split; [done|].
    exists (Ev c x :: l). rewrite <- (assoc_L (++)). auto.
Qed.

End Logic.

(** Guarantees and results of one program, proved apart. *)
Lemma wp_and (G G' : list event → call → Prop) R {A} (p : prog A) Q Q' h :
  wp G R p Q h → wp G' R p Q' h →
  wp (λ h c, G h c ∧ G' h c) R p (λ a h, Q a h ∧ Q' a h) h.
Proof. revert h. induction p; simpl; naive_solver. Qed.

Lemma wp_weaken (G G' : list event → call → Prop) R {A} (p : prog A) Q h :
  (∀ h c, G h c → G' h c) → wp G R p Q h → wp G' R p Q h.
Proof. intros HG. revert h. induction p; simpl; naive_solver. Qed.

Lemma relies_top h t : relies (λ _ _, True) h t.
Proof. revert h. induction t; simpl; auto. Qed.

(** Without assumptions on the answers, [wp] describes every run. *)
Lemma wp_top_runs {A} (p : prog A) Q t a :
  wp (λ _ _, True) (λ _ _, True) p Q [] → runs p t a → Q a t.
Proof. intros Hp Hr. by apply (wp_runs _ _ _ _ _ _ _ Hp Hr), relies_top. Qed.

(** With decidable calls the answer of an event is determined by the event. *)
Lemma Ev_inj `{!EqDecision call} c (x y : ans c) : Ev c x = Ev c y → x = y.
Proof.
  intros H. apply (f_equal (λ e, match e with Ev c x => existT c x end)) in H.
  by apply (Eqdep_dec.inj_pair2_eq_dec _ (λ a b, decide (a = b))) in H.
Qed.

Lemma runs_Vis `{!EqDecision call} {A} c (k : ans c → prog A) x t a :
  runs (Vis c k) (Ev c x :: t) a → runs (k x) t a.
Proof. 
  intros (y & t' & E & H).
  assert (Ev c x = Ev c y) as ->%Ev_inj by congruence.
  by assert (t = t') as -> by congruence.
Qed.

End Effects.

Arguments prog {call} ans A.
Arguments Ret {call ans A} a.
Arguments Vis {call ans A} c k.
Arguments event {call} ans.
Arguments Ev {call ans} c x.
Arguments perform {call} ans c.

(** A program over one signature as a program over another, each call
    replaced by a program. *)
Fixpoint hoist {call1 call2 : Type} {ans1 : call1 → Type} {ans2 : call2 → Type} {A}
    (f : ∀ c : call1, prog ans2 (ans1 c)) (p : prog ans1 A) : prog ans2 A :=
  match p with
  | Ret a => Ret a
  | Vis c k => bind (f c) (λ x, hoist f (k x))
  end.

(** * Refinement of calls

    [hoist f p] implements each call [c] of [p] by the program [f c].  A trace
    [t] of [p] is refined by a trace of [hoist f p] that replaces each event
    of [t] by the calls [f] made for it, and that may hold, besides, the calls
    of an implementation that was cut short before it answered. *)
Section Refine.
Context {call1 call2 : Type} {ans1 : call1 → Type} {ans2 : call2 → Type}
  `{!EqDecision call2} (f : ∀ c : call1, prog ans2 (ans1 c)).

(** A run of [f c] that a crash cut short. *)
Definition torn (c : call1) (seg : list (event ans2)) : Prop :=
  part (f c) seg ∧ ∀ x, ¬ runs (f c) seg x.

Inductive refines : list (event ans1) → list (event ans2) → Prop :=
| refines_nil : refines [] []
| refines_cons c x seg t1 t2 :
    runs (f c) seg x → refines t1 t2 → refines (Ev c x :: t1) (seg ++ t2)
| refines_torn c seg t1 t2 : torn c seg → refines t1 t2 → refines t1 (seg ++ t2).

(** Without cut implementations. *)
Fixpoint implements (t1 : list (event ans1)) (t2 : list (event ans2)) : Prop :=
  match t1 with
  | [] => t2 = []
  | Ev c x :: t1 => ∃ seg t2', t2 = seg ++ t2' ∧ runs (f c) seg x ∧ implements t1 t2'
  end.

(** The calls that implement one event of an implemented trace. *)
Lemma implements_elem t1 t2 c x :
  implements t1 t2 → Ev c x ∈ t1 → ∃ seg, seg ⊆ t2 ∧ runs (f c) seg x.
Proof.
  intros Hi. enough (∀ e, e ∈ t1 → ∃ seg, seg ⊆ t2 ∧ match e with Ev c x => runs (f c) seg x end) as H
    by apply (H (Ev c x)).
  revert t2 Hi. clear c x. induction t1 as [|[c x] t1 IH]; intros t2; simpl; [by intros _ ? ?%elem_of_nil|].
  intros (seg & t2' & -> & Hr & Hi) e [->|H]%elem_of_cons.
  - exists seg. split; [|done]. intros y Hy. apply elem_of_app. by left.
  - destruct (IH _ Hi _ H) as (s & Hs & ?). exists s. split; [|done].
    intros y Hy. apply elem_of_app. right. by apply Hs.
Qed.

Lemma refines_app t1 t2 t1' t2' :
  refines t1 t2 → refines t1' t2' → refines (t1 ++ t1') (t2 ++ t2').
Proof.
  induction 1; intros; simpl; [done| |]; rewrite <- (assoc_L (++));
    [apply refines_cons|eapply refines_torn]; eauto.
Qed.

(** Any selection of the events is implemented by a selection of the calls. *)
Lemma refines_sublist l t1 t2 :
  refines t1 t2 → l `sublist_of` t1 → ∃ l2, implements l l2 ∧ l2 `sublist_of` t2.
Proof.
  intros Hr. revert l. induction Hr as [|c x seg t1 t2 Hs Hr IH|c seg t1 t2 Hs Hr IH]; intros l Hl.
  - apply sublist_nil_r in Hl as ->. by exists [].
  - apply sublist_cons_r in Hl as [Hl|(l' & -> & Hl)]; apply IH in Hl as (l2 & Hi & Hl2).
    + exists l2. split; [done|]. by apply sublist_inserts_l.
    + exists (seg ++ l2). split; [simpl; eauto|]. by apply sublist_app.
  - apply IH in Hl as (l2 & ? & ?). exists l2. split; [done|]. by apply sublist_inserts_l.
Qed.

(** Where a call of the refining trace comes from: the implementation of an
    event, or a torn one. *)
Lemma refines_at t1 a e b :
  refines t1 (a ++ e :: b) →
  ∃ t1a a' pre post c,
    a = a' ++ pre ∧ refines t1a a' ∧ part (f c) (pre ++ e :: post) ∧
    ((∃ x t1b, t1 = t1a ++ Ev c x :: t1b ∧ runs (f c) (pre ++ e :: post) x) ∨
     torn c (pre ++ e :: post)).
Proof.
  intros Hr. remember (a ++ e :: b) as t eqn:E. revert a E.
  induction Hr as [|c x seg t1 t2 Hs Hr IH|c seg t1 t2 Hs Hr IH]; intros a E.
  - by destruct a.
  - apply app_eq_inv in E as [(k & -> & E)|(k & -> & E)].
    + destruct k as [|e' k]; simplify_eq/=.
      * destruct (IH [] eq_refl) as (t1a & a' & pre & post & c' & [-> ->]%eq_sym%app_eq_nil & H' & ? & H).
        rewrite app_nil_r in Hs. exists (Ev c x :: t1a), a, [], post, c'. rewrite app_nil_r.
        split_and!; [done| |done|].
        { rewrite <- (app_nil_r a). by apply refines_cons. }
        destruct H as [(y & t1b & -> & ?)|?]; [left; eauto|by right].
      * exists [], [], a, k, c. split_and!; [done|constructor|by eapply runs_part|].
        left. by exists x, t1.
    + destruct (IH k E) as (t1a & a' & pre & post & c' & -> & ? & ? & H).
      exists (Ev c x :: t1a), (seg ++ a'), pre, post, c'.
      split_and!; [by rewrite (assoc_L (++))|by apply refines_cons|done|].
      destruct H as [(y & t1b & -> & ?)|?]; [left; eauto|by right].
  - apply app_eq_inv in E as [(k & -> & E)|(k & -> & E)].
    + destruct k as [|e' k]; simplify_eq/=.
      * destruct (IH [] eq_refl) as (t1a & a' & pre & post & c' & [-> ->]%eq_sym%app_eq_nil & H' & ? & H).
        rewrite app_nil_r in Hs. exists t1a, a, [], post, c'. rewrite app_nil_r.
        split_and!; [done| |done|done].
        rewrite <- (app_nil_r a). by eapply refines_torn.
      * exists [], [], a, k, c. split_and!; [done|constructor|by apply Hs|by right].
    + destruct (IH k E) as (t1a & a' & pre & post & c' & -> & ? & ? & H).
      exists t1a, (seg ++ a'), pre, post, c'.
      split_and!; [by rewrite (assoc_L (++))|by eapply refines_torn|done|done].
Qed.

Lemma part_runs_or_torn {A} (p : prog ans2 A) t :
  part p t → (∃ a, runs p t a) ∨ ∀ a, ¬ runs p t a.
Proof.
  revert t. induction p as [a|c k IH]; intros t; simpl; [intros ->; eauto|].
  intros [->|(x & t' & -> & Hp)]; [right; naive_solver|].
  destruct (IH _ _ Hp) as [[a Ha]|Hn]; [left; eauto 10|right].
  intros a (y & t1 & E & Hr). apply (Hn a).
  apply (runs_Vis c k x t' a). simpl. eauto.
Qed.

Lemma part_bind {A B} (p : prog ans2 A) (g : A → prog ans2 B) t :
  part (bind p g) t →
  (∃ t1 t2 a, t = t1 ++ t2 ∧ runs p t1 a ∧ part (g a) t2) ∨ (part p t ∧ ∀ a, ¬ runs p t a).
Proof.
  revert t. induction p as [a|c k IH]; intros t; simpl; [left; by exists [], t, a|].
  intros [->|(x & t' & -> & Hp)]; [right; split; [by left|naive_solver]|].
  destruct (IH x t' Hp) as [(t1 & t2 & a & -> & ? & ?)|[? Hn]].
  - left. exists (Ev c x :: t1), t2, a. simpl. eauto 10.
  - right. split; [eauto|]. intros a Ha. by apply (Hn a), (runs_Vis c k x t' a).
Qed.

(** Every initial part of a run of [hoist f p] refines one of [p]. *)
Lemma part_hoist {A} (p : prog ans1 A) t :
  part (hoist f p) t → ∃ t1, part p t1 ∧ refines t1 t.
Proof.
  revert t. induction p as [a|c k IH]; intros t; simpl.
  - intros ->. exists []. split; [done|constructor].
  - intros [(s & t2 & x & -> & Hs & Hp)|Ht]%part_bind.
    + apply IH in Hp as (t1 & ? & ?). exists (Ev c x :: t1).
      split; [right; eauto|by apply refines_cons].
    + exists []. split; [by left|]. rewrite <- (app_nil_r t). 
      eapply refines_torn; [exact Ht|constructor].
Qed.

Lemma runs_hoist {A} (p : prog ans1 A) t a :
  runs (hoist f p) t a → ∃ t1, runs p t1 a ∧ implements t1 t.
Proof.
  revert t. induction p as [b|c k IH]; intros t; simpl.
  - intros [-> ->]. by exists [].
  - intros (s & t2 & x & -> & Hs & (t1 & ? & ?)%IH)%runs_bind.
    exists (Ev c x :: t1). split; simpl; eauto 10.
Qed.

End Refine.

(** A component embedded in a larger program, one call for one call: its
    events appear in the history under their new names. *)
Section Embed.
Context {call1 call2 : Type} {ans1 : call1 → Type} {ans2 : call2 → Type}
  (inj : call1 → call2) (out : ∀ c, ans2 (inj c) → ans1 c) (into : ∀ c, ans1 c → ans2 (inj c))
  (out_into : ∀ c x, into c (out c x) = x).

Definition embed {A} (p : prog ans1 A) : prog ans2 A :=
  hoist (λ c, bind (perform ans2 (inj c)) (λ x, Ret (out c x))) p.

Definition embedded (e : event ans1) : event ans2 :=
  match e with Ev c x => Ev (inj c) (into c x) end.

Lemma runs_embed {A} (p : prog ans1 A) t a :
  runs (embed p) t a → ∃ t1, runs p t1 a ∧ t = embedded <$> t1.
Proof.
  revert t. induction p as [b|c k IH]; intros t; simpl; [intros [-> ->]; by exists []|].
  intros (x & t' & -> & (t1 & Hr & ->)%IH). exists (Ev c (out c x) :: t1).
  split; [simpl; eauto|]. simpl. by rewrite out_into.
Qed.

Lemma wp_embed (G : list (event ans2) → call2 → Prop) {A} (p : prog ans1 A) Q h h1 :
  wp (λ h1 c, G (h ++ (embedded <$> h1)) (inj c)) (λ _ _, True) p
     (λ a h1, Q a (h ++ (embedded <$> h1))) h1 →
  wp G (λ _ _, True) (embed p) Q (h ++ (embedded <$> h1)).
Proof.
  revert h1. induction p as [a|c k IH]; intros h1; simpl; [done|].
  intros [HG Hk]. split; [done|]. intros x _.
  specialize (IH (out c x) (h1 ++ [Ev c (out c x)]) (Hk (out c x) I)).
  rewrite fmap_app in IH. simpl in IH. rewrite out_into in IH. by rewrite <- (assoc_L (++)).
Qed.

Lemma wp_embed_nil (G : list (event ans2) → call2 → Prop) {A} (p : prog ans1 A) Q h :
  wp (λ h1 c, G (h ++ (embedded <$> h1)) (inj c)) (λ _ _, True) p
     (λ a h1, Q a (h ++ (embedded <$> h1))) [] →
  wp G (λ _ _, True) (embed p) Q h.
Proof. intros Hp. rewrite <- (app_nil_r h). exact (wp_embed G p Q h [] Hp). Qed.

Lemma only_embed (C : call2 → Prop) {A} (p : prog ans1 A) :
  (∀ c, C (inj c)) → only C (embed p).
Proof.
  intros HC. induction p as [a|c k IH]; [done|]. split; [apply HC|]. intros x. apply IH.
Qed.
End Embed.

Declare Scope prog_scope.
Delimit Scope prog_scope with prog.

Notation "'let!' x := p 'in' k" := (bind p (λ x, k))
  (at level 200, x pattern, p at level 100, k at level 200, only parsing) : prog_scope.
Notation "'try!' x := p 'in' k" := (bind_ok p (λ x, k))
  (at level 200, x pattern, p at level 100, k at level 200, only parsing) : prog_scope.
Notation "'try!' [ m ] x := p 'in' k" := (bind_wrap m p (λ x, k))
  (at level 200, x pattern, p at level 100, k at level 200, only parsing) : prog_scope.

(** Walk through a run: peel one call at a time off a hypothesis
    [runs p t a]. *)
Ltac run_step H :=
  simpl in H;
  lazymatch type of H with
  | ∃ _, _ => let x := fresh "x" in let t := fresh "t" in
              destruct H as (x & t & -> & H)
  | _ ∧ _ => destruct H as [-> ->]
  end.

#[export] Hint Resolve only_bind only_bind_ok only_bind_wrap only_perform : operator.
