(* ===== verification/GoFloat.v ===== *)
(** Go's [float64], as IEEE 754 binary64 computed by the Standard Library's
    specification of floating-point arithmetic (53 bits of precision, maximal
    exponent 1024, rounding to nearest even).  The operator uses it for disk
    usage fractions and for [time.Duration.Seconds]. *)

From S2P Require Import Prelude.
From Stdlib Require Import SpecFloat.
Open Scope Z_scope.

Definition float64 : Type := spec_float.

#[export] Instance float64_eq_dec : EqDecision float64.
Proof. unfold float64. solve_decision. Defined.

(** [float64(z)] for an integer [z]. *)
Definition of_int (z : Z) : float64 := binary_normalize 53 1024 z 0 false.

Definition fdiv : float64 → float64 → float64 := SFdiv 53 1024.
Definition fadd : float64 → float64 → float64 := SFadd 53 1024.
Definition fmul : float64 → float64 → float64 := SFmul 53 1024.
Definition flt : float64 → float64 → bool := SFltb.
Definition fle : float64 → float64 → bool := SFleb.

(** [math.Round]: to the nearest integer, halves away from zero.  A result of
    zero keeps its sign; an infinity or NaN is returned as it is. *)
Definition Round (f : float64) : float64 :=
  match f with
  | S754_finite s m e =>
      if 0 <=? e then f
      else
        let a := (Z.pos m + 2 ^ (- e - 1)) / 2 ^ (- e) in
        if a =? 0 then S754_zero s
        else if s then SFopp (of_int a) else of_int a
  | _ => f
  end.

(** [int64(f)]: truncation towards zero (0 for a NaN or an infinity, which
    Go leaves implementation-defined and the code never produces). *)
Definition to_int (f : float64) : Z :=
  match f with
  | S754_finite s m e =>
      let a := if 0 <=? e then Z.pos m * 2 ^ e else Z.pos m / 2 ^ (- e) in
      if s then - a else a
  | _ => 0
  end.

(** [d.Seconds()] of package time: the whole seconds plus the nanoseconds
    divided by 1e9, in floating point. *)
Definition Seconds (d : Z) : float64 :=
  fadd (of_int (Z.quot d Second)) (fdiv (of_int (Z.rem d Second)) (of_int Second)).

(** * Integers below 2^53 are exact *)

Lemma digits2_lower m : 2 ^ (Z.pos (digits2_pos m) - 1) <= Z.pos m.
Proof.
  induction m as [m IH|m IH|]; cbn [digits2_pos]; [| |done];
    rewrite Pos2Z.inj_succ in *;
    replace (Z.succ (Z.pos (digits2_pos m)) - 1)
      with (Z.succ (Z.pos (digits2_pos m) - 1)) by lia;
    rewrite Z.pow_succ_r by lia; lia.
Qed.

Lemma digits2_bound m : Z.pos m < 2 ^ 53 → Z.pos (digits2_pos m) <= 53.
Proof.
  intros H. pose proof (digits2_lower m) as L.
  destruct (Z.le_gt_cases (Z.pos (digits2_pos m)) 53) as [|G]; [done|].
  pose proof (Z.pow_le_mono_r 2 53 (Z.pos (digits2_pos m) - 1)). lia.
Qed.

Lemma iter_xO_value m d : Z.pos (Pos.iter xO m d) = Z.pos m * 2 ^ Z.pos d.
Proof.
  induction d as [|d IH] using Pos.peano_ind; [cbn; lia|].
  rewrite Pos.iter_succ, Pos2Z.inj_succ, Z.pow_succ_r by lia. lia.
Qed.

Lemma iter_xO_digits m d :
  Z.pos (digits2_pos (Pos.iter xO m d)) = Z.pos (digits2_pos m) + Z.pos d.
Proof.
  induction d as [|d IH] using Pos.peano_ind; [cbn; lia|].
  rewrite Pos.iter_succ. cbn [digits2_pos]. lia.
Qed.

Lemma round_aux_canonical m e :
  Z.pos (digits2_pos m) = 53 → -1074 <= e <= 971 →
  binary_round_aux 53 1024 false (Z.pos m) e loc_Exact = S754_finite false m e.
Proof.
  intros Hd He. unfold binary_round_aux, shr_fexp. cbn [Zdigits2].
  rewrite Hd. unfold fexp, emin.
  replace (Z.max (53 + e - 53) (3 - 1024 - 53) - e) with 0 by lia.
  cbn -[Z.leb Z.sub]. rewrite Hd.
  replace (Z.max (53 + e - 53) (3 - 1024 - 53) - e) with 0 by lia.
  cbn -[Z.leb Z.sub]. by rewrite (proj2 (Z.leb_le e (1024 - 53))) by lia.
Qed.

(** The canonical form: a mantissa of exactly 53 digits. *)
Lemma of_int_pos m :
  Z.pos m < 2 ^ 53 →
  ∃ m', of_int (Z.pos m) = S754_finite false m' (Z.pos (digits2_pos m) - 53) ∧
    Z.pos m' = Z.pos m * 2 ^ (53 - Z.pos (digits2_pos m)).
Proof.
  intros Hz. pose proof (digits2_bound m Hz) as Hb.
  unfold of_int, binary_normalize, binary_round, shl_align, fexp, emin.
  replace (Z.max (Z.pos (digits2_pos m) + 0 - 53) (3 - 1024 - 53) - 0)
    with (Z.pos (digits2_pos m) - 53) by lia.
  destruct (Z.pos (digits2_pos m) - 53) as [|p|d] eqn:E; [|lia|].
  - exists m. rewrite round_aux_canonical by lia. split; [done|].
    replace (53 - _) with 0 by lia. lia.
  - exists (Pos.iter xO m d).
    replace (Z.max (Z.pos (digits2_pos m) + 0 - 53) (3 - 1024 - 53))
      with (Z.neg d) by lia.
    rewrite round_aux_canonical by (rewrite ?iter_xO_digits; lia).
    split; [done|]. rewrite iter_xO_value. do 2 f_equal. lia.
Qed.

Lemma to_int_of_int z : 0 <= z < 2 ^ 53 → to_int (of_int z) = z.
Proof.
  intros Hz. destruct z as [|m|]; [done| |lia].
  pose proof (digits2_bound m ltac:(lia)) as Hb.
  destruct (of_int_pos m ltac:(lia)) as (m' & -> & Hm). cbn [to_int].
  destruct (0 <=? _) eqn:E; zbool; rewrite Hm.
  - replace (Z.pos (digits2_pos m) - 53) with 0 by lia.
    replace (53 - _) with 0 by lia. lia.
  - replace (- (Z.pos (digits2_pos m) - 53)) with (53 - Z.pos (digits2_pos m)) by lia.
    apply Z.div_mul. pose proof (Z.pow_pos_nonneg 2 (53 - Z.pos (digits2_pos m))). lia.
Qed.

Lemma digits2_upper m : Z.pos m < 2 ^ Z.pos (digits2_pos m).
Proof.
  induction m as [m IH|m IH|]; cbn [digits2_pos]; [| |done];
    rewrite Pos2Z.inj_succ, Z.pow_succ_r by lia; lia.
Qed.

(** Comparison of exact integers is comparison of the integers. *)
Lemma flt_of_int a b :
  0 <= a < 2 ^ 53 → 0 <= b < 2 ^ 53 → flt (of_int a) (of_int b) = (a <? b).
Proof.
  intros Ha Hb. destruct a as [|a|]; [|destruct b as [|b|]|]; [| | |lia|lia].
  - destruct b as [|b|]; [done| |lia].
    by destruct (of_int_pos b ltac:(lia)) as (m & -> & _).
  - by destruct (of_int_pos a ltac:(lia)) as (m & -> & _).
  - destruct (of_int_pos a ltac:(lia)) as (m & -> & Hm), (of_int_pos b ltac:(lia)) as (n & -> & Hn).
    unfold flt, SFltb, SFcompare.
    pose proof (digits2_upper a). pose proof (digits2_upper b).
    pose proof (digits2_lower a). pose proof (digits2_lower b).
    destruct (Z.compare_spec (Z.pos (digits2_pos a) - 53) (Z.pos (digits2_pos b) - 53)) as [E|E|E].
    + assert (digits2_pos a = digits2_pos b) as E' by lia. rewrite E' in *.
      change (Pos.compare_cont Eq m n) with (Z.pos m ?= Z.pos n). rewrite Hm, Hn.
      pose proof (digits2_bound b ltac:(lia)).
      pose proof (Z.pow_pos_nonneg 2 (53 - Z.pos (digits2_pos b))).
      destruct (Z.compare_spec (Z.pos a * 2 ^ (53 - Z.pos (digits2_pos b)))
                  (Z.pos b * 2 ^ (53 - Z.pos (digits2_pos b)))); symmetry;
        [apply Z.ltb_ge|apply Z.ltb_lt|apply Z.ltb_ge]; nia.
    + symmetry. apply Z.ltb_lt.
      pose proof (Z.pow_le_mono_r 2 (Z.pos (digits2_pos a)) (Z.pos (digits2_pos b) - 1)). lia.
    + symmetry. apply Z.ltb_ge.
      pose proof (Z.pow_le_mono_r 2 (Z.pos (digits2_pos b)) (Z.pos (digits2_pos a) - 1)). lia.
Qed.

(** Whole seconds come back exactly. *)
Lemma to_int_Seconds_whole s :
  0 <= s < 2 ^ 53 → to_int (Seconds (s * Second)) = s.
Proof.
  intros Hs. unfold Seconds. rewrite Z.quot_mul, Z.rem_mul by done.
  change (fdiv (of_int 0) (of_int Second)) with (S754_zero false).
  rewrite <-(to_int_of_int s) at 2 by done.
  unfold fadd. destruct (of_int s) as [[]| | |]; done.
Qed.

(** * Products have 53 digits *)

Lemma shr_1_half r : 0 <= shr_m r → shr_m (shr_1 r) = shr_m r / 2.
Proof.
  destruct r as [[|[p|p|]|p] ? ?]; intros H; simpl in *; try done; try lia.
  - rewrite (Pos2Z.inj_xI p), (Z.mul_comm 2), Z.div_add_l by lia.
    change (1 / 2) with 0. lia.
  - by rewrite (Pos2Z.inj_xO p), (Z.mul_comm 2), Z.div_mul.
Qed.

Lemma shr_iter p r :
  0 <= shr_m r → shr_m (iter_pos shr_1 p r) = shr_m r / 2 ^ Z.pos p.
Proof.
  assert (∀ n, 0 < 2 ^ Z.pos n) as Hpow by (intros; apply Z.pow_pos_nonneg; lia).
  revert r. induction p as [p IH|p IH|]; intros r Hr; cbn [iter_pos].
  - assert (0 <= shr_m (shr_1 r)) as H1 by (rewrite shr_1_half by done; apply Z.div_pos; lia).
    rewrite IH, IH, shr_1_half; rewrite ?IH by done; try done; [|apply Z.div_pos; [done|apply Hpow]].
    rewrite !Z.div_div by (try apply Hpow; specialize (Hpow p); lia).
    f_equal. replace (Z.pos p~1) with (Z.pos p + Z.pos p + 1) by lia.
    rewrite !Z.pow_add_r by lia. ring.
  - rewrite IH, IH by (rewrite ?IH by done; try done; by apply Z.div_pos).
    rewrite Z.div_div by (specialize (Hpow p); lia).
    f_equal. replace (Z.pos p~0) with (Z.pos p + Z.pos p) by lia.
    by rewrite Z.pow_add_r by lia.
  - by rewrite shr_1_half.
Qed.

Lemma shr_fexp_bound m e l :
  0 <= m → 0 <= shr_m (shr_fexp 53 1024 m e l).1 < 2 ^ 53.
Proof.
  intros Hm. unfold shr_fexp, shr.
  assert (shr_m (shr_record_of_loc m l) = m) as E by (by destruct l as [|[]]).
  assert (m < 2 ^ Zdigits2 m) as Hd.
  { destruct m; [done|apply digits2_upper|lia]. }
  assert (0 <= Zdigits2 m) as Hd0 by (by destruct m).
  assert (Zdigits2 m - 53 <= fexp 53 1024 (Zdigits2 m + e) - e) as Hn by (unfold fexp; lia).
  destruct (fexp 53 1024 (Zdigits2 m + e) - e) as [|p|p]; cbn [fst].
  1,3: rewrite E; split; [done|]; eapply Z.lt_le_trans; [exact Hd|]; apply Z.pow_le_mono_r; lia.
  rewrite shr_iter, E by (by rewrite E). split; [by apply Z.div_pos; [|apply Z.pow_pos_nonneg]|].
  apply Z.div_lt_upper_bound; [by apply Z.pow_pos_nonneg|].
  eapply Z.lt_le_trans; [exact Hd|]. rewrite <- Z.pow_add_r by lia. apply Z.pow_le_mono_r; lia.
Qed.

Definition short (f : float64) : Prop :=
  match f with S754_finite _ m _ => Z.pos m < 2 ^ 53 | _ => True end.

Lemma round_aux_short s m e l : 0 <= m → short (binary_round_aux 53 1024 s m e l).
Proof.
  intros Hm. unfold binary_round_aux. pose proof (shr_fexp_bound m e l Hm) as H1.
  destruct (shr_fexp 53 1024 m e l) as [r e1]. cbn [fst] in H1.
  set (n := round_nearest_even _ _).
  assert (0 <= n) as Hn.
  { unfold n, round_nearest_even. destruct (loc_of_shr_record r) as [|[]]; try lia.
    destruct (Z.even _); lia. }
  pose proof (shr_fexp_bound n e1 loc_Exact Hn) as H2.
  destruct (shr_fexp 53 1024 n e1 loc_Exact) as [r2 e2]. cbn [fst] in H2.
  destruct (shr_m r2); simpl; try done. destruct (e2 <=? _); simpl; [lia|done].
Qed.

Lemma fmul_short x y : short (fmul x y).
Proof. destruct x, y; try done. apply round_aux_short. done. Qed.

(** What [math.Round] returns, for a number of at most 53 digits. *)
Lemma Round_cases f :
  short f →
  Round f = f ∧ (∀ s m e, f = S754_finite s m e → 0 <= e) ∨
  (∃ s, Round f = S754_zero s) ∨
  ∃ a, 0 < a < 2 ^ 53 ∧ (Round f = of_int a ∨ Round f = SFopp (of_int a)).
Proof.
  destruct f as [s|s| |s m e]; intros Hs; [by left..|]. cbn [Round].
  destruct (0 <=? e) eqn:E; zbool.
  - left. split; [done|]. intros ? ? ? [= _ _ <-]. done.
  - right. cbn [short] in Hs.
    set (a := (Z.pos m + 2 ^ (- e - 1)) / 2 ^ (- e)).
    assert (2 ^ (- e) = 2 * 2 ^ (- e - 1)) as E2.
    { rewrite <- Z.pow_succ_r by lia. f_equal. lia. }
    pose proof (Z.pow_pos_nonneg 2 (- e - 1)).
    assert (0 <= a) by (apply Z.div_pos; lia).
    assert (a < Z.pos m + 1) by (apply Z.div_lt_upper_bound; nia).
    destruct (a =? 0) eqn:Ea; zbool; [left; eauto|right].
    exists a. split; [lia|]. destruct s; auto.
Qed.

#[export] Hint Resolve to_int_of_int to_int_Seconds_whole fmul_short : operator.
