(* ===== verification/GoFlag.v ===== *)
(** Package flag of the Go standard library, as the manager and its subcommands
    use it: a flag set of string flags, bool flags and flags with a [Set] of
    their own, and [Parse] in the ContinueOnError mode.  The usage text [Parse]
    prints on an error is not modelled. *)

From S2P Require Import Prelude.
Open Scope go_scope.

(** [strconv.ParseBool]. *)
Definition ParseBool (s : string) : option bool :=
  if decide (s ∈ ["1"; "t"; "T"; "TRUE"; "true"; "True"]) then Some true
  else if decide (s ∈ ["0"; "f"; "F"; "FALSE"; "false"; "False"]) then Some false
  else None.

Definition showBool (b : bool) : string := if b then "true" else "false".

(** [flSet] is the [Set] of the flag's [Value]: what it stores, or why it
    refuses the text. *)
Record Flag := mkVar {
  flName : string;
  flDefault : string;
  flIsBool : bool;
  flSet : string → res string
}.

Definition setBool (v : string) : res string :=
  match ParseBool v with Some b => Ok (showBool b) | None => Err (ErrPlain "parse error") end.

(** [StringVar] and [BoolVar]. *)
Definition mkFlag (name default : string) (isBool : bool) : Flag :=
  mkVar name default isBool (if isBool then setBool else Ok).

(** The flags that were set, by name. *)
Abbreviation values := (gmap string string).

Fixpoint Lookup (fs : list Flag) (name : string) : option Flag :=
  match fs with
  | [] => None
  | f :: fs' => if String.eqb (flName f) name then Some f else Lookup fs' name
  end.

(** The value of a flag: what was set last, or the default. *)
Definition Get (fs : list Flag) (vals : values) (name : string) : string :=
  match vals !! name with
  | Some v => v
  | None => match Lookup fs name with Some f => flDefault f | None => "" end
  end.

(** Cut at the first '='. *)
Fixpoint cutValue (s : string) : string * option string :=
  match s with
  | EmptyString => ("", None)
  | String c s' =>
      if Ascii.eqb c "=" then ("", Some s')
      else let '(n, v) := cutValue s' in (String c n, v)
  end.

Definition ErrHelp : goerr := ErrPlain "flag: help requested".

Definition isErrHelp (e : goerr) : bool :=
  match e with ErrPlain m => String.eqb m "flag: help requested" | _ => false end.

(** What one argument is: no flag, the terminator "--", malformed, or a flag
    with the value after its '='. *)
Inductive Arg := NotFlag | Terminator | BadSyntax | FlagArg (name : string) (value : option string).

Definition named (n : string) : Arg :=
  match n with
  | EmptyString => BadSyntax
  | String c _ =>
      if Ascii.eqb c "-" || Ascii.eqb c "=" then BadSyntax
      else let '(name, value) := cutValue n in FlagArg name value
  end.

Definition classify (s : string) : Arg :=
  match s with
  | String "-" EmptyString => NotFlag
  | String "-" (String "-" EmptyString) => Terminator
  | String "-" (String "-" n) => named n
  | String "-" n => named n
  | _ => NotFlag
  end.

(** The flags set and the arguments left over. *)
Fixpoint Parse (fs : list Flag) (args : list string) (vals : values) : res (values * list string) :=
  match args with
  | [] => Ok (vals, [])
  | s :: rest =>
      match classify s with
      | NotFlag => Ok (vals, s :: rest)
      | Terminator => Ok (vals, rest)
      | BadSyntax => Err (ErrPlain ("bad flag syntax: " ++! s))
      | FlagArg name value =>
          match Lookup fs name with
          | None =>
              if String.eqb name "help" || String.eqb name "h" then
                Err ErrHelp
              else Err (ErrPlain ("flag provided but not defined: -" ++! name))
          | Some f =>
              if flIsBool f then
                match value with
                | None =>
                    match flSet f "true" with
                    | Ok v => Parse fs rest (<[name := v]> vals)
                    | Err e => Err (ErrPlain ("invalid boolean flag " ++! name ++! ": " ++! error_text e))
                    end
                | Some v =>
                    match flSet f v with
                    | Ok v' => Parse fs rest (<[name := v']> vals)
                    | Err e => Err (ErrPlain ("invalid boolean value " ++! quote v ++! " for -" ++!
                                             name ++! ": " ++! error_text e))
                    end
                end
              else
                match value, rest with
                | Some v, _ =>
                    match flSet f v with
                    | Ok v' => Parse fs rest (<[name := v']> vals)
                    | Err e => Err (ErrPlain ("invalid value " ++! quote v ++! " for flag -" ++!
                                             name ++! ": " ++! error_text e))
                    end
                | None, v :: rest' =>
                    match flSet f v with
                    | Ok v' => Parse fs rest' (<[name := v']> vals)
                    | Err e => Err (ErrPlain ("invalid value " ++! quote v ++! " for flag -" ++!
                                             name ++! ": " ++! error_text e))
                    end
                | None, [] => Err (ErrPlain ("flag needs an argument: -" ++! name))
                end
          end
      end
  end.

(** A string flag given as [--name value] takes the value as it is, even if it
    looks like a flag. *)
Lemma Parse_value fs s name f v v' rest vals :
  classify s = FlagArg name None → Lookup fs name = Some f → flIsBool f = false → flSet f v = Ok v' →
  Parse fs (s :: v :: rest) vals = Parse fs rest (<[name := v']> vals).
Proof. intros Hc Hl Hb Hs. cbn [Parse]. by rewrite Hc, Hl, Hb, Hs. Qed.

Lemma Parse_bool fs s name f v rest vals :
  classify s = FlagArg name None → Lookup fs name = Some f → flIsBool f = true → flSet f "true" = Ok v →
  Parse fs (s :: rest) vals = Parse fs rest (<[name := v]> vals).
Proof. intros Hc Hl Hb Hs. cbn [Parse]. by rewrite Hc, Hl, Hb, Hs. Qed.

(** A flag nobody set has its default. *)
Lemma Get_default fs vals name f : vals !! name = None → Lookup fs name = Some f → Get fs vals name = flDefault f.
Proof. unfold Get. by intros -> ->. Qed.
