(* ===== verification/Kube.v ===== *)
(** The Kubernetes vocabulary the controllers share: object metadata, status
    conditions, pods, the reconcile request and result, and the operator's
    label helpers (internal/builder/labels.go).

    [apimeta.SetStatusCondition] and [apimeta.FindStatusCondition] are
    library code that is not part of the repository: they are the operations
    of the interface [ApiMeta], whose laws state their documented behaviour.
    [refApiMeta] is one implementation of the interface. *)

From S2P Require Import Prelude.
Open Scope Z_scope.

(** * Reconcile plumbing *)

Record NamespacedName := mkNN { nnNamespace : string; nnName : string }.

#[export] Instance NamespacedName_eq_dec : EqDecision NamespacedName.
Proof. solve_decision. Defined.

(** [ctrl.Result]; [RequeueAfter] is a duration, 0 meaning no requeue. *)
Record Result := mkResult { RequeueAfter : Z }.

Definition emptyResult : Result := mkResult 0.

(** [client.IgnoreNotFound]. *)
Definition IgnoreNotFound (e : goerr) : option goerr :=
  if IsNotFound e then None else Some e.

(** The error half of a [(ctrl.Result, error)] pair as [res]: a reconcile
    that returns [ctrl.Result{}, client.IgnoreNotFound(err)]. *)
Definition ignore_not_found (e : goerr) : res Result :=
  match IgnoreNotFound e with None => Ok emptyResult | Some e' => Err e' end.

(** * Conditions *)

Inductive ConditionStatus := ConditionTrue | ConditionFalse | ConditionUnknown.

#[export] Instance ConditionStatus_eq_dec : EqDecision ConditionStatus.
Proof. solve_decision. Defined.

Record Condition := mkCondition {
  cType : string;
  cStatus : ConditionStatus;
  cObservedGeneration : Z;
  cLastTransitionTime : Z;
  cReason : string;
  cMessage : string
}.

#[export] Instance Condition_eq_dec : EqDecision Condition.
Proof. solve_decision. Defined.

(** A condition literal: [LastTransitionTime] is left unset. *)
Definition newCondition (ty : string) (st : ConditionStatus) (gen : Z) (reason msg : string) :
    Condition :=
  mkCondition ty st gen zeroTime reason msg.

(** Equal in every field but [LastTransitionTime]. *)
Definition cond_agree (c d : Condition) : Prop :=
  cType c = cType d ∧ cStatus c = cStatus d ∧
  cObservedGeneration c = cObservedGeneration d ∧
  cReason c = cReason d ∧ cMessage c = cMessage d.

#[export] Instance cond_agree_equiv : Equivalence cond_agree.
Proof. unfold cond_agree. split; red; naive_solver congruence. Qed.

(** The documented contract of package apimeta.  [SetStatusCondition] updates
    the condition of the given type or appends it, leaves every other type
    alone, manages [LastTransitionTime] itself, and reports whether anything
    changed. *)
Class ApiMeta := {
  FindStatusCondition : list Condition → string → option Condition;
  SetStatusCondition : list Condition → Condition → list Condition * bool;
  find_type : ∀ cs ty c, FindStatusCondition cs ty = Some c → cType c = ty;
  find_nil : ∀ ty, FindStatusCondition [] ty = None;
  find_set_eq : ∀ cs c, ∃ c',
    FindStatusCondition (SetStatusCondition cs c).1 (cType c) = Some c' ∧ cond_agree c' c;
  find_set_ne : ∀ cs c ty, ty ≠ cType c →
    FindStatusCondition (SetStatusCondition cs c).1 ty = FindStatusCondition cs ty;
  set_unchanged : ∀ cs c, (SetStatusCondition cs c).2 = false →
    (SetStatusCondition cs c).1 = cs
}.

Section Conditions.
Context `{AM : !ApiMeta}.

(** The conditions after a call whose boolean result is discarded. *)
Definition setCond (cs : list Condition) (c : Condition) : list Condition :=
  (SetStatusCondition cs c).1.

Lemma find_setCond_eq cs c :
  ∃ c', FindStatusCondition (setCond cs c) (cType c) = Some c' ∧ cond_agree c' c.
Proof. apply find_set_eq. Qed.

Lemma find_setCond_ne cs c ty :
  ty ≠ cType c → FindStatusCondition (setCond cs c) ty = FindStatusCondition cs ty.
Proof. apply find_set_ne. Qed.

(** The status a condition list reports for a type. *)
Definition condStatus (cs : list Condition) (ty : string) : option ConditionStatus :=
  cStatus <$> FindStatusCondition cs ty.
Definition condReason (cs : list Condition) (ty : string) : option string :=
  cReason <$> FindStatusCondition cs ty.

Lemma condStatus_set cs c : condStatus (setCond cs c) (cType c) = Some (cStatus c).
Proof.
  unfold condStatus. destruct (find_setCond_eq cs c) as (c' & -> & _ & ? & _).
  simpl. by f_equal.
Qed.

Lemma condReason_set cs c : condReason (setCond cs c) (cType c) = Some (cReason c).
Proof.
  unfold condReason. destruct (find_setCond_eq cs c) as (c' & -> & _ & _ & _ & ? & _).
  simpl. by f_equal.
Qed.
End Conditions.

(** One implementation: update in place, or append. *)
Definition refFind (cs : list Condition) (ty : string) : option Condition :=
  snd <$> list_find (λ c, cType c = ty) cs.

Fixpoint refSet (cs : list Condition) (c : Condition) : list Condition * bool :=
  match cs with
  | [] => ([c], true)
  | d :: cs' =>
      if decide (cType d = cType c) then
        let c' := mkCondition (cType c) (cStatus c) (cObservedGeneration c)
                    (cLastTransitionTime d) (cReason c) (cMessage c) in
        (c' :: cs', bool_decide (c' ≠ d))
      else let '(cs'', b) := refSet cs' c in (d :: cs'', b)
  end.

#[local, refine] Instance refApiMeta : ApiMeta :=
  {| FindStatusCondition := refFind; SetStatusCondition := refSet |}.
Proof.
  - unfold refFind. intros cs ty c H.
    apply fmap_Some in H as ([i d] & H & ->). apply list_find_Some in H. tauto.
  - done.
  - intros cs c. unfold refFind. induction cs as [|d cs IH]; simpl.
    + destruct (decide _); [|done]. by exists c.
    + destruct (decide (cType d = cType c)) as [E|E]; simpl.
      * destruct (decide _); [|done]. by eexists.
      * destruct (refSet cs c) as [cs' b]. simpl in *.
        destruct (decide _); [done|]. destruct IH as (c' & H & ?).
        exists c'. split; [|done]. destruct (list_find _ cs') as [[? ?]|]; simpl in *; done.
  - intros cs c ty Hty. unfold refFind. induction cs as [|d cs IH]; simpl.
    + destruct (decide _); [by subst|done].
    + destruct (decide (cType d = cType c)) as [E|E]; simpl.
      * destruct (decide (cType c = ty)); [by subst|].
        destruct (decide (cType d = ty)); [congruence|done].
      * destruct (refSet cs c) as [cs' b]. simpl in *.
        destruct (decide (cType d = ty)); [done|].
        destruct (list_find _ cs') as [[? ?]|], (list_find _ cs) as [[? ?]|]; simpl in *; done.
  - intros cs c. induction cs as [|d cs IH]; simpl; [done|].
    destruct (decide (cType d = cType c)) as [E|E]; simpl.
    + intros H%bool_decide_eq_false. f_equal. by apply dec_stable.
    + destruct (refSet cs c) as [cs' b]. simpl in *. intros H. f_equal. auto.
Defined.

(** * Pods *)

Record PodCondition := mkPodCondition {
  pcType : string;
  pcStatus : ConditionStatus;
  pcLastTransitionTime : Z
}.

(** A container's state: waiting with a reason, terminated with a message, or
    neither (running). *)
Record ContainerStatus := mkContainerStatus {
  csName : string;
  csImage : string;
  csWaiting : option string;
  csTerminated : option string
}.

Record Pod := mkPod {
  podName : string;
  podNamespace : string;
  podCreationTimestamp : Z;
  (** the UID of the pod's controlling owner reference *)
  podController : option string;
  podNodeName : string;
  podIP : string;
  podConditions : list PodCondition;
  podContainerStatuses : list ContainerStatus;
  (** the CPU limit of each container of the spec, in milli-CPUs *)
  podCPULimits : list (option Z)
}.

(** [corev1.PodReady]. *)
Definition PodReady : string := "Ready".

(** [metav1.IsControlledBy(pod, owner)]: the pod's controller reference names
    the owner's UID. *)
Definition IsControlledBy (pod : Pod) (ownerUID : string) : bool :=
  bool_decide (podController pod = Some ownerUID).

Inductive EventType := EventTypeNormal | EventTypeWarning.

#[export] Instance EventType_eq_dec : EqDecision EventType.
Proof. solve_decision. Defined.

(** * Labels *)

Definition labelName : string := "app.kubernetes.io/name".
Definition labelInstance : string := "app.kubernetes.io/instance".
Definition labelComponent : string := "app.kubernetes.io/component".
Definition labelManagedBy : string := "app.kubernetes.io/managed-by".

Definition SelectorLabels (clusterName component : string) : gmap string string :=
  {[ labelName := "pulsar"; labelInstance := clusterName; labelComponent := component ]}.

Definition Labels (clusterName component : string) : gmap string string :=
  <[ labelManagedBy := "pulsar-operator" ]> (SelectorLabels clusterName component).

(** [client.MatchingLabels]: every selector pair is present on the object. *)
Definition matches (selector labels : gmap string string) : Prop := selector ⊆ labels.

(** A selector built for one component never matches the labels of another
    instance or component. *)
Lemma SelectorLabels_inj n c n' c' :
  matches (SelectorLabels n c) (Labels n' c') ↔ n = n' ∧ c = c'.
Proof.
  unfold matches, Labels, SelectorLabels. split.
  - intros H. rewrite map_subseteq_spec in H.
    pose proof (H labelInstance n) as H1. pose proof (H labelComponent c) as H2.
    simplify_map_eq. by split; [specialize (H1 eq_refl)|specialize (H2 eq_refl)]; simplify_eq.
  - intros [-> ->]. by apply insert_subseteq.
Qed.
