(* ===== verification/BrokerScale.v ===== *)
(** The broker autoscaler: the unanimous CPU vote of
    internal/autoscaler/broker/decision.go, the stability gates of
    internal/autoscaler/broker/stabilization.go and the reconcile loop of
    internal/controller/cluster/broker_autoscaler_controller.go. *)

From S2P Require Import Prelude Effects Kube.
Open Scope Z_scope.
Open Scope go_scope.

(** * The decision *)

Module BrokerDecision.

Inductive Direction := NoOp | ScaleUp | ScaleDown.

#[export] Instance Direction_eq_dec : EqDecision Direction.
Proof. solve_decision. Defined.

Definition dirString (d : Direction) : string :=
  match d with NoOp => "NoOp" | ScaleUp => "ScaleUp" | ScaleDown => "ScaleDown" end.

Definition ReasonNoMetrics : string := "NoMetrics".
Definition ReasonMixedSignals : string := "MixedSignals".
Definition ReasonAtReplicaBound : string := "AtReplicaBound".

Record Params := mkParams {
  LowerCPUPercent : Z;
  HigherCPUPercent : Z;
  ScaleUpBy : Z;
  ScaleDownBy : Z;
  MinReplicas : Z;
  MaxReplicas : Z; (* 0 means unbounded *)
  CurrentReplicas : Z
}.

Record Decision := mkDecision {
  dDirection : Direction;
  dTargetReplicas : Z;
  dReason : string;
  dMessage : string
}.

Definition percentOf (m : gmap string Z) (name : string) : Z := default 0 (m !! name).

Definition formatReadings (names : list string) (m : gmap string Z) : string :=
  String.concat ", " ((λ n, n ++! "=" ++! %d (percentOf m n) ++! "%") <$> names).

Definition mixedSignalsDecision (names : list string) (m : gmap string Z) : Decision :=
  mkDecision NoOp 0 ReasonMixedSignals
    ("brokers disagree on load (" ++! formatReadings names m ++!
     ") - never scaling on a single hot or idle broker").

Definition unanimousVerb (d : Direction) : string :=
  if decide (d = ScaleUp) then "above the higher CPU" else "below the lower CPU".

Definition clamped (direction : Direction) (target : Z) (p : Params) : Decision :=
  let clampedTarget := Z.max target (MinReplicas p) in
  let clampedTarget :=
    if MaxReplicas p >? 0 then Z.min clampedTarget (MaxReplicas p) else clampedTarget in
  if clampedTarget =? CurrentReplicas p then
    mkDecision NoOp 0 ReasonAtReplicaBound
      (dirString direction ++! " would move replicas outside [" ++! %d (MinReplicas p) ++!
       ", " ++! %d (MaxReplicas p) ++! "]; already at " ++! %d (CurrentReplicas p))
  else
    let verb := if decide (direction = ScaleDown) then "down" else "up" in
    mkDecision direction clampedTarget (dirString direction)
      ("scaling " ++! verb ++! " from " ++! %d (CurrentReplicas p) ++! " to " ++!
       %d clampedTarget ++! " replicas (every broker unanimously " ++!
       unanimousVerb direction ++! " threshold)").

(** The loop over the sorted broker names: either an early return, or the
    final values of [sawHot] and [sawCold]. *)
Fixpoint scan (m : gmap string Z) (p : Params) (all names : list string)
    (sawHot sawCold : bool) : Decision + (bool * bool) :=
  match names with
  | [] => inr (sawHot, sawCold)
  | name :: names' =>
      let percent := percentOf m name in
      if percent <? LowerCPUPercent p then
        if sawHot then inl (mixedSignalsDecision all m)
        else scan m p all names' sawHot true
      else if percent >? HigherCPUPercent p then
        if sawCold then inl (mixedSignalsDecision all m)
        else scan m p all names' true sawCold
      else
        inl (mkDecision NoOp 0 ReasonMixedSignals
          ("broker " ++! name ++! " CPU " ++! %d percent ++!
           "% is between lowerCpuThreshold " ++! %d (LowerCPUPercent p) ++!
           "% and higherCpuThreshold " ++! %d (HigherCPUPercent p) ++! "%"))
  end.

Definition Decide (m : gmap string Z) (p : Params) : Decision :=
  if decide (size m = 0%nat) then
    mkDecision NoOp 0 ReasonNoMetrics "no broker CPU readings available"
  else
    let names := sorted_keys m in
    match scan m p names names false false with
    | inl d => d
    | inr (true, true) => mixedSignalsDecision names m
    | inr (true, false) => clamped ScaleUp (wrap32 (CurrentReplicas p + ScaleUpBy p)) p
    | inr (false, _) => clamped ScaleDown (wrap32 (CurrentReplicas p - ScaleDownBy p)) p
    end.

(** ** The vote *)

Definition hot (p : Params) (c : Z) : Prop := LowerCPUPercent p <= c ∧ HigherCPUPercent p < c.
Definition cold (p : Params) (c : Z) : Prop := c < LowerCPUPercent p.

(** What one scan of a name list can conclude, given the flags so far. *)
Lemma scan_spec m p all names h c :
  (h && c = false)%bool →
  match scan m p all names h c with
  | inl d => dDirection d = NoOp ∧ dReason d = ReasonMixedSignals ∧
             ¬ (c = false ∧ Forall (λ n, hot p (percentOf m n)) names) ∧
             ¬ (h = false ∧ Forall (λ n, cold p (percentOf m n)) names)
  | inr (h', c') =>
      (h' = true ∧ c' = false ∧ c = false ∧
         Forall (λ n, hot p (percentOf m n)) names ∧ (h = true ∨ names ≠ [])) ∨
      (h' = false ∧ c' = true ∧ h = false ∧
         Forall (λ n, cold p (percentOf m n)) names ∧ (c = true ∨ names ≠ [])) ∨
      (names = [] ∧ h' = h ∧ c' = c ∧ h = false ∧ c = false)
  end.
Proof.
  revert h c. induction names as [|n names IH]; intros h c Hhc; simpl.
  { destruct h, c; naive_solver. }
  unfold hot, cold in *.
  destruct (percentOf m n <? LowerCPUPercent p) eqn:E1;
    [|destruct (percentOf m n >? HigherCPUPercent p) eqn:E2]; zbool.
  - destruct h.
    { repeat split; [|naive_solver]. rewrite Forall_cons. lia. }
    specialize (IH false true eq_refl).
    destruct (scan m p all names false true) as [d|[h' c']];
      rewrite ?Forall_cons; naive_solver lia.
  - destruct c.
    { repeat split; [naive_solver|]. rewrite Forall_cons. lia. }
    specialize (IH true false eq_refl).
    destruct (scan m p all names true false) as [d|[h' c']];
      rewrite ?Forall_cons; naive_solver lia.
  - repeat split; rewrite Forall_cons; lia.
Qed.

Lemma percentOf_Forall (m : gmap string Z) (P : Z → Prop) :
  Forall (λ n, P (percentOf m n)) (sorted_keys m) ↔ map_Forall (λ _ c, P c) m.
Proof.
  rewrite Forall_forall. unfold percentOf. split.
  - intros H n c Hn. specialize (H n). rewrite Hn in H. apply H.
    apply elem_of_sorted_keys. eauto.
  - intros H n [c Hn]%elem_of_sorted_keys. rewrite Hn. eauto.
Qed.

Lemma sorted_keys_nil (m : gmap string Z) : sorted_keys m = [] → m = ∅.
Proof.
  intros H. apply map_empty. intros k. destruct (m !! k) eqn:E; [|done].
  assert (k ∈ sorted_keys m) as Hk by (apply elem_of_sorted_keys; eauto).
  rewrite H in Hk. by apply elem_of_nil in Hk.
Qed.

(** The vote, case by case. *)
Lemma Decide_cases m p :
  (m = ∅ ∧ dDirection (Decide m p) = NoOp ∧ dReason (Decide m p) = ReasonNoMetrics) ∨
  (m ≠ ∅ ∧ map_Forall (λ _ c, hot p c) m ∧
     Decide m p = clamped ScaleUp (wrap32 (CurrentReplicas p + ScaleUpBy p)) p) ∨
  (m ≠ ∅ ∧ map_Forall (λ _ c, cold p c) m ∧
     Decide m p = clamped ScaleDown (wrap32 (CurrentReplicas p - ScaleDownBy p)) p) ∨
  (m ≠ ∅ ∧ ¬ map_Forall (λ _ c, hot p c) m ∧ ¬ map_Forall (λ _ c, cold p c) m ∧
     dDirection (Decide m p) = NoOp ∧ dReason (Decide m p) = ReasonMixedSignals).
Proof.
  unfold Decide. case_decide as Hsz.
  { left. by apply map_size_empty_iff in Hsz. }
  assert (m ≠ ∅) as Hm by (intros ->; by apply Hsz, map_size_empty).
  right. pose proof (scan_spec m p (sorted_keys m) (sorted_keys m) false false eq_refl) as H.
  pose proof (sorted_keys_nil m) as Hnil.
  pose proof (percentOf_Forall m (hot p)) as Hh.
  pose proof (percentOf_Forall m (cold p)) as Hc.
  destruct (scan _ _ _ _ _ _) as [d|[[] []]]; naive_solver.
Qed.

Lemma clamped_direction d t p :
  dDirection (clamped d t p) = NoOp ∨
  (dDirection (clamped d t p) = d ∧ dTargetReplicas (clamped d t p) ≠ CurrentReplicas p).
Proof. unfold clamped. break_goal; zbool; simpl; auto. Qed.

Lemma clamped_target d t p :
  dDirection (clamped d t p) = d → d ≠ NoOp →
  dTargetReplicas (clamped d t p) =
    (if MaxReplicas p >? 0 then Z.min (Z.max t (MinReplicas p)) (MaxReplicas p)
     else Z.max t (MinReplicas p)).
Proof. unfold clamped. break_goal; simpl; congruence. Qed.

(** The direction and target of a scaling decision. *)
Lemma Decide_scale m p d :
  dDirection (Decide m p) = d → d ≠ NoOp →
  ∃ t, Decide m p = clamped d t p ∧ dDirection (clamped d t p) = d ∧
    ((d = ScaleUp ∧ m ≠ ∅ ∧ map_Forall (λ _ c, hot p c) m ∧
        t = wrap32 (CurrentReplicas p + ScaleUpBy p)) ∨
     (d = ScaleDown ∧ m ≠ ∅ ∧ map_Forall (λ _ c, cold p c) m ∧
        t = wrap32 (CurrentReplicas p - ScaleDownBy p))).
Proof.
  intros H Hd.
  assert (∀ d0 t, d0 ≠ NoOp → Decide m p = clamped d0 t p →
            d0 = d ∧ dDirection (clamped d t p) = d) as Hcl.
  { intros d0 t Hd0 E. rewrite E in H.
    destruct (clamped_direction d0 t p) as [C|[C _]]; rewrite C in H; naive_solver. }
  destruct (Decide_cases m p) as [C|[C|[C|C]]]; [naive_solver| | |naive_solver];
    destruct C as (? & ? & E); destruct (λ H, Hcl _ _ H E) as [<- ?]; eauto 12.
Qed.

(** The vote is unanimous.  A scale-up decision implies that there is at
    least one reading and every broker reads strictly above the higher
    threshold; a scale-down decision that every broker reads strictly below
    the lower one. *)
Theorem Decide_unanimous (m : gmap string Z) (p : Params) :
  match dDirection (Decide m p) with
  | NoOp => True
  | ScaleUp => m ≠ ∅ ∧ map_Forall (λ _ c, HigherCPUPercent p < c) m
  | ScaleDown => m ≠ ∅ ∧ map_Forall (λ _ c, c < LowerCPUPercent p) m
  end.
Proof.
  destruct (dDirection (Decide m p)) eqn:E; [done| |];
    destruct (Decide_scale m p _ E ltac:(done)) as (t & _ & _ & [H|H]);
    destruct H as (? & ? & Ha & _); try done;
    (split; [done|]); eapply map_Forall_impl; try exact Ha;
    unfold hot, cold; naive_solver.
Qed.

(** A scaling decision stays inside the replica bounds and really moves
    the replica count, also when the [int32] step overflows. *)
Theorem Decide_bounds (m : gmap string Z) (p : Params) :
  dDirection (Decide m p) ≠ NoOp →
  (MaxReplicas p <= 0 ∨ MinReplicas p <= MaxReplicas p) →
  MinReplicas p <= dTargetReplicas (Decide m p) ∧
  (0 < MaxReplicas p → dTargetReplicas (Decide m p) <= MaxReplicas p) ∧
  dTargetReplicas (Decide m p) ≠ CurrentReplicas p.
Proof.
  intros Hd Hb.
  destruct (Decide_scale m p _ eq_refl Hd) as (t & E & Hdir & _).
  pose proof (clamped_target _ t p Hdir Hd) as Ht. rewrite <-E in Ht.
  destruct (clamped_direction (dDirection (Decide m p)) t p) as [C|[_ C]];
    [congruence|]. rewrite <-E in C. split; [|split; [|done]].
  - rewrite Ht. destruct (MaxReplicas p >? 0) eqn:?; zbool; lia.
  - rewrite Ht. destruct (MaxReplicas p >? 0) eqn:?; zbool; lia.
Qed.

Lemma Decide_bounds_witness :
  2 <= dTargetReplicas (Decide {[ "b-0" := 95; "b-1" := 90 ]} (mkParams 30 80 3 1 2 4 3)) <= 4.
Proof.
  pose proof (Decide_bounds {[ "b-0" := 95; "b-1" := 90 ]} (mkParams 30 80 3 1 2 4 3)) as H.
  destruct H as (H1 & H2 & _); [by vm_compute|right; by vm_compute|].
  split; [exact H1|by apply H2].
Defined.

(** From a replica count inside the bounds, with steps that do not
    overflow, a scale-up grows the fleet by at most [ScaleUpBy] and a
    scale-down shrinks it by at most [ScaleDownBy]. *)
Theorem Decide_moves_right_way (m : gmap string Z) (p : Params) :
  MinReplicas p <= CurrentReplicas p →
  (MaxReplicas p <= 0 ∨ CurrentReplicas p <= MaxReplicas p) →
  in32 (CurrentReplicas p + ScaleUpBy p) → in32 (CurrentReplicas p - ScaleDownBy p) →
  0 <= ScaleUpBy p → 0 <= ScaleDownBy p →
  let t := dTargetReplicas (Decide m p) in
  match dDirection (Decide m p) with
  | NoOp => True
  | ScaleUp => CurrentReplicas p < t <= CurrentReplicas p + ScaleUpBy p
  | ScaleDown => CurrentReplicas p - ScaleDownBy p <= t < CurrentReplicas p
  end.
Proof.
  intros Hmin Hmax Hu Hd Hu0 Hd0 t.
  destruct (dDirection (Decide m p)) eqn:E; [done| |];
    destruct (Decide_scale m p _ E ltac:(done)) as (t' & Et & Hdir & Hcase);
    pose proof (clamped_target _ t' p Hdir ltac:(done)) as Ht; rewrite <-Et in Ht;
    destruct (clamped_direction (dDirection (Decide m p)) t' p) as [C|[_ C]];
    rewrite E in C; try congruence; rewrite <-Et in C; unfold t;
    destruct Hcase as [(? & _ & _ & ->)|(? & _ & _ & ->)]; try done;
    rewrite wrap32_id in Ht by done;
    destruct (MaxReplicas p >? 0) eqn:?; zbool; lia.
Qed.

Lemma Decide_moves_right_way_witness :
  3 < dTargetReplicas (Decide {[ "b-0" := 95; "b-1" := 90 ]} (mkParams 30 80 3 1 2 0 3)) <= 6.
Proof.
  pose proof (Decide_moves_right_way {[ "b-0" := 95; "b-1" := 90 ]}
                (mkParams 30 80 3 1 2 0 3)) as H.
  assert (dDirection (Decide {[ "b-0" := 95; "b-1" := 90 ]} (mkParams 30 80 3 1 2 0 3))
          = ScaleUp) as E by by vm_compute.
  rewrite E in H. apply H; unfold in32; simpl; lia.
Defined.

(** Outside the bounds the clamp can contradict the vote.  A fleet that
    was grown above [MaxReplicas] by hand and is unanimously overloaded gets
    a decision named ScaleUp that shrinks it to [MaxReplicas]. *)
Theorem Decide_scale_up_can_shrink (m : gmap string Z) (p : Params) :
  m ≠ ∅ → map_Forall (λ _ c, HigherCPUPercent p < c) m →
  LowerCPUPercent p <= HigherCPUPercent p →
  0 < MaxReplicas p → MinReplicas p <= MaxReplicas p →
  MaxReplicas p < CurrentReplicas p → in32 (CurrentReplicas p + ScaleUpBy p) →
  0 <= ScaleUpBy p →
  dDirection (Decide m p) = ScaleUp ∧
  dTargetReplicas (Decide m p) = MaxReplicas p ∧
  dTargetReplicas (Decide m p) < CurrentReplicas p.
Proof.
  intros Hm Hall Hlh Hmax Hmm Hcur H32 Hup.
  assert (map_Forall (λ _ c, hot p c) m) as Hhot.
  { eapply map_Forall_impl; [exact Hall|]. unfold hot. intros; simpl in *; lia. }
  assert (Decide m p = clamped ScaleUp (wrap32 (CurrentReplicas p + ScaleUpBy p)) p) as ->.
  { destruct (Decide_cases m p) as [C|[C|[C|C]]]; [naive_solver|naive_solver| |naive_solver].
    destruct C as (_ & Hc & _). exfalso. apply Hm, map_empty. intros k.
    destruct (m !! k) as [c|] eqn:E; [|done].
    specialize (Hhot k c E). specialize (Hc k c E). unfold hot, cold in *. lia. }
  rewrite wrap32_id by done. unfold clamped.
  rewrite (proj2 (Z.gtb_lt _ _)) by lia.
  replace (Z.min (Z.max (CurrentReplicas p + ScaleUpBy p) (MinReplicas p)) (MaxReplicas p))
    with (MaxReplicas p) by lia.
  rewrite (proj2 (Z.eqb_neq _ _)) by lia. simpl. by split_and!.
Qed.

Lemma Decide_scale_up_can_shrink_witness :
  dTargetReplicas (Decide {[ "b-0" := 99; "b-1" := 97 ]} (mkParams 30 80 1 1 2 5 10)) = 5.
Proof.
  apply (Decide_scale_up_can_shrink {[ "b-0" := 99; "b-1" := 97 ]} (mkParams 30 80 1 1 2 5 10));
    unfold in32; simpl; try lia; [done|].
  apply map_Forall_insert_2; [lia|]. apply map_Forall_singleton. lia.
Defined.

End BrokerDecision.

(** * The stability gates *)

Module BrokerStability.

Fixpoint podReadyCondition (cs : list PodCondition) : bool :=
  match cs with
  | [] => false
  | c :: cs' =>
      if decide (pcType c = PodReady) then bool_decide (pcStatus c = ConditionTrue)
      else podReadyCondition cs'
  end.

Definition isPodReady (pod : Pod) : bool := podReadyCondition (podConditions pod).

Definition PodsStable (pods : list Pod) (expectedReplicas : Z) : bool :=
  if negb (wrap32 (Z.of_nat (length pods)) =? expectedReplicas) then false
  else forallb isPodReady pods.

Definition StabilizationElapsed (lastScaleTime : option Z) (windowSeconds now : Z) : bool :=
  match lastScaleTime with
  | None => true
  | Some t => negb (Before now (t + seconds windowSeconds))
  end.

End BrokerStability.

(** * The Broker resource *)

Record BrokerAutoscalerSpec := mkBrokerAutoscalerSpec {
  basEnabled : bool;
  basMin : option Z;
  basMax : option Z;
  basLowerCpuThreshold : option Z;
  basHigherCpuThreshold : option Z;
  basScaleUpBy : option Z;
  basScaleDownBy : option Z;
  basStabilizationWindowSeconds : option Z;
  basPeriodSeconds : option Z;
  basResourcesUsageSource : string
}.

(** The fields of BrokerSpec the autoscaler reads; the others travel with the
    object untouched. *)
Record BrokerSpec := mkBrokerSpec {
  bsReplicas : option Z;
  bsConfig : gmap string string;
  bsLoadBalancer : string;
  bsAutoscaler : option BrokerAutoscalerSpec
}.

Record BrokerStatus := mkBrokerStatus {
  bstReplicas : Z;
  bstReadyReplicas : Z;
  bstObservedGeneration : Z;
  bstLastScaleTime : option Z;
  bstConditions : list Condition
}.

Record Broker := mkBroker {
  bName : string;
  bNamespace : string;
  bGeneration : Z;
  bSpec : BrokerSpec;
  bStatus : BrokerStatus
}.

Definition set_bReplicas (n : Z) (b : Broker) : Broker :=
  mkBroker (bName b) (bNamespace b) (bGeneration b)
    (mkBrokerSpec (Some n) (bsConfig (bSpec b)) (bsLoadBalancer (bSpec b))
       (bsAutoscaler (bSpec b)))
    (bStatus b).

Definition set_bStatus (st : BrokerStatus) (b : Broker) : Broker :=
  mkBroker (bName b) (bNamespace b) (bGeneration b) (bSpec b) st.

Definition set_bConditions (cs : list Condition) (b : Broker) : Broker :=
  set_bStatus (mkBrokerStatus (bstReplicas (bStatus b)) (bstReadyReplicas (bStatus b))
    (bstObservedGeneration (bStatus b)) (bstLastScaleTime (bStatus b)) cs) b.

Definition set_bLastScaleTime (t : Z) (b : Broker) : Broker :=
  set_bStatus (mkBrokerStatus (bstReplicas (bStatus b)) (bstReadyReplicas (bStatus b))
    (bstObservedGeneration (bStatus b)) (Some t) (bstConditions (bStatus b))) b.

(** * The reconcile loop *)

Module BrokerAutoscaler.
Import BrokerDecision BrokerStability.

Definition defaultAutoscalerMinReplicas : Z := 2.
Definition defaultAutoscalerLowerCPUThreshold : Z := 30.
Definition defaultAutoscalerHigherCPUThreshold : Z := 80.
Definition defaultAutoscalerScaleStep : Z := 1.
Definition defaultAutoscalerStabilizationSeconds : Z := 300.
Definition defaultAutoscalerPeriodSeconds : Z := 60.
Definition conditionTypeAutoscaling : string := "Autoscaling".
Definition reasonAutoscalerDisabled : string := "Disabled".
Definition reasonPodsNotReady : string := "PodsNotReady".
Definition reasonAwaitingStabilization : string := "AwaitingStabilization".
Definition reasonMetricsUnavailable : string := "MetricsUnavailable".
Definition brokerComponent : string := "broker".
Definition defaultBrokerReplicas : Z := 3.

Definition int32OrDefault (v : option Z) (def : Z) : Z := default def v.
Definition brokerReplicas (r : option Z) : Z := default defaultBrokerReplicas r.

(** Which LoadClient a tick uses. *)
Inductive LoadSource := InjectedClient | K8sMetricsClient | PulsarLoadReportClient (httpPort : Z).

(** ** The broker's HTTP port *)

Definition confKeyWebServicePort : string := "webServicePort".
Definition confKeyBrokerServicePort : string := "brokerServicePort".
Definition confKeyLoadManagerClassName : string := "loadManagerClassName".
Definition confKeyLoadBalancerLoadSheddingStrategy : string := "loadBalancerLoadSheddingStrategy".
Definition confKeyLoadBalancerTransferEnabled : string := "loadBalancerTransferEnabled".
Definition confKeyBrokerShutdownTimeoutMs : string := "brokerShutdownTimeoutMs".
Definition extensibleLoadManagerClassName : string :=
  "org.apache.pulsar.broker.loadbalance.extensions.ExtensibleLoadManagerImpl".
Definition simpleLoadManagerClassName : string :=
  "org.apache.pulsar.broker.loadbalance.impl.ModularLoadManagerImpl".
Definition transferShedderClassName : string :=
  "org.apache.pulsar.broker.loadbalance.extensions.scheduler.TransferShedder".
Definition defaultBrokerServicePort : Z := 6650.
Definition defaultWebServicePort : Z := 8080.
Definition defaultBrokerShutdownTimeoutMs : Z := 60000.

Definition loadManagerClassName (loadBalancer : string) : string :=
  if String.eqb loadBalancer "simple" then simpleLoadManagerClassName
  else extensibleLoadManagerClassName.

Definition defaultBrokerConfig (spec : BrokerSpec) : gmap string string :=
  let cfg : gmap string string :=
    {[ confKeyBrokerServicePort := %d defaultBrokerServicePort;
       confKeyWebServicePort := %d defaultWebServicePort;
       confKeyLoadManagerClassName := loadManagerClassName (bsLoadBalancer spec);
       confKeyBrokerShutdownTimeoutMs := %d defaultBrokerShutdownTimeoutMs ]} in
  if decide (cfg !! confKeyLoadManagerClassName = Some extensibleLoadManagerClassName) then
    <[confKeyLoadBalancerTransferEnabled := "true"]>
      (<[confKeyLoadBalancerLoadSheddingStrategy := transferShedderClassName]> cfg)
  else cfg.

(** config.Merge: the overrides win. *)
Definition mergedBrokerConfig (spec : BrokerSpec) : gmap string string :=
  bsConfig spec ∪ defaultBrokerConfig spec.

Definition resolveConfigPort (cfg : gmap string string) (key : string) (def : Z) : Z :=
  match cfg !! key with
  | Some v =>
      match ParseInt 32 v with
      | Some parsed => if (parsed >? 0) && (parsed <=? 65535) then parsed else def
      | None => def
      end
  | None => def
  end.

Definition brokerHTTPPort (spec : BrokerSpec) : Z :=
  resolveConfigPort (mergedBrokerConfig spec) confKeyWebServicePort defaultWebServicePort.

(** ** Calls *)

Inductive call :=
| Get (nn : NamespacedName)
| ListPods (ns : string) (selector : gmap string string)
| Now
| CPUPercentByBroker (src : LoadSource) (pods : list Pod)
| Update (b : Broker)
| StatusUpdate (b : Broker)
| Eventf (b : Broker) (ty : EventType) (reason action note : string).

(** A successful [Update] or [Status().Update] writes the server's reply back
    into the object it was given. *)
Definition ans (c : call) : Type :=
  match c with
  | Get _ => res Broker
  | ListPods _ _ => res (list Pod)
  | Now => Z
  | CPUPercentByBroker _ _ => gmap string Z * option goerr
  | Update _ => res Broker
  | StatusUpdate _ => res Broker
  | Eventf _ _ _ _ _ => unit
  end.

Section Reconciler.
Context `{AM : !ApiMeta}.

(** The reconciler's own fields: whether a Recorder and a LoadClient are set. *)
Context (hasRecorder injected : bool).

Definition setCondition (b : Broker) (st : ConditionStatus) (reason msg : string) :
    prog ans (res unit) :=
  let b' := set_bConditions (setCond (bstConditions (bStatus b))
              (newCondition conditionTypeAutoscaling st (bGeneration b) reason msg)) b in
  (let! r := perform ans (StatusUpdate b') in
   Ret (match r with Ok _ => Ok tt | Err e => Err e end))%prog.

(** [return result, r.setCondition(...)]. *)
Definition finishWith (result : Result) (p : prog ans (res unit)) : prog ans (res Result) :=
  (try! _ := p in Ret (Ok result))%prog.

Definition applyScale (b : Broker) (d : Decision) : prog ans (res unit) :=
  (try! ["updating broker replicas"] b1 :=
     perform ans (Update (set_bReplicas (dTargetReplicas d) b)) in
   let! now := perform ans Now in
   setCondition (set_bLastScaleTime now b1) ConditionTrue (dReason d) (dMessage d))%prog.

Definition resolveLoadClient (b : Broker) (spec : BrokerAutoscalerSpec) (port : Z) : LoadSource :=
  if injected then InjectedClient
  else if String.eqb (basResourcesUsageSource spec) "K8SMetrics" then K8sMetricsClient
  else PulsarLoadReportClient port.

Definition decisionParams (spec : BrokerAutoscalerSpec) (currentReplicas : Z) : Params :=
  mkParams
    (int32OrDefault (basLowerCpuThreshold spec) defaultAutoscalerLowerCPUThreshold)
    (int32OrDefault (basHigherCpuThreshold spec) defaultAutoscalerHigherCPUThreshold)
    (int32OrDefault (basScaleUpBy spec) defaultAutoscalerScaleStep)
    (int32OrDefault (basScaleDownBy spec) defaultAutoscalerScaleStep)
    (int32OrDefault (basMin spec) defaultAutoscalerMinReplicas)
    (int32OrDefault (basMax spec) 0)
    currentReplicas.

Definition evaluate (b : Broker) (spec : BrokerAutoscalerSpec) (pods : list Pod)
    (result : Result) (currentReplicas : Z) : prog ans (res Result) :=
  (let! cpu := perform ans (CPUPercentByBroker
           (resolveLoadClient b spec (brokerHTTPPort (bSpec b))) pods) in
   let n := Z.of_nat (size cpu.1) in
   if negb (wrap32 n =? currentReplicas) then
     let msg := "CPU reading available for " ++! %d n ++! "/" ++!
                %d currentReplicas ++! " brokers" in
     let msg := match cpu.2 with
                | Some e => msg ++! ": " ++! error_text e
                | None => msg
                end in
     finishWith result (setCondition b ConditionFalse reasonMetricsUnavailable msg)
   else
     let decision := Decide cpu.1 (decisionParams spec currentReplicas) in
     if decide (dDirection decision = NoOp) then
       finishWith result (setCondition b ConditionFalse (dReason decision) (dMessage decision))
     else
       try! ["applying autoscaler decision"] _ := applyScale b decision in
       if hasRecorder then
         let! _ := perform ans (Eventf b EventTypeNormal (dReason decision) "Scale"
                            (dMessage decision)) in
         Ret (Ok result)
       else Ret (Ok result))%prog.

Definition Reconcile (req : NamespacedName) : prog ans (res Result) :=
  (let! got := perform ans (Get req) in
   match got with
   | Err e => Ret (ignore_not_found e)
   | Ok b =>
       match bsAutoscaler (bSpec b) with
       | None =>
           finishWith emptyResult (setCondition b ConditionFalse reasonAutoscalerDisabled
             "broker autoscaler is disabled")
       | Some spec =>
           if negb (basEnabled spec) then
             finishWith emptyResult (setCondition b ConditionFalse reasonAutoscalerDisabled
               "broker autoscaler is disabled")
           else
             let period := seconds (int32OrDefault (basPeriodSeconds spec)
                                      defaultAutoscalerPeriodSeconds) in
             let currentReplicas := brokerReplicas (bsReplicas (bSpec b)) in
             try! ["listing broker pods"] pods :=
               perform ans (ListPods (bNamespace b) (SelectorLabels (bName b) brokerComponent)) in
             if negb (PodsStable pods currentReplicas) then
               finishWith (mkResult period) (setCondition b ConditionFalse reasonPodsNotReady
                 ("waiting for all " ++! %d currentReplicas ++!
                  " broker pods to be Ready before evaluating autoscaling"))
             else
               let windowSeconds := int32OrDefault (basStabilizationWindowSeconds spec)
                                      defaultAutoscalerStabilizationSeconds in
               let! now := perform ans Now in
               if negb (StabilizationElapsed (bstLastScaleTime (bStatus b)) windowSeconds now) then
                 finishWith (mkResult period)
                   (setCondition b ConditionFalse reasonAwaitingStabilization
                     ("stabilization window (" ++! %d windowSeconds ++!
                      "s) has not elapsed since the last scaling event"))
               else evaluate b spec pods (mkResult period) currentReplicas
       end
   end)%prog.

(** ** What a tick may do *)

(** The Broker objects written to the spec endpoint, in order. *)
Definition spec_writes (t : list (event ans)) : list Broker :=
  omap (λ e, match ev_call e with Update b => Some b | _ => None end) t.

(** The Broker objects written to the status endpoint. *)
Definition status_writes (t : list (event ans)) : list Broker :=
  omap (λ e, match ev_call e with StatusUpdate b => Some b | _ => None end) t.

Lemma setCondition_only b st reason msg :
  only (λ c, match c with StatusUpdate _ => True | _ => False end)
    (setCondition b st reason msg).
Proof. simpl. auto. Qed.

Lemma finishWith_no_spec_write result b st reason msg t r :
  runs (finishWith result (setCondition b st reason msg)) t r → spec_writes t = [].
Proof. intros H. run_step H. by destruct x; run_step H. Qed.

(** A tick writes the spec at most once, and only when every gate is open. *)
Lemma spec_write_cases req t r :
  runs (Reconcile req) t r →
  spec_writes t = [] ∨
  ∃ b spec pods now cpu err,
    Ev (Get req) (Ok b) ∈ t ∧ bsAutoscaler (bSpec b) = Some spec ∧ basEnabled spec = true ∧
    Ev (ListPods (bNamespace b) (SelectorLabels (bName b) brokerComponent)) (Ok pods) ∈ t ∧
    PodsStable pods (brokerReplicas (bsReplicas (bSpec b))) = true ∧
    Ev Now now ∈ t ∧
    StabilizationElapsed (bstLastScaleTime (bStatus b))
      (int32OrDefault (basStabilizationWindowSeconds spec) defaultAutoscalerStabilizationSeconds)
      now = true ∧
    Ev (CPUPercentByBroker (resolveLoadClient b spec (brokerHTTPPort (bSpec b))) pods) (cpu, err) ∈ t ∧
    wrap32 (Z.of_nat (size (cpu : gmap string Z))) = brokerReplicas (bsReplicas (bSpec b)) ∧
    let d := Decide cpu (decisionParams spec (brokerReplicas (bsReplicas (bSpec b)))) in
    dDirection d ≠ NoOp ∧ spec_writes t = [set_bReplicas (dTargetReplicas d) b].
Proof.
  intros H. run_step H. destruct x as [b|e]; [|run_step H; by left].
  destruct (bsAutoscaler (bSpec b)) as [spec|] eqn:Espec;
    [|left; eapply (finishWith_no_spec_write _ _ _ _ _ _ _ H)].
  destruct (basEnabled spec) eqn:Een; simpl negb in H; cbv iota in H;
    [|left; eapply (finishWith_no_spec_write _ _ _ _ _ _ _ H)].
  run_step H. destruct x as [pods|e]; [|run_step H; by left].
  destruct (PodsStable pods _) eqn:Epods; cbv [negb] in H; cbv iota in H;
    [|left; eapply (finishWith_no_spec_write _ _ _ _ _ _ _ H)].
  run_step H. rename x into now.
  destruct (StabilizationElapsed _ _ now) eqn:Est; cbv [negb] in H; cbv iota in H;
    [|left; eapply (finishWith_no_spec_write _ _ _ _ _ _ _ H)].
  run_step H. destruct x as [cpu err]; simpl in H.
  destruct (_ =? _) eqn:Esz in H; cbv [negb] in H; cbv iota in H;
    [|left; eapply (finishWith_no_spec_write _ _ _ _ _ _ _ H)].
  case_decide as Hd; [left; eapply (finishWith_no_spec_write _ _ _ _ _ _ _ H)|].
  zbool. right. exists b, spec, pods, now, cpu, err.
  assert (spec_writes t = [set_bReplicas (dTargetReplicas
     (Decide cpu (decisionParams spec (brokerReplicas (bsReplicas (bSpec b)))))) b]) as Hw.
  { run_step H. destruct x; [|by run_step H]. do 2 run_step H.
    destruct x0; [|by run_step H]. simpl in H. destruct hasRecorder; by repeat run_step H. }
  split_and!; try done; set_solver.
Qed.

(** A tick writes the spec at most once, and only when every gate is
    open: autoscaling enabled, all pods ready, the stabilization window
    elapsed, one reading per broker, and a vote that scales.  What it writes
    is the fetched object with nothing but [spec.replicas] changed, to the
    decided target. *)
Theorem Reconcile_spec_write_guarded req t r :
  runs (Reconcile req) t r →
  spec_writes t = [] ∨
  ∃ b spec pods now cpu,
    Ev (Get req) (Ok b) ∈ t ∧ bsAutoscaler (bSpec b) = Some spec ∧ basEnabled spec = true ∧
    PodsStable pods (brokerReplicas (bsReplicas (bSpec b))) = true ∧
    Ev Now now ∈ t ∧
    StabilizationElapsed (bstLastScaleTime (bStatus b))
      (int32OrDefault (basStabilizationWindowSeconds spec) defaultAutoscalerStabilizationSeconds)
      now = true ∧
    wrap32 (Z.of_nat (size (cpu : gmap string Z))) = brokerReplicas (bsReplicas (bSpec b)) ∧
    let d := Decide cpu (decisionParams spec (brokerReplicas (bsReplicas (bSpec b)))) in
    dDirection d ≠ NoOp ∧ spec_writes t = [set_bReplicas (dTargetReplicas d) b].
Proof.
  intros [H|H]%spec_write_cases; [by left|right].
  destruct H as (b & spec & pods & now & cpu & err & ? & ? & ? & _ & ? & ? & ? & _ & ? & ? & ?).
  exists b, spec, pods, now, cpu. by split_and!.
Qed.

End Reconciler.
End BrokerAutoscaler.

(** * A concrete tick *)

Module BrokerDemo.
Import BrokerDecision BrokerStability BrokerAutoscaler.

Definition readyPod (name : string) : Pod :=
  mkPod name "ns" 0 None "node" "10.0.0.1" [mkPodCondition PodReady ConditionTrue 0] [] [].

Definition demoBroker : Broker :=
  mkBroker "b" "ns" 1
    (mkBrokerSpec (Some 2) ∅ ""
      (Some (mkBrokerAutoscalerSpec true (Some 2) (Some 5) None None None None None None "")))
    (mkBrokerStatus 2 2 1 (Some 0) []).

Definition demoServe (c : call) (s : unit) : ans c * unit :=
  (match c return ans c with
   | Get _ => Ok demoBroker
   | ListPods _ _ => Ok [readyPod "b-0"; readyPod "b-1"]
   | Now => 400 * Second
   | CPUPercentByBroker _ _ => ({[ "b-0" := 90; "b-1" := 85 ]}, None)
   | Update b => Ok b
   | StatusUpdate b => Ok b
   | Eventf _ _ _ _ _ => tt
   end, s).

Definition demoTrace : list (event ans) :=
  (exec demoServe (@Reconcile refApiMeta true true (mkNN "ns" "b")) tt).2.

Lemma Reconcile_spec_write_guarded_witness :
  spec_writes demoTrace = [set_bReplicas 3 demoBroker] ∧
  (spec_writes demoTrace = [] ∨
   ∃ b spec pods, Ev (Get (mkNN "ns" "b")) (Ok b) ∈ demoTrace ∧
     bsAutoscaler (bSpec b) = Some spec ∧ basEnabled spec = true ∧
     PodsStable pods (brokerReplicas (bsReplicas (bSpec b))) = true).
Proof.
  split; [by vm_compute|].
  destruct (@Reconcile_spec_write_guarded refApiMeta true true (mkNN "ns" "b") demoTrace _
              (exec_runs demoServe _ tt)) as [H|(b & spec & pods & _ & _ & ? & ? & ? & ? & _)];
    [by left|right; by exists b, spec, pods].
Defined.

End BrokerDemo.
