(* ===== verification/LoadReport.v ===== *)
(** The CPU readings of the broker autoscaler: the two load clients
    (internal/autoscaler/broker/k8smetrics.go and pulsarloadreport.go), and
    the autoscaler of BrokerScale.v running on them. *)

From S2P Require Import Prelude Effects GoFloat Kube BrokerScale.
From Stdlib Require Import SpecFloat.
Open Scope Z_scope.
Open Scope go_scope.

Module LoadReport.
Import BrokerDecision BrokerStability.

(** * Calls *)

(** A field of an unstructured object: absent, of another type, or there. *)
Inductive Field (A : Type) := Missing | Mistyped (e : goerr) | Found (a : A).
Arguments Missing {A}.
Arguments Mistyped {A} e.
Arguments Found {A} a.

(** [containers] of a PodMetrics: each element is an object with the field
    [usage.cpu], or something else. *)
Definition PodMetrics : Type := Field (list (option (Field string))).

(** The load report of a broker, as the HTTP client sees it. *)
Inductive LoadReply :=
| RequestInvalid (e : goerr)
| TransportFailure (e : goerr)
| StatusNotOK (code : Z)
| Undecodable (e : goerr)
| Report (usage limit : float64).

Inductive call :=
| Core (c : BrokerAutoscaler.call)
| GetPodMetrics (nn : NamespacedName)
| GetLoadReport (url : string).

Definition ans (c : call) : Type :=
  match c with
  | Core c => BrokerAutoscaler.ans c
  | GetPodMetrics _ => res PodMetrics
  | GetLoadReport _ => LoadReply
  end.

Abbreviation event := (Effects.event ans).
Abbreviation M A := (prog ans (res A)).

(** resource.ParseQuantity, and [MilliValue] of its result. *)
Class QuantityParser := { ParseMilli : string → res Z }.

(** [int32(f)] of a float in range. *)
Definition to_int32 (f : float64) : Z := wrap32 (to_int f).

(** * Every pod in turn *)

(** The loop both clients share: a pod that cannot be read is left out of the
    map, and its error is collected. *)
Fixpoint collectReadings (fetch : Pod → M Z) (pods : list Pod) (result : gmap string Z)
    (errs : list goerr) : prog ans (gmap string Z * option goerr) :=
  match pods with
  | [] => Ret (result, errors_Join errs)
  | pod :: pods' =>
      (let! r := fetch pod in
       match r with
       | Err e =>
           collectReadings fetch pods' result (errs ++ [Errorf ("broker pod " ++! podName pod) e])
       | Ok percent => collectReadings fetch pods' (<[podName pod := percent]> result) errs
       end)%prog
  end.

(** * metrics-server *)

Module K8sMetrics.
Section Client.
Context `{QP : !QuantityParser}.

Definition cpuLimitMillis (pod : Pod) : Z :=
  foldl (λ total limit, match limit with Some milli => wrap64 (total + milli) | None => total end)
    0 (podCPULimits pod).

Fixpoint sumUsage (containers : list (option (Field string))) (total : Z) : res Z :=
  match containers with
  | [] => Ok total
  | None :: cs => sumUsage cs total
  | Some (Mistyped e) :: _ =>
      Err (Errorf "reading PodMetrics.containers[].usage.cpu" e)
  | Some Missing :: cs => sumUsage cs total
  | Some (Found cpuStr) :: cs =>
      match ParseMilli cpuStr with
      | Err e => Err (Errorf ("parsing CPU usage quantity " ++! quote cpuStr) e)
      | Ok milli => sumUsage cs (wrap64 (total + milli))
      end
  end.

Definition containerCPUUsageMillis (metrics : PodMetrics) : res Z :=
  match metrics with
  | Mistyped e => Err (Errorf "reading PodMetrics.containers" e)
  | Missing | Found [] => Err (ErrPlain "PodMetrics reported no containers")
  | Found containers => sumUsage containers 0
  end.

Definition percentOfLimit (usageMilli limitMilli : Z) : Z :=
  let percent := Round (fmul (fdiv (of_int usageMilli) (of_int limitMilli)) (of_int 100)) in
  if flt (of_int 100) percent then 100 else to_int32 percent.

Definition fetchOne (pod : Pod) : M Z :=
  let limitMilli := cpuLimitMillis pod in
  if limitMilli <=? 0 then
    Ret (Err (ErrPlain "no CPU limit set on any container, can't compute a CPU percentage"))
  else
    (try! ["fetching PodMetrics"] metrics :=
       perform ans (GetPodMetrics (mkNN (podNamespace pod) (podName pod))) in
     Ret (match containerCPUUsageMillis metrics with
          | Err e => Err e
          | Ok usageMilli => Ok (percentOfLimit usageMilli limitMilli)
          end))%prog.

Definition CPUPercentByBroker (pods : list Pod) : prog ans (gmap string Z * option goerr) :=
  collectReadings fetchOne pods ∅ [].

End Client.
End K8sMetrics.

(** * The broker's own load report *)

Module PulsarLoadReport.

Definition loadReportURL (podIP : string) (port : Z) : string :=
  "http://" ++! podIP ++! ":" ++! %d port ++! "/admin/v2/broker-stats/load-report/".

Definition cpuPercentFromUsageLimit (usage limit : float64) : Z :=
  if fle limit (of_int 0) then 0
  else
    let percent := Round (fmul (fdiv usage limit) (of_int 100)) in
    if flt percent (of_int 0) then 0
    else if flt (of_int 100) percent then 100
    else to_int32 percent.

Definition readReport (reply : LoadReply) : res Z :=
  match reply with
  | RequestInvalid e => Err (Errorf "building load-report request" e)
  | TransportFailure e => Err (Errorf "requesting load-report" e)
  | StatusNotOK code => Err (ErrPlain ("load-report returned status " ++! %d code))
  | Undecodable e => Err (Errorf "decoding load-report" e)
  | Report usage limit => Ok (cpuPercentFromUsageLimit usage limit)
  end.

Definition fetchOne (port : Z) (pod : Pod) : M Z :=
  if String.eqb (podIP pod) "" then Ret (Err (ErrPlain "no PodIP assigned yet"))
  else
    (let! reply := perform ans (GetLoadReport (loadReportURL (podIP pod) port)) in
     Ret (readReport reply))%prog.

Definition CPUPercentByBroker (port : Z) (pods : list Pod) :
    prog ans (gmap string Z * option goerr) :=
  collectReadings (fetchOne port) pods ∅ [].

End PulsarLoadReport.

(** * The percentages *)

(** The clamped conversion is a percentage, also for infinities and NaNs. *)
Lemma clamp_bounds x :
  short x →
  let percent := Round x in
  flt percent (of_int 0) = false → flt (of_int 100) percent = false →
  0 <= to_int32 percent <= 100.
Proof.
  intros Hs percent H0 H100. unfold to_int32.
  enough (0 <= to_int percent <= 100) as Hb by (rewrite wrap32_id; unfold in32; lia).
  destruct (Round_cases x Hs) as [[E He]|[[s E]|(a & Ha & [E|E])]];
    unfold percent in *; rewrite E in H0, H100 |- *.
  - destruct x as [| | |[] m e]; try (cbn; lia); [done|].
    specialize (He _ _ _ eq_refl). exfalso. revert H100. unfold flt, SFltb, SFcompare.
    change (of_int 100) with (S754_finite false 7036874417766400 (-46)). cbn [negb].
    by rewrite (proj2 (Z.compare_lt_iff (-46) e)) by lia.
  - cbn. lia.
  - rewrite flt_of_int in H0, H100 by lia. rewrite to_int_of_int by lia. zbool. lia.
  - exfalso. destruct a as [|m|]; [lia| |lia].
    by destruct (of_int_pos m ltac:(lia)) as (m' & E' & _); rewrite E' in H0.
Qed.

Lemma lb_percent_bounds usage limit :
  0 <= PulsarLoadReport.cpuPercentFromUsageLimit usage limit <= 100.
Proof.
  unfold PulsarLoadReport.cpuPercentFromUsageLimit. destruct (fle _ _); [lia|].
  destruct (flt (Round _) _) eqn:E0; [lia|]. destruct (flt (of_int 100) _) eqn:E1; [lia|].
  apply clamp_bounds; auto with operator.
Qed.

(** A broker that reports no limit yet counts as idle. *)
Lemma lb_no_limit usage limit :
  fle limit (of_int 0) = true → PulsarLoadReport.cpuPercentFromUsageLimit usage limit = 0.
Proof. intros H. unfold PulsarLoadReport.cpuPercentFromUsageLimit. by rewrite H. Qed.

(** ** Metrics-server readings of a non-negative usage *)

(** No minus sign. *)
Definition unsigned (f : float64) : Prop :=
  match f with
  | S754_zero s | S754_infinity s | S754_finite s _ _ => s = false
  | S754_nan => True
  end.

Lemma round_aux_unsigned m e l : unsigned (binary_round_aux 53 1024 false m e l).
Proof.
  unfold binary_round_aux. destruct (shr_fexp _ _ _ _ _) as [r e1].
  destruct (shr_fexp _ _ _ e1 _) as [r2 e2]. destruct (shr_m r2); simpl; try done.
  by destruct (e2 <=? _).
Qed.

Lemma of_int_unsigned z : 0 <= z → unsigned (of_int z).
Proof.
  intros Hz. destruct z as [|m|]; [done| |lia]. unfold of_int, binary_normalize, binary_round.
  destruct (shl_align _ _ _). apply round_aux_unsigned.
Qed.

Lemma fdiv_unsigned x y : unsigned x → unsigned y → unsigned (fdiv x y).
Proof.
  destruct x, y; simpl; intros; subst; try done. unfold fdiv, SFdiv.
  destruct (SFdiv_core_binary _ _ _ _ _ _) as [[]]. apply round_aux_unsigned.
Qed.

Lemma fmul_unsigned x y : unsigned x → unsigned y → unsigned (fmul x y).
Proof. destruct x, y; simpl; intros; subst; try done. apply round_aux_unsigned. Qed.

Lemma Round_unsigned x : unsigned x → unsigned (Round x).
Proof.
  destruct x as [| | |s m e]; try done. cbn [unsigned Round]. intros ->.
  destruct (0 <=? e) eqn:He; [done|]. zbool. destruct (_ =? 0); [done|]. apply of_int_unsigned.
  apply Z.div_pos; [|apply Z.pow_pos_nonneg; lia].
  pose proof (Z.pow_nonneg 2 (- e - 1) ltac:(lia)). lia.
Qed.

Lemma k8s_percent_bounds usage limit :
  0 <= usage → 0 < limit → 0 <= K8sMetrics.percentOfLimit usage limit <= 100.
Proof.
  intros Hu Hl. unfold K8sMetrics.percentOfLimit.
  destruct (flt (of_int 100) _) eqn:E; [lia|].
  apply clamp_bounds; [auto with operator| |done].
  assert (unsigned (Round (fmul (fdiv (of_int usage) (of_int limit)) (of_int 100)))) as H.
  { apply Round_unsigned, fmul_unsigned, of_int_unsigned; [|lia].
    apply fdiv_unsigned; apply of_int_unsigned; lia. }
  destruct (Round _) as [[]|[]| |[]]; done.
Qed.


(** * The autoscaler on its load clients *)

Section Deployed.
Context `{AM : !ApiMeta} `{QP : !QuantityParser} (hasRecorder : bool).

(** [CPUPercentByBroker] by the client the Broker's spec selects; every other
    call is made as it is. *)
Definition loadClient (c : BrokerAutoscaler.call) : prog ans (BrokerAutoscaler.ans c) :=
  match c return prog ans (BrokerAutoscaler.ans c) with
  | BrokerAutoscaler.CPUPercentByBroker src pods =>
      match src with
      | BrokerAutoscaler.K8sMetricsClient => K8sMetrics.CPUPercentByBroker pods
      | BrokerAutoscaler.PulsarLoadReportClient port =>
          PulsarLoadReport.CPUPercentByBroker port pods
      | BrokerAutoscaler.InjectedClient =>
          perform ans (Core (BrokerAutoscaler.CPUPercentByBroker src pods))
      end
  | c => perform ans (Core c)
  end.

(** Without an injected client, as cmd/main.go builds the reconciler. *)
Definition deployedReconcile (req : NamespacedName) : prog ans (res Result) :=
  hoist loadClient (BrokerAutoscaler.Reconcile hasRecorder false req).

(** ** What the loop collects *)

Lemma collectReadings_lookup fetch pods result errs t m e n c :
  runs (collectReadings fetch pods result errs) t (m, e) → m !! n = Some c →
  result !! n = Some c ∨
  ∃ pod t', pod ∈ pods ∧ podName pod = n ∧ t' ⊆ t ∧ runs (fetch pod) t' (Ok c).
Proof.
  revert result errs t. induction pods as [|pod pods IH]; intros result errs t; simpl.
  { intros [_ [= -> _]]. by left. }
  intros (t1 & t2 & r & -> & Hf & Hc)%runs_bind Hn.
  assert (∀ res es, runs (collectReadings fetch pods res es) t2 (m, e) →
    res !! n = Some c ∨ ∃ pod' t', pod' ∈ pod :: pods ∧ podName pod' = n ∧ t' ⊆ t1 ++ t2 ∧
      runs (fetch pod') t' (Ok c)) as Hrest.
  { intros res es H. destruct (IH _ _ _ H Hn) as [?|(p & t' & ? & ? & ? & ?)]; [by left|right].
    exists p, t'. split_and!; [set_solver..|done]. }
  destruct r as [percent|er]; apply Hrest in Hc as [Hr|Hr]; auto.
  apply lookup_insert_Some in Hr as [[<- <-]|[_ Hr]]; [|by left].
  right. exists pod, t1. split_and!; [set_solver..|done].
Qed.

Lemma collectReadings_dom fetch pods result errs t m e :
  runs (collectReadings fetch pods result errs) t (m, e) → dom m ⊆ dom result ∪ list_to_set (podName <$> pods).
Proof.
  revert result errs t. induction pods as [|pod pods IH]; intros result errs t; simpl.
  { intros [_ [= -> _]]. set_solver. }
  intros (t1 & t2 & r & -> & Hf & Hc)%runs_bind.
  destruct r; apply IH in Hc; set_solver.
Qed.

(** ** Evidence *)

(** The number the selected client made of the pod's answer. *)
Definition reading (t : list event) (src : BrokerAutoscaler.LoadSource) (pod : Pod) (c : Z) : Prop :=
  match src with
  | BrokerAutoscaler.K8sMetricsClient => ∃ metrics usage,
      Ev (GetPodMetrics (mkNN (podNamespace pod) (podName pod))) (Ok metrics) ∈ t ∧
      K8sMetrics.containerCPUUsageMillis metrics = Ok usage ∧
      0 < K8sMetrics.cpuLimitMillis pod ∧
      c = K8sMetrics.percentOfLimit usage (K8sMetrics.cpuLimitMillis pod)
  | BrokerAutoscaler.PulsarLoadReportClient port => ∃ usage limit,
      podIP pod ≠ "" ∧
      Ev (GetLoadReport (PulsarLoadReport.loadReportURL (podIP pod) port)) (Report usage limit) ∈ t ∧
      c = PulsarLoadReport.cpuPercentFromUsageLimit usage limit
  | BrokerAutoscaler.InjectedClient => False
  end.

Lemma runs_k8s pod t c :
  runs (K8sMetrics.fetchOne pod) t (Ok c) → reading t BrokerAutoscaler.K8sMetricsClient pod c.
Proof.
  unfold K8sMetrics.fetchOne. destruct (_ <=? 0) eqn:E; [by intros [_ ?]|]. zbool.
  intros (x & t' & -> & H). destruct x as [metrics|e]; [|by destruct H].
  destruct H as [-> H]. destruct (K8sMetrics.containerCPUUsageMillis metrics) as [usage|] eqn:Eu; [|done].
  injection H as ->. exists metrics, usage. split_and!; [set_solver|done|lia|done].
Qed.

Lemma runs_lb port pod t c :
  runs (PulsarLoadReport.fetchOne port pod) t (Ok c) →
  reading t (BrokerAutoscaler.PulsarLoadReportClient port) pod c.
Proof.
  unfold PulsarLoadReport.fetchOne. destruct (String.eqb _ _) eqn:E; [by intros [_ ?]|].
  apply String.eqb_neq in E. intros (x & t' & -> & -> & H). destruct x as [| | | |usage limit]; try done.
  injection H as ->. exists usage, limit. split_and!; [done|set_solver|done].
Qed.

Lemma reading_mono t t' src pod c : t ⊆ t' → reading t src pod c → reading t' src pod c.
Proof. intros Hs. destruct src; simpl; [done|naive_solver..]. Qed.

Lemma runs_loadClient src pods t m e n c :
  src ≠ BrokerAutoscaler.InjectedClient →
  runs (loadClient (BrokerAutoscaler.CPUPercentByBroker src pods)) t (m, e) → m !! n = Some c →
  ∃ pod, pod ∈ pods ∧ podName pod = n ∧ reading t src pod c.
Proof.
  intros Hsrc Hr Hn. destruct src as [| |port]; [done| |]; simpl in Hr;
    (apply (collectReadings_lookup _ _ _ _ _ _ _ _ _ Hr) in Hn as [H|(pod & t' & Hp & Hpn & Ht & Hf)];
      [by rewrite lookup_empty in H|]; exists pod; split_and!; [done..|]).
  - eapply reading_mono, runs_k8s, Hf. done.
  - eapply reading_mono, runs_lb, Hf. done.
Qed.

(** The spec writes of a trace of the deployed autoscaler. *)
Definition spec_writes (t : list event) : list Broker :=
  omap (λ e, match ev_call e with
             | Core (BrokerAutoscaler.Update b) => Some b
             | _ => None
             end) t.

Definition isReading (c : call) : Prop :=
  match c with Core _ => False | _ => True end.

Lemma collectReadings_only fetch pods result errs :
  (∀ pod, only isReading (fetch pod)) → only isReading (collectReadings fetch pods result errs).
Proof.
  intros Hf. revert result errs. induction pods as [|pod pods IH]; intros result errs; simpl; [done|].
  apply only_bind; [done|]. intros []; apply IH.
Qed.

Lemma k8s_only pod : only isReading (K8sMetrics.fetchOne pod).
Proof. unfold K8sMetrics.fetchOne. destruct (_ <=? 0); simpl; [done|]. split; [done|]. by intros []. Qed.

Lemma lb_only port pod : only isReading (PulsarLoadReport.fetchOne port pod).
Proof. unfold PulsarLoadReport.fetchOne. by destruct (String.eqb _ _). Qed.

(** A call is implemented by itself, or by readings. *)
Lemma runs_loadCore c seg x :
  runs (loadClient c) seg x →
  seg = [Ev (Core c) x] ∨
  (Forall (λ e, isReading (ev_call e)) seg ∧ ∃ src pods, c = BrokerAutoscaler.CPUPercentByBroker src pods).
Proof.
  intros Hr.
  destruct c as [| | |[| |port] pods| | |]; try (left; by destruct Hr as (? & ? & -> & -> & ->)).
  - right. split; [|by eexists _, _]. eapply only_runs, Hr. apply collectReadings_only, k8s_only.
  - right. split; [|by eexists _, _]. eapply only_runs, Hr. apply collectReadings_only, lb_only.
Qed.

Lemma readings_write_nothing seg : Forall (λ e, isReading (ev_call e)) seg → spec_writes seg = [].
Proof. induction 1 as [|[[] x] seg]; simpl; try done. Qed.

Lemma implements_writes t1 t2 :
  implements loadClient t1 t2 → spec_writes t2 = BrokerAutoscaler.spec_writes t1.
Proof.
  revert t2. induction t1 as [|[c x] t1 IH]; intros t2; simpl; [by intros ->|].
  intros (seg & t2' & -> & Hr & Hi). unfold spec_writes. rewrite omap_app.
  fold (spec_writes seg) (spec_writes t2'). rewrite (IH _ Hi).
  apply runs_loadCore in Hr as [->|(Hs & src & pods & ->)].
  - unfold BrokerAutoscaler.spec_writes. by destruct c.
  - by rewrite readings_write_nothing.
Qed.

Lemma implements_core t1 t2 c x :
  implements loadClient t1 t2 → Ev c x ∈ t1 →
  (∀ src pods, c ≠ BrokerAutoscaler.CPUPercentByBroker src pods) → Ev (Core c) x ∈ t2.
Proof.
  intros Hi Hx Hc. destruct (implements_elem _ _ _ _ _ Hi Hx) as (seg & Hs & Hr).
  apply runs_loadCore in Hr as [->|(_ & src & pods & ->)]; [set_solver|]. by destruct (Hc src pods).
Qed.

Lemma stable_pods pods replicas :
  PodsStable pods replicas = true →
  wrap32 (Z.of_nat (length pods)) = replicas ∧ ∀ pod, pod ∈ pods → isPodReady pod = true.
Proof.
  unfold PodsStable. destruct (_ =? _) eqn:E; [|done]. zbool. intros H. split; [done|].
  intros pod Hp. cbn [negb] in H. rewrite forallb_forall in H. by apply H, list_elem_of_In.
Qed.

Lemma decided_reading cpu p n c :
  dDirection (Decide cpu p) ≠ NoOp → cpu !! n = Some c →
  match dDirection (Decide cpu p) with
  | ScaleUp => HigherCPUPercent p < c
  | ScaleDown => c < LowerCPUPercent p
  | NoOp => False
  end.
Proof.
  intros Hd Hn.
  destruct (Decide_scale cpu p _ eq_refl Hd) as (t & _ & _ & [(-> & _ & H & _)|(-> & _ & H & _)]);
    specialize (H n c Hn); unfold hot, cold in H; lia.
Qed.

(** As many readings as pods, so one for each of them. *)
Lemma all_read src pods t (cpu : gmap string Z) e pod :
  src ≠ BrokerAutoscaler.InjectedClient →
  runs (loadClient (BrokerAutoscaler.CPUPercentByBroker src pods)) t (cpu, e) →
  wrap32 (Z.of_nat (size cpu)) = wrap32 (Z.of_nat (length pods)) →
  NoDup (podName <$> pods) → in32 (Z.of_nat (length pods)) → pod ∈ pods →
  is_Some (cpu !! podName pod).
Proof.
  intros Hsrc Hr Hsz Hnd H32 Hp.
  assert (dom cpu ⊆ list_to_set (podName <$> pods)) as Hsub.
  { destruct src; [done| |]; apply collectReadings_dom in Hr; set_solver. }
  pose proof (size_list_to_set (C := gset string) _ Hnd) as Hl. rewrite length_fmap in Hl.
  pose proof (subseteq_size _ _ Hsub) as Hle. rewrite Hl, size_dom in Hle.
  rewrite !wrap32_id in Hsz by (unfold in32 in *; lia).
  apply elem_of_dom.
  assert (dom cpu ≡ list_to_set (C := gset string) (podName <$> pods)) as ->.
  { apply set_subseteq_size_equiv; [done|]. rewrite Hl, size_dom. lia. }
  apply elem_of_list_to_set, list_elem_of_fmap. eauto.
Qed.

(** C38: A broker is added or removed only on what the brokers' CPU readings
    say.  Whenever a tick of the deployed autoscaler writes a spec, the Broker
    was fetched with autoscaling enabled, all its pods were listed and ready,
    and every reading it acted on was computed from the answer that pod's
    metrics or load report gave in this tick; scaling up, each of them is
    above the higher threshold, scaling down, below the lower one.  The
    stabilization window had elapsed, and what is written is the fetched
    Broker with nothing but [spec.replicas] changed.  If the listed pods have
    distinct names, none of them is left out. *)
Theorem scaling_backed_by_reports req t r :
  runs (deployedReconcile req) t r →
  spec_writes t = [] ∨
  ∃ b spec pods now cpu,
    let src := BrokerAutoscaler.resolveLoadClient false b spec (BrokerAutoscaler.brokerHTTPPort (bSpec b)) in
    let p := BrokerAutoscaler.decisionParams spec (BrokerAutoscaler.brokerReplicas (bsReplicas (bSpec b))) in
    let d := Decide cpu p in
    Ev (Core (BrokerAutoscaler.Get req)) (Ok b) ∈ t ∧
    bsAutoscaler (bSpec b) = Some spec ∧ basEnabled spec = true ∧
    Ev (Core (BrokerAutoscaler.ListPods (bNamespace b)
          (SelectorLabels (bName b) BrokerAutoscaler.brokerComponent))) (Ok pods) ∈ t ∧
    Ev (Core BrokerAutoscaler.Now) now ∈ t ∧
    StabilizationElapsed (bstLastScaleTime (bStatus b))
      (BrokerAutoscaler.int32OrDefault (basStabilizationWindowSeconds spec)
         BrokerAutoscaler.defaultAutoscalerStabilizationSeconds) now = true ∧
    spec_writes t = [set_bReplicas (dTargetReplicas d) b] ∧
    map_Forall (λ n c,
      (∃ pod, pod ∈ pods ∧ podName pod = n ∧ isPodReady pod = true ∧ reading t src pod c) ∧
      match dDirection d with
      | ScaleUp => HigherCPUPercent p < c
      | ScaleDown => c < LowerCPUPercent p
      | NoOp => False
      end) cpu ∧
    (NoDup (podName <$> pods) → in32 (Z.of_nat (length pods)) →
     ∀ pod, pod ∈ pods → is_Some (cpu !! podName pod)).
Proof.
  intros (t1 & H & Hi)%runs_hoist. rewrite (implements_writes _ _ Hi).
  apply BrokerAutoscaler.spec_write_cases in H as [H|H]; [by left|right].
  destruct H as (b & spec & pods & now & cpu & err & Hg & Hs & He & Hl & Hst & Hnow & Hel & Hc & Hsz & Hd & Hw).
  apply (implements_core _ _ _ _ Hi) in Hg; [|done].
  apply (implements_core _ _ _ _ Hi) in Hl; [|done].
  apply (implements_core _ _ _ _ Hi) in Hnow; [|done].
  apply (implements_elem _ _ _ _ _ Hi) in Hc as (seg & Hseg & Hc).
  assert (BrokerAutoscaler.resolveLoadClient false b spec
            (BrokerAutoscaler.brokerHTTPPort (bSpec b)) ≠ BrokerAutoscaler.InjectedClient) as Hsrc.
  { unfold BrokerAutoscaler.resolveLoadClient. by destruct (String.eqb _ _). }
  destruct (stable_pods _ _ Hst) as [Hlen Hready].
  exists b, spec, pods, now, cpu. cbv zeta. split_and!; try done.
  - intros n c Hn. destruct (runs_loadClient _ _ _ _ _ _ _ Hsrc Hc Hn) as (pod & Hp & Hpn & Hr).
    split; [|by eapply decided_reading].
    exists pod. split_and!; [done..|by eapply Hready|by eapply reading_mono].
  - intros Hnd H32 pod Hp. eapply all_read; [exact Hsrc|exact Hc|congruence|done..].
Qed.

End Deployed.

(** * Concrete ticks *)

Module LoadReportDemo.

Definition demoQuantities : QuantityParser := {|
  ParseMilli s := if String.eqb s "900m" then Ok 900 else Err (ErrPlain "quantity")
|}.

Definition readyPod (name ip : string) : Pod :=
  mkPod name "ns" 0 None "node" ip [mkPodCondition PodReady ConditionTrue 0] [] [Some 1000].

Definition demoPods : list Pod := [readyPod "b-0" "10.0.0.1"; readyPod "b-1" "10.0.0.2"].

(** Two brokers, at the same load, of a fleet whose lower bound is one. *)
Definition demoBroker (source : string) : Broker :=
  mkBroker "b" "ns" 1
    (mkBrokerSpec (Some 2) ∅ ""
      (Some (mkBrokerAutoscalerSpec true (Some 1) (Some 5) None None None None None None source)))
    (mkBrokerStatus 2 2 1 (Some 0) []).

Definition serve (source : string) (usage limit : Z) (c : call) (s : unit) : ans c * unit :=
  (match c return ans c with
   | Core c =>
       match c return BrokerAutoscaler.ans c with
       | BrokerAutoscaler.Get _ => Ok (demoBroker source)
       | BrokerAutoscaler.ListPods _ _ => Ok demoPods
       | BrokerAutoscaler.Now => 400 * Second
       | BrokerAutoscaler.CPUPercentByBroker _ _ => (∅, None)
       | BrokerAutoscaler.Update b => Ok b
       | BrokerAutoscaler.StatusUpdate b => Ok b
       | BrokerAutoscaler.Eventf _ _ _ _ _ => tt
       end
   | GetPodMetrics _ => Ok (Found [Some (Found "900m")])
   | GetLoadReport _ => Report (of_int usage) (of_int limit)
   end, s).

Definition tick (source : string) (usage limit : Z) : list event :=
  (exec (serve source usage limit)
     (@deployedReconcile refApiMeta demoQuantities true (mkNN "ns" "b")) tt).2.

(** 90% on both sources: one more broker. *)
Example demo_scale_up :
  spec_writes (tick "PulsarLBReport" 180 200) = [set_bReplicas 3 (demoBroker "PulsarLBReport")] ∧
  spec_writes (tick "K8SMetrics" 0 0) = [set_bReplicas 3 (demoBroker "K8SMetrics")].
Proof. split; by vm_compute. Qed.

(** Brokers that have not reported real numbers yet (limit 0) all read 0% and
    are unanimously idle: the autoscaler removes one. *)
Example unreported_brokers_scale_down :
  spec_writes (tick "PulsarLBReport" 0 0) = [set_bReplicas 1 (demoBroker "PulsarLBReport")].
Proof. by vm_compute. Qed.

Lemma scaling_backed_by_reports_witness :
  let t := tick "PulsarLBReport" 180 200 in
  spec_writes t = [set_bReplicas 3 (demoBroker "PulsarLBReport")] ∧
  (spec_writes t = [] ∨ ∃ b pods cpu,
    Ev (Core (BrokerAutoscaler.Get (mkNN "ns" "b"))) (Ok b) ∈ t ∧
    spec_writes t = [set_bReplicas (dTargetReplicas (Decide cpu
      (BrokerAutoscaler.decisionParams (default (mkBrokerAutoscalerSpec true None None None None None None None None "")
         (bsAutoscaler (bSpec b))) (BrokerAutoscaler.brokerReplicas (bsReplicas (bSpec b)))))) b] ∧
    (NoDup (podName <$> pods) → in32 (Z.of_nat (length pods)) →
     ∀ pod, pod ∈ pods → is_Some ((cpu : gmap string Z) !! podName pod))).
Proof.
  intros t. split; [by vm_compute|].
  destruct (@scaling_backed_by_reports refApiMeta demoQuantities true (mkNN "ns" "b") t _
              (exec_runs (serve "PulsarLBReport" 180 200) _ tt)) as [H|H]; [by left|right].
  destruct H as (b & spec & pods & now & cpu & Hg & Hs & _ & _ & _ & _ & Hw & _ & Hall).
  exists b, pods, cpu. rewrite Hs. by split_and!.
Defined.

End LoadReportDemo.

End LoadReport.
