(* ===== verification/BookKeeper.v ===== *)
(** The BookKeeper custom resource (api/cluster/v1alpha1/bookkeeper_types.go
    and bookkeeper_decommission_types.go) and the spec defaults the bookie
    controllers share.  Fields no modelled controller reads or writes
    (image, config, volumes, placement) are left out of the records. *)

From S2P Require Import Prelude Kube.
Open Scope Z_scope.
Open Scope go_scope.

Record BookKeeperEnsembleSpec := mkEnsemble {
  EnsembleSize : option Z;
  WriteQuorum : option Z;
  AckQuorum : option Z
}.

#[export] Instance BookKeeperEnsembleSpec_eq_dec : EqDecision BookKeeperEnsembleSpec.
Proof. solve_decision. Defined.

Record BookKeeperAutoscalerSpec := mkBKAutoscaler {
  Enabled : bool;
  MinWritableBookies : option Z;
  ScaleUpBy : option Z;
  ScaleDownBy : option Z;
  ScaleUpMaxLimit : option Z;
  DiskUsageToleranceHwm : option Z;
  DiskUsageToleranceLwm : option Z;
  StabilizationWindowSeconds : option Z;
  ScaleDownEnabled : option bool;
  PeriodSeconds : option Z;
  DecommissionTimeoutSeconds : option Z
}.

#[export] Instance BookKeeperAutoscalerSpec_eq_dec : EqDecision BookKeeperAutoscalerSpec.
Proof. solve_decision. Defined.

Record BookKeeperSpec := mkBKSpec {
  Replicas : option Z;
  Ensemble : option BookKeeperEnsembleSpec;
  Autoscaler : option BookKeeperAutoscalerSpec
}.

#[export] Instance BookKeeperSpec_eq_dec : EqDecision BookKeeperSpec.
Proof. solve_decision. Defined.

(** The phases of the guarded decommission.  The Go type is a string; any
    other string is [PhaseUnknown]. *)
Inductive BookKeeperDecommissionPhase :=
| PhaseNone
| PhaseVerifying
| PhaseMarkingReadOnly
| PhaseTriggeringRecovery
| PhaseAwaitingReplication
| PhaseInvalidatingCookie
| PhaseScalingDown
| PhaseDeletingPVCs
| PhaseUnknown (s : string).

#[export] Instance phase_eq_dec : EqDecision BookKeeperDecommissionPhase.
Proof. solve_decision. Defined.

Definition phaseString (p : BookKeeperDecommissionPhase) : string :=
  match p with
  | PhaseNone => ""
  | PhaseVerifying => "Verifying"
  | PhaseMarkingReadOnly => "MarkingReadOnly"
  | PhaseTriggeringRecovery => "TriggeringRecovery"
  | PhaseAwaitingReplication => "AwaitingReplication"
  | PhaseInvalidatingCookie => "InvalidatingCookie"
  | PhaseScalingDown => "ScalingDown"
  | PhaseDeletingPVCs => "DeletingPVCs"
  | PhaseUnknown s => s
  end.

Record BookKeeperDecommissionStatus := mkDecom {
  dPhase : BookKeeperDecommissionPhase;
  dTargetOrdinal : option Z;
  dTargetBookieID : string;
  dManual : bool;
  dStartedAt : option Z;
  dMessage : string
}.

#[export] Instance BookKeeperDecommissionStatus_eq_dec : EqDecision BookKeeperDecommissionStatus.
Proof. solve_decision. Defined.

Record BookKeeperStatus := mkBKStatus {
  stReplicas : Z;
  stReadyReplicas : Z;
  stWritableBookies : Z;
  stLastScaleTime : option Z;
  stDecommission : option BookKeeperDecommissionStatus;
  stObservedGeneration : Z;
  stConditions : list Condition
}.

#[export] Instance BookKeeperStatus_eq_dec : EqDecision BookKeeperStatus.
Proof. solve_decision. Defined.

Record BookKeeper := mkBK {
  bkName : string;
  bkNamespace : string;
  bkGeneration : Z;
  bkAnnotations : gmap string string;
  bkSpec : BookKeeperSpec;
  bkStatus : BookKeeperStatus
}.

#[export] Instance BookKeeper_eq_dec : EqDecision BookKeeper.
Proof. solve_decision. Defined.

Definition bkKey (bk : BookKeeper) : NamespacedName := mkNN (bkNamespace bk) (bkName bk).

(** * Field updates *)

Definition set_Replicas (n : Z) (bk : BookKeeper) : BookKeeper :=
  mkBK (bkName bk) (bkNamespace bk) (bkGeneration bk) (bkAnnotations bk)
    (mkBKSpec (Some n) (Ensemble (bkSpec bk)) (Autoscaler (bkSpec bk))) (bkStatus bk).

Definition set_Status (st : BookKeeperStatus) (bk : BookKeeper) : BookKeeper :=
  mkBK (bkName bk) (bkNamespace bk) (bkGeneration bk) (bkAnnotations bk) (bkSpec bk) st.

Definition set_Annotations (a : gmap string string) (bk : BookKeeper) : BookKeeper :=
  mkBK (bkName bk) (bkNamespace bk) (bkGeneration bk) a (bkSpec bk) (bkStatus bk).

Definition set_Decommission (d : option BookKeeperDecommissionStatus) (bk : BookKeeper) :
    BookKeeper :=
  let s := bkStatus bk in
  set_Status (mkBKStatus (stReplicas s) (stReadyReplicas s) (stWritableBookies s)
    (stLastScaleTime s) d (stObservedGeneration s) (stConditions s)) bk.

Definition set_Conditions (cs : list Condition) (bk : BookKeeper) : BookKeeper :=
  let s := bkStatus bk in
  set_Status (mkBKStatus (stReplicas s) (stReadyReplicas s) (stWritableBookies s)
    (stLastScaleTime s) (stDecommission s) (stObservedGeneration s) cs) bk.

Definition set_WritableBookies (n : Z) (bk : BookKeeper) : BookKeeper :=
  let s := bkStatus bk in
  set_Status (mkBKStatus (stReplicas s) (stReadyReplicas s) n
    (stLastScaleTime s) (stDecommission s) (stObservedGeneration s) (stConditions s)) bk.

Definition set_LastScaleTime (t : Z) (bk : BookKeeper) : BookKeeper :=
  let s := bkStatus bk in
  set_Status (mkBKStatus (stReplicas s) (stReadyReplicas s) (stWritableBookies s)
    (Some t) (stDecommission s) (stObservedGeneration s) (stConditions s)) bk.

(** * Spec defaults *)

Definition bookkeeperComponent : string := "bookkeeper".
Definition bookiePort : Z := 3181.
Definition bookieAdminPort : Z := 8000.
Definition defaultBookKeeperReplicas : Z := 4.
Definition defaultWriteQuorum : Z := 2.
Definition defaultAckQuorum : Z := 2.
Definition defaultEnsembleSize : Z := 3.
Definition defaultDecommissionTimeoutSeconds : Z := 1800.
Definition defaultBookieDecommissionPeriodSeconds : Z := 10.
Definition defaultStabilizationWindowSeconds : Z := 300.
Definition defaultDiskUsageToleranceLwmPct : Z := 75.

Definition resolveReplicas (spec : BookKeeperSpec) : Z :=
  default defaultBookKeeperReplicas (Replicas spec).

Definition resolveWriteQuorum (spec : BookKeeperSpec) : Z :=
  default defaultWriteQuorum (e ← Ensemble spec; WriteQuorum e).

Definition resolveAckQuorum (spec : BookKeeperSpec) : Z :=
  default defaultAckQuorum (e ← Ensemble spec; AckQuorum e).

Definition resolveEnsembleSize (spec : BookKeeperSpec) : Z :=
  default defaultEnsembleSize (e ← Ensemble spec; EnsembleSize e).

Definition resolveMinWritableBookies (spec : BookKeeperSpec) (ensembleSize : Z) : Z :=
  default ensembleSize (a ← Autoscaler spec; MinWritableBookies a).

Definition resolveDecommissionTimeout (spec : BookKeeperSpec) : Z :=
  default defaultDecommissionTimeoutSeconds (a ← Autoscaler spec; DecommissionTimeoutSeconds a).

Definition resolvePeriod (spec : BookKeeperSpec) : Z :=
  seconds (default defaultBookieDecommissionPeriodSeconds (a ← Autoscaler spec; PeriodSeconds a)).

Definition resolveStabilizationWindow (spec : BookKeeperSpec) : Z :=
  seconds (default defaultStabilizationWindowSeconds
             (a ← Autoscaler spec; StabilizationWindowSeconds a)).

(** * Names *)

Definition bookiePodName (bk : BookKeeper) (ordinal : Z) : string :=
  bkName bk ++! "-" ++! %d ordinal.

Definition bookieIDFor (bk : BookKeeper) (ordinal : Z) : string :=
  bookiePodName bk ordinal ++! "." ++! bkName bk ++! "." ++! bkNamespace bk ++!
  ".svc.cluster.local:" ++! %d bookiePort.

(** Different ordinals of one BookKeeper name different pods. *)
Lemma bookiePodName_inj bk n m : bookiePodName bk n = bookiePodName bk m → n = m.
Proof.
  unfold bookiePodName. intros H.
  assert (∀ s u v : string, String.append s u = String.append s v → u = v) as Happ.
  { intros s. induction s as [|c s IH]; simpl; intros u v E; [done|].
    apply IH. by injection E. }
  apply Happ, Happ in H. by apply (inj (pretty : Z → string)) in H.
Qed.
