(* ===== verification/BookieScale.v ===== *)
(** The bookie disk-watermark autoscaler: the readings of
    internal/autoscaler/bookkeeper/client.go, the scale-up decision of
    internal/autoscaler/bookkeeper/decision.go and the reconcile loop of
    internal/controller/cluster/bookkeeper_autoscaler_controller.go. *)

From S2P Require Import Prelude Effects GoFloat Kube BookKeeper.
Open Scope Z_scope.
Open Scope go_scope.

(** * Bookie readings *)

(** [IsConnectionError]: the error is, or wraps, a ConnectionError. *)
Fixpoint IsConnectionError (e : goerr) : bool :=
  match e with
  | ConnectionError _ _ => true
  | Errorf _ e' | ErrorfWith _ e' _ => IsConnectionError e'
  | Errorf2 _ e1 _ e2 => IsConnectionError e1 || IsConnectionError e2
  | _ => false
  end.

Record BookieState := mkBookieState { Running : bool; ReadOnly : bool; ShuttingDown : bool }.

Definition Writable (s : BookieState) : bool :=
  Running s && negb (ReadOnly s) && negb (ShuttingDown s).

Record BookieDiskUsage := mkDisk { UsedBytes : Z; TotalBytes : Z }.

Definition Fraction (d : BookieDiskUsage) : float64 :=
  if TotalBytes d <=? 0 then of_int 1
  else
    let used := Z.max (UsedBytes d) 0 in
    let used := Z.min used (TotalBytes d) in
    fdiv (of_int used) (of_int (TotalBytes d)).

Definition BookieInfo : Type := list BookieDiskUsage.

Definition allLedgerDisksAtOrAboveHwm (disks : BookieInfo) (hwmPercent : Z) : bool :=
  match disks with
  | [] => false
  | _ => forallb (λ d, negb (flt (Fraction d) (fdiv (of_int hwmPercent) (of_int 100)))) disks
  end.

(** * The decision *)

Module BookieDecision.

Definition ReasonWritableBookieDeficit : string := "WritableBookieDeficit".
Definition ReasonDiskUsageAtHighWatermark : string := "DiskUsageAtHighWatermark".
Definition ReasonStable : string := "Stable".

Record Params := mkParams {
  pCurrentReplicas : Z;
  pMinWritableBookies : Z;
  pScaleUpBy : Z;
  pScaleUpMaxLimit : Z;
  pHwmPercent : Z
}.

Record Decision := mkDecision {
  ShouldScale : bool;
  TargetReplicas : Z;
  WritableBookies : Z;
  Reason : string;
  Message : string
}.

(** The [switch]: the unclamped target, the reason and the message. *)
Definition wanted (p : Params) (writable : Z) (atRisk pollComplete : bool) : Z * string * string :=
  let current := pCurrentReplicas p in
  if pollComplete && (writable <? pMinWritableBookies p) then
    let deficit := wrap32 (pMinWritableBookies p - writable) in
    (wrap32 (current + deficit), ReasonWritableBookieDeficit,
     "only " ++! %d writable ++! "/" ++! %d (pMinWritableBookies p) ++!
     " writable bookies; scaling up by the " ++! %d deficit ++! "-bookie deficit")
  else if atRisk then
    (wrap32 (current + pScaleUpBy p), ReasonDiskUsageAtHighWatermark,
     "a writable bookie's ledger directories are all at/above the " ++! %d (pHwmPercent p) ++!
     "% disk high-watermark; scaling up by " ++! %d (pScaleUpBy p))
  else
    (current, ReasonStable,
     "writable bookie count and disk usage are within tolerance; no scale-up needed").

Definition decide_ (p : Params) (writable : Z) (atRisk pollComplete : bool) : Decision :=
  let current := pCurrentReplicas p in
  let '(target, reason, message) := wanted p writable atRisk pollComplete in
  let target := if (pScaleUpMaxLimit p >? 0) && (target >? pScaleUpMaxLimit p)
                then pScaleUpMaxLimit p else target in
  let target := if target <? current then current else target in
  mkDecision (negb (target =? current)) target writable reason message.

Lemma decide_target p writable atRisk pollComplete :
  let d := decide_ p writable atRisk pollComplete in
  pCurrentReplicas p <= TargetReplicas d ∧
  (0 < pScaleUpMaxLimit p →
     TargetReplicas d <= Z.max (pCurrentReplicas p) (pScaleUpMaxLimit p)) ∧
  (ShouldScale d = true ↔ pCurrentReplicas p < TargetReplicas d) ∧
  WritableBookies d = writable.
Proof.
  unfold decide_. destruct (wanted _ _ _ _) as [[t reason] msg]. simpl.
  destruct ((_ >? 0) && _) eqn:E1; destruct (_ <? pCurrentReplicas p) eqn:E2;
    rewrite negb_true_iff, Z.eqb_neq; zbool; repeat split; intros; try lia; try done;
    destruct E1; zbool; lia.
Qed.

(** The reason names the branch taken. *)
Lemma decide_reason p writable atRisk pollComplete :
  Reason (decide_ p writable atRisk pollComplete) =
    (if pollComplete && (writable <? pMinWritableBookies p) then ReasonWritableBookieDeficit
     else if atRisk then ReasonDiskUsageAtHighWatermark else ReasonStable).
Proof. unfold decide_, wanted. break_goal; simplify_eq; done. Qed.

(** No deficit and no disk at risk: nothing to do, whatever the limit. *)
Lemma decide_quiet p writable pollComplete :
  (pollComplete && (writable <? pMinWritableBookies p))%bool = false →
  ShouldScale (decide_ p writable false pollComplete) = false.
Proof.
  intros H. unfold decide_, wanted. rewrite H. simpl.
  destruct ((_ >? 0) && _) eqn:E1; zbool.
  - rewrite (proj2 (Z.ltb_lt _ _)) by lia. by rewrite Z.eqb_refl.
  - by rewrite Z.ltb_irrefl, Z.eqb_refl.
Qed.

(** An increase is always explained by a branch that asked for one. *)
Lemma decide_scale_reason p writable atRisk pollComplete :
  ShouldScale (decide_ p writable atRisk pollComplete) = true →
  (pollComplete = true ∧ writable < pMinWritableBookies p) ∨ atRisk = true.
Proof.
  intros H. destruct atRisk; [by right|]. left.
  destruct (pollComplete && (writable <? pMinWritableBookies p)) eqn:E.
  - by zbool.
  - by rewrite decide_quiet in H.
Qed.

End BookieDecision.

(** * The reconcile loop *)

Module BookieAutoscaler.
Import BookieDecision.

Definition conditionTypeReady : string := "Ready".
Definition conditionTypeAutoscaling : string := "Autoscaling".
Definition reasonInvalidAutoscalerConfig : string := "InvalidAutoscalerConfig".
Definition reasonBookieAdminPollFailed : string := "BookieAdminPollFailed".
Definition defaultAutoscalerEnsembleSize : Z := 3.
Definition defaultAutoscalerScaleUpBy : Z := 1.
Definition defaultAutoscalerHwmPercent : Z := 92.
Definition defaultAutoscalerStabilizationWindowSecs : Z := 300.
Definition defaultAutoscalerPeriodSecs : Z := 10.
Definition unboundedScaleUpMaxLimit : Z := 0.

Definition resolveAutoscalerEnsembleSize (spec : BookKeeperSpec) : Z :=
  default defaultAutoscalerEnsembleSize (e ← Ensemble spec; EnsembleSize e).
Definition resolveAutoscalerMinWritableBookies (a : BookKeeperAutoscalerSpec) (ensembleSize : Z) : Z :=
  default ensembleSize (MinWritableBookies a).
Definition resolveAutoscalerScaleUpBy (a : BookKeeperAutoscalerSpec) : Z :=
  default defaultAutoscalerScaleUpBy (ScaleUpBy a).
Definition resolveAutoscalerScaleUpMaxLimit (a : BookKeeperAutoscalerSpec) : Z :=
  default unboundedScaleUpMaxLimit (ScaleUpMaxLimit a).
Definition resolveAutoscalerHwmPercent (a : BookKeeperAutoscalerSpec) : Z :=
  default defaultAutoscalerHwmPercent (DiskUsageToleranceHwm a).
Definition resolveAutoscalerStabilizationWindowSeconds (a : BookKeeperAutoscalerSpec) : Z :=
  default defaultAutoscalerStabilizationWindowSecs (StabilizationWindowSeconds a).
Definition resolveAutoscalerPeriodSeconds (a : BookKeeperAutoscalerSpec) : Z :=
  default defaultAutoscalerPeriodSecs (PeriodSeconds a).

(** ** Calls *)

Inductive call :=
| Get (nn : NamespacedName)
| ListPods (ns : string) (selector : gmap string string)
| Now
| State (addr : string)
| Info (addr : string)
| Patch (base obj : BookKeeper)
| StatusPatch (base obj : BookKeeper)
| Eventf (bk : BookKeeper) (ty : EventType) (reason action note : string).

Definition ans (c : call) : Type :=
  match c with
  | Get _ => res BookKeeper
  | ListPods _ _ => res (list Pod)
  | Now => Z
  | State _ => res BookieState
  | Info _ => res BookieInfo
  | Patch _ _ => res BookKeeper
  | StatusPatch _ _ => res BookKeeper
  | Eventf _ _ _ _ _ => unit
  end.

(** ** Polling *)

(** The loop's accumulated readings.  The code's two counters are [int32]s; each
    counts addresses of one poll, so they are within the width for every list of
    fewer than [2^31] of them ([poll_counts_in32]) and no wrap-around is written
    out here. *)
Record Poll := mkPoll {
  pollWritable : Z;
  pollResponded : Z;
  pollAtRisk : bool;
  pollComplete : bool;
  pollConnErrs : list goerr
}.

Definition emptyPoll : Poll := mkPoll 0 0 false true [].

Definition connFailed (e : goerr) (a : Poll) : Poll :=
  mkPoll (pollWritable a) (pollResponded a) (pollAtRisk a) false (pollConnErrs a ++ [e]).

Fixpoint pollBookies (p : Params) (addrs : list string) (a : Poll) : prog ans (res Poll) :=
  match addrs with
  | [] => Ret (Ok a)
  | addr :: addrs' =>
      (let! state := perform ans (State addr) in
       match state with
       | Err e =>
           if IsConnectionError e then pollBookies p addrs' (connFailed e a)
           else Ret (Err (Errorf ("get bookie state for " ++! addr) e))
       | Ok s =>
           let a := mkPoll (pollWritable a) (pollResponded a + 1) (pollAtRisk a)
                      (pollComplete a) (pollConnErrs a) in
           if negb (Writable s) then pollBookies p addrs' a
           else
             let a := mkPoll (pollWritable a + 1) (pollResponded a) (pollAtRisk a)
                        (pollComplete a) (pollConnErrs a) in
             let! info := perform ans (Info addr) in
             match info with
             | Err e =>
                 if IsConnectionError e then pollBookies p addrs' (connFailed e a)
                 else Ret (Err (Errorf ("get bookie info for " ++! addr) e))
             | Ok disks =>
                 let risk := allLedgerDisksAtOrAboveHwm disks (pHwmPercent p) in
                 pollBookies p addrs'
                   (mkPoll (pollWritable a) (pollResponded a) (pollAtRisk a || risk)
                      (pollComplete a) (pollConnErrs a))
             end
       end)%prog
  end.

(** The text of [errors.Join]: one error per line. *)
Definition joinErrs (es : list goerr) : goerr :=
  ErrPlain (String.concat (String "010"%char EmptyString) (error_text <$> es)).

Definition Evaluate (addrs : list string) (p : Params) : prog ans (res Decision) :=
  (try! a := pollBookies p addrs emptyPoll in
   let n := Z.of_nat (length addrs) in
   let quorum := if n <? pMinWritableBookies p then n else pMinWritableBookies p in
   if pollResponded a <? quorum then
     Ret (Err (Errorf ("only " ++! %d (pollResponded a) ++! " of " ++! %d n ++!
                       " bookies responded; too few to safely evaluate scale-up")
                 (joinErrs (pollConnErrs a))))
   else Ret (Ok (decide_ p (pollWritable a) (pollAtRisk a) (pollComplete a))))%prog.

(** ** What a poll concludes *)

(** The reference reading of one bookie, from what its two endpoints answer. *)
Inductive reading :=
| Dark                     (** no state: the bookie is unreachable *)
| Corrupt                  (** a reply that is not a transport failure but unusable *)
| NotWritable
| WritableDark             (** writable, but the disk query failed in transport *)
| WritableDisk (risk : bool).

#[export] Instance reading_eq_dec : EqDecision reading.
Proof. solve_decision. Defined.

Section Reference.
Context (st : string → res BookieState) (inf : string → res BookieInfo) (p : Params).

Definition readingOf (addr : string) : reading :=
  match st addr with
  | Err e => if IsConnectionError e then Dark else Corrupt
  | Ok s =>
      if negb (Writable s) then NotWritable
      else match inf addr with
           | Err e => if IsConnectionError e then WritableDark else Corrupt
           | Ok disks => WritableDisk (allLedgerDisksAtOrAboveHwm disks (pHwmPercent p))
           end
  end.

Definition isWritable (r : reading) : bool :=
  match r with WritableDark | WritableDisk _ => true | _ => false end.
Definition isResponse (r : reading) : bool := negb (bool_decide (r = Dark)).
Definition isComplete (r : reading) : bool :=
  match r with NotWritable | WritableDisk _ => true | _ => false end.
Definition isRisk (r : reading) : bool := bool_decide (r = WritableDisk true).

Definition countIf (f : reading → bool) (addrs : list string) : Z :=
  Z.of_nat (length (filter (λ a, f (readingOf a) = true) addrs)).

Lemma countIf_cons f a addrs :
  countIf f (a :: addrs) = (if f (readingOf a) then 1 else 0) + countIf f addrs.
Proof.
  unfold countIf. destruct (f (readingOf a)) eqn:E;
    [rewrite filter_cons_True by done|rewrite filter_cons_False by congruence]; simpl; lia.
Qed.

Context {S : Type} (serve : ∀ c : call, S → ans c * S).
Hypothesis serve_State : ∀ addr s, serve (State addr) s = (st addr, s).
Hypothesis serve_Info : ∀ addr s, serve (Info addr) s = (inf addr, s).

Definition poll_of (addrs : list string) (a : Poll) (s : S) : res Poll :=
  (exec serve (pollBookies p addrs a) s).1.1.

(** What one reading adds to the accumulated poll. *)
Definition absorbs (r : reading) (a a' : Poll) : Prop :=
  pollWritable a' = (if isWritable r then 1 else 0) + pollWritable a ∧
  pollResponded a' = (if isResponse r then 1 else 0) + pollResponded a ∧
  pollAtRisk a' = pollAtRisk a || isRisk r ∧
  pollComplete a' = pollComplete a && isComplete r.

Lemma poll_cons x addrs a s :
  (readingOf x = Corrupt ∧ ∃ e, poll_of (x :: addrs) a s = Err e) ∨
  (readingOf x ≠ Corrupt ∧
     ∃ a', poll_of (x :: addrs) a s = poll_of addrs a' s ∧ absorbs (readingOf x) a a').
Proof.
  unfold poll_of, absorbs, readingOf.
  cbn [pollBookies bind perform exec]. rewrite serve_State.
  destruct (st x) as [bs|e]; cbn [exec bind].
  - destruct (Writable bs); cbn [negb exec bind perform].
    + rewrite serve_Info. destruct (inf x) as [disks|e]; cbn [exec bind].
      * right. split; [done|]. destruct (exec serve _ s) as [[] ] eqn:E.
        eexists. rewrite E. split; [done|]. simpl. rewrite andb_true_r.
        split_and!; try done || lia. f_equal. by destruct (allLedgerDisksAtOrAboveHwm _ _).
      * destruct (IsConnectionError e); [right|left; by eauto].
        split; [done|]. destruct (exec serve _ s) as [[] ] eqn:E.
        eexists. rewrite E. split; [done|]. simpl. rewrite andb_false_r, orb_false_r.
        split_and!; done || lia.
    + right. split; [done|]. destruct (exec serve _ s) as [[] ] eqn:E.
      eexists. rewrite E. split; [done|]. simpl. rewrite andb_true_r, orb_false_r.
      split_and!; done || lia.
  - destruct (IsConnectionError e); [right|left; by eauto].
    split; [done|]. destruct (exec serve _ s) as [[] ] eqn:E.
    eexists. rewrite E. split; [done|]. simpl. rewrite andb_false_r, orb_false_r.
    split_and!; done || lia.
Qed.

Lemma pollBookies_result addrs a s :
  match poll_of addrs a s with
  | Err _ => Exists (λ x, readingOf x = Corrupt) addrs
  | Ok a' =>
      Forall (λ x, readingOf x ≠ Corrupt) addrs ∧
      pollWritable a' = pollWritable a + countIf isWritable addrs ∧
      pollResponded a' = pollResponded a + countIf isResponse addrs ∧
      pollAtRisk a' = pollAtRisk a || existsb (λ x, isRisk (readingOf x)) addrs ∧
      pollComplete a' = pollComplete a && forallb (λ x, isComplete (readingOf x)) addrs
  end.
Proof.
  revert a. induction addrs as [|x addrs IH]; intros a.
  { unfold poll_of, countIf. simpl. rewrite orb_false_r, andb_true_r. split_and!; done || lia. }
  destruct (poll_cons x addrs a s) as [[Hc [e ->]]|[Hc (a0 & -> & Habs)]]; [by left|].
  specialize (IH a0). destruct (poll_of addrs a0 s) as [a'|e]; [|by right].
  destruct IH as (? & -> & -> & -> & ->), Habs as (-> & -> & -> & ->).
  rewrite !countIf_cons. simpl. rewrite orb_assoc, andb_assoc.
  split_and!; done || (by constructor) || lia.
Qed.

Lemma countIf_bounds f addrs : 0 <= countIf f addrs <= Z.of_nat (length addrs).
Proof. unfold countIf. pose proof (length_filter (λ a, f (readingOf a) = true) addrs). lia. Qed.

(** The counters of a poll of fewer than [2^31] bookies never wrap. *)
Lemma poll_counts_in32 addrs s a :
  poll_of addrs emptyPoll s = Ok a → Z.of_nat (length addrs) < 2 ^ 31 →
  in32 (pollWritable a) ∧ in32 (pollResponded a).
Proof.
  intros E Hl. pose proof (pollBookies_result addrs emptyPoll s) as H. rewrite E in H.
  destruct H as (_ & -> & -> & _). simpl. unfold in32.
  pose proof (countIf_bounds isWritable addrs). pose proof (countIf_bounds isResponse addrs). lia.
Qed.

(** The outcome of a tick's evaluation, by the reference readings. *)
Definition enoughResponses (addrs : list string) : Prop :=
  Z.min (pMinWritableBookies p) (Z.of_nat (length addrs)) <= countIf isResponse addrs.

Definition referenceDecision (addrs : list string) : Decision :=
  decide_ p (countIf isWritable addrs) (existsb (λ x, isRisk (readingOf x)) addrs)
    (forallb (λ x, isComplete (readingOf x)) addrs).

Lemma Evaluate_result addrs s d :
  (exec serve (Evaluate addrs p) s).1.1 = Ok d ↔
  Forall (λ x, readingOf x ≠ Corrupt) addrs ∧ enoughResponses addrs ∧
  d = referenceDecision addrs.
Proof.
  unfold Evaluate, bind_ok. rewrite exec_bind.
  pose proof (pollBookies_result addrs emptyPoll s) as H. unfold poll_of in H.
  destruct (exec serve (pollBookies p addrs emptyPoll) s) as [[[a|e] s'] t]; simpl in *.
  - destruct H as (Hc & Hw & Hr & Hrisk & Hcomp). rewrite Hw, Hr, Hrisk, Hcomp. simpl.
    unfold enoughResponses, referenceDecision.
    replace (if Z.of_nat (length addrs) <? pMinWritableBookies p
             then Z.of_nat (length addrs) else pMinWritableBookies p)
      with (Z.min (pMinWritableBookies p) (Z.of_nat (length addrs)))
      by (destruct (Z.ltb_spec (Z.of_nat (length addrs)) (pMinWritableBookies p)); lia).
    destruct (Z.ltb_spec (0 + countIf isResponse addrs)
                (Z.min (pMinWritableBookies p) (Z.of_nat (length addrs)))); simpl;
      rewrite ?Z.add_0_l in *; split; try naive_solver lia.
  - split; [done|]. intros [Hf _]. exfalso. apply Exists_exists in H as (x & Hx & ?).
    rewrite Forall_forall in Hf. naive_solver.
Qed.

(** The evaluation refines the per-bookie readings.  It succeeds exactly
    when no reading is corrupt and enough bookies answered (the smaller of
    the writable minimum and the ensemble polled), and then it is the
    decision taken on the counted readings. *)
Theorem Evaluate_refines addrs s d :
  (exec serve (Evaluate addrs p) s).1.1 = Ok d ↔
  Forall (λ x, readingOf x ≠ Corrupt) addrs ∧ enoughResponses addrs ∧
  d = referenceDecision addrs.
Proof. apply Evaluate_result. Qed.

(** An incomplete poll never fabricates a deficit.  A deficit decision
    means every polled bookie answered both of the questions it was asked,
    and fewer than the minimum of them are writable. *)
Theorem Evaluate_deficit_is_real addrs s d :
  (exec serve (Evaluate addrs p) s).1.1 = Ok d →
  Reason d = ReasonWritableBookieDeficit →
  Forall (λ x, isComplete (readingOf x) = true) addrs ∧
  countIf isWritable addrs < pMinWritableBookies p.
Proof.
  intros (_ & _ & ->)%Evaluate_result. unfold referenceDecision. rewrite decide_reason.
  destruct (forallb _ addrs) eqn:Hf; simpl; [|by destruct (existsb _ addrs)].
  destruct (_ <? _) eqn:E; [|by destruct (existsb _ addrs)]. intros _. zbool.
  split; [|done]. rewrite Forall_forall. intros x Hx.
  rewrite forallb_forall in Hf. apply Hf. by apply list_elem_of_In.
Qed.
End Reference.

(** ** The controller *)

Definition bookieAdminAddrs (pods : list Pod) : list string :=
  omap (λ pod, if String.eqb (podIP pod) "" then None
               else Some (podIP pod ++! ":" ++! %d bookieAdminPort)) pods.

Section Reconciler.
Context `{AM : !ApiMeta}.

Definition nsName (bk : BookKeeper) : string := bkNamespace bk ++! "/" ++! bkName bk.

(** The status half of the stabilization gate; the clock is read only when a
    last scale time is recorded. *)
Definition isStabilized (bk : BookKeeper) (a : BookKeeperAutoscalerSpec) : prog ans bool :=
  let desired := resolveReplicas (bkSpec bk) in
  let st := bkStatus bk in
  if negb (stReplicas st =? desired) || negb (stReadyReplicas st =? desired) then Ret false
  else
    match FindStatusCondition (stConditions st) conditionTypeReady with
    | None => Ret false
    | Some c =>
        if negb (bool_decide (cStatus c = ConditionTrue)) then Ret false
        else
          match stLastScaleTime st with
          | None => Ret true
          | Some t =>
              (let! now := perform ans Now in
               Ret (Sub now t >=? seconds (resolveAutoscalerStabilizationWindowSeconds a)))%prog
          end
    end.

Definition recordInvalidConfig (bk : BookKeeper) (ensembleSize minWritable : Z) :
    prog ans (res unit) :=
  let msg := "autoscaler.minWritableBookies (" ++! %d minWritable ++!
             ") must be >= ensemble.ensembleSize (" ++! %d ensembleSize ++!
             "); bookie scale-up is disabled until this is corrected" in
  let '(cs, changed) := SetStatusCondition (stConditions (bkStatus bk))
    (newCondition conditionTypeAutoscaling ConditionFalse (bkGeneration bk)
       reasonInvalidAutoscalerConfig msg) in
  if negb changed then Ret (Ok tt)
  else
    (try! ["update bookkeeper " ++! nsName bk ++! " autoscaler status"] bk' :=
       perform ans (StatusPatch bk (set_Conditions cs bk)) in
     let! _ := perform ans (Eventf bk' EventTypeWarning reasonInvalidAutoscalerConfig
                              "RejectConfig" msg) in
     Ret (Ok tt))%prog.

Definition recordWritableBookies (bk : BookKeeper) (writable : Z) : prog ans (res BookKeeper) :=
  if stWritableBookies (bkStatus bk) =? writable then Ret (Ok bk)
  else
    (try! ["update bookkeeper " ++! nsName bk ++! " status.writableBookies"] bk' :=
       perform ans (StatusPatch bk (set_WritableBookies writable bk)) in
     Ret (Ok bk'))%prog.

Definition scaleUp (bk : BookKeeper) (previousReplicas : Z) (d : Decision) : prog ans (res unit) :=
  let target := TargetReplicas d in
  (try! ["scale bookkeeper " ++! nsName bk ++! " from " ++! %d previousReplicas ++! " to " ++!
         %d target ++! " replicas"] bk1 :=
     perform ans (Patch bk (set_Replicas target bk)) in
   let! now := perform ans Now in
   let bk2 := set_LastScaleTime now bk1 in
   let bk3 := set_Conditions (setCond (stConditions (bkStatus bk2))
     (newCondition conditionTypeAutoscaling ConditionTrue (bkGeneration bk2)
        (Reason d) (Message d))) bk2 in
   try! ["update bookkeeper " ++! nsName bk ++! " autoscaler status"] bk4 :=
     perform ans (StatusPatch bk1 bk3) in
   let! _ := perform ans (Eventf bk4 EventTypeNormal (Reason d) "ScaleUp"
     ("scaled bookies from " ++! %d previousReplicas ++! " to " ++! %d target ++! ": " ++!
      Message d)) in
   Ret (Ok tt))%prog.

Definition tickParams (bk : BookKeeper) (a : BookKeeperAutoscalerSpec) : Params :=
  mkParams (resolveReplicas (bkSpec bk))
    (resolveAutoscalerMinWritableBookies a (resolveAutoscalerEnsembleSize (bkSpec bk)))
    (resolveAutoscalerScaleUpBy a) (resolveAutoscalerScaleUpMaxLimit a)
    (resolveAutoscalerHwmPercent a).

Definition evaluateAndScale (bk : BookKeeper) (a : BookKeeperAutoscalerSpec)
    (addrs : list string) (result : Result) : prog ans (res Result) :=
  let params := tickParams bk a in
  (let! ev := Evaluate addrs params in
   match ev with
   | Err e =>
       let! _ := perform ans (Eventf bk EventTypeWarning reasonBookieAdminPollFailed
         "PollBookieAdmin" ("failed to poll bookie admin API: " ++! error_text e)) in
       Ret (Ok result)
   | Ok d =>
       try! bk1 := recordWritableBookies bk (WritableBookies d) in
       if negb (ShouldScale d) then Ret (Ok result)
       else
         try! _ := scaleUp bk1 (pCurrentReplicas params) d in
         Ret (Ok result)
   end)%prog.

Definition Reconcile (req : NamespacedName) : prog ans (res Result) :=
  (let! got := perform ans (Get req) in
   match got with
   | Err e => Ret (ignore_not_found e)
   | Ok bk =>
       match Autoscaler (bkSpec bk) with
       | None => Ret (Ok emptyResult)
       | Some a =>
           if negb (Enabled a) then Ret (Ok emptyResult)
           else
             let result := mkResult (seconds (resolveAutoscalerPeriodSeconds a)) in
             let ensembleSize := resolveAutoscalerEnsembleSize (bkSpec bk) in
             let minWritable := resolveAutoscalerMinWritableBookies a ensembleSize in
             if minWritable <? ensembleSize then
               try! _ := recordInvalidConfig bk ensembleSize minWritable in
               Ret (Ok result)
             else
               let! stable := isStabilized bk a in
               if negb stable then Ret (Ok result)
               else
                 try! ["list bookie pods for " ++! nsName bk] pods :=
                   perform ans (ListPods (bkNamespace bk)
                     (SelectorLabels (bkName bk) bookkeeperComponent)) in
                 let addrs := bookieAdminAddrs pods in
                 if wrap32 (Z.of_nat (length addrs)) <? resolveReplicas (bkSpec bk) then
                   Ret (Ok result)
                 else evaluateAndScale bk a addrs result
       end
   end)%prog.

(** ** What a tick may do *)

(** The spec patches a run sends, as (base, patched object). *)
Definition patches (t : list (event ans)) : list (BookKeeper * BookKeeper) :=
  omap (λ e, match ev_call e with Patch b o => Some (b, o) | _ => None end) t.

Definition noPatch (c : call) : Prop := match c with Patch _ _ => False | _ => True end.

Lemma patches_none t : Forall (λ e, noPatch (ev_call e)) t → patches t = [].
Proof. induction 1 as [|[[] ?] t ? _ IH]; simpl in *; done || by rewrite IH. Qed.

Lemma patches_app t1 t2 : patches (t1 ++ t2) = patches t1 ++ patches t2.
Proof. apply omap_app. Qed.

Lemma only_noPatch {A} (q : prog ans A) t x :
  only noPatch q → runs q t x → patches t = [].
Proof. intros. by eapply patches_none, only_runs. Qed.

Lemma pollBookies_noPatch p addrs a : only noPatch (pollBookies p addrs a).
Proof.
  revert a. induction addrs as [|x addrs IH]; intros a; simpl; [done|].
  split; [done|]. intros [bs|e]; [|by destruct (IsConnectionError e)].
  destruct (negb _); [done|]. simpl. split; [done|].
  intros [?|e]; [done|by destruct (IsConnectionError e)].
Qed.

Lemma Evaluate_noPatch addrs p : only noPatch (Evaluate addrs p).
Proof.
  apply only_bind_ok; [apply pollBookies_noPatch|]. intros a.
  cbv beta zeta. by destruct (pollResponded a <? _).
Qed.

Lemma isStabilized_noPatch bk a : only noPatch (isStabilized bk a).
Proof. unfold isStabilized. break_goal; simpl; auto. Qed.

Lemma recordInvalidConfig_noPatch bk e m : only noPatch (recordInvalidConfig bk e m).
Proof.
  unfold recordInvalidConfig. destruct (SetStatusCondition _ _) as [cs []]; simpl; [|done].
  split; [done|]. by intros [].
Qed.

Lemma Evaluate_ok_decide addrs p t d :
  runs (Evaluate addrs p) t (Ok d) → ∃ w r c, d = decide_ p w r c.
Proof.
  unfold Evaluate, bind_ok. intros (t1 & t2 & [a|e] & -> & _ & H)%runs_bind;
    [|by destruct H].
  cbv beta iota zeta in H. destruct (pollResponded a <? _); destruct H as [_ H]; simplify_eq. eauto.
Qed.

Lemma recordWritableBookies_noPatch bk w : only noPatch (recordWritableBookies bk w).
Proof.
  unfold recordWritableBookies. break_goal; simpl; [done|]. split; [done|]. by intros [].
Qed.

Lemma scaleUp_patches bk n d t r :
  runs (scaleUp bk n d) t r → patches t = [(bk, set_Replicas (TargetReplicas d) bk)].
Proof.
  intros H. run_step H. destruct x as [bk1|e]; [|by run_step H].
  do 2 run_step H. destruct x0; by repeat run_step H.
Qed.

Lemma evaluateAndScale_patches bk a addrs result t r :
  runs (evaluateAndScale bk a addrs result) t r →
  patches t = [] ∨
  ∃ bk1 d t1, t1 ⊆ t ∧ runs (Evaluate addrs (tickParams bk a)) t1 (Ok d) ∧ ShouldScale d = true ∧
    patches t = [(bk1, set_Replicas (TargetReplicas d) bk1)] ∧
    (bk1 = bk ∨ Ev (StatusPatch bk (set_WritableBookies (WritableBookies d) bk)) (Ok bk1) ∈ t).
Proof.
  intros (t1 & t2 & [d|e] & -> & He & H)%runs_bind; rewrite patches_app;
    rewrite (only_noPatch _ _ _ (Evaluate_noPatch _ _) He); simpl app.
  2:{ do 2 run_step H. by left. }
  apply runs_bind in H as (t3 & t4 & [bk1|e] & -> & Hr & H); rewrite patches_app;
    rewrite (only_noPatch _ _ _ (recordWritableBookies_noPatch _ _) Hr); simpl app;
    [|run_step H; by left].
  destruct (ShouldScale d) eqn:E; simpl negb in H; cbv iota in H; [|run_step H; by left].
  apply runs_bind in H as (t5 & t6 & x & -> & Hsc & H). right.
  exists bk1, d, t1. split; [set_solver|]. split; [done|]. split; [done|]. split.
  { rewrite patches_app, (scaleUp_patches _ _ _ _ _ Hsc). by destruct x; run_step H. }
  unfold recordWritableBookies in Hr. destruct (_ =? _).
  - destruct Hr as [_ [= ->]]. by left.
  - run_step Hr. destruct x0; [|by destruct Hr]. destruct Hr as [_ [= ->]]. right. set_solver.
Qed.

(** How a tick comes to patch the spec. *)
Lemma patch_cases req t r :
  runs (Reconcile req) t r →
  patches t = [] ∨
  ∃ bk a pods bk1 d t1,
    Ev (Get req) (Ok bk) ∈ t ∧ Autoscaler (bkSpec bk) = Some a ∧ Enabled a = true ∧
    resolveAutoscalerEnsembleSize (bkSpec bk) <=
      resolveAutoscalerMinWritableBookies a (resolveAutoscalerEnsembleSize (bkSpec bk)) ∧
    Ev (ListPods (bkNamespace bk) (SelectorLabels (bkName bk) bookkeeperComponent)) (Ok pods) ∈ t ∧
    resolveReplicas (bkSpec bk) <= wrap32 (Z.of_nat (length (bookieAdminAddrs pods))) ∧
    t1 ⊆ t ∧ runs (Evaluate (bookieAdminAddrs pods) (tickParams bk a)) t1 (Ok d) ∧ ShouldScale d = true ∧
    patches t = [(bk1, set_Replicas (TargetReplicas d) bk1)] ∧
    (bk1 = bk ∨ Ev (StatusPatch bk (set_WritableBookies (WritableBookies d) bk)) (Ok bk1) ∈ t).
Proof.
  intros H. run_step H. destruct x as [bk|e]; [|run_step H; by left].
  destruct (Autoscaler (bkSpec bk)) as [a|] eqn:Ea; [|run_step H; by left].
  destruct (Enabled a) eqn:Een; simpl negb in H; cbv iota in H; [|run_step H; by left].
  destruct (resolveAutoscalerMinWritableBookies a _ <? _) eqn:Emin in H; zbool.
  { left. apply (only_noPatch _ _ _ (only_bind_ok _ _ (λ _, Ret _)
      (recordInvalidConfig_noPatch _ _ _) (λ _, I)) H). }
  apply runs_bind in H as (t1 & t2 & stable & -> & Hst & H).
  assert (patches t1 = []) as H1 by (eapply only_noPatch, Hst; apply isStabilized_noPatch).
  change (Ev (Get req) (Ok bk) :: t1 ++ t2) with ([Ev (Get req) (Ok bk)] ++ (t1 ++ t2)).
  rewrite !patches_app, H1. simpl app.
  destruct stable; simpl negb in H; cbv iota in H; [|run_step H; by left].
  run_step H. destruct x as [pods|e]; [|run_step H; by left].
  destruct (wrap32 _ <? _) eqn:Eaddr in H; [run_step H; by left|]. zbool.
  apply evaluateAndScale_patches in H as [H|(bk1 & d & t3 & Hsub & Hev & Hs & Hp & Hb)]; [by left|].
  right. exists bk, a, pods, bk1, d, t3. split_and!; try done; set_solver.
Qed.

(** A tick patches the spec at most once, only with autoscaling enabled
    and a writable minimum no smaller than the ensemble, and then strictly
    above the replica count it fetched, within the configured limit. *)
Theorem Reconcile_patch_guarded req t r :
  runs (Reconcile req) t r →
  patches t = [] ∨
  ∃ bk a bk1 n,
    Ev (Get req) (Ok bk) ∈ t ∧ Autoscaler (bkSpec bk) = Some a ∧ Enabled a = true ∧
    resolveAutoscalerEnsembleSize (bkSpec bk) <=
      resolveAutoscalerMinWritableBookies a (resolveAutoscalerEnsembleSize (bkSpec bk)) ∧
    patches t = [(bk1, set_Replicas n bk1)] ∧
    resolveReplicas (bkSpec bk) < n ∧
    (0 < resolveAutoscalerScaleUpMaxLimit a → n <= resolveAutoscalerScaleUpMaxLimit a).
Proof.
  intros [H|(bk & a & pods & bk1 & d & t1 & Hg & Ha & He & Hm & _ & _ & _ & Hev & Hs & Hp & _)]%patch_cases;
    [by left|right].
  apply Evaluate_ok_decide in Hev as (w & rk & c & ->).
  pose proof (decide_target (tickParams bk a) w rk c) as (_ & Hmax & Hup & _).
  exists bk, a, bk1, (TargetReplicas (decide_ (tickParams bk a) w rk c)).
  apply Hup in Hs. split_and!; try done. simpl in *. lia.
Qed.

End Reconciler.
End BookieAutoscaler.

(** * A concrete tick *)

Module BookieDemo.
Import BookieDecision BookieAutoscaler.

Definition demoBK : BookKeeper :=
  mkBK "bk" "ns" 1 ∅
    (mkBKSpec (Some 3) None
      (Some (mkBKAutoscaler true None None None (Some 5) None None None None None None)))
    (mkBKStatus 3 3 3 None None 1
      [mkCondition "Ready" ConditionTrue 1 0 "AllReady" "ready"]).

Definition demoPod (ip : string) : Pod := mkPod "p" "ns" 0 None "node" ip [] [] [].

(** Two bookies are nearly full, the third one refuses connections. *)
Definition demoState (addr : string) : res BookieState :=
  if String.eqb addr "10.0.0.3:8000" then Err (ConnectionError addr (ErrPlain "refused"))
  else Ok (mkBookieState true false false).

Definition demoInfo (addr : string) : res BookieInfo := Ok [mkDisk 95 100].

(** All three answer, and one of them is read-only: a real deficit. *)
Definition deficitState (addr : string) : res BookieState :=
  Ok (mkBookieState true (String.eqb addr "10.0.0.3:8000") false).

Definition serveWith (st : string → res BookieState) (c : call) (s : unit) : ans c * unit :=
  (match c return ans c with
   | Get _ => Ok demoBK
   | ListPods _ _ => Ok [demoPod "10.0.0.1"; demoPod "10.0.0.2"; demoPod "10.0.0.3"]
   | Now => 400 * Second
   | State addr => st addr
   | Info addr => demoInfo addr
   | Patch _ o => Ok o
   | StatusPatch _ o => Ok o
   | Eventf _ _ _ _ _ => tt
   end, s).

Definition demoAddrs : list string := ["10.0.0.1:8000"; "10.0.0.2:8000"; "10.0.0.3:8000"].
Definition demoParams : Params := mkParams 3 2 1 5 92.

Lemma Evaluate_refines_witness :
  (exec (serveWith demoState) (Evaluate demoAddrs demoParams) tt).1.1 =
    Ok (referenceDecision demoState demoInfo demoParams demoAddrs) ∧
  TargetReplicas (referenceDecision demoState demoInfo demoParams demoAddrs) = 4.
Proof.
  split; [|by vm_compute].
  apply (Evaluate_refines demoState demoInfo demoParams (serveWith demoState)
           (λ _ s, match s with tt => eq_refl end) (λ _ s, match s with tt => eq_refl end)).
  split; [|by vm_compute].
  repeat constructor; by vm_compute.
Defined.

Lemma Evaluate_deficit_is_real_witness :
  countIf deficitState demoInfo (mkParams 3 3 1 5 92) isWritable demoAddrs < 3.
Proof.
  refine (proj2 (Evaluate_deficit_is_real deficitState demoInfo (mkParams 3 3 1 5 92)
    (serveWith deficitState) (λ _ s, match s with tt => eq_refl end)
    (λ _ s, match s with tt => eq_refl end) demoAddrs tt
    (referenceDecision deficitState demoInfo (mkParams 3 3 1 5 92) demoAddrs) _ _));
    by vm_compute.
Defined.

Definition demoTrace : list (event ans) :=
  (exec (serveWith deficitState) (@Reconcile refApiMeta (mkNN "ns" "bk")) tt).2.

Lemma Reconcile_patch_guarded_witness :
  patches demoTrace ≠ [] ∧
  (patches demoTrace = [] ∨ ∃ bk a bk1 n, Ev (Get (mkNN "ns" "bk")) (Ok bk) ∈ demoTrace ∧
     Autoscaler (bkSpec bk) = Some a ∧ patches demoTrace = [(bk1, set_Replicas n bk1)] ∧
     resolveReplicas (bkSpec bk) < n).
Proof.
  split; [by vm_compute|].
  destruct (@Reconcile_patch_guarded refApiMeta (mkNN "ns" "bk") demoTrace _
              (exec_runs (serveWith deficitState) _ tt))
    as [H|(bk & a & bk1 & n & ? & ? & _ & _ & ? & ? & _)]; [by left|right].
  exists bk, a, bk1, n. split; [assumption|]. split; [assumption|]. split; assumption.
Defined.

End BookieDemo.
