(* ===== verification/BookieAdmin.v ===== *)
(** The bookie admin HTTP client (internal/autoscaler/bookkeeper/client.go) and
    the bookie autoscaler running on it: what the replies of the bookies must
    have said for the autoscaler to add one. *)

From S2P Require Import Prelude Effects GoFloat Kube BookKeeper BookieScale.
Open Scope Z_scope.
Open Scope go_scope.

Module BookieAdmin.
Import BookieDecision.

(** * Calls *)

(** What one GET comes to: no request can be made of the URL, the transport
    fails, or a status code with a body. *)
Inductive HTTPReply :=
| BadURL (text : string)
| TransportError (e : goerr)
| Response (StatusCode : Z) (Body : string).

Inductive call :=
| Core (c : BookieAutoscaler.call)
| Do (url : string).

Definition ans (c : call) : Type :=
  match c with
  | Core c => BookieAutoscaler.ans c
  | Do _ => HTTPReply
  end.

Abbreviation event := (Effects.event ans).

(** encoding/json on the three bodies: the decoder's complaint, or the value
    (free and total space of the info body). *)
Class AdminDecoders := {
  DecodeState : string → string + BookieState;
  DecodeInfo : string → string + (Z * Z);
  DecodeLedgerIDs : string → string + list Z
}.

(** * The client *)

Section Client.
Context `{AD : !AdminDecoders}.

Definition statePath : string := "/api/v1/bookie/state".
Definition infoPath : string := "/api/v1/bookie/info".
Definition underReplicatedPath : string := "/api/v1/autorecovery/list_under_replicated_ledger/".
Definition adminURL (bookieAddr path : string) : string := "http://" ++! bookieAddr ++! path.

Definition get (bookieAddr path : string) : prog ans (res (Z * string)) :=
  let url := adminURL bookieAddr path in
  (let! reply := perform ans (Do url) in
   Ret (match reply with
        | BadURL text => Err (Errorf ("build request for " ++! url) (ErrPlain text))
        | TransportError e => Err (ConnectionError bookieAddr (Errorf ("request " ++! url) e))
        | Response code body => Ok (code, body)
        end))%prog.

Definition State (bookieAddr : string) : prog ans (res BookieState) :=
  (try! resp := get bookieAddr statePath in
   Ret (if negb (resp.1 =? 200) then
          Err (ConnectionError bookieAddr
            (ErrPlain ("unexpected status " ++! %d (resp.1) ++! " from /api/v1/bookie/state")))
        else match DecodeState resp.2 with
             | inl text => Err (Errorf ("bookie " ++! bookieAddr ++! ": decode /api/v1/bookie/state")
                                  (ErrPlain text))
             | inr s => Ok s
             end))%prog.

Definition Info (bookieAddr : string) : prog ans (res BookieInfo) :=
  (try! resp := get bookieAddr infoPath in
   Ret (if negb (resp.1 =? 200) then
          Err (ConnectionError bookieAddr
            (ErrPlain ("unexpected status " ++! %d (resp.1) ++! " from /api/v1/bookie/info")))
        else match DecodeInfo resp.2 with
             | inl text => Err (Errorf ("bookie " ++! bookieAddr ++! ": decode /api/v1/bookie/info")
                                  (ErrPlain text))
             | inr (free, total) =>
                 if total <=? 0 then
                   Err (ErrPlain ("bookie " ++! bookieAddr ++! " reported non-positive totalSpace " ++!
                                  %d total ++! " from /api/v1/bookie/info"))
                 else Ok [mkDisk (wrap64 (total - free)) total]
             end))%prog.

Definition UnderReplicatedLedgerCount (bookieAddr : string) : prog ans (res Z) :=
  (try! resp := get bookieAddr underReplicatedPath in
   Ret (if resp.1 =? 404 then Ok 0
        else if negb (resp.1 =? 200) then
          Err (ErrPlain ("bookie " ++! bookieAddr ++! ": unexpected status " ++! %d (resp.1) ++!
                         " from /api/v1/autorecovery/list_under_replicated_ledger/"))
        else match DecodeLedgerIDs resp.2 with
             | inl text =>
                 Err (Errorf ("bookie " ++! bookieAddr ++!
                              ": decode /api/v1/autorecovery/list_under_replicated_ledger/")
                        (ErrPlain text))
             | inr ledgerIDs => Ok (Z.of_nat (length ledgerIDs))
             end))%prog.

(** ** What a reply says *)

Definition said (t : list event) (bookieAddr path body : string) : Prop :=
  Ev (Do (adminURL bookieAddr path)) (Response 200 body) ∈ t.

(** The bookie could not be reached, or refused to answer. *)
Definition unreachable (t : list event) (bookieAddr path : string) : Prop :=
  (∃ e, Ev (Do (adminURL bookieAddr path)) (TransportError e) ∈ t) ∨
  ∃ code body, code ≠ 200 ∧ Ev (Do (adminURL bookieAddr path)) (Response code body) ∈ t.

Lemma runs_get addr path t r :
  runs (get addr path) t r →
  ∃ reply, t = [Ev (Do (adminURL addr path)) reply] ∧
    r = match reply with
        | BadURL text => Err (Errorf ("build request for " ++! adminURL addr path) (ErrPlain text))
        | TransportError e => Err (ConnectionError addr (Errorf ("request " ++! adminURL addr path) e))
        | Response code body => Ok (code, body)
        end.
Proof. intros (reply & ? & -> & -> & ->). eauto. Qed.

(** One step through [State] or [Info]. *)
Lemma runs_query {A} addr path (f : Z * string → res A) t r :
  runs (bind_ok (get addr path) (λ resp, Ret (f resp))) t r →
  (∃ text, r = Err (Errorf ("build request for " ++! adminURL addr path) (ErrPlain text))) ∨
  (∃ e, Ev (Do (adminURL addr path)) (TransportError e) ∈ t ∧
        r = Err (ConnectionError addr (Errorf ("request " ++! adminURL addr path) e))) ∨
  (∃ code body, Ev (Do (adminURL addr path)) (Response code body) ∈ t ∧ r = f (code, body)).
Proof.
  intros (t1 & t2 & r1 & -> & (reply & -> & ->)%runs_get & H)%runs_bind.
  destruct reply as [text|e|code body]; destruct H as [-> ->].
  - left. eauto.
  - right; left. exists e. split; [set_solver|done].
  - right; right. exists code, body. split; [set_solver|done].
Qed.

Lemma State_answer addr t r :
  runs (State addr) t r →
  match r with
  | Ok s => ∃ body, said t addr statePath body ∧ DecodeState body = inr s
  | Err e => IsConnectionError e = true → unreachable t addr statePath
  end.
Proof.
  intros [(text & ->)|[(e & He & ->)|(code & body & Hc & ->)]]%runs_query; [done|by left; eauto|]. simpl.
  destruct (Z.eqb_spec code 200) as [->|Hn]; simpl; [|intros _; right; eauto].
  destruct (DecodeState body) as [text|s] eqn:E; [done|]. by exists body.
Qed.

Lemma Info_answer addr t r :
  runs (Info addr) t r →
  match r with
  | Ok disks => ∃ body free total, said t addr infoPath body ∧ DecodeInfo body = inr (free, total) ∧
      0 < total ∧ disks = [mkDisk (wrap64 (total - free)) total]
  | Err e => IsConnectionError e = true → unreachable t addr infoPath
  end.
Proof.
  intros [(text & ->)|[(e & He & ->)|(code & body & Hc & ->)]]%runs_query; [done|by left; eauto|]. simpl.
  destruct (Z.eqb_spec code 200) as [->|Hn]; simpl; [|intros _; right; eauto].
  destruct (DecodeInfo body) as [text|[free total]] eqn:E; [done|].
  destruct (Z.leb_spec total 0); [done|]. by exists body, free, total.
Qed.

End Client.
(** * What a poll saw *)

Import BookieAutoscaler(reading, Dark, Corrupt, NotWritable, WritableDark, WritableDisk, isWritable, isComplete,
  isRisk, Poll, pollWritable, pollResponded, pollAtRisk, pollComplete, pollBookies, connFailed, Evaluate).

Section Poll.
Context (p : Params).

(** The reading of one bookie that the answers of [t] amount to. *)
Definition saw (t : list (Effects.event BookieAutoscaler.ans)) (addr : string) (r : reading) : Prop :=
  match r with
  | Corrupt => False
  | Dark => ∃ e, Ev (BookieAutoscaler.State addr) (Err e) ∈ t ∧ IsConnectionError e = true
  | NotWritable => ∃ s, Ev (BookieAutoscaler.State addr) (Ok s) ∈ t ∧ Writable s = false
  | WritableDark => ∃ s e, Ev (BookieAutoscaler.State addr) (Ok s) ∈ t ∧ Writable s = true ∧
      Ev (BookieAutoscaler.Info addr) (Err e) ∈ t ∧ IsConnectionError e = true
  | WritableDisk risk => ∃ s disks, Ev (BookieAutoscaler.State addr) (Ok s) ∈ t ∧ Writable s = true ∧
      Ev (BookieAutoscaler.Info addr) (Ok disks) ∈ t ∧
      risk = allLedgerDisksAtOrAboveHwm disks (pHwmPercent p)
  end.

Lemma saw_mono t t' addr r : t ⊆ t' → saw t addr r → saw t' addr r.
Proof. intros Ht. destruct r; simpl; naive_solver. Qed.

Definition count (f : reading → bool) (rs : list reading) : Z :=
  Z.of_nat (length (filter (λ r, f r = true) rs)).

Lemma count_cons f r rs : count f (r :: rs) = (if f r then 1 else 0) + count f rs.
Proof.
  unfold count. destruct (f r) eqn:E;
    [rewrite filter_cons_True by done|rewrite filter_cons_False by congruence]; simpl; lia.
Qed.

(** What the readings of the addresses polled add up to. *)
Definition tallied (rs : list reading) (a a' : Poll) : Prop :=
  pollWritable a' = pollWritable a + count isWritable rs ∧
  pollAtRisk a' = pollAtRisk a || existsb isRisk rs ∧
  pollComplete a' = pollComplete a && forallb isComplete rs.

Lemma tallied_cons r rs a a0 a' :
  pollWritable a0 = (if isWritable r then 1 else 0) + pollWritable a →
  pollAtRisk a0 = pollAtRisk a || isRisk r → pollComplete a0 = pollComplete a && isComplete r →
  tallied rs a0 a' → tallied (r :: rs) a a'.
Proof.
  unfold tallied. intros Hw Hr Hc (-> & -> & ->). rewrite count_cons, Hw, Hr, Hc. simpl.
  rewrite orb_assoc, andb_assoc. split_and!; lia || done.
Qed.

(** One bookie of the loop. *)
Lemma polled_one addr addrs a t a' :
  runs (pollBookies p (addr :: addrs) a) t (Ok a') →
  ∃ r t1 t2 a0, t = t1 ++ t2 ∧ saw t1 addr r ∧ runs (pollBookies p addrs a0) t2 (Ok a') ∧
    pollWritable a0 = (if isWritable r then 1 else 0) + pollWritable a ∧
    pollAtRisk a0 = pollAtRisk a || isRisk r ∧ pollComplete a0 = pollComplete a && isComplete r.
Proof.
  intros H. run_step H. destruct x as [s|e].
  2: { destruct (IsConnectionError e) eqn:E; [|by destruct H]. exists Dark, [Ev (BookieAutoscaler.State addr) (Err e)], t0.
       eexists. split; [done|]. split; [exists e; split; [set_solver|done]|]. split; [exact H|].
       simpl. by rewrite orb_false_r, andb_false_r. }
  destruct (Writable s) eqn:Ew; cbn [negb] in H.
  2: { exists NotWritable, [Ev (BookieAutoscaler.State addr) (Ok s)], t0. eexists. split; [done|].
       split; [exists s; split; [set_solver|done]|]. split; [exact H|]. simpl. by rewrite orb_false_r, andb_true_r. }
  run_step H. destruct x as [disks|e].
  - exists (WritableDisk (allLedgerDisksAtOrAboveHwm disks (pHwmPercent p))),
      [Ev (BookieAutoscaler.State addr) (Ok s); Ev (BookieAutoscaler.Info addr) (Ok disks)], t.
    eexists. split; [done|]. split; [exists s, disks; split_and!; set_solver|]. split; [exact H|].
    simpl. rewrite andb_true_r. split_and!; [lia| |done]. f_equal. by destruct (allLedgerDisksAtOrAboveHwm _ _).
  - destruct (IsConnectionError e) eqn:E; [|by destruct H].
    exists WritableDark, [Ev (BookieAutoscaler.State addr) (Ok s); Ev (BookieAutoscaler.Info addr) (Err e)], t.
    eexists. split; [done|]. split; [exists s, e; split_and!; set_solver|]. split; [exact H|].
    simpl. rewrite orb_false_r, andb_false_r. split_and!; [lia|done|done].
Qed.

Lemma polled addrs a t a' :
  runs (pollBookies p addrs a) t (Ok a') → ∃ rs, Forall2 (saw t) addrs rs ∧ tallied rs a a'.
Proof.
  revert a t. induction addrs as [|addr addrs IH]; intros a t.
  { intros [-> [= ->]]. exists []. split; [constructor|]. unfold tallied, count. simpl.
    rewrite orb_false_r, andb_true_r. split_and!; lia || done. }
  intros (r & t1 & t2 & a0 & -> & Hs & (rs & Hrs & Ht)%IH & Hw & Hr & Hc)%polled_one.
  exists (r :: rs). split; [|by eapply tallied_cons]. constructor.
  - eapply saw_mono, Hs. set_solver.
  - eapply Forall2_impl; [exact Hrs|]. intros x y. apply saw_mono. set_solver.
Qed.

Lemma evaluated addrs t d :
  runs (Evaluate addrs p) t (Ok d) →
  ∃ rs, Forall2 (saw t) addrs rs ∧
    d = decide_ p (count isWritable rs) (existsb isRisk rs) (forallb isComplete rs).
Proof.
  intros (t1 & t2 & [a|e] & -> & Hp & H)%runs_bind; [|by destruct H].
  apply polled in Hp as (rs & Hrs & Hw & Hr & Hc). cbv beta iota zeta in H.
  destruct (pollResponded a <? _); destruct H as [-> [= ->]]. exists rs. rewrite app_nil_r. split; [done|].
  by rewrite Hw, Hr, Hc.
Qed.

End Poll.

(** * The autoscaler on its client *)

Section Deployed.
Context `{AM : !ApiMeta} `{AD : !AdminDecoders}.

(** The reconciler as cmd/main.go builds it, without an injected client. *)
Definition adminClient (c : BookieAutoscaler.call) : prog ans (BookieAutoscaler.ans c) :=
  match c return prog ans (BookieAutoscaler.ans c) with
  | BookieAutoscaler.State addr => State addr
  | BookieAutoscaler.Info addr => Info addr
  | c => perform ans (Core c)
  end.

Definition deployedReconcile (req : NamespacedName) : prog ans (res Result) :=
  hoist adminClient (BookieAutoscaler.Reconcile req).

(** The spec patches of a trace. *)
Definition patches (t : list event) : list (BookKeeper * BookKeeper) :=
  omap (λ e, match ev_call e with Core (BookieAutoscaler.Patch b o) => Some (b, o) | _ => None end) t.

(** ** From the autoscaler's calls to the requests *)

Definition isQuery (c : call) : Prop := match c with Do _ => True | Core _ => False end.

Lemma runs_own c seg x :
  runs (adminClient c) seg x → seg = [Ev (Core c) x] ∨ Forall (λ e, isQuery (ev_call e)) seg.
Proof.
  intros Hr. destruct c; try (left; by destruct Hr as (? & ? & -> & -> & ->)); right.
  all: apply runs_bind in Hr as (t1 & t2 & r & -> & (reply & -> & _)%runs_get & H).
  all: destruct r; destruct H as [-> _]; by repeat constructor.
Qed.

Lemma queries_patch_nothing seg : Forall (λ e, isQuery (ev_call e)) seg → patches seg = [].
Proof. induction 1 as [|[[] x] seg]; simpl; done. Qed.

Lemma implements_patches t1 t2 :
  implements adminClient t1 t2 → patches t2 = BookieAutoscaler.patches t1.
Proof.
  revert t2. induction t1 as [|[c x] t1 IH]; intros t2; simpl; [by intros ->|].
  intros (seg & t2' & -> & Hr & Hi). unfold patches. rewrite omap_app.
  fold (patches seg) (patches t2'). rewrite (IH _ Hi).
  destruct c; try by destruct Hr as (? & ? & -> & -> & ->).
  all: apply runs_own in Hr as [->|Hq]; [done|by rewrite queries_patch_nothing].
Qed.

Lemma said_mono t t' addr path body : t ⊆ t' → said t addr path body → said t' addr path body.
Proof. unfold said. set_solver. Qed.
Lemma unreachable_mono t t' addr path : t ⊆ t' → unreachable t addr path → unreachable t' addr path.
Proof. unfold unreachable. naive_solver. Qed.

(** What a bookie's replies in this trace make of it. *)
Definition told (t : list event) (hwm : Z) (addr : string) (r : reading) : Prop :=
  let stateSaid writable :=
    ∃ body s, said t addr statePath body ∧ DecodeState body = inr s ∧ Writable s = writable in
  match r with
  | Corrupt => False
  | Dark => unreachable t addr statePath
  | NotWritable => stateSaid false
  | WritableDark => stateSaid true ∧ unreachable t addr infoPath
  | WritableDisk risk => stateSaid true ∧
      ∃ body free total, said t addr infoPath body ∧ DecodeInfo body = inr (free, total) ∧ 0 < total ∧
        risk = allLedgerDisksAtOrAboveHwm [mkDisk (wrap64 (total - free)) total] hwm
  end.

Lemma saw_told p t1 t2 addr r :
  implements adminClient t1 t2 → saw p t1 addr r → told t2 (pHwmPercent p) addr r.
Proof.
  intros Hi.
  assert (∀ s, Ev (BookieAutoscaler.State addr) (Ok s) ∈ t1 →
    ∃ body, said t2 addr statePath body ∧ DecodeState body = inr s) as HS.
  { intros s (seg & Hs & (body & Hb & ?)%State_answer)%(implements_elem _ _ _ _ _ Hi).
    exists body. split; [by eapply said_mono|done]. }
  assert (∀ e, Ev (BookieAutoscaler.State addr) (Err e) ∈ t1 → IsConnectionError e = true →
    unreachable t2 addr statePath) as HSe.
  { intros e (seg & Hs & Hr)%(implements_elem _ _ _ _ _ Hi) He. apply State_answer in Hr.
    eapply unreachable_mono; [exact Hs|by apply Hr]. }
  destruct r as [| | | |risk]; simpl; [naive_solver|done|naive_solver|..].
  - intros (s & e & (body & Hb & Hd)%HS & Hw & (seg & Hs & Hr)%(implements_elem _ _ _ _ _ Hi) & He).
    split; [by exists body, s|]. apply Info_answer in Hr. eapply unreachable_mono; [exact Hs|by apply Hr].
  - intros (s & disks & (body & Hb & Hd)%HS & Hw & (seg & Hs & Hr)%(implements_elem _ _ _ _ _ Hi) & ->).
    split; [by exists body, s|]. apply Info_answer in Hr as (b' & free & total & Hb' & Hd' & Ht & ->).
    exists b', free, total. split; [by eapply said_mono|done].
Qed.

Lemma implements_own t1 t2 c x :
  implements adminClient t1 t2 → Ev c x ∈ t1 →
  (∀ addr, c ≠ BookieAutoscaler.State addr ∧ c ≠ BookieAutoscaler.Info addr) → Ev (Core c) x ∈ t2.
Proof.
  intros Hi Hx Hc. destruct (implements_elem _ _ _ _ _ Hi Hx) as (seg & Hs & Hr).
  assert (seg = [Ev (Core c) x]) as ->; [|set_solver].
  destruct c; try (by destruct Hr as (? & ? & -> & -> & ->)); by destruct (Hc addr).
Qed.

Lemma scale_cause p w rk c :
  ShouldScale (decide_ p w rk c) = true → c = true ∧ w < pMinWritableBookies p ∨ rk = true.
Proof.
  intros Hs. pose proof (decide_target p w rk c) as (_ & _ & Hup & _). apply Hup in Hs. clear Hup.
  unfold decide_, wanted in Hs. destruct rk; [by right|left].
  destruct (c && (w <? pMinWritableBookies p)) eqn:E; [by zbool|]. exfalso. simpl in Hs.
  repeat case_match; zbool; simpl in *; lia.
Qed.

(** C37: Bookies are added only on what the bookies themselves say.  Whenever a
    tick of the deployed autoscaler patches a spec, the BookKeeper was fetched
    with autoscaling enabled and a writable minimum no smaller than the
    ensemble, its pods were listed with at least as many addresses as
    replicas, and every one of these addresses was asked over HTTP in this
    tick; the patch is the only one, sets the target the decision takes on
    the counted replies, and that target lies strictly above the replicas
    fetched and within the limit.  The decision rests on a shortage of
    writable bookies only if every one of them answered in full; otherwise
    some bookie reported a full ledger disk. *)
Theorem bookies_added_on_reports req t r :
  runs (deployedReconcile req) t r →
  patches t = [] ∨
  ∃ bk a pods bk1 readings,
    let p := BookieAutoscaler.tickParams bk a in
    let addrs := BookieAutoscaler.bookieAdminAddrs pods in
    let d := decide_ p (count isWritable readings) (existsb isRisk readings) (forallb isComplete readings) in
    Ev (Core (BookieAutoscaler.Get req)) (Ok bk) ∈ t ∧
    Autoscaler (bkSpec bk) = Some a ∧ Enabled a = true ∧
    BookieAutoscaler.resolveAutoscalerEnsembleSize (bkSpec bk) <= pMinWritableBookies p ∧
    Ev (Core (BookieAutoscaler.ListPods (bkNamespace bk)
          (SelectorLabels (bkName bk) bookkeeperComponent))) (Ok pods) ∈ t ∧
    resolveReplicas (bkSpec bk) <= wrap32 (Z.of_nat (length addrs)) ∧
    Forall2 (told t (pHwmPercent p)) addrs readings ∧
    patches t = [(bk1, set_Replicas (TargetReplicas d) bk1)] ∧
    (bk1 = bk ∨ Ev (Core (BookieAutoscaler.StatusPatch bk (set_WritableBookies (count isWritable readings) bk)))
                  (Ok bk1) ∈ t) ∧
    resolveReplicas (bkSpec bk) < TargetReplicas d ∧
    (0 < pScaleUpMaxLimit p → TargetReplicas d <= pScaleUpMaxLimit p) ∧
    (Forall (λ x, isComplete x = true) readings ∧ count isWritable readings < pMinWritableBookies p ∨
     WritableDisk true ∈ readings).
Proof.
  intros (t1 & H & Hi)%runs_hoist. rewrite (implements_patches _ _ Hi).
  apply BookieAutoscaler.patch_cases in H as [H|H]; [by left|right].
  destruct H as (bk & a & pods & bk1 & d & t' & Hg & Ha & He & Hm & Hl & Hn & Hsub & Hev & Hs & Hp & Hb).
  apply evaluated in Hev as (rs & Hrs & ->).
  exists bk, a, pods, bk1, rs. cbv zeta.
  pose proof (decide_target (BookieAutoscaler.tickParams bk a) (count isWritable rs) (existsb isRisk rs)
                (forallb isComplete rs)) as (_ & Hmax & Hup & Hwr).
  pose proof (scale_cause _ _ _ _ Hs) as Hc. apply Hup in Hs. rewrite Hwr in Hb.
  split_and!; try done; [by eapply implements_own..| | | |].
  - eapply Forall2_impl; [exact Hrs|]. intros addr x Hx. eapply saw_told, saw_mono; done.
  - destruct Hb as [->|Hb]; [by left|right]. by eapply implements_own.
  - simpl in *. lia.
  - destruct Hc as [[Hc Hw]|Hr]; [left|right].
    + split; [|done]. apply Forall_forall. intros x Hx. rewrite forallb_forall in Hc.
      by apply Hc, list_elem_of_In.
    + apply existsb_exists in Hr as (x & Hx & Hr). apply bool_decide_eq_true in Hr as ->.
      by apply list_elem_of_In.
Qed.

End Deployed.
End BookieAdmin.

(** * A concrete tick *)

Module BookieAdminDemo.
Import BookieAdmin.

#[local] Instance demoDecoders : AdminDecoders :=
  {| DecodeState body := inr (mkBookieState true (String.eqb body "read-only") false);
     DecodeInfo _ := inr (20, 100);
     DecodeLedgerIDs _ := inr [] |}.

(** Three bookies, the third one read-only. *)
Definition demoServe (c : call) (s : unit) : ans c * unit :=
  (match c return ans c with
   | Core c => (BookieDemo.serveWith BookieDemo.deficitState c s).1
   | Do url =>
       Response 200 (if String.eqb url (adminURL "10.0.0.3:8000" statePath) then "read-only" else "")
   end, s).

Definition demoTrace : list event := (exec demoServe (@deployedReconcile refApiMeta _ (mkNN "ns" "bk")) tt).2.

Lemma bookies_added_on_reports_witness :
  patches demoTrace ≠ [] ∧
  (patches demoTrace = [] ∨
   ∃ bk a pods readings, Ev (Core (BookieAutoscaler.Get (mkNN "ns" "bk"))) (Ok bk) ∈ demoTrace ∧
     Autoscaler (bkSpec bk) = Some a ∧
     Forall2 (told demoTrace (BookieDecision.pHwmPercent (BookieAutoscaler.tickParams bk a)))
       (BookieAutoscaler.bookieAdminAddrs pods) readings).
Proof.
  split; [by vm_compute|].
  destruct (@bookies_added_on_reports refApiMeta demoDecoders (mkNN "ns" "bk") demoTrace _
              (exec_runs demoServe _ tt))
    as [H|(bk & a & pods & bk1 & readings & Hg & Ha & _ & _ & _ & _ & Hf & _)]; [by left|right].
  exists bk, a, pods, readings. split; [exact Hg|]. split; [exact Ha|exact Hf].
Defined.

(** The count of under-replicated ledgers of a bookie that answers 404. *)
Lemma no_under_replicated :
  runs (UnderReplicatedLedgerCount "b") [Ev (Do (adminURL "b" underReplicatedPath)) (Response 404 "")] (Ok 0).
Proof. by repeat econstructor. Qed.

End BookieAdminDemo.
