(* ===== verification/Decommission.v ===== *)
(** The guarded bookie decommission: the guards of
    internal/autoscaler/bookkeeper/guard.go and the resumable state machine of
    internal/controller/cluster/bookkeeper_decommission_controller.go.  The
    theorems about it are in DecommissionProps.v. *)

From S2P Require Import Prelude Effects GoFloat Kube BookKeeper.
Open Scope Z_scope.
Open Scope go_scope.

(** * Guards *)

Module Guard.

Definition QuorumHolds (ensembleSize writeQuorum ackQuorum : Z) : bool :=
  (ensembleSize >? 0) && (writeQuorum >? 0) && (ackQuorum >? 0) &&
  (ensembleSize >=? writeQuorum) && (writeQuorum >=? ackQuorum).

Definition CapacityHoldsAfterRemoval (writableAfter ensembleSize minWritable : Z) : bool :=
  (writableAfter >=? ensembleSize) && (writableAfter >=? minWritable).

Definition PlacementSatisfiable (distinctZones zoneLabelsSeen ensembleSize : Z) : bool :=
  if (zoneLabelsSeen =? 0) || (ensembleSize <=? 1) then true else distinctZones >=? 2.

Record ScaleDownGuardInput := mkGuardInput {
  giWritableBookies : Z;
  giMinWritableBookies : Z;
  giLargestEnsembleSize : Z;
  giAllBelowLWM : bool;
  giNoUnderReplication : bool
}.

Definition ShouldTriggerScaleDown (i : ScaleDownGuardInput) : bool :=
  let floor := Z.max (giMinWritableBookies i) (giLargestEnsembleSize i) in
  (giWritableBookies i >? floor) && giAllBelowLWM i && giNoUnderReplication i.

Definition DecommissionTimedOut (startedAt now timeoutSeconds : Z) : bool :=
  Sub now startedAt >? seconds timeoutSeconds.

End Guard.

(** * Calls *)

Module Decom.
Import Guard.

Definition AnnotationDrainBookieOrdinal : string :=
  "bookkeeper.cluster.pulsaroperator.io/drain-bookie-ordinal".
Definition conditionTypeDecommissioning : string := "Decommissioning".
Definition labelTopologyZone : string := "topology.kubernetes.io/zone".
Definition phaseRequeueInterval : Z := 5 * Second.

Definition reasonQuorumWouldBreak : string := "QuorumWouldBreak".
Definition reasonPlacementUnsatisfiable : string := "PlacementUnsatisfiable".
Definition reasonInProgress : string := "DecommissionInProgress".
Definition reasonComplete : string := "DecommissionComplete".
Definition reasonTimedOut : string := "DecommissionTimedOut".
Definition reasonFailed : string := "DecommissionFailed".
Definition reasonAbortedTopologyChanged : string := "DecommissionAbortedTopologyChanged".
Definition reasonManualDrainRejected : string := "ManualDrainOrdinalMismatch".

Inductive call :=
| GetBK (nn : NamespacedName)
| GetPod (nn : NamespacedName)
| GetNode (name : string)
| GetPVC (nn : NamespacedName)
| DeletePVC (nn : NamespacedName)
| UpdateBK (bk : BookKeeper)
| StatusUpdate (bk : BookKeeper)
| PatchBK (base obj : BookKeeper)
| SetReadOnly (pod : NamespacedName) (readOnly : bool)
| TriggerDecommission (pod : NamespacedName) (bookieID : string)
| HasLedgers (pod : NamespacedName) (bookieID : string)
| NoUnderReplicatedLedgers (pod : NamespacedName)
| RenameCookie (pod : NamespacedName)
| IsWritable (pod : NamespacedName)
| LedgerDiskUsageBelow (pod : NamespacedName) (fraction : float64)
| Now
| Eventf (bk : BookKeeper) (ty : EventType) (reason note : string).

#[export] Instance call_eq_dec : EqDecision call.
Proof. solve_decision. Defined.

(** [GetNode] answers with the node's labels.  The write calls answer with
    the object the server returned. *)
Definition ans (c : call) : Type :=
  match c with
  | GetBK _ => res BookKeeper
  | GetPod _ => res Pod
  | GetNode _ => res (gmap string string)
  | GetPVC _ => res unit
  | DeletePVC _ => res unit
  | UpdateBK _ => res BookKeeper
  | StatusUpdate _ => res BookKeeper
  | PatchBK _ _ => res BookKeeper
  | SetReadOnly _ _ => res unit
  | TriggerDecommission _ _ => res unit
  | HasLedgers _ _ => res bool
  | NoUnderReplicatedLedgers _ => res bool
  | RenameCookie _ => res unit
  | IsWritable _ => res bool
  | LedgerDiskUsageBelow _ _ => res bool
  | Now => Z
  | Eventf _ _ _ _ => unit
  end.

Abbreviation M A := (prog ans (res A)).

(** The admin client is built per BookKeeper with the namespace of that
    BookKeeper: it addresses the pod [podName] there. *)
Definition adminPod (bk : BookKeeper) (podName : string) : NamespacedName :=
  mkNN (bkNamespace bk) podName.

(** * Trigger evaluation *)

Definition decommissionGateEnabled (spec : BookKeeperSpec) : bool :=
  match Autoscaler spec with
  | None => false
  | Some a => Enabled a && default false (ScaleDownEnabled a)
  end.

(** [Ok None]: no request; [Ok (Some ordinal)]: drain that ordinal. *)
Definition evaluateManualTrigger (bk : BookKeeper) : res (option Z) :=
  match bkAnnotations bk !! AnnotationDrainBookieOrdinal with
  | None => Ok None
  | Some raw =>
      match ParseInt 32 raw with
      | None =>
          Err (Errorf ("annotation " ++! AnnotationDrainBookieOrdinal ++! " value " ++!
                       quote raw ++! " is not an integer ordinal") (parse_int_error raw))
      | Some parsed =>
          let highest := wrap32 (resolveReplicas (bkSpec bk) - 1) in
          if negb (parsed =? highest) then
            Err (ErrPlain ("annotation " ++! AnnotationDrainBookieOrdinal ++!
              " requests ordinal " ++! %d parsed ++!
              ", but the current highest (only removable) ordinal is " ++! %d highest ++!
              "; a StatefulSet can only shrink from its highest ordinal -- set the annotation to " ++!
              %d highest ++! " to confirm, or remove it to cancel"))
          else Ok (Some parsed)
      end
  end.

Definition resolveLWMFraction (spec : BookKeeperSpec) : float64 :=
  let pct := default defaultDiskUsageToleranceLwmPct (a ← Autoscaler spec; DiskUsageToleranceLwm a) in
  fdiv (of_int pct) (of_int 100).

Fixpoint findPodReadyCondition (cs : list PodCondition) : option PodCondition :=
  match cs with
  | [] => None
  | c :: cs' => if decide (pcType c = PodReady) then Some c else findPodReadyCondition cs'
  end.

Definition podStableSince (pod : Pod) (cutoff : Z) : bool :=
  match findPodReadyCondition (podConditions pod) with
  | None => false
  | Some c => bool_decide (pcStatus c = ConditionTrue) &&
              negb (After (pcLastTransitionTime c) cutoff)
  end.

Fixpoint podsStable (bk : BookKeeper) (cutoff : Z) (ords : list Z) : prog ans bool :=
  match ords with
  | [] => Ret true
  | ord :: ords' =>
      (let! pod := perform ans (GetPod (mkNN (bkNamespace bk) (bookiePodName bk ord))) in
       match pod with
       | Err _ => Ret false
       | Ok pod => if podStableSince pod cutoff then podsStable bk cutoff ords' else Ret false
       end)%prog
  end.

Definition clusterStable (bk : BookKeeper) (replicas : Z) : prog ans bool :=
  if negb (stReadyReplicas (bkStatus bk) =? replicas) ||
     negb (stReplicas (bkStatus bk) =? replicas) then Ret false
  else
    (let! now := perform ans Now in
     podsStable bk (now - resolveStabilizationWindow (bkSpec bk)) (range32 replicas))%prog.

(** The scan over every bookie: how many are writable, and whether each
    writable one is below the low watermark. *)
Fixpoint scanWritable (bk : BookKeeper) (lwm : float64) (ords : list Z)
    (writable : Z) (allBelowLWM : bool) : M (Z * bool) :=
  match ords with
  | [] => Ret (Ok (writable, allBelowLWM))
  | ord :: ords' =>
      let podName := bookiePodName bk ord in
      (try! ["checking writable state of bookie " ++! podName] isWritable :=
         perform ans (IsWritable (adminPod bk podName)) in
       if negb isWritable then scanWritable bk lwm ords' writable allBelowLWM
       else
         try! ["checking disk usage of bookie " ++! podName] below :=
           perform ans (LedgerDiskUsageBelow (adminPod bk podName) lwm) in
         scanWritable bk lwm ords' (writable + 1) (allBelowLWM && below))%prog
  end.

(** [Ok (Some ordinal)] is the [(true, ordinal, nil)] of the code. *)
Definition evaluateAutoTrigger (bk : BookKeeper) : M (option Z) :=
  let replicas := resolveReplicas (bkSpec bk) in
  if replicas <=? 0 then Ret (Ok None)
  else
    (let! stable := clusterStable bk replicas in
     if negb stable then Ret (Ok None)
     else
       try! scan := scanWritable bk (resolveLWMFraction (bkSpec bk)) (range32 replicas) 0 true in
       try! ["checking cluster under-replication"] noUnder :=
         perform ans (NoUnderReplicatedLedgers (adminPod bk (bookiePodName bk 0))) in
       let ensembleSize := resolveEnsembleSize (bkSpec bk) in
       let should := ShouldTriggerScaleDown
         (mkGuardInput scan.1 (resolveMinWritableBookies (bkSpec bk) ensembleSize)
            ensembleSize scan.2 noUnder) in
       if negb should then Ret (Ok None) else Ret (Ok (Some (wrap32 (replicas - 1)))))%prog.

Fixpoint countWritable (bk : BookKeeper) (exclude : Z) (ords : list Z) (count : Z) : M Z :=
  match ords with
  | [] => Ret (Ok count)
  | ord :: ords' =>
      if ord =? exclude then countWritable bk exclude ords' count
      else
        let podName := bookiePodName bk ord in
        (try! ["checking writable state of bookie " ++! podName] writable :=
           perform ans (IsWritable (adminPod bk podName)) in
         countWritable bk exclude ords' (if (writable : bool) then count + 1 else count))%prog
  end.

Definition writableCountExcluding (bk : BookKeeper) (exclude : Z) : M Z :=
  countWritable bk exclude (range32 (resolveReplicas (bkSpec bk))) 0.

(** The distinct zones seen so far, and how many bookies carry a zone. *)
Fixpoint gatherZones (bk : BookKeeper) (target : Z) (ords : list Z)
    (zones : gset string) (seen : Z) : M (gset string * Z) :=
  match ords with
  | [] => Ret (Ok (zones, seen))
  | ord :: ords' =>
      if ord =? target then gatherZones bk target ords' zones seen
      else
        (let! pod := perform ans (GetPod (mkNN (bkNamespace bk) (bookiePodName bk ord))) in
         match pod with
         | Err e =>
             if IsNotFound e then gatherZones bk target ords' zones seen
             else Ret (Err (Errorf "looking up bookie pod for placement check" e))
         | Ok pod =>
             if String.eqb (podNodeName pod) "" then gatherZones bk target ords' zones seen
             else
               let! node := perform ans (GetNode (podNodeName pod)) in
               match node with
               | Err e =>
                   if IsNotFound e then gatherZones bk target ords' zones seen
                   else Ret (Err (Errorf ("looking up node " ++! podNodeName pod ++!
                                          " for placement check") e))
               | Ok labels =>
                   match labels !! labelTopologyZone with
                   | Some zone =>
                       if String.eqb zone "" then gatherZones bk target ords' zones seen
                       else gatherZones bk target ords' ({[zone]} ∪ zones) (seen + 1)
                   | None => gatherZones bk target ords' zones seen
                   end
               end
         end)%prog
  end.

Definition placementSatisfiableAfterRemoval (bk : BookKeeper) (target ensembleSize : Z) : M bool :=
  (try! z := gatherZones bk target (range32 (resolveReplicas (bkSpec bk))) ∅ 0 in
   Ret (Ok (PlacementSatisfiable (Z.of_nat (size z.1)) z.2 ensembleSize)))%prog.

(** * Starting and finishing *)

Section Reconciler.
Context `{AM : !ApiMeta} (hasRecorder : bool).

Definition event (bk : BookKeeper) (ty : EventType) (reason note : string) : prog ans unit :=
  if hasRecorder then perform ans (Eventf bk ty reason note) else Ret tt.

Definition decommissioningCondition (gen : Z) (st : ConditionStatus) (reason msg : string) :
    Condition :=
  newCondition conditionTypeDecommissioning st gen reason msg.

Definition timedOut (bk : BookKeeper) : prog ans bool :=
  match (d ← stDecommission (bkStatus bk); dStartedAt d) with
  | None => Ret false
  | Some started =>
      (let! now := perform ans Now in
       Ret (DecommissionTimedOut started now (resolveDecommissionTimeout (bkSpec bk))))%prog
  end.

Definition zeroDecom : BookKeeperDecommissionStatus := mkDecom PhaseNone None "" false None "".

Definition withCondition (st : ConditionStatus) (reason msg : string) (bk : BookKeeper) :
    BookKeeper :=
  set_Conditions (setCond (stConditions (bkStatus bk))
    (decommissioningCondition (bkGeneration bk) st reason msg)) bk.

Definition writeDecommissionStatus (bk : BookKeeper)
    (mutate : option (BookKeeperDecommissionStatus → BookKeeperDecommissionStatus))
    (reason : string) (st : ConditionStatus) (msg : string) : M BookKeeper :=
  (try! ["re-fetching BookKeeper before status write"] latest := perform ans (GetBK (bkKey bk)) in
   let d := match mutate with
            | None => None
            | Some f => Some (f (default zeroDecom (stDecommission (bkStatus latest))))
            end in
   perform ans (StatusUpdate (withCondition st reason msg (set_Decommission d latest))))%prog.

(** The object after the annotation is gone; the request is answered by
    [clearManualDrainAnnotation] with the poll period. *)
Definition dropAnnotation (bk : BookKeeper) : M BookKeeper :=
  match bkAnnotations bk !! AnnotationDrainBookieOrdinal with
  | None => Ret (Ok bk)
  | Some _ =>
      (try! ["clearing manual drain annotation"] bk' :=
         perform ans (PatchBK bk
           (set_Annotations (delete AnnotationDrainBookieOrdinal (bkAnnotations bk)) bk)) in
       Ret (Ok bk'))%prog
  end.

Definition clearManualDrainAnnotation (bk : BookKeeper) : M Result :=
  (try! bk' := dropAnnotation bk in Ret (Ok (mkResult (resolvePeriod (bkSpec bk')))))%prog.

Definition finish (bk : BookKeeper) (ty : EventType) (reason msg : string) : M Result :=
  (try! ["finishing decommission (" ++! reason ++! ")"] latest :=
     writeDecommissionStatus bk None reason ConditionFalse msg in
   try! latest := dropAnnotation latest in
   let! _ := event latest ty reason msg in
   Ret (Ok (mkResult (resolvePeriod (bkSpec latest)))))%prog.

Definition abort (bk : BookKeeper) (reason msg : string) : M Result :=
  finish bk EventTypeWarning reason msg.

Definition revert (bk : BookKeeper) (podName why : string) : M Result :=
  (try! ["reverting bookie " ++! podName ++! " to writable"] _ :=
     perform ans (SetReadOnly (adminPod bk podName) false) in
   finish bk EventTypeWarning reasonTimedOut
     ("auto-reverted bookie " ++! podName ++! " to writable: " ++! why))%prog.

Definition advancePhase (bk : BookKeeper) (next : BookKeeperDecommissionPhase) (msg : string) :
    M Result :=
  (try! ["advancing decommission phase to " ++! phaseString next] latest :=
     writeDecommissionStatus bk
       (Some (λ d, mkDecom next (dTargetOrdinal d) (dTargetBookieID d) (dManual d)
                     (dStartedAt d) msg))
       reasonInProgress ConditionTrue msg in
   let! _ := event latest EventTypeNormal (phaseString next) msg in
   Ret (Ok (mkResult phaseRequeueInterval)))%prog.

Definition beginDecommission (bk : BookKeeper) (ordinal : Z) (manual : bool) : M Result :=
  let podName := bookiePodName bk ordinal in
  let msg := "starting guarded decommission of bookie " ++! podName ++! " (manual=" ++!
             (if manual then "true" else "false") ++! ")" in
  (try! ["re-fetching BookKeeper before starting decommission"] latest :=
     perform ans (GetBK (bkKey bk)) in
   let! started := perform ans Now in
   let d := mkDecom PhaseVerifying (Some ordinal) (bookieIDFor bk ordinal) manual
              (Some started) msg in
   try! ["persisting decommission start"] _ :=
     perform ans (StatusUpdate (withCondition ConditionTrue reasonInProgress msg
       (set_Decommission (Some d) latest))) in
   let! _ := event bk EventTypeNormal "DecommissionStarted" msg in
   Ret (Ok (mkResult phaseRequeueInterval)))%prog.

(** * Phases *)

Definition phaseVerify (bk : BookKeeper) (ordinal : Z) : M Result :=
  let ensembleSize := resolveEnsembleSize (bkSpec bk) in
  let writeQuorum := resolveWriteQuorum (bkSpec bk) in
  let ackQuorum := resolveAckQuorum (bkSpec bk) in
  let minWritable := resolveMinWritableBookies (bkSpec bk) ensembleSize in
  let podName := bookiePodName bk ordinal in
  if negb (QuorumHolds ensembleSize writeQuorum ackQuorum) then
    abort bk reasonQuorumWouldBreak
      ("ensembleSize=" ++! %d ensembleSize ++! " writeQuorum=" ++! %d writeQuorum ++!
       " ackQuorum=" ++! %d ackQuorum ++!
       " no longer satisfy ensembleSize >= writeQuorum >= ackQuorum")
  else
    (try! writableAfter := writableCountExcluding bk ordinal in
     if negb (CapacityHoldsAfterRemoval writableAfter ensembleSize minWritable) then
       abort bk reasonQuorumWouldBreak
         ("removing bookie " ++! podName ++! " would leave " ++! %d writableAfter ++!
          " writable bookies, below max(ensembleSize=" ++! %d ensembleSize ++!
          ", minWritableBookies=" ++! %d minWritable ++! ")")
     else
       try! placementOK := placementSatisfiableAfterRemoval bk ordinal ensembleSize in
       if negb placementOK then
         abort bk reasonPlacementUnsatisfiable
           ("removing bookie " ++! podName ++!
            " would leave rack/zone placement unable to satisfy ensembleSize=" ++!
            %d ensembleSize)
       else
         advancePhase bk PhaseMarkingReadOnly
           ("quorum and placement re-verified for removing bookie " ++! podName))%prog.

Definition phaseMarkReadOnly (bk : BookKeeper) (podName : string) : M Result :=
  (let! late := timedOut bk in
   if (late : bool) then revert bk podName "timed out before the bookie could be marked read-only"
   else
     try! ["marking bookie " ++! podName ++! " read-only"] _ :=
       perform ans (SetReadOnly (adminPod bk podName) true) in
     advancePhase bk PhaseTriggeringRecovery
       ("bookie " ++! podName ++! " marked read-only"))%prog.

Definition phaseTriggerRecovery (bk : BookKeeper) (podName bookieID : string) : M Result :=
  (let! late := timedOut bk in
   if (late : bool) then
     revert bk podName "timed out before decommissionbookie/recover could be triggered"
   else
     try! ["triggering decommission of bookie " ++! podName] _ :=
       perform ans (TriggerDecommission (adminPod bk podName) bookieID) in
     advancePhase bk PhaseAwaitingReplication
       ("triggered decommissionbookie for " ++! podName))%prog.

Definition phaseAwaitReplication (bk : BookKeeper) (podName bookieID : string) : M Result :=
  (let! late := timedOut bk in
   if (late : bool) then revert bk podName "timed out waiting for re-replication to finish"
   else
     try! ["checking ledgers on bookie " ++! podName] hasLedgers :=
       perform ans (HasLedgers (adminPod bk podName) bookieID) in
     try! ["checking cluster under-replication via bookie " ++! podName] noUnderReplication :=
       perform ans (NoUnderReplicatedLedgers (adminPod bk podName)) in
     if hasLedgers || negb noUnderReplication then Ret (Ok (mkResult phaseRequeueInterval))
     else
       advancePhase bk PhaseInvalidatingCookie
         ("bookie " ++! podName ++!
          " has zero ledgers and the cluster has zero under-replicated ledgers"))%prog.

Definition phaseInvalidateCookie (bk : BookKeeper) (podName : string) : M Result :=
  (try! ["invalidating cookie for bookie " ++! podName] _ := perform ans (RenameCookie (adminPod bk podName)) in
   advancePhase bk PhaseScalingDown
     ("cookie invalidated (renamed, not deleted) for bookie " ++! podName))%prog.

Definition abortTopologyChanged (bk : BookKeeper) (podName : string) (current ordinal : Z) :
    M Result :=
  (let! _ := perform ans (SetReadOnly (adminPod bk podName) false) in
   finish bk EventTypeWarning reasonAbortedTopologyChanged
     ("aborting decommission of bookie " ++! podName ++! ": replicas grew to " ++!
      %d current ++! " after this decommission began at top ordinal " ++! %d ordinal ++!
      "; shrinking now would delete undrained bookies, so the StatefulSet is left untouched and must be resolved manually"))%prog.

Definition phaseScaleDown (bk : BookKeeper) (ordinal : Z) : M Result :=
  (try! ["re-fetching BookKeeper before scaling down"] latest := perform ans (GetBK (bkKey bk)) in
   let current := resolveReplicas (bkSpec latest) in
   let podName := bookiePodName bk ordinal in
   if current >? wrap32 (ordinal + 1) then abortTopologyChanged bk podName current ordinal
   else if current =? wrap32 (ordinal + 1) then
     try! ["scaling BookKeeper " ++! bkName latest ++! " replicas to " ++! %d ordinal] latest' :=
       perform ans (UpdateBK (set_Replicas ordinal latest)) in
     advancePhase bk PhaseDeletingPVCs
       ("scaled BookKeeper " ++! bkName latest' ++! " replicas to " ++! %d ordinal)
   else
     advancePhase bk PhaseDeletingPVCs
       ("BookKeeper " ++! bkName latest ++! " replicas already at " ++! %d current ++!
        " (target ordinal " ++! %d ordinal ++! " already removed)"))%prog.

Definition volumeNames : list string := ["journal"; "ledgers"; "index"].

Fixpoint deletePVCs (bk : BookKeeper) (podName : string) (vols : list string) : M unit :=
  match vols with
  | [] => Ret (Ok tt)
  | vol :: vols' =>
      let pvcName := vol ++! "-" ++! podName in
      (let! got := perform ans (GetPVC (mkNN (bkNamespace bk) pvcName)) in
       match got with
       | Err e =>
           if IsNotFound e then deletePVCs bk podName vols'
           else Ret (Err (Errorf ("looking up PVC " ++! pvcName) e))
       | Ok _ =>
           let! del := perform ans (DeletePVC (mkNN (bkNamespace bk) pvcName)) in
           match del with
           | Err e =>
               match IgnoreNotFound e with
               | Some _ => Ret (Err (Errorf ("deleting PVC " ++! pvcName) e))
               | None => deletePVCs bk podName vols'
               end
           | Ok _ => deletePVCs bk podName vols'
           end
       end)%prog
  end.

Definition phaseDeletePVCs (bk : BookKeeper) (ordinal : Z) : M Result :=
  let podName := bookiePodName bk ordinal in
  (let! pod := perform ans (GetPod (mkNN (bkNamespace bk) podName)) in
   match pod with
   | Ok _ => Ret (Ok (mkResult phaseRequeueInterval))
   | Err e =>
       if IsNotFound e then
         try! _ := deletePVCs bk podName volumeNames in
         finish bk EventTypeNormal reasonComplete
           ("decommission of bookie " ++! podName ++!
            " complete: cookie invalidated, replicas scaled down, PVCs deleted")
       else Ret (Err (Errorf ("checking termination of bookie pod " ++! podName) e))
   end)%prog.

(** * Reconcile *)

Definition resume (bk : BookKeeper) (d : BookKeeperDecommissionStatus) : M Result :=
  match dTargetOrdinal d with
  | None =>
      finish bk EventTypeWarning reasonFailed
        "decommission status missing targetOrdinal; clearing corrupt state"
  | Some ordinal =>
      let podName := bookiePodName bk ordinal in
      match dPhase d with
      | PhaseVerifying => phaseVerify bk ordinal
      | PhaseMarkingReadOnly => phaseMarkReadOnly bk podName
      | PhaseTriggeringRecovery => phaseTriggerRecovery bk podName (dTargetBookieID d)
      | PhaseAwaitingReplication => phaseAwaitReplication bk podName (dTargetBookieID d)
      | PhaseInvalidatingCookie => phaseInvalidateCookie bk podName
      | PhaseScalingDown => phaseScaleDown bk ordinal
      | PhaseDeletingPVCs => phaseDeletePVCs bk ordinal
      | PhaseNone | PhaseUnknown _ =>
          finish bk EventTypeWarning reasonFailed
            ("unknown decommission phase " ++! quote (phaseString (dPhase d)) ++!
             "; clearing state")
      end
  end.

(** The decommission a fetched object has in flight, if any. *)
Definition inFlight (bk : BookKeeper) : option BookKeeperDecommissionStatus :=
  d ← stDecommission (bkStatus bk);
  if String.eqb (phaseString (dPhase d)) "" then None else Some d.

Definition start (bk : BookKeeper) : M Result :=
  match evaluateManualTrigger bk with
  | Err e =>
      (let! _ := event bk EventTypeWarning reasonManualDrainRejected (error_text e) in
       clearManualDrainAnnotation bk)%prog
  | Ok (Some ordinal) => beginDecommission bk ordinal true
  | Ok None =>
      (try! auto := evaluateAutoTrigger bk in
       match auto with
       | None => Ret (Ok (mkResult (resolvePeriod (bkSpec bk))))
       | Some ordinal => beginDecommission bk ordinal false
       end)%prog
  end.

Definition Reconcile (req : NamespacedName) : M Result :=
  (let! got := perform ans (GetBK req) in
   match got with
   | Err e => Ret (ignore_not_found e)
   | Ok bk =>
       if negb (decommissionGateEnabled (bkSpec bk)) then Ret (Ok emptyResult)
       else
         match inFlight bk with
         | Some d => resume bk d
         | None => start bk
         end
   end)%prog.

End Reconciler.
End Decom.
