(* ===== verification/DecommissionProps.v ===== *)
(** Safety of the guarded bookie decommission.

    A [history] is what any number of reconciles of any BookKeepers did, in
    order, each of them possibly cut short by a crash after any call.  The
    only assumption on the answers is that [status.decommission] of a fetched
    BookKeeper is what this controller last wrote there: no other component
    writes that field.  Specs, pods, admin answers and write failures are
    arbitrary.  The theorems say what must have happened, in which order,
    before each irreversible call. *)

From S2P Require Import Prelude Effects GoFloat Kube BookKeeper Decommission.
Import Guard Decom.
Open Scope Z_scope.
Open Scope go_scope.

(** * What the controller reads back *)

Abbreviation decoms := (NamespacedName → option BookKeeperDecommissionStatus).

Definition record (s : decoms) (e : Effects.event ans) : decoms :=
  match e with
  | Ev c x =>
      match c return ans c → decoms with
      | StatusUpdate bk => λ x k,
          if decide (res_is_ok x = true ∧ k = bkKey bk) then stDecommission (bkStatus bk) else s k
      | _ => λ _, s
      end x
  end.

(** The [status.decommission] of every BookKeeper after a history. *)
Definition store (h : list (Effects.event ans)) : decoms := foldl record (λ _, None) h.

Definition rely (h : list (Effects.event ans)) (e : Effects.event ans) : Prop :=
  match e with
  | Ev c x =>
      match c return ans c → Prop with
      | GetBK nn => λ x,
          match x with
          | Ok bk => bkKey bk = nn ∧ stDecommission (bkStatus bk) = store h nn
          | Err _ => True
          end
      | _ => λ _, True
      end x
  end.

(** * Evidence *)

Definition podOf (k : NamespacedName) (ord : Z) : string := nnName k ++! "-" ++! %d ord.
Definition target (k : NamespacedName) (ord : Z) : NamespacedName := mkNN (nnNamespace k) (podOf k ord).
Definition idOf (k : NamespacedName) (ord : Z) : string :=
  podOf k ord ++! "." ++! nnName k ++! "." ++! nnNamespace k ++!
  ".svc.cluster.local:" ++! %d bookiePort.

Definition evReadOnly k ord : Effects.event ans := Ev (SetReadOnly (target k ord) true) (Ok tt).
Definition evTriggered k ord : Effects.event ans :=
  Ev (TriggerDecommission (target k ord) (idOf k ord)) (Ok tt).
Definition evNoLedgers k ord : Effects.event ans :=
  Ev (HasLedgers (target k ord) (idOf k ord)) (Ok false).
Definition evReplicated k ord : Effects.event ans :=
  Ev (NoUnderReplicatedLedgers (target k ord)) (Ok true).
Definition evCookie k ord : Effects.event ans := Ev (RenameCookie (target k ord)) (Ok tt).

Definition evDrained k ord := [evReadOnly k ord; evTriggered k ord; evNoLedgers k ord; evReplicated k ord].

(** What has been done to the target, in order, when a phase is entered. *)
Definition evidence (p : BookKeeperDecommissionPhase) (k : NamespacedName) (ord : Z) :
    list (Effects.event ans) :=
  match p with
  | PhaseTriggeringRecovery => [evReadOnly k ord]
  | PhaseAwaitingReplication => [evReadOnly k ord; evTriggered k ord]
  | PhaseInvalidatingCookie => evDrained k ord
  | PhaseScalingDown | PhaseDeletingPVCs => evDrained k ord ++ [evCookie k ord]
  | _ => []
  end.

(** The spec was seen or made not to contain the ordinal. *)
Definition shrunk (h : list (Effects.event ans)) (k : NamespacedName) (ord : Z) : Prop :=
  ∃ bk, resolveReplicas (bkSpec bk) < wrap32 (ord + 1) ∧ Ev (GetBK k) (Ok bk) ∈ h ∨
    (∃ x, Ev (UpdateBK (set_Replicas ord bk)) (Ok x) ∈ h) ∧ bkKey bk = k.

(** The current attempt at ordinal [ord] of [k]: it was persisted, and since
    then the evidence for phase [p] was gathered. *)
Definition attempt (h : list (Effects.event ans)) (k : NamespacedName) (ord : Z)
    (p : BookKeeperDecommissionPhase) : Prop :=
  ∃ h0 bk0 d0 x h1,
    h = h0 ++ Ev (StatusUpdate bk0) (Ok x) :: h1 ∧ bkKey bk0 = k ∧
    stDecommission (bkStatus bk0) = Some d0 ∧ dPhase d0 = PhaseVerifying ∧
    dTargetOrdinal d0 = Some ord ∧
    evidence p k ord `sublist_of` h1 ∧
    (p = PhaseDeletingPVCs → shrunk h1 k ord).

(** What a status write may claim. *)
Definition claimable (h : list (Effects.event ans)) (k : NamespacedName)
    (d : BookKeeperDecommissionStatus) : Prop :=
  ∃ ord, dTargetOrdinal d = Some ord ∧ dTargetBookieID d = idOf k ord ∧
    (dPhase d = PhaseVerifying ∨ attempt h k ord (dPhase d)).

Definition permitted (h : list (Effects.event ans)) (c : call) : Prop :=
  match c with
  | StatusUpdate bk => ∀ d, stDecommission (bkStatus bk) = Some d → claimable h (bkKey bk) d
  | SetReadOnly pod ro =>
      ∃ k ord p, pod = target k ord ∧ attempt h k ord p ∧ p ≠ PhaseVerifying
  | TriggerDecommission pod id =>
      ∃ k ord, pod = target k ord ∧ id = idOf k ord ∧ attempt h k ord PhaseTriggeringRecovery
  | RenameCookie pod => ∃ k ord, pod = target k ord ∧ attempt h k ord PhaseInvalidatingCookie
  | UpdateBK bk => ∃ h' latest ord,
      attempt h (bkKey bk) ord PhaseScalingDown ∧
      h = h' ++ [Ev (GetBK (bkKey bk)) (Ok latest)] ∧
      resolveReplicas (bkSpec latest) = wrap32 (ord + 1) ∧ bk = set_Replicas ord latest
  | DeletePVC nn => ∃ k ord vol e,
      nn = mkNN (nnNamespace k) (vol ++! "-" ++! podOf k ord) ∧ vol ∈ volumeNames ∧
      attempt h k ord PhaseDeletingPVCs ∧
      Ev (GetPod (target k ord)) (Err e) ∈ h ∧ IsNotFound e = true
  | _ => True
  end.

(** ** Monotonicity *)

Lemma shrunk_app h h' k ord : shrunk h k ord ∨ shrunk h' k ord → shrunk (h ++ h') k ord.
Proof. unfold shrunk. setoid_rewrite elem_of_app. naive_solver. Qed.

Lemma attempt_app h h' k ord p : attempt h k ord p → attempt (h ++ h') k ord p.
Proof.
  intros (h0 & bk0 & d0 & x & h1 & -> & ? & ? & ? & ? & Hs & Hp).
  exists h0, bk0, d0, x, (h1 ++ h'). rewrite <- (assoc_L (++)). split_and!; try done.
  - by apply sublist_inserts_r.
  - intros Hd. apply shrunk_app. left. by apply Hp.
Qed.

(** One more piece of evidence, appended to the history. *)
Lemma attempt_extend h k ord p q es :
  attempt h k ord p → q ≠ PhaseDeletingPVCs →
  evidence q k ord = evidence p k ord ++ es → attempt (h ++ es) k ord q.
Proof.
  intros (h0 & bk0 & d0 & x & h1 & -> & ? & ? & ? & ? & Hs & Hp) Hq E.
  exists h0, bk0, d0, x, (h1 ++ es). rewrite <- (assoc_L (++)). split_and!; try done.
  rewrite E. by apply sublist_app.
Qed.

Lemma attempt_deleting h h' k ord :
  attempt h k ord PhaseScalingDown → shrunk h' k ord →
  attempt (h ++ h') k ord PhaseDeletingPVCs.
Proof.
  intros (h0 & bk0 & d0 & x & h1 & -> & ? & ? & ? & ? & Hs & Hp) Hsh.
  exists h0, bk0, d0, x, (h1 ++ h'). rewrite <- (assoc_L (++)). split_and!; try done.
  - by apply sublist_inserts_r.
  - intros _. apply shrunk_app. by right.
Qed.

(** ** The invariant of the persisted state *)

Definition inv (h : list (Effects.event ans)) : Prop :=
  ∀ k d, store h k = Some d → ∃ ord,
    dTargetOrdinal d = Some ord ∧ dTargetBookieID d = idOf k ord ∧ attempt h k ord (dPhase d).

Lemma store_snoc h e : store (h ++ [e]) = record (store h) e.
Proof. unfold store. by rewrite foldl_app. Qed.

Lemma inv_snoc h e : inv h → permitted h (ev_call e) → inv (h ++ [e]).
Proof.
  intros Hi Hp k d. rewrite store_snoc. intros Hs.
  assert (store h k = Some d → ∃ ord, dTargetOrdinal d = Some ord ∧
    dTargetBookieID d = idOf k ord ∧ attempt (h ++ [e]) k ord (dPhase d)) as Hold.
  { intros (ord & ? & ? & ?)%Hi. exists ord. split_and!; [done..|]. by apply attempt_app. }
  destruct e as [[] x]; simpl in *; try by apply Hold.
  case_decide as Hd; [|by apply Hold]. destruct Hd as [Hok ->].
  destruct (Hp d Hs) as (ord & Ho & Hid & [Hv|Ha]); exists ord; split_and!; try done;
    [|by apply attempt_app].
  destruct x as [y|]; [|done]. rewrite Hv.
  exists h, bk, d, y, []. by split_and!.
Qed.

Lemma inv_guaranteed h t : inv h → guaranteed permitted h t → inv (h ++ t).
Proof.
  revert h. induction t as [|e t IH]; intros h Hi Hg; [by rewrite app_nil_r|].
  rewrite cons_middle, assoc by apply _. apply IH.
  - apply inv_snoc; [done|]. specialize (Hg [] e t eq_refl). by rewrite app_nil_r in Hg.
  - intros t1 e' t2 ->. specialize (Hg (e :: t1) e' t2 eq_refl). by rewrite <- (assoc_L (++)).
Qed.

(** * The handlers respect the permissions *)

Section Handlers.
Context `{AM : !ApiMeta} (hasRecorder : bool).

Abbreviation ok p h := (wp permitted rely p (λ _ _, True) h).

(** Calls that are permitted at any time. *)
Definition harmless (c : call) : Prop :=
  match c with
  | StatusUpdate _ | SetReadOnly _ _ | TriggerDecommission _ _ | RenameCookie _
  | UpdateBK _ | DeletePVC _ => False
  | _ => True
  end.

Lemma harmless_permitted h c : harmless c → permitted h c.
Proof. by destruct c. Qed.

Lemma ok_harmless {A} (p : prog ans A) h : only harmless p → ok p h.
Proof. apply wp_only, harmless_permitted. Qed.

Lemma ok_event bk ty r m h : ok (event hasRecorder bk ty r m) h.
Proof. apply ok_harmless. unfold event. by destruct hasRecorder. Qed.

Lemma harmless_dropAnnotation bk : only harmless (dropAnnotation bk).
Proof. unfold dropAnnotation. destruct (_ !! _); simpl; [|done]. by split; [|intros []]. Qed.

(** Clearing the state is always permitted. *)
Lemma ok_finish bk ty r m h : ok (finish hasRecorder bk ty r m) h.
Proof.
  unfold finish, writeDecommissionStatus. simpl. split; [done|].
  intros [latest|e] _; simpl; [|done]. split; [done|].
  intros [latest'|e] _; simpl; [|done].
  apply wp_bind. eapply wp_mono, ok_harmless, harmless_dropAnnotation.
  intros [b|e] h' _ _; simpl; [|done].
  apply wp_bind. eapply wp_mono, ok_event. done.
Qed.

(** The decommission [d] is what the store holds for [bk], at ordinal [ord]. *)
Definition holds (h : list (Effects.event ans)) (bk : BookKeeper)
    (d : BookKeeperDecommissionStatus) (ord : Z) : Prop :=
  store h (bkKey bk) = Some d ∧ dTargetOrdinal d = Some ord ∧
  dTargetBookieID d = idOf (bkKey bk) ord.

Definition notStatus (e : Effects.event ans) : Prop :=
  match ev_call e with StatusUpdate _ => False | _ => True end.

Lemma holds_app h bk d ord es :
  holds h bk d ord → Forall notStatus es → holds (h ++ es) bk d ord.
Proof.
  intros (Hs & ? & ?) He. split_and!; [|done..]. rewrite <- Hs.
  induction es as [|e es IH] using rev_ind; [by rewrite app_nil_r|].
  apply Forall_app in He as [He He']. rewrite assoc, store_snoc by apply _.
  rewrite <- IH by done. rewrite Forall_singleton in He'.
  by destruct e as [[] x].
Qed.

(** Advancing is permitted once the evidence for the next phase is there. *)
Lemma ok_advancePhase bk d ord next msg h :
  holds h bk d ord → attempt h (bkKey bk) ord next →
  ok (advancePhase hasRecorder bk next msg) h.
Proof.
  intros (Hs & Ho & Hid) Ha. unfold advancePhase, writeDecommissionStatus. simpl.
  split; [done|]. intros [latest|e]; simpl; [|done]. intros [Hk Hd]. split.
  - intros d'. simpl. rewrite Hd, Hs. simpl. intros [= <-].
    match goal with |- claimable _ ?k _ => change k with (bkKey latest) end. rewrite Hk.
    exists ord. simpl. split_and!; [done..|]. right. by apply attempt_app.
  - intros [latest'|e] _; simpl; [|done]. apply wp_bind. eapply wp_mono, ok_event. done.
Qed.

Lemma ok_revert bk ord p why h :
  attempt h (bkKey bk) ord p → p ≠ PhaseVerifying →
  ok (revert hasRecorder bk (bookiePodName bk ord) why) h.
Proof.
  intros Ha Hp. unfold revert. simpl. split; [by exists (bkKey bk), ord, p|].
  intros [[]|e] _; [|done]. apply ok_finish.
Qed.

Lemma wp_timedOut bk d ord (Q : bool → list (Effects.event ans) → Prop) h :
  (∀ b es, Forall notStatus es → Q b (h ++ es)) →
  stDecommission (bkStatus bk) = Some d → holds h bk d ord →
  wp permitted rely (timedOut bk) Q h.
Proof.
  intros HQ Hd Hh. unfold timedOut. rewrite Hd. simpl.
  destruct (dStartedAt d); simpl.
  - split; [done|]. intros now _. apply HQ. by repeat constructor.
  - specialize (HQ false []). rewrite app_nil_r in HQ. by apply HQ.
Qed.

(** ** Phases *)

Lemma harmless_countWritable bk ex ords n : only harmless (countWritable bk ex ords n).
Proof.
  revert n. induction ords as [|o ords IH]; intros n; simpl; [done|].
  destruct (o =? ex); [apply IH|]. simpl. split; [done|]. intros [w|e]; [apply IH|done].
Qed.

Lemma harmless_gatherZones bk tgt ords zones seen : only harmless (gatherZones bk tgt ords zones seen).
Proof.
  revert zones seen. induction ords as [|o ords IH]; intros zones seen; simpl; [done|].
  destruct (o =? tgt); [apply IH|]. simpl. split; [done|]. intros [pod|e].
  - destruct (String.eqb _ _); [apply IH|]. simpl. split; [done|]. intros [labels|e].
    + destruct (labels !! _); [destruct (String.eqb _ _)|]; apply IH.
    + destruct (IsNotFound e); [apply IH|done].
  - destruct (IsNotFound e); [apply IH|done].
Qed.

Lemma wp_harmless {A} (p : prog ans A) (Q : A → list (Effects.event ans) → Prop) h :
  only harmless p →
  (∀ a es, Forall notStatus es → Q a (h ++ es)) → wp permitted rely p Q h.
Proof.
  revert h. induction p as [a|c k IH]; intros h; simpl.
  - intros _ HQ. specialize (HQ a []). rewrite app_nil_r in HQ. by apply HQ.
  - intros [Hc Hk] HQ. split; [by apply harmless_permitted|]. intros x _. apply IH; [done|].
    intros a es He. rewrite <- (assoc_L (++)). apply HQ. constructor; [by destruct c|done].
Qed.

Section Phases.
Context (bk : BookKeeper) (d : BookKeeperDecommissionStatus) (ord : Z)
  (h : list (Effects.event ans)).
Context (Hbk : stDecommission (bkStatus bk) = Some d) (Hh : holds h bk d ord).
Context (Ha : attempt h (bkKey bk) ord (dPhase d)).

Lemma ok_phaseVerify : ok (phaseVerify hasRecorder bk ord) h.
Proof.
  unfold phaseVerify, abort. destruct (negb (QuorumHolds _ _ _)); [apply ok_finish|].
  apply wp_bind_ok, wp_harmless; [apply harmless_countWritable|]. intros [w|e] es1 He1; [|done].
  destruct (negb _); [apply ok_finish|].
  apply wp_bind_ok, wp_bind_ok, wp_harmless; [apply harmless_gatherZones|].
  intros [z|e] es2 He2; [|done]. simpl. destruct (negb _); [apply ok_finish|].
  rewrite <- (assoc_L (++)).
  apply ok_advancePhase with (d := d) (ord := ord).
  - apply holds_app; [done|]. by apply Forall_app.
  - destruct Ha as (h0 & bk0 & d0 & x & h1 & E & ? & ? & ? & ? & Hs & Hp).
    apply attempt_app. exists h0, bk0, d0, x, h1. split_and!; try done. apply sublist_nil_l.
Qed.

(** The three phases that first check the deadline. *)
Lemma ok_deadline why (body : M Result) :
  dPhase d ≠ PhaseVerifying →
  (∀ es, Forall notStatus es → ok body (h ++ es)) →
  ok (bind (timedOut bk) (λ late : bool,
        if late then revert hasRecorder bk (bookiePodName bk ord) why else body)) h.
Proof.
  intros Hp Hbody. apply wp_bind. eapply wp_timedOut; [|done..].
  intros [] es He; [|by apply Hbody].
  eapply ok_revert; [by apply attempt_app|done].
Qed.

(** The shape of an advance after admin calls that gathered evidence [es]. *)
Lemma ok_advance_after next msg es :
  Forall notStatus es →
  attempt (h ++ es) (bkKey bk) ord next →
  ok (advancePhase hasRecorder bk next msg) (h ++ es).
Proof. intros He Hat. by eapply ok_advancePhase; [apply holds_app|]. Qed.

Lemma ok_phaseMarkReadOnly :
  dPhase d = PhaseMarkingReadOnly → ok (phaseMarkReadOnly hasRecorder bk (bookiePodName bk ord)) h.
Proof.
  intros Hp. pose proof Ha as Ha'. rewrite Hp in Ha'. apply ok_deadline; [congruence|]. intros es He. simpl.
  split; [by eexists (bkKey bk), ord, PhaseMarkingReadOnly; split_and!; [|apply attempt_app|]|].
  intros [[]|e] _; [|done]. rewrite <- (assoc_L (++)). apply ok_advance_after.
  - apply Forall_app; split; [done|by repeat constructor].
  - rewrite assoc by apply _. by eapply attempt_extend; [apply attempt_app|..].
Qed.

Lemma ok_phaseTriggerRecovery :
  dPhase d = PhaseTriggeringRecovery →
  ok (phaseTriggerRecovery hasRecorder bk (bookiePodName bk ord) (dTargetBookieID d)) h.
Proof.
  intros Hp. pose proof Ha as Ha'. rewrite Hp in Ha'. apply ok_deadline; [congruence|]. intros es He. simpl.
  destruct Hh as (_ & _ & Hid). rewrite Hid.
  split; [by exists (bkKey bk), ord; split_and!; [| |apply attempt_app]|].
  intros [[]|e] _; [|done]. rewrite <- (assoc_L (++)). apply ok_advance_after.
  - apply Forall_app; split; [done|by repeat constructor].
  - rewrite assoc by apply _. by eapply attempt_extend; [apply attempt_app|..].
Qed.

Lemma ok_phaseAwaitReplication :
  dPhase d = PhaseAwaitingReplication →
  ok (phaseAwaitReplication hasRecorder bk (bookiePodName bk ord) (dTargetBookieID d)) h.
Proof.
  intros Hp. pose proof Ha as Ha'. rewrite Hp in Ha'. apply ok_deadline; [congruence|]. intros es He. simpl.
  destruct Hh as (_ & _ & Hid). rewrite Hid.
  split; [done|]. intros [ledgers|e] _; [|done]. simpl.
  split; [done|]. intros [clean|e] _; [|done].
  destruct ledgers, clean; simpl; try done.
  rewrite <- !(assoc_L (++)). apply ok_advance_after.
  - apply Forall_app; split; [done|by repeat constructor].
  - rewrite assoc by apply _. by eapply attempt_extend; [apply attempt_app|..].
Qed.

Lemma ok_phaseInvalidateCookie :
  dPhase d = PhaseInvalidatingCookie →
  ok (phaseInvalidateCookie hasRecorder bk (bookiePodName bk ord)) h.
Proof.
  intros Hp. pose proof Ha as Ha'. rewrite Hp in Ha'. simpl. split; [by exists (bkKey bk), ord|].
  intros [[]|e] _; [|done]. apply ok_advance_after; [by repeat constructor|].
  by eapply attempt_extend.
Qed.

Lemma ok_phaseScaleDown : dPhase d = PhaseScalingDown → ok (phaseScaleDown hasRecorder bk ord) h.
Proof.
  intros Hp. pose proof Ha as Ha'. rewrite Hp in Ha'. simpl.
  split; [done|]. intros [latest|e]; simpl; [|done]. intros [Hk _].
  destruct (_ >? _) eqn:Egt; zbool.
  { unfold abortTopologyChanged. simpl. split; [|intros x _; apply ok_finish].
    exists (bkKey bk), ord, PhaseScalingDown. split_and!; [done|by apply attempt_app|done]. }
  destruct (_ =? _) eqn:Eeq; zbool; simpl.
  - split.
    + exists h, latest, ord. split_and!; try done; [|by rewrite <- Hk].
      apply attempt_app. change (bkKey (set_Replicas ord latest)) with (bkKey latest). by rewrite Hk.
    + intros [latest'|e] _; [|done]. rewrite <- (assoc_L (++)).
      apply ok_advance_after; [by repeat constructor|]. apply attempt_deleting; [done|].
      exists latest. right. split; [|done]. exists latest'. by right; left.
  - apply ok_advance_after; [by repeat constructor|]. apply attempt_deleting; [done|].
    exists latest. left. split; [lia|by left].
Qed.

Lemma wp_deletePVCs e vols hh Q :
  vols ⊆ volumeNames → attempt hh (bkKey bk) ord PhaseDeletingPVCs →
  Ev (GetPod (target (bkKey bk) ord)) (Err e) ∈ hh → IsNotFound e = true →
  (∀ r h', Q r h') → wp permitted rely (deletePVCs bk (bookiePodName bk ord) vols) Q hh.
Proof.
  revert hh. induction vols as [|v vols IH]; intros hh Hv Hat Hpod He HQ; simpl; [apply HQ|].
  assert (∀ es, wp permitted rely (deletePVCs bk (bookiePodName bk ord) vols) Q (hh ++ es)) as Hrest.
  { intros es. apply IH; [set_solver|by apply attempt_app| |done..]. set_solver. }
  split; [done|]. intros [[]|e'] _; simpl.
  - split.
    + exists (bkKey bk), ord, v, e. split_and!; [done|set_solver|by apply attempt_app| |done].
      set_solver.
    + intros [[]|e'] _; [|destruct (IgnoreNotFound e'); [apply HQ|]];
        rewrite <- (assoc_L (++)); apply Hrest.
  - destruct (IsNotFound e'); [apply Hrest|apply HQ].
Qed.

Lemma ok_phaseDeletePVCs : dPhase d = PhaseDeletingPVCs → ok (phaseDeletePVCs hasRecorder bk ord) h.
Proof.
  intros Hp. pose proof Ha as Ha'. rewrite Hp in Ha'. split; [done|].
  intros [pod|e] _; [done|]. cbn -[deletePVCs].
  destruct (IsNotFound e) eqn:He; [|done]. apply wp_bind_ok.
  apply wp_deletePVCs with e; [done|by apply attempt_app|set_solver|done|].
  intros [[]|e'] h'; [apply ok_finish|done].
Qed.

Lemma ok_resume : ok (resume hasRecorder bk d) h.
Proof.
  unfold resume. destruct Hh as (_ & Ho & _). rewrite Ho.
  destruct (dPhase d) eqn:Hp in |- *; cbv beta iota zeta;
    auto using ok_finish, ok_phaseVerify, ok_phaseMarkReadOnly, ok_phaseTriggerRecovery,
      ok_phaseAwaitReplication, ok_phaseInvalidateCookie, ok_phaseScaleDown, ok_phaseDeletePVCs.
Qed.
End Phases.

Lemma ok_beginDecommission bk ord manual h : ok (beginDecommission hasRecorder bk ord manual) h.
Proof.
  unfold beginDecommission. simpl. split; [done|]. intros [latest|e]; simpl; [|done].
  intros [Hk _]. split; [done|]. intros now _. split.
  - intros d'. simpl. intros [= <-].
    match goal with |- claimable _ ?k _ => change k with (bkKey latest) end.
    exists ord. rewrite Hk. split_and!; [done..|]. by left.
  - intros [x|e] _; simpl; [|done]. apply wp_bind. eapply wp_mono, ok_event. done.
Qed.

Lemma harmless_podsStable bk cutoff ords : only harmless (podsStable bk cutoff ords).
Proof.
  induction ords as [|o ords IH]; simpl; [done|]. split; [done|].
  intros [pod|e]; [|done]. by destruct (podStableSince _ _).
Qed.

Lemma harmless_scanWritable bk lwm ords w b : only harmless (scanWritable bk lwm ords w b).
Proof.
  revert w b. induction ords as [|o ords IH]; intros w b; simpl; [done|]. split; [done|].
  intros [[]|e]; simpl; [|apply IH|done]. split; [done|]. intros [|]; [apply IH|done].
Qed.

Lemma harmless_evaluateAutoTrigger bk : only harmless (evaluateAutoTrigger bk).
Proof.
  unfold evaluateAutoTrigger. destruct (_ <=? _); [done|]. apply only_bind.
  - unfold clusterStable. destruct (_ || _); [done|]. split; [done|].
    intros now. apply harmless_podsStable.
  - intros []; [|done]. apply only_bind_ok; [apply harmless_scanWritable|]. intros s. simpl.
    split; [done|]. intros [clean|e]; simpl; [|done]. by destruct (negb _).
Qed.

Lemma ok_start bk h : ok (start hasRecorder bk) h.
Proof.
  unfold start. destruct (evaluateManualTrigger bk) as [[ord|]|e].
  - apply ok_beginDecommission.
  - apply wp_bind_ok, wp_harmless; [apply harmless_evaluateAutoTrigger|].
    intros [[ord|]|e] es _; [apply ok_beginDecommission|done|done].
  - apply wp_bind. eapply wp_mono, ok_event. intros [] h' _ _. apply wp_bind_ok, wp_harmless.
    + apply harmless_dropAnnotation.
    + by intros [].
Qed.

Lemma ok_Reconcile req h : inv h → ok (Reconcile hasRecorder req) h.
Proof.
  intros Hi. unfold Reconcile. simpl. split; [done|]. intros [bk|e]; simpl; [|done].
  intros [Hk Hd]. destruct (negb _); [done|].
  destruct (inFlight bk) as [d|] eqn:Ef; [|apply ok_start].
  assert (stDecommission (bkStatus bk) = Some d) as Hbk.
  { unfold inFlight in Ef. destruct (stDecommission _); simplify_eq/=.
    by destruct (String.eqb _ _); simplify_eq. }
  rewrite Hbk, <- Hk in Hd. symmetry in Hd. destruct (Hi _ _ Hd) as (ord & ? & ? & ?).
  apply ok_resume with ord; [done| |by apply attempt_app].
  apply holds_app; [done|by repeat constructor].
Qed.

(** * Histories *)

Inductive history : list (Effects.event ans) → Prop :=
| history_start : history []
| history_reconcile h req t :
    history h → part (Reconcile hasRecorder req) t → relies rely h t → history (h ++ t).

Lemma history_permitted h : history h → inv h ∧ guaranteed permitted [] h.
Proof.
  induction 1 as [|h req t _ [Hi Hg] Hp Hr]; [split; [done|by intros []]|].
  pose proof (wp_part _ _ _ _ _ _ (ok_Reconcile req h Hi) Hp Hr) as Ht.
  split; [by apply inv_guaranteed|by apply guaranteed_app].
Qed.

Lemma history_at h1 c x h2 : history (h1 ++ Ev c x :: h2) → permitted h1 c.
Proof. intros [_ Hg]%history_permitted. exact (Hg h1 (Ev c x) h2 eq_refl). Qed.

Lemma attempt_evidence h k ord p : attempt h k ord p → evidence p k ord `sublist_of` h.
Proof.
  intros (h0 & bk0 & d0 & x & h1 & -> & _ & _ & _ & _ & Hs & _).
  by apply sublist_inserts_l, sublist_cons.
Qed.

(** C2: A bookie's cookie is invalidated only after the drain.  Whenever any
    history of reconciles, crashes included, renames a cookie, the current
    attempt at that bookie was persisted first, and since then, in this order,
    the bookie was made read-only, its decommission was triggered, it reported
    no ledgers, and the cluster reported no under-replicated ledger. *)
Theorem cookie_only_after_drain h1 pod x h2 :
  history (h1 ++ Ev (RenameCookie pod) x :: h2) →
  ∃ k ord, pod = target k ord ∧ attempt h1 k ord PhaseInvalidatingCookie ∧
    evDrained k ord `sublist_of` h1.
Proof.
  intros Hh. destruct (history_at _ _ _ _ Hh) as (k & ord & -> & Ha).
  exists k, ord. split_and!; [done..|]. by apply (attempt_evidence _ _ _ _ Ha).
Qed.

(** C3: The replica count is only ever lowered by one, from the drained top
    ordinal.  Whenever a history updates a BookKeeper's spec, it writes the
    object it has just fetched with [replicas] set to the target ordinal, that
    fetch showed the target to be the top ordinal, and the target was drained
    and its cookie invalidated before. *)
Theorem shrink_only_the_drained_top h1 bk x h2 :
  history (h1 ++ Ev (UpdateBK bk) x :: h2) →
  ∃ h' latest ord,
    h1 = h' ++ [Ev (GetBK (bkKey bk)) (Ok latest)] ∧ bk = set_Replicas ord latest ∧
    resolveReplicas (bkSpec latest) = wrap32 (ord + 1) ∧
    (in32 (ord + 1) → resolveReplicas (bkSpec bk) = resolveReplicas (bkSpec latest) - 1) ∧
    (evDrained (bkKey bk) ord ++ [evCookie (bkKey bk) ord]) `sublist_of` h1.
Proof.
  intros Hh. destruct (history_at _ _ _ _ Hh) as (h' & latest & ord & Ha & -> & Hr & ->).
  exists h', latest, ord. split_and!; [done..| |].
  - intros Hi. rewrite Hr, wrap32_id by done. simpl. unfold resolveReplicas. simpl. lia.
  - by apply (attempt_evidence _ _ _ _ Ha).
Qed.

(** C8: A volume claim is deleted only for a bookie that is gone.  Whenever a
    history deletes a claim, it is the journal, ledgers or index claim of a
    bookie whose pod was reported not found, that was drained and whose cookie
    was invalidated, and whose ordinal was removed from the spec. *)
Theorem pvcs_only_of_removed_bookie h1 nn x h2 :
  history (h1 ++ Ev (DeletePVC nn) x :: h2) →
  ∃ k ord vol e,
    nn = mkNN (nnNamespace k) (vol ++! "-" ++! podOf k ord) ∧
    vol ∈ ["journal"; "ledgers"; "index"] ∧
    (evDrained k ord ++ [evCookie k ord]) `sublist_of` h1 ∧ shrunk h1 k ord ∧
    Ev (GetPod (target k ord)) (Err e) ∈ h1 ∧ IsNotFound e = true.
Proof.
  intros Hh. destruct (history_at _ _ _ _ Hh) as (k & ord & vol & e & -> & Hv & Ha & He & Hn).
  exists k, ord, vol, e. split_and!; [done..| | |done|done].
  - by apply (attempt_evidence _ _ _ _ Ha).
  - destruct Ha as (h0 & bk0 & d0 & y & hs & -> & _ & _ & _ & _ & _ & Hs).
    rewrite cons_middle. apply shrunk_app. right. apply shrunk_app. right. by apply Hs.
Qed.

End Handlers.

(** * A complete decommission *)

Module DecomDemo.

Definition demoSpec : BookKeeperSpec :=
  mkBKSpec (Some 4) None
    (Some (mkBKAutoscaler true None None None None None None None (Some true) None None)).

Definition demoBK : BookKeeper :=
  mkBK "bk" "ns" 1 {[ AnnotationDrainBookieOrdinal := "3" ]} demoSpec
    (mkBKStatus 4 4 4 None None 1 []).

Definition demoPod : Pod := mkPod "bk-0" "ns" 0 None "node" "10.0.0.1" [] [] [].

(** A healthy cluster: the pod of ordinal 3 is gone once the spec says so. *)
Definition serve (c : call) (s : BookKeeper) : ans c * BookKeeper :=
  match c return ans c * BookKeeper with
  | GetBK _ => (Ok s, s)
  | GetPod nn =>
      (if String.eqb (nnName nn) "bk-3" && (resolveReplicas (bkSpec s) <=? 3)
       then Err (ErrNotFound "pods") else Ok demoPod, s)
  | GetNode _ => (Ok ∅, s)
  | GetPVC _ => (Ok tt, s)
  | DeletePVC _ => (Ok tt, s)
  | UpdateBK bk => (Ok bk, bk)
  | StatusUpdate bk => (Ok (set_Status (bkStatus bk) s), set_Status (bkStatus bk) s)
  | PatchBK _ bk => (Ok bk, bk)
  | SetReadOnly _ _ => (Ok tt, s)
  | TriggerDecommission _ _ => (Ok tt, s)
  | HasLedgers _ _ => (Ok false, s)
  | NoUnderReplicatedLedgers _ => (Ok true, s)
  | RenameCookie _ => (Ok tt, s)
  | IsWritable _ => (Ok true, s)
  | LedgerDiskUsageBelow _ _ => (Ok true, s)
  | Now => (1000 * Second, s)
  | Eventf _ _ _ _ => (tt, s)
  end.

Definition reconcile : M Result := @Reconcile refApiMeta true (mkNN "ns" "bk").

Fixpoint reconciles (n : nat) (s : BookKeeper) : BookKeeper * list (Effects.event ans) :=
  match n with
  | O => (s, [])
  | S n => let '(_, s', t) := exec serve reconcile s in
           let '(s'', t') := reconciles n s' in (s'', t ++ t')
  end.

(** Eight reconciles: the request is recorded, the seven phases run, and the
    cluster ends one bookie smaller with the request consumed. *)
Example demo_completes :
  let s := (reconciles 8 demoBK).1 in
  (Replicas (bkSpec s), stDecommission (bkStatus s), bkAnnotations s !! AnnotationDrainBookieOrdinal) =
    (Some 3, None, None).
Proof. by vm_compute. Qed.

Lemma reconciles_history n s h :
  @history refApiMeta true h → relies rely h (reconciles n s).2 →
  @history refApiMeta true (h ++ (reconciles n s).2).
Proof.
  revert s h. induction n as [|n IH]; intros s h Hh; cbn [reconciles]; [by rewrite app_nil_r|].
  pose proof (exec_runs serve reconcile s) as Hr.
  destruct (exec serve reconcile s) as [[r s'] t]. specialize (IH s' (h ++ t)).
  destruct (reconciles n s') as [s'' t']. cbn [fst snd] in *. rewrite (assoc_L (++)).
  intros [? ?]%relies_app. apply IH; [|done]. 
  apply history_reconcile with (mkNN "ns" "bk"); [done| |done]. exact (runs_part _ _ _ Hr).
Qed.

Definition demoTrace : list (Effects.event ans) := (reconciles 8 demoBK).2.

Lemma demo_history : @history refApiMeta true demoTrace.
Proof.
  apply (reconciles_history 8 demoBK []); [constructor|]. vm_compute. repeat split.
Qed.

(** The part of the demo before the first call that satisfies a test, and the
    part after it. *)
Fixpoint before (f : call → bool) (t : list (Effects.event ans)) : list (Effects.event ans) :=
  match t with
  | [] => []
  | e :: t => if f (ev_call e) then [] else e :: before f t
  end.

Definition afterCall (f : call → bool) : list (Effects.event ans) :=
  drop (S (length (before f demoTrace))) demoTrace.

Definition isRename (c : call) : bool := match c with RenameCookie _ => true | _ => false end.
Definition isUpdate (c : call) : bool := match c with UpdateBK _ => true | _ => false end.
Definition isDelete (c : call) : bool := match c with DeletePVC _ => true | _ => false end.

Definition demoUpdated : BookKeeper := Eval vm_compute in
  match demoTrace !! length (before isUpdate demoTrace) with
  | Some (Ev (UpdateBK bk) _) => bk
  | _ => demoBK
  end.

Lemma before_middle f t e :
  t !! length (before f t) = Some e →
  before f t ++ e :: drop (S (length (before f t))) t = t.
Proof.
  assert (take (length (before f t)) t = before f t) as <-.
  { induction t as [|e' t IH]; simpl; [done|]. destruct (f _); simpl; congruence. }
  intros H. rewrite length_take in H |- *.
  assert (length (before f t) ≤ length t)%nat as Hle.
  { clear. induction t as [|e' t IH]; simpl; [done|]. destruct (f _); simpl; lia. }
  rewrite Nat.min_l in H |- * by done. by apply take_drop_middle.
Qed.

Lemma demo_at f e :
  demoTrace !! length (before f demoTrace) = Some e →
  @history refApiMeta true (before f demoTrace ++ e :: afterCall f).
Proof. intros H. unfold afterCall. rewrite before_middle by done. apply demo_history. Qed.

Lemma demo_rename :
  demoTrace !! length (before isRename demoTrace) = Some (Ev (RenameCookie (mkNN "ns" "bk-3")) (Ok tt)).
Proof. by vm_compute. Qed.

Lemma demo_update :
  demoTrace !! length (before isUpdate demoTrace) = Some (Ev (UpdateBK demoUpdated) (Ok demoUpdated)).
Proof. by vm_compute. Qed.

Lemma demo_delete :
  demoTrace !! length (before isDelete demoTrace) =
    Some (Ev (DeletePVC (mkNN "ns" "journal-bk-3")) (Ok tt)).
Proof. by vm_compute. Qed.

Lemma cookie_only_after_drain_witness :
  ∃ k ord, mkNN "ns" "bk-3" = target k ord ∧ evDrained k ord `sublist_of` before isRename demoTrace.
Proof.
  destruct (@cookie_only_after_drain refApiMeta true _ _ _ _ (demo_at isRename _ demo_rename))
    as (k & ord & H1 & _ & H2).
  by exists k, ord.
Defined.

Lemma shrink_only_the_drained_top_witness :
  ∃ ord, resolveReplicas (bkSpec demoUpdated) = 3 ∧
    (evDrained (bkKey demoUpdated) ord ++ [evCookie (bkKey demoUpdated) ord])
      `sublist_of` before isUpdate demoTrace.
Proof.
  destruct (@shrink_only_the_drained_top refApiMeta true _ _ _ _ (demo_at isUpdate _ demo_update))
    as (h' & latest & ord & _ & _ & _ & _ & H).
  by exists ord.
Defined.

Lemma pvcs_only_of_removed_bookie_witness :
  ∃ k ord, shrunk (before isDelete demoTrace) k ord ∧
    (evDrained k ord ++ [evCookie k ord]) `sublist_of` before isDelete demoTrace.
Proof.
  destruct (@pvcs_only_of_removed_bookie refApiMeta true _ _ _ _ (demo_at isDelete _ demo_delete))
    as (k & ord & vol & e & _ & _ & H1 & H2 & _).
  by exists k, ord.
Defined.

End DecomDemo.
