(* ===== verification/DecommissionGuards.v ===== *)
(** When the guarded decommission starts, passes its guards and gives up:
    the meaning of the trigger and of the verification phase in terms of the
    answers they got, their agreement with the bookie autoscaler, the manual
    drain request, and the deadline. *)

From S2P Require Import Prelude Effects GoFloat Kube BookKeeper BookieScale Decommission DecommissionProps.
Import Guard Decom.
Open Scope Z_scope.
Open Scope go_scope.

(** * Counting answers *)

(** The pods that answered that they are writable. *)
Definition writableAnswers (t : list (Effects.event ans)) : list NamespacedName :=
  omap (λ e, match e with Ev c x =>
    match c return ans c → option NamespacedName with
    | IsWritable pod => λ x, match x with Ok true => Some pod | _ => None end
    | _ => λ _, None
    end x end) t.

(** The pods that were asked. *)
Definition askedWritable (t : list (Effects.event ans)) : list NamespacedName :=
  omap (λ e, match ev_call e with IsWritable pod => Some pod | _ => None end) t.

Definition podsOf (bk : BookKeeper) (ords : list Z) : list NamespacedName :=
  (λ o, adminPod bk (bookiePodName bk o)) <$> ords.

(** Every remaining bookie is asked, in order, and the count is the number of
    them that are writable. *)
Lemma countWritable_count bk ex ords n t m :
  runs (countWritable bk ex ords n) t (Ok m) →
  m = n + Z.of_nat (length (writableAnswers t)) ∧
  askedWritable t = podsOf bk (filter (λ o, o ≠ ex) ords).
Proof.
  revert n t. induction ords as [|o ords IH]; intros n t.
  - intros [-> E]. simplify_eq. simpl. split; [lia|done].
  - cbn [countWritable]. destruct (o =? ex) eqn:E; zbool.
    + rewrite filter_cons_False by naive_solver. apply IH.
    + rewrite filter_cons_True by done. intros H. run_step H.
      destruct x as [[]|e]; [| |by destruct H]; apply IH in H as [-> Ha]; simpl;
        (split; [lia|by f_equal]).
Qed.

(** ** Verification *)

Section Verify.
Context `{AM : !ApiMeta} (hasRecorder : bool).

(** The decommission states a run persists. *)
Definition persisted (t : list (Effects.event ans)) : list (option BookKeeperDecommissionStatus) :=
  omap (λ e, match ev_call e with
             | StatusUpdate bk => Some (stDecommission (bkStatus bk))
             | _ => None
             end) t.

Lemma persisted_app t1 t2 : persisted (t1 ++ t2) = persisted t1 ++ persisted t2.
Proof. apply omap_app. Qed.

Definition noStatus (c : call) : Prop := match c with StatusUpdate _ => False | _ => True end.

Lemma only_noStatus {A} (p : prog ans A) t a : only noStatus p → runs p t a → persisted t = [].
Proof.
  intros Hp Hr. pose proof (only_runs _ _ _ _ Hp Hr) as Hf. clear Hp Hr.
  induction Hf as [|[[] x] t' He _ IH]; simpl in *; done.
Qed.

Lemma noStatus_event bk ty r m : only noStatus (event hasRecorder bk ty r m).
Proof. unfold event. by destruct hasRecorder. Qed.

Lemma noStatus_dropAnnotation bk : only noStatus (dropAnnotation bk).
Proof. unfold dropAnnotation. destruct (_ !! _); simpl; [|done]. by split; [|intros []]. Qed.

Lemma noStatus_countWritable bk ex ords n : only noStatus (countWritable bk ex ords n).
Proof.
  revert n. induction ords as [|o ords IH]; intros n; simpl; [done|].
  destruct (o =? ex); [apply IH|]. simpl. split; [done|]. intros [w|e]; [apply IH|done].
Qed.

Lemma noStatus_gatherZones bk tgt ords zones seen : only noStatus (gatherZones bk tgt ords zones seen).
Proof.
  revert zones seen. induction ords as [|o ords IH]; intros zones seen; simpl; [done|].
  destruct (o =? tgt); [apply IH|]. simpl. split; [done|]. intros [pod|e].
  - destruct (String.eqb _ _); [apply IH|]. simpl. split; [done|]. intros [labels|e].
    + destruct (labels !! _); [destruct (String.eqb _ _)|]; apply IH.
    + destruct (IsNotFound e); [apply IH|done].
  - destruct (IsNotFound e); [apply IH|done].
Qed.

(** Finishing persists nothing but the cleared state. *)
Lemma finish_clears bk ty r m t x :
  runs (finish hasRecorder bk ty r m) t x → persisted t = [] ∨ persisted t = [None].
Proof.
  intros H. run_step H. destruct x0 as [latest|e]; [|run_step H; by left].
  run_step H. right. simpl. f_equal.
  destruct x0 as [latest'|e]; [|by run_step H].
  eapply only_noStatus, H. simpl. apply only_bind; [apply noStatus_dropAnnotation|].
  intros [b|e]; [|done]. simpl. apply only_bind; [apply noStatus_event|done].
Qed.

Lemma persisted_event_tail bk ty r m (a : res Result) t x :
  runs (bind (event hasRecorder bk ty r m) (λ _, Ret a)) t x → persisted t = [].
Proof. intros H. eapply only_noStatus, H. apply only_bind; [apply noStatus_event|done]. Qed.

(** Advancing persists at most the next phase. *)
Lemma advancePhase_persists bk next msg t x d :
  runs (advancePhase hasRecorder bk next msg) t x → Some d ∈ persisted t → dPhase d = next.
Proof.
  intros H. run_step H. destruct x0 as [latest|e]; [|by run_step H; intros ?%elem_of_nil].
  run_step H. simpl. intros [Hd|Hd]%elem_of_cons; [by simplify_eq/=|].
  destruct x0 as [latest'|e]; [|by run_step H; apply elem_of_nil in Hd].
  apply persisted_event_tail in H. rewrite H in Hd. by apply elem_of_nil in Hd.
Qed.

Lemma finish_no_decom bk ty r m t x d :
  runs (finish hasRecorder bk ty r m) t x → Some d ∉ persisted t.
Proof. intros [->| ->]%finish_clears; set_solver. Qed.

(** What the verification polled, and that the bookie may go. *)
Lemma phaseVerify_pass bk ord t x d :
  runs (phaseVerify hasRecorder bk ord) t x → Some d ∈ persisted t →
  ∃ t1 t2, t = t1 ++ t2 ∧ dPhase d = PhaseMarkingReadOnly ∧
    QuorumHolds (resolveEnsembleSize (bkSpec bk)) (resolveWriteQuorum (bkSpec bk))
      (resolveAckQuorum (bkSpec bk)) = true ∧
    askedWritable t1 = podsOf bk (filter (λ o, o ≠ ord) (range32 (resolveReplicas (bkSpec bk)))) ∧
    CapacityHoldsAfterRemoval (Z.of_nat (length (writableAnswers t1)))
      (resolveEnsembleSize (bkSpec bk))
      (resolveMinWritableBookies (bkSpec bk) (resolveEnsembleSize (bkSpec bk))) = true.
Proof.
  unfold phaseVerify, abort. intros H Hd.
  destruct (QuorumHolds _ _ _) eqn:Eq; cbv beta iota delta [negb] in H; [|by eapply finish_no_decom in H].
  unfold bind_ok in H. apply runs_bind in H as (t1 & t2 & [n|e] & -> & Hc & H).
  2:{ destruct H as [-> _]. rewrite persisted_app in Hd.
      rewrite (only_noStatus _ _ _ (noStatus_countWritable _ _ _ _) Hc) in Hd. set_solver. }
  rewrite persisted_app, (only_noStatus _ _ _ (noStatus_countWritable _ _ _ _) Hc) in Hd.
  apply countWritable_count in Hc as [-> Ha].
  destruct (CapacityHoldsAfterRemoval _ _ _) eqn:Ec; cbv beta iota delta [negb] in H; [|by eapply finish_no_decom in H].
  exists t1, t2. split_and!; try done.
  unfold placementSatisfiableAfterRemoval, bind_ok in H.
  apply runs_bind in H as (t3 & t4 & b & -> & Hz & H).
  apply runs_bind in Hz as (t5 & t6 & z & -> & Hz & Hb).
  rewrite !persisted_app, (only_noStatus _ _ _ (noStatus_gatherZones _ _ _ _ _) Hz) in Hd.
  destruct z as [z|e]; destruct Hb as [-> ->]; simpl in Hd.
  2:{ destruct H as [-> _]. by apply elem_of_nil in Hd. }
  destruct (PlacementSatisfiable _ _ _); cbv beta iota delta [negb] in H; [|by eapply finish_no_decom in H].
  by eapply advancePhase_persists.
Qed.

(** C29: Passing the verification means the cluster can do without the bookie.
    When the verification phase advances, the quorum sizes are ordered, every
    other bookie was asked once, in order, and those that answered writable
    are at least the ensemble size and the configured minimum.  So for want of
    writable bookies the autoscaler, if there is one, does not scale the smaller
    cluster up again: with that count and no disk at risk it decides nothing,
    whether its poll was complete or not. *)
Theorem verified_removal_is_safe bk ord t x d :
  runs (phaseVerify hasRecorder bk ord) t x → Some d ∈ persisted t →
  dPhase d = PhaseMarkingReadOnly ∧
  0 < resolveAckQuorum (bkSpec bk) <= resolveWriteQuorum (bkSpec bk) ∧
  resolveWriteQuorum (bkSpec bk) <= resolveEnsembleSize (bkSpec bk) ∧
  ∃ t1 t2, t = t1 ++ t2 ∧
    askedWritable t1 = podsOf bk (filter (λ o, o ≠ ord) (range32 (resolveReplicas (bkSpec bk)))) ∧
    let n := Z.of_nat (length (writableAnswers t1)) in
    resolveEnsembleSize (bkSpec bk) <= n ∧
    resolveMinWritableBookies (bkSpec bk) (resolveEnsembleSize (bkSpec bk)) <= n ∧
    ∀ a complete, Autoscaler (bkSpec bk) = Some a →
      BookieDecision.ShouldScale
        (BookieDecision.decide_ (BookieAutoscaler.tickParams (set_Replicas ord bk) a) n false complete)
        = false.
Proof.
  intros Hr Hd. destruct (phaseVerify_pass _ _ _ _ _ Hr Hd)
    as (t1 & t2 & -> & Hp & Hq & Hask & Hc).
  unfold QuorumHolds in Hq. unfold CapacityHoldsAfterRemoval in Hc. zbool.
  split_and!; try done; try lia. exists t1, t2. split_and!; try done. cbv zeta. split; [done|].
  split; [done|]. intros a complete Ea.
  apply BookieDecision.decide_quiet. destruct complete; [|done]. simpl. apply Z.ltb_ge.
  unfold resolveMinWritableBookies in *. rewrite Ea in *. simpl in *.
  done.
Qed.

(** ** Starting *)

(** The pods of the cluster that were asked for their state, and how the
    others must have answered. *)
Definition allStable (bk : BookKeeper) (t : list (Effects.event ans)) (cutoff : Z) (ords : list Z) :
    Prop :=
  Forall (λ o, ∃ pod, Ev (GetPod (mkNN (bkNamespace bk) (bookiePodName bk o))) (Ok pod) ∈ t ∧
                 podStableSince pod cutoff = true) ords.

Lemma podsStable_all bk cutoff ords t :
  runs (podsStable bk cutoff ords) t true → allStable bk t cutoff ords.
Proof.
  revert t. induction ords as [|o ords IH]; intros t; [constructor|].
  intros H. run_step H. destruct x as [pod|e]; [|by destruct H].
  destruct (podStableSince pod cutoff) eqn:E; [|by destruct H].
  constructor; [exists pod; split; [by left|done]|].
  eapply Forall_impl; [by apply IH|]. intros o' (p & ? & ?). exists p. split; [by right|done].
Qed.

(** What the bookies answered about their ledger disks: the pod, the fraction
    it was asked about, and whether its usage is below. *)
Definition diskAnswers (t : list (Effects.event ans)) : list (NamespacedName * float64 * bool) :=
  omap (λ e, match e with Ev c x =>
    match c return ans c → option (NamespacedName * float64 * bool) with
    | LedgerDiskUsageBelow pod fraction => λ x, match x with Ok b => Some (pod, fraction, b) | Err _ => None end
    | _ => λ _, None
    end x end) t.

(** Every writable bookie, and no other, was asked about its disks. *)
Lemma scanWritable_count bk lwm ords n b t m b' :
  runs (scanWritable bk lwm ords n b) t (Ok (m, b')) →
  m = n + Z.of_nat (length (writableAnswers t)) ∧
  askedWritable t = podsOf bk ords ∧
  (b' = true → b = true ∧ diskAnswers t = (λ pod, (pod, lwm, true)) <$> writableAnswers t).
Proof.
  revert n b t. induction ords as [|o ords IH]; intros n b t.
  - intros [-> E]. simplify_eq. simpl. split_and!; [lia|done|auto].
  - intros H. run_step H. destruct x as [[]|e]; [| |by destruct H].
    + run_step H. destruct x as [below|e]; [|by destruct H].
      apply IH in H as (-> & Ha & Hd). simpl. rewrite Ha. split_and!; [lia|done|].
      intros [[-> ->]%andb_true_iff ->]%Hd. done.
    + apply IH in H as (-> & Ha & Hd). simpl. rewrite Ha. by split_and!.
Qed.

(** C30: The automatic trigger fires only on a stable cluster with spare
    capacity.  It names the top ordinal, and then every bookie's pod has been
    Ready since before the stabilization window, every bookie was asked, more
    of them are writable than both the ensemble and the configured minimum
    need, each of the writable ones was asked about its ledger disks against
    the low watermark and is below it, and no ledger is under-replicated. *)
Theorem auto_trigger_sound bk t ord :
  runs (evaluateAutoTrigger bk) t (Ok (Some ord)) →
  let replicas := resolveReplicas (bkSpec bk) in
  let ensemble := resolveEnsembleSize (bkSpec bk) in
  ord = wrap32 (replicas - 1) ∧ 0 < replicas ∧
  stReadyReplicas (bkStatus bk) = replicas ∧ stReplicas (bkStatus bk) = replicas ∧
  ∃ now t1 t2,
    t = Ev Now now :: t1 ++ t2 ++ [Ev (NoUnderReplicatedLedgers (adminPod bk (bookiePodName bk 0))) (Ok true)] ∧
    allStable bk t1 (now - resolveStabilizationWindow (bkSpec bk)) (range32 replicas) ∧
    askedWritable t2 = podsOf bk (range32 replicas) ∧
    Z.max (resolveMinWritableBookies (bkSpec bk) ensemble) ensemble
      < Z.of_nat (length (writableAnswers t2)) ∧
    diskAnswers t2 = (λ pod, (pod, resolveLWMFraction (bkSpec bk), true)) <$> writableAnswers t2.
Proof.
  unfold evaluateAutoTrigger, clusterStable. intros H. cbv zeta.
  destruct (_ <=? 0) eqn:E0 in H; [by destruct H|].
  apply runs_bind in H as (t1 & t2 & stable & -> & Hs & H).
  destruct stable; cbv beta iota delta [negb] in H; [|by destruct H].
  destruct (_ || _) eqn:Er in Hs; [by destruct Hs|]. zbool.
  run_step Hs. apply podsStable_all in Hs.
  apply runs_bind in H as (t3 & t4 & [[n b]|e] & -> & Hw & H); [|by destruct H].
  apply scanWritable_count in Hw as (-> & Ha & Hdisk).
  run_step H. destruct x0 as [clean|e]; [|by destruct H].
  unfold ShouldTriggerScaleDown in H. simpl in H.
  destruct (_ && _ && _) eqn:Et in H; destruct H as [-> H]; simplify_eq/=. zbool. subst.
  split_and!; try done. exists x, t, t3. split_and!; try done; try lia. by apply Hdisk.
Qed.

(** The start of a decommission persists the top ordinal. *)
Lemma beginDecommission_persists bk ord manual t x d :
  runs (beginDecommission hasRecorder bk ord manual) t x → Some d ∈ persisted t →
  dPhase d = PhaseVerifying ∧ dTargetOrdinal d = Some ord ∧ dManual d = manual ∧
  dTargetBookieID d = bookieIDFor bk ord.
Proof.
  intros H. run_step H. destruct x0 as [latest|e]; [|by run_step H; intros ?%elem_of_nil].
  do 2 run_step H. simpl. intros [Hd|Hd]%elem_of_cons; [by simplify_eq/=|].
  destruct x1 as [latest'|e]; [|by run_step H; apply elem_of_nil in Hd].
  apply persisted_event_tail in H. rewrite H in Hd. by apply elem_of_nil in Hd.
Qed.

Lemma noStatus_evaluateAutoTrigger bk : only noStatus (evaluateAutoTrigger bk).
Proof.
  unfold evaluateAutoTrigger, clusterStable. destruct (_ <=? _); [done|]. apply only_bind.
  - destruct (_ || _); [done|]. split; [done|]. intros now.
    induction (range32 _) as [|o ords IH]; simpl; [done|]. split; [done|].
    intros [pod|e]; [|done]. by destruct (podStableSince _ _).
  - intros []; [|done]. apply only_bind_ok.
    + generalize 0 true. induction (range32 _) as [|o ords IH]; intros n b; simpl; [done|].
      split; [done|]. intros [[]|e]; simpl; [|apply IH|done]. split; [done|].
      intros [|]; [apply IH|done].
    + intros s. simpl. split; [done|]. intros [clean|e]; simpl; [|done]. by destruct (negb _).
Qed.

Lemma auto_trigger_top bk t ord :
  runs (evaluateAutoTrigger bk) t (Ok (Some ord)) → ord = wrap32 (resolveReplicas (bkSpec bk) - 1).
Proof.
  unfold evaluateAutoTrigger. intros H. destruct (_ <=? 0); [by destruct H|].
  apply runs_bind in H as (t1 & t2 & stable & -> & _ & H). destruct stable; [|by destruct H].
  apply runs_bind in H as (t3 & t4 & [s|e] & -> & _ & H); [|by destruct H].
  run_step H. destruct x as [clean|e]; [|by destruct H].
  simpl in H. destruct (negb _); destruct H as [_ H]; by simplify_eq.
Qed.

Lemma manual_trigger_iff bk ord :
  evaluateManualTrigger bk = Ok (Some ord) ↔
  ∃ raw, bkAnnotations bk !! AnnotationDrainBookieOrdinal = Some raw ∧
    ParseInt 32 raw = Some ord ∧ ord = wrap32 (resolveReplicas (bkSpec bk) - 1).
Proof.
  unfold evaluateManualTrigger. destruct (_ !! _) as [raw|]; [|naive_solver].
  destruct (ParseInt 32 raw) as [z|] eqn:E; [|naive_solver].
  destruct (z =? _) eqn:Ez; simpl; zbool; naive_solver.
Qed.

(** A decommission only ever starts at the top ordinal.  What the start
    persists is the verification phase for the highest ordinal of the fetched
    spec, with that bookie's identifier, and it is marked manual exactly when
    a drain annotation asked for it. *)
Theorem starts_only_at_top bk t x d :
  runs (start hasRecorder bk) t x → Some d ∈ persisted t →
  let top := wrap32 (resolveReplicas (bkSpec bk) - 1) in
  dPhase d = PhaseVerifying ∧ dTargetOrdinal d = Some top ∧
  dTargetBookieID d = bookieIDFor bk top ∧
  (dManual d = true ↔ is_Some (bkAnnotations bk !! AnnotationDrainBookieOrdinal)).
Proof.
  unfold start. intros H Hd. cbv zeta.
  destruct (evaluateManualTrigger bk) as [[ord|]|e] eqn:Em.
  - apply manual_trigger_iff in Em as (raw & Hraw & _ & ->).
    destruct (beginDecommission_persists _ _ _ _ _ _ H Hd) as (? & ? & -> & ?).
    split_and!; try done.
  - apply runs_bind in H as (t1 & t2 & [[ord|]|e] & -> & Ha & H);
      rewrite persisted_app, (only_noStatus _ _ _ (noStatus_evaluateAutoTrigger _) Ha) in Hd;
      [|destruct H as [-> _]; by apply elem_of_nil in Hd..].
    assert (ord = wrap32 (resolveReplicas (bkSpec bk) - 1)) as ->
      by (eapply auto_trigger_top; eauto).
    destruct (beginDecommission_persists _ _ _ _ _ _ H Hd) as (? & ? & -> & ?).
    split_and!; try done. split; [done|]. unfold evaluateManualTrigger in Em.
    destruct (_ !! _) as [raw|]; [|by intros []].
    destruct (ParseInt 32 raw); [destruct (negb _)|]; done.
  - apply only_noStatus in H; [by rewrite H in Hd; apply elem_of_nil in Hd|].
    apply only_bind; [apply noStatus_event|]. intros _.
    apply only_bind_ok; [apply noStatus_dropAnnotation|done].
Qed.

(** ** Giving up *)

Definition reversible (p : BookKeeperDecommissionPhase) : bool :=
  match p with
  | PhaseMarkingReadOnly | PhaseTriggeringRecovery | PhaseAwaitingReplication => true
  | _ => false
  end.

(** Past the deadline the bookie is made writable before anything else.
    In each of the phases up to the end of re-replication, a reconcile after
    the deadline calls the admin API to make the bookie writable; if that
    fails it stops with the error and leaves the persisted state alone, so the
    next reconcile tries again; otherwise the state it persists is the cleared
    one. *)
Theorem deadline_reverts req bk d ord started now t x :
  decommissionGateEnabled (bkSpec bk) = true → stDecommission (bkStatus bk) = Some d →
  reversible (dPhase d) = true → dTargetOrdinal d = Some ord → dStartedAt d = Some started →
  DecommissionTimedOut started now (resolveDecommissionTimeout (bkSpec bk)) = true →
  runs (Reconcile hasRecorder req) (Ev (GetBK req) (Ok bk) :: Ev Now now :: t) x →
  ∃ y t', t = Ev (SetReadOnly (adminPod bk (bookiePodName bk ord)) false) y :: t' ∧
    match y with
    | Err _ => t' = [] ∧ res_is_ok x = false
    | Ok _ => persisted t' = [] ∨ persisted t' = [None]
    end.
Proof.
  intros Hg Hd Hp Ho Hst Hto H.
  assert (inFlight bk = Some d) as Hf.
  { unfold inFlight. rewrite Hd. simpl. by destruct (dPhase d). }
  assert (∃ why, runs (revert hasRecorder bk (bookiePodName bk ord) why) t x) as [why Hr].
  { unfold Reconcile, bind, perform in H. apply runs_Vis in H.
    rewrite Hg, Hf in H. cbv beta iota delta [negb] in H. unfold resume in H. rewrite Ho in H.
    destruct (dPhase d); try done; unfold phaseMarkReadOnly, phaseTriggerRecovery,
      phaseAwaitReplication, timedOut in H; rewrite Hd in H; simpl in H; rewrite Hst in H;
      cbn -[revert runs] in H; apply runs_Vis in H; rewrite Hto in H; eexists; exact H. }
  unfold revert, bind_wrap, bind, perform in Hr. destruct Hr as (y & t' & -> & Hr).
  exists y, t'. split; [done|]. destruct y as [[]|e]; [by eapply finish_clears|].
  by destruct Hr as [-> ->].
Qed.

(** With the gate off an in-flight decommission is frozen.  Once
    [scaleDownEnabled] (or the autoscaler) is switched off, a reconcile reads
    the object and returns without a requeue, whatever phase is in flight: the
    deadline is not looked at and the bookie is not made writable again. *)
Theorem gate_off_freezes req bk t x :
  decommissionGateEnabled (bkSpec bk) = false →
  runs (Reconcile hasRecorder req) (Ev (GetBK req) (Ok bk) :: t) x →
  t = [] ∧ x = Ok emptyResult.
Proof.
  intros Hg H. apply runs_Vis in H. cbn -[resume start] in H. rewrite Hg in H. by destruct H.
Qed.

End Verify.

(** * Concrete runs *)

Module GuardDemo.
Import DecomDemo.

(** The demo cluster without the drain request, every pod Ready for long. *)
Definition calmBK : BookKeeper := set_Annotations ∅ demoBK.

Definition calmPod : Pod :=
  mkPod "p" "ns" 0 None "node" "10.0.0.1" [mkPodCondition "Ready" ConditionTrue 0] [] [].

Definition calmServe (c : call) (s : BookKeeper) : ans c * BookKeeper :=
  match c return ans c * BookKeeper with
  | GetPod _ => (Ok calmPod, s)
  | c => serve c s
  end.

(** The demo cluster in a given phase, started at time 0. *)
Definition inPhase (p : BookKeeperDecommissionPhase) (bk : BookKeeper) : BookKeeper :=
  set_Decommission (Some (mkDecom p (Some 3) (bookieIDFor bk 3) false (Some 0) "")) bk.

(** The demo world at a time of choice. *)
Definition serveAt (now : Z) (c : call) (s : BookKeeper) : ans c * BookKeeper :=
  match c return ans c * BookKeeper with
  | Now => (now, s)
  | c => serve c s
  end.

Definition verifyTrace : list (Effects.event ans) :=
  (exec serve (@phaseVerify refApiMeta true (inPhase PhaseVerifying demoBK) 3)
     (inPhase PhaseVerifying demoBK)).2.

Definition verifiedAs : BookKeeperDecommissionStatus :=
  mkDecom PhaseMarkingReadOnly (Some 3) (bookieIDFor demoBK 3) false (Some 0)
    "quorum and placement re-verified for removing bookie bk-3".

Lemma verified_removal_is_safe_witness :
  Some verifiedAs ∈ persisted verifyTrace ∧
  ∃ t1 t2, verifyTrace = t1 ++ t2 ∧
    askedWritable t1 = podsOf demoBK [0; 1; 2] ∧ 3 <= Z.of_nat (length (writableAnswers t1)).
Proof.
  assert (persisted verifyTrace = [Some verifiedAs]) as Hin by (vm_compute; reflexivity).
  split; [by rewrite Hin; left|].
  destruct (@verified_removal_is_safe refApiMeta true (inPhase PhaseVerifying demoBK)
    3 verifyTrace _ verifiedAs (exec_runs serve _ _)
    ltac:(rewrite Hin; by left)) as (_ & _ & _ & t1 & t2 & E & Hask & Hn & _).
  by exists t1, t2.
Defined.

Definition autoTrace : list (Effects.event ans) := (exec calmServe (evaluateAutoTrigger calmBK) calmBK).2.

Lemma auto_trigger_sound_witness :
  runs (evaluateAutoTrigger calmBK) autoTrace (Ok (Some 3)) ∧
  stReadyReplicas (bkStatus calmBK) = 4.
Proof.
  assert (runs (evaluateAutoTrigger calmBK) autoTrace (Ok (Some 3))) as H
    by exact (exec_runs calmServe (evaluateAutoTrigger calmBK) calmBK).
  split; [exact H|].
  exact (proj1 (proj2 (proj2 (auto_trigger_sound calmBK autoTrace 3 H)))).
Defined.

Definition startTrace : list (Effects.event ans) := (exec serve (@start refApiMeta true demoBK) demoBK).2.

Definition startedAs : BookKeeperDecommissionStatus :=
  mkDecom PhaseVerifying (Some 3) (bookieIDFor demoBK 3) true (Some (1000 * Second))
    "starting guarded decommission of bookie bk-3 (manual=true)".

Lemma starts_only_at_top_witness : dTargetOrdinal startedAs = Some 3 ∧ dManual startedAs = true.
Proof.
  assert (persisted startTrace = [Some startedAs]) as Hin by (vm_compute; reflexivity).
  destruct (@starts_only_at_top refApiMeta true demoBK startTrace _ startedAs
    (exec_runs serve _ _) ltac:(rewrite Hin; by left)) as (_ & H1 & _ & H2).
  split; [exact H1|]. apply H2. by exists "3".
Defined.

Definition lateTrace : list (Effects.event ans) :=
  (exec (serveAt (2000 * Second)) reconcile (inPhase PhaseAwaitingReplication demoBK)).2.

Lemma deadline_reverts_witness :
  ∃ y t', drop 2 lateTrace = Ev (SetReadOnly (mkNN "ns" "bk-3") false) y :: t'.
Proof.
  destruct (@deadline_reverts refApiMeta true (mkNN "ns" "bk") (inPhase PhaseAwaitingReplication demoBK)
    (mkDecom PhaseAwaitingReplication (Some 3) (bookieIDFor demoBK 3) false (Some 0) "") 3 0
    (2000 * Second) (drop 2 lateTrace) _ eq_refl eq_refl eq_refl eq_refl eq_refl eq_refl
    (exec_runs (serveAt (2000 * Second)) reconcile (inPhase PhaseAwaitingReplication demoBK)))
    as (y & t' & E & _).
  exists y, t'. exact E.
Defined.

Definition gateOffBK : BookKeeper :=
  let bk := inPhase PhaseAwaitingReplication demoBK in
  mkBK (bkName bk) (bkNamespace bk) 2 (bkAnnotations bk)
    (mkBKSpec (Some 4) None
      (Some (mkBKAutoscaler true None None None None None None None (Some false) None None)))
    (bkStatus bk).

Lemma gate_off_freezes_witness :
  is_Some (stDecommission (bkStatus gateOffBK)) ∧
  drop 1 (exec (serveAt (2000 * Second)) reconcile gateOffBK).2 = [].
Proof.
  split; [by eexists|].
  exact (proj1 (@gate_off_freezes refApiMeta true (mkNN "ns" "bk") gateOffBK _ _ eq_refl
    (exec_runs (serveAt (2000 * Second)) reconcile gateOffBK))).
Defined.

End GuardDemo.
