(* ===== verification/DecommissionLive.v ===== *)
(** The end of a decommission: among components that do what they are asked,
    and once the drain is over or out of time, an attempt ends in a bounded
    number of reconciles, with the bookie removed or back in service. *)

From S2P Require Import Prelude Effects GoFloat Kube BookKeeper Decommission.
Open Scope Z_scope.
Open Scope go_scope.

Module DecommissionLive.
Import Decom.

(** * The world of one attempt *)

(** The BookKeeper as the API server has it, the bookies that were made
    read-only, and the volume claims there are. *)
Record World := mkWorld {
  wBK : BookKeeper;
  wReadOnly : NamespacedName → bool;
  wClaims : NamespacedName → bool
}.

Definition with_BK (bk : BookKeeper) (w : World) : World := mkWorld bk (wReadOnly w) (wClaims w).

Definition at_key (k : NamespacedName) (b : bool) (f : NamespacedName → bool) (x : NamespacedName) : bool :=
  if decide (x = k) then b else f x.

(** What is left open of a round: the clock, the nodes' labels, the pods of a
    given spec, and what the bookies report. *)
Record Env := mkEnv {
  eNow : Z;
  ePod : BookKeeperSpec → NamespacedName → option Pod;
  eNode : string → option (gmap string string);
  eWritable : NamespacedName → bool;
  eBelow : bool;
  eHasLedgers : bool;
  eNoUnderReplication : bool
}.

Definition notFound {A} (what : string) : res A := Err (ErrNotFound (what ++! " not found")).

(** An API server that stores what it is given (the status apart, which is a
    subresource) and bookies that do what they are told. *)
Definition obey (e : Env) (c : call) (w : World) : ans c * World :=
  match c return ans c * World with
  | GetBK nn => (if decide (nn = bkKey (wBK w)) then Ok (wBK w) else notFound "bookkeepers", w)
  | GetPod nn => (match ePod e (bkSpec (wBK w)) nn with Some pod => Ok pod | None => notFound "pods" end, w)
  | GetNode name => (match eNode e name with Some labels => Ok labels | None => notFound "nodes" end, w)
  | GetPVC nn => (if wClaims w nn then Ok tt else notFound "persistentvolumeclaims", w)
  | DeletePVC nn => (Ok tt, mkWorld (wBK w) (wReadOnly w) (at_key nn false (wClaims w)))
  | UpdateBK bk =>
      let s := mkBK (bkName (wBK w)) (bkNamespace (wBK w)) (bkGeneration (wBK w) + 1) (bkAnnotations bk)
                 (bkSpec bk) (bkStatus (wBK w)) in
      (Ok s, with_BK s w)
  | StatusUpdate bk => let s := set_Status (bkStatus bk) (wBK w) in (Ok s, with_BK s w)
  | PatchBK _ bk => let s := set_Annotations (bkAnnotations bk) (wBK w) in (Ok s, with_BK s w)
  | SetReadOnly pod ro => (Ok tt, mkWorld (wBK w) (at_key pod ro (wReadOnly w)) (wClaims w))
  | TriggerDecommission _ _ => (Ok tt, w)
  | HasLedgers _ _ => (Ok (eHasLedgers e), w)
  | NoUnderReplicatedLedgers _ => (Ok (eNoUnderReplication e), w)
  | RenameCookie _ => (Ok tt, w)
  | IsWritable pod => (Ok (eWritable e pod), w)
  | LedgerDiskUsageBelow _ _ => (Ok (eBelow e), w)
  | Now => (eNow e, w)
  | Eventf _ _ _ _ => (tt, w)
  end.

(** * Running a handler in it *)

Definition does {A} (e : Env) (p : prog ans A) (w : World) (a : A) (w' : World) : Prop :=
  (exec (obey e) p w).1 = (a, w').

Lemma does_ret {A} e (a : A) w : does e (Ret a) w a w.
Proof. done. Qed.

Lemma does_bind {A B} e (p : prog ans A) (f : A → prog ans B) w a w1 b w2 :
  does e p w a w1 → does e (f a) w1 b w2 → does e (bind p f) w b w2.
Proof.
  unfold does. intros Hp Hf. rewrite exec_bind. destruct (exec (obey e) p w) as [[a' w'] t]. simpl in Hp.
  injection Hp as -> ->. destruct (exec (obey e) (f a) w1) as [[b' w''] t']. simpl in *. congruence.
Qed.

Lemma does_bind_ok {A B} e (p : M A) (f : A → M B) w a w1 b w2 :
  does e p w (Ok a) w1 → does e (f a) w1 b w2 → does e (bind_ok p f) w b w2.
Proof. intros. by eapply does_bind. Qed.

Lemma does_bind_wrap {A B} e m (p : M A) (f : A → M B) w a w1 b w2 :
  does e p w (Ok a) w1 → does e (f a) w1 b w2 → does e (bind_wrap m p f) w b w2.
Proof. intros. by eapply does_bind. Qed.

Lemma does_perform e c w x w' : obey e c w = (x, w') → does e (perform ans c) w x w'.
Proof. unfold does. simpl. by intros ->. Qed.

Ltac step :=
  lazymatch goal with
  | |- does _ (bind_ok _ _) _ _ _ => eapply does_bind_ok
  | |- does _ (bind_wrap _ _ _) _ _ _ => eapply does_bind_wrap
  | |- does _ (bind _ _) _ _ _ => eapply does_bind
  | |- does ?e (perform _ ?c) ?w _ _ => apply (does_perform e c w); cbn [obey]
  | |- does _ (Ret _) _ _ _ => apply does_ret
  end.

(** ** Reads change nothing *)

Lemma does_countWritable e bk ex ords n w : ∃ m, does e (countWritable bk ex ords n) w (Ok m) w.
Proof.
  revert n. induction ords as [|ord ords IH]; intros n; cbn [countWritable]; [eexists; step|].
  destruct (ord =? ex); [apply IH|]. destruct (IH (if eWritable e (adminPod bk (bookiePodName bk ord)) then n + 1 else n)) as [m Hm].
  exists m. step; [by step|exact Hm].
Qed.

Lemma does_gatherZones e bk target ords zones seen w :
  ∃ z, does e (gatherZones bk target ords zones seen) w (Ok z) w.
Proof.
  revert zones seen. induction ords as [|ord ords IH]; intros zones seen; cbn [gatherZones]; [eexists; step|].
  destruct (ord =? target); [apply IH|].
  assert (∀ z s, ∃ x, does e (gatherZones bk target ords z s) w (Ok x) w) as Hrest by eauto.
  destruct (ePod e (bkSpec (wBK w)) (mkNN (bkNamespace bk) (bookiePodName bk ord))) as [pod|] eqn:Ep.
  2: { destruct (Hrest zones seen) as [x Hx]. exists x. step; [by step; rewrite Ep|exact Hx]. }
  destruct (String.eqb (podNodeName pod) "") eqn:En.
  { destruct (Hrest zones seen) as [x Hx]. exists x. step; [by step; rewrite Ep|]. cbv beta iota. by rewrite En. }
  destruct (eNode e (podNodeName pod)) as [labels|] eqn:El.
  2: { destruct (Hrest zones seen) as [x Hx]. exists x. step; [by step; rewrite Ep|]. cbv beta iota. rewrite En.
       step; [by step; rewrite El|exact Hx]. }
  assert (∃ x, does e (match labels !! labelTopologyZone with
                       | Some zone => if String.eqb zone "" then gatherZones bk target ords zones seen
                                      else gatherZones bk target ords ({[zone]} ∪ zones) (seen + 1)
                       | None => gatherZones bk target ords zones seen
                       end) w (Ok x) w) as [x Hx].
  { destruct (labels !! labelTopologyZone) as [zone|]; [|apply Hrest]. destruct (String.eqb zone ""); apply Hrest. }
  exists x. step; [by step; rewrite Ep|]. cbv beta iota. rewrite En. step; [by step; rewrite El|exact Hx].
Qed.

(** * What the writes leave *)

Section Attempt.
Context `{AM : !ApiMeta} (hasRecorder : bool).

Lemma does_event e bk ty r m w : does e (event hasRecorder bk ty r m) w tt w.
Proof. unfold event. destruct hasRecorder; [by step|by step]. Qed.

(** The stored object after a write of its status. *)
Record wrote (w : World) (d : option BookKeeperDecommissionStatus) (st : ConditionStatus) (s : BookKeeper) :
    Prop := {
  wrote_key : bkKey s = bkKey (wBK w);
  wrote_spec : bkSpec s = bkSpec (wBK w);
  wrote_decom : stDecommission (bkStatus s) = d;
  wrote_cond : condStatus (stConditions (bkStatus s)) conditionTypeDecommissioning = Some st
}.

Lemma does_write e bk mutate reason st msg w :
  bkKey bk = bkKey (wBK w) →
  ∃ s, does e (writeDecommissionStatus bk mutate reason st msg) w (Ok s) (with_BK s w) ∧
    wrote w (match mutate with
             | None => None
             | Some f => Some (f (default zeroDecom (stDecommission (bkStatus (wBK w)))))
             end) st s.
Proof.
  intros Hk. unfold writeDecommissionStatus. eexists. split.
  - step; [step; rewrite Hk; rewrite decide_True by done; reflexivity|]. by step.
  - split; try done. simpl. apply (condStatus_set _ (decommissioningCondition _ _ _ _)).
Qed.

Lemma does_dropAnnotation e bk w :
  wBK w = bk →
  ∃ s, does e (dropAnnotation bk) w (Ok s) (with_BK s w) ∧ bkKey s = bkKey bk ∧ bkSpec s = bkSpec bk ∧
    bkStatus s = bkStatus bk.
Proof.
  intros <-. unfold dropAnnotation. destruct (bkAnnotations (wBK w) !! _).
  - eexists. split; [step; [by step|by step]|done].
  - exists (wBK w). split; [|done]. by destruct w.
Qed.

Lemma does_finish e bk ty reason msg w :
  bkKey bk = bkKey (wBK w) →
  ∃ s r, does e (finish hasRecorder bk ty reason msg) w (Ok r) (with_BK s w) ∧
    wrote w None ConditionFalse s.
Proof.
  intros Hk. destruct (does_write e bk None reason ConditionFalse msg w Hk) as (s1 & H1 & [Hk1 Hs1 Hd1 Hc1]).
  destruct (does_dropAnnotation e s1 (with_BK s1 w) eq_refl) as (s2 & H2 & Hk2 & Hs2 & Ht2).
  exists s2. eexists. split.
  - unfold finish. step; [exact H1|]. step; [exact H2|]. step; [apply does_event|]. step.
  - split; congruence.
Qed.

Lemma does_advance e bk next msg w d :
  bkKey bk = bkKey (wBK w) → stDecommission (bkStatus (wBK w)) = Some d →
  ∃ s r, does e (advancePhase hasRecorder bk next msg) w (Ok r) (with_BK s w) ∧
    wrote w (Some (mkDecom next (dTargetOrdinal d) (dTargetBookieID d) (dManual d) (dStartedAt d) msg))
      ConditionTrue s.
Proof.
  intros Hk Hd.
  destruct (does_write e bk (Some (λ d, mkDecom next (dTargetOrdinal d) (dTargetBookieID d) (dManual d)
              (dStartedAt d) msg)) reasonInProgress ConditionTrue msg w Hk) as (s & H & Hw).
  rewrite Hd in Hw. exists s. eexists. split; [|exact Hw].
  unfold advancePhase. step; [exact H|]. step; [apply does_event|]. step.
Qed.

(** * An attempt *)

Context (req : NamespacedName) (ord : Z) (started : option Z) (spec0 : BookKeeperSpec).
Hypothesis ord32 : in32 (ord + 1).
Hypothesis gate : decommissionGateEnabled spec0 = true.

Definition targetPod : NamespacedName := mkNN (nnNamespace req) (nnName req ++! "-" ++! %d ord).
Definition claim (vol : string) : NamespacedName :=
  mkNN (nnNamespace req) (vol ++! "-" ++! (nnName req ++! "-" ++! %d ord)).

(** The phases an attempt goes through, by what is left to do. *)
Definition rank (p : BookKeeperDecommissionPhase) : nat :=
  match p with
  | PhaseVerifying => 7
  | PhaseMarkingReadOnly => 6
  | PhaseTriggeringRecovery => 5
  | PhaseAwaitingReplication => 4
  | PhaseInvalidatingCookie => 3
  | PhaseScalingDown => 2
  | PhaseDeletingPVCs => 1
  | PhaseNone | PhaseUnknown _ => 0
  end.

(** In flight at a phase: the spec is as it was when the attempt began, until
    the bookie is taken out of it. *)
Record attempt (w : World) (p : BookKeeperDecommissionPhase) : Prop := {
  at_bk : bkKey (wBK w) = req;
  at_decom : ∃ d, stDecommission (bkStatus (wBK w)) = Some d ∧ dPhase d = p ∧
    dTargetOrdinal d = Some ord ∧ dStartedAt d = started;
  at_spec : if decide (p = PhaseDeletingPVCs)
            then decommissionGateEnabled (bkSpec (wBK w)) = true ∧ resolveReplicas (bkSpec (wBK w)) <= ord
            else bkSpec (wBK w) = spec0;
  at_verify : p = PhaseVerifying → wReadOnly w targetPod = false
}.

(** Over, one way or the other: the attempt was given up, and the bookie is in
    service, in the spec as it was; or it is out of the spec and its claims
    are gone. *)
Record ended (givenUp : Prop) (w : World) : Prop := {
  end_decom : stDecommission (bkStatus (wBK w)) = None;
  end_cond : condStatus (stConditions (bkStatus (wBK w))) conditionTypeDecommissioning = Some ConditionFalse;
  end_bookie :
    (givenUp ∧ bkSpec (wBK w) = spec0 ∧ wReadOnly w targetPod = false) ∨
    (resolveReplicas (bkSpec (wBK w)) <= ord ∧ ∀ vol, vol ∈ volumeNames → wClaims w (claim vol) = false)
}.

(** The attempt is out of time. *)
Definition late (e : Env) : Prop :=
  ∃ t, started = Some t ∧ Guard.DecommissionTimedOut t (eNow e) (resolveDecommissionTimeout spec0) = true.

(** What the two waiting phases wait for. *)
Definition ready (e : Env) (p : BookKeeperDecommissionPhase) : Prop :=
  match p with
  | PhaseAwaitingReplication => (eHasLedgers e = false ∧ eNoUnderReplication e = true) ∨ late e
  | PhaseDeletingPVCs => ∀ spec, resolveReplicas spec <= ord → ePod e spec targetPod = None
  | _ => True
  end.

(** Why an attempt is given up: the verification fails, time is up, or bookies
    were added above the target. *)
Definition givenUp (e : Env) (p : BookKeeperDecommissionPhase) : Prop :=
  p = PhaseVerifying ∨ late e ∨ ord + 1 < resolveReplicas spec0.

(** The outcome of a round at phase [p]. *)
Definition outcome (e : Env) (p : BookKeeperDecommissionPhase) (w : World) : Prop :=
  ended (givenUp e p) w ∨ ∃ q, attempt w q ∧ (0 < rank q)%nat ∧ ((rank q < rank p)%nat ∨ q = p ∧ ¬ ready e p).

Lemma target_name bk : bkKey bk = req → adminPod bk (bookiePodName bk ord) = targetPod.
Proof. intros H. unfold targetPod. by rewrite <- H. Qed.

(** ** Ways out of a phase *)

Lemma advances {w p d} e bk next msg :
  bkKey bk = req → bkKey (wBK w) = req →
  stDecommission (bkStatus (wBK w)) = Some d → dTargetOrdinal d = Some ord → dStartedAt d = started →
  (if decide (next = PhaseDeletingPVCs)
   then decommissionGateEnabled (bkSpec (wBK w)) = true ∧ resolveReplicas (bkSpec (wBK w)) <= ord
   else bkSpec (wBK w) = spec0) →
  next ≠ PhaseVerifying → (0 < rank next < rank p)%nat →
  ∃ r w', does e (advancePhase hasRecorder bk next msg) w (Ok r) w' ∧ outcome e p w'.
Proof.
  intros Hbk Hk Hd Ho Hs Hspec Hv Hr.
  destruct (does_advance e bk next msg w d ltac:(congruence) Hd) as (s & r & H & [Hk1 Hs1 Hd1 _]).
  exists r, (with_BK s w). split; [done|]. right. exists next. split; [|lia]. split; cbn [wBK wReadOnly with_BK].
  - congruence.
  - eexists. split; [exact Hd1|]. done.
  - rewrite Hs1. exact Hspec.
  - done.
Qed.

Lemma finishes {w} e p bk ty reason msg :
  bkKey bk = req → bkKey (wBK w) = req →
  ((givenUp e p ∧ bkSpec (wBK w) = spec0 ∧ wReadOnly w targetPod = false) ∨
   (resolveReplicas (bkSpec (wBK w)) <= ord ∧ ∀ vol, vol ∈ volumeNames → wClaims w (claim vol) = false)) →
  ∃ r w', does e (finish hasRecorder bk ty reason msg) w (Ok r) w' ∧ outcome e p w'.
Proof.
  intros Hbk Hk Hb.
  destruct (does_finish e bk ty reason msg w ltac:(congruence)) as (s & r & H & [Hk1 Hs1 Hd1 Hc1]).
  exists r, (with_BK s w). split; [done|]. left. split; cbn [wBK wReadOnly wClaims with_BK]; [done|done|by rewrite Hs1].
Qed.

Lemma at_key_same k b f : at_key k b f k = b.
Proof. unfold at_key. by rewrite decide_True. Qed.

Lemma reverts {w} e p bk why :
  bkKey bk = req → bkKey (wBK w) = req → bkSpec (wBK w) = spec0 → late e →
  ∃ r w', does e (revert hasRecorder bk (bookiePodName bk ord) why) w (Ok r) w' ∧ outcome e p w'.
Proof.
  intros Hbk Hk Hs Hl. unfold revert. rewrite (target_name _ Hbk).
  destruct (finishes (w := mkWorld (wBK w) (at_key targetPod false (wReadOnly w)) (wClaims w)) e p bk
    EventTypeWarning reasonTimedOut ("auto-reverted bookie " ++! bookiePodName bk ord ++! " to writable: " ++! why))
    as (r & w' & H & Ho); [done|done|left; split; [by right; left|]; split; [done|apply at_key_same]|].
  exists r, w'. split; [|done]. step; [by step|exact H].
Qed.

Lemma does_timedOut e bk w d :
  stDecommission (bkStatus bk) = Some d → dStartedAt d = started → bkSpec bk = spec0 →
  ∃ b, does e (timedOut bk) w b w ∧ (b = true ↔ late e).
Proof.
  intros Hd Hs Hspec. unfold timedOut, late. rewrite Hd. cbn [mbind option_bind]. rewrite Hs, Hspec.
  destruct started as [t|]; [|exists false; split; [by step|naive_solver]].
  eexists. split; [step; [by step|by step]|]. naive_solver.
Qed.

(** ** The phases *)

Section Phases.
Context (e : Env) (w : World) (d : BookKeeperDecommissionStatus).
Hypothesis Hk : bkKey (wBK w) = req.
Hypothesis Hd : stDecommission (bkStatus (wBK w)) = Some d.
Hypothesis Ho : dTargetOrdinal d = Some ord.
Hypothesis Hs : dStartedAt d = started.

Abbreviation podName := (bookiePodName (wBK w) ord).

(** A handler ends in an outcome. *)
Definition goes {A} (p : BookKeeperDecommissionPhase) (h : M A) (w : World) : Prop :=
  ∃ r w', does e h w r w' ∧ outcome e p w'.

Lemma goes_after {A B} p (h : M A) (k : A → M B) msg w0 a w1 :
  does e h w0 (Ok a) w1 → goes p (k a) w1 → goes p (bind_wrap msg h k) w0.
Proof. intros H (r & w' & Hr & Hout). exists r, w'. split; [|done]. step; [exact H|exact Hr]. Qed.

Lemma goes_first {A B} p (h : prog ans A) (k : A → M B) w0 a w1 :
  does e h w0 a w1 → goes p (k a) w1 → goes p (bind h k) w0.
Proof. intros H (r & w' & Hr & Hout). exists r, w'. split; [|done]. step; [exact H|exact Hr]. Qed.

Lemma goes_finish {w1} p bk ty reason msg :
  bkKey bk = req → bkKey (wBK w1) = req →
  ((givenUp e p ∧ bkSpec (wBK w1) = spec0 ∧ wReadOnly w1 targetPod = false) ∨
   (resolveReplicas (bkSpec (wBK w1)) <= ord ∧ ∀ vol, vol ∈ volumeNames → wClaims w1 (claim vol) = false)) →
  goes p (finish hasRecorder bk ty reason msg) w1.
Proof.
  intros H1 H2 H3. destruct (finishes e p bk ty reason msg H1 H2 H3) as (r & w' & H & Hout).
  by exists (Ok r), w'.
Qed.

Lemma goes_advance {w1} p next msg :
  bkKey (wBK w1) = req → stDecommission (bkStatus (wBK w1)) = Some d →
  (if decide (next = PhaseDeletingPVCs)
   then decommissionGateEnabled (bkSpec (wBK w1)) = true ∧ resolveReplicas (bkSpec (wBK w1)) <= ord
   else bkSpec (wBK w1) = spec0) →
  next ≠ PhaseVerifying → (0 < rank next < rank p)%nat →
  goes p (advancePhase hasRecorder (wBK w) next msg) w1.
Proof.
  intros H1 H2 H3 H4 H5. destruct (advances e (wBK w) next msg Hk H1 H2 Ho Hs H3 H4 H5) as (r & w' & H & Hout).
  by exists (Ok r), w'.
Qed.

Lemma goes_verify :
  bkSpec (wBK w) = spec0 → wReadOnly w targetPod = false →
  goes PhaseVerifying (phaseVerify hasRecorder (wBK w) ord) w.
Proof.
  intros Hspec Hro. unfold phaseVerify, abort.
  destruct (negb (Guard.QuorumHolds _ _ _)); [by apply goes_finish; [..|left; split; [left|]]|].
  destruct (does_countWritable e (wBK w) ord (range32 (resolveReplicas (bkSpec (wBK w)))) 0 w) as [n Hn].
  eapply goes_first; [exact Hn|]. cbv beta iota.
  destruct (negb (Guard.CapacityHoldsAfterRemoval _ _ _)); [by apply goes_finish; [..|left; split; [left|]]|].
  destruct (does_gatherZones e (wBK w) ord (range32 (resolveReplicas (bkSpec (wBK w)))) ∅ 0 w) as [z Hz].
  eapply goes_first; [unfold placementSatisfiableAfterRemoval; step; [exact Hz|by step]|]. cbv beta iota.
  destruct (negb (Guard.PlacementSatisfiable _ _ _)); [by apply goes_finish; [..|left; split; [left|]]|].
  apply goes_advance; simpl; try done. lia.
Qed.

(** The phases with a deadline. *)
Lemma goes_unless_late p why (body : M Result) :
  bkSpec (wBK w) = spec0 → (¬ late e → goes p body w) →
  goes p (bind (timedOut (wBK w)) (λ b : bool, if b then revert hasRecorder (wBK w) podName why else body)) w.
Proof.
  intros Hspec Hbody. destruct (does_timedOut e (wBK w) w d Hd Hs Hspec) as (b & Hb & Hl).
  eapply goes_first; [exact Hb|]. destruct b.
  - destruct (reverts e p (wBK w) why Hk Hk Hspec (proj1 Hl eq_refl)) as (r & w' & H & Hout). by exists (Ok r), w'.
  - apply Hbody. by rewrite <- Hl.
Qed.

Lemma goes_markReadOnly :
  bkSpec (wBK w) = spec0 → goes PhaseMarkingReadOnly (phaseMarkReadOnly hasRecorder (wBK w) podName) w.
Proof.
  intros Hspec. apply goes_unless_late; [done|]. intros _.
  eapply goes_after; [by step|]. apply goes_advance; simpl; try done. lia.
Qed.

Lemma goes_triggerRecovery :
  bkSpec (wBK w) = spec0 →
  goes PhaseTriggeringRecovery (phaseTriggerRecovery hasRecorder (wBK w) podName (dTargetBookieID d)) w.
Proof.
  intros Hspec. apply goes_unless_late; [done|]. intros _.
  eapply goes_after; [by step|]. apply goes_advance; simpl; try done. lia.
Qed.

Lemma goes_awaitReplication :
  bkSpec (wBK w) = spec0 → dPhase d = PhaseAwaitingReplication →
  goes PhaseAwaitingReplication (phaseAwaitReplication hasRecorder (wBK w) podName (dTargetBookieID d)) w.
Proof.
  intros Hspec Hp. apply goes_unless_late; [done|]. intros Hl.
  eapply goes_after; [by step|]. eapply goes_after; [by step|].
  destruct (eHasLedgers e || negb (eNoUnderReplication e)) eqn:E.
  - exists (Ok (mkResult phaseRequeueInterval)), w. split; [step|]. right. exists PhaseAwaitingReplication.
    split; [split; [done|by exists d|done|done]|]. split; [simpl; lia|]. right. split; [done|].
    intros [[H1 H2]|H]; [by rewrite H1, H2 in E|done].
  - apply goes_advance; simpl; try done. lia.
Qed.

Lemma goes_invalidateCookie :
  bkSpec (wBK w) = spec0 → goes PhaseInvalidatingCookie (phaseInvalidateCookie hasRecorder (wBK w) podName) w.
Proof.
  intros Hspec. eapply goes_after; [by step|]. apply goes_advance; simpl; try done. lia.
Qed.

Lemma goes_scaleDown :
  bkSpec (wBK w) = spec0 → goes PhaseScalingDown (phaseScaleDown hasRecorder (wBK w) ord) w.
Proof.
  intros Hspec. eapply goes_after; [step; rewrite decide_True by done; reflexivity|]. cbv zeta.
  rewrite wrap32_id by done. destruct (resolveReplicas (bkSpec (wBK w)) >? ord + 1) eqn:E1; [|destruct (_ =? _) eqn:E2].
  - unfold abortTopologyChanged. eapply goes_first; [by step|]. rewrite (target_name _ Hk).
    apply goes_finish; [done|done|]. left. split; [|split; [done|apply at_key_same]].
    right; right. rewrite Hspec in E1. lia.
  - eapply goes_after; [by step|]. apply goes_advance; cbn [wBK with_BK bkStatus]; try done; [|simpl; lia].
    rewrite decide_True by done. cbn [bkSpec set_Replicas]. rewrite Hspec. split; [exact gate|].
    unfold resolveReplicas. simpl. lia.
  - zbool. apply goes_advance; try done; [|simpl; lia]. rewrite decide_True by done.
    split; [by rewrite Hspec|]. lia.
Qed.

(** The claims of the bookie are deleted one by one. *)
Lemma does_deletePVCs vols w0 :
  wBK w0 = wBK w →
  ∃ f, does e (deletePVCs (wBK w) podName vols) w0 (Ok tt) (mkWorld (wBK w0) (wReadOnly w0) f) ∧
    (∀ vol, vol ∈ vols → f (claim vol) = false) ∧ (∀ nn, wClaims w0 nn = false → f nn = false).
Proof.
  revert w0. induction vols as [|vol vols IH]; intros w0 Hw; cbn [deletePVCs].
  { exists (wClaims w0). split; [|split; [by intros ? ?%elem_of_nil|done]]. destruct w0. by step. }
  assert (mkNN (bkNamespace (wBK w)) (vol ++! "-" ++! podName) = claim vol) as Hc
    by (unfold claim; by rewrite <- Hk).
  cbv zeta. rewrite Hc. destruct (wClaims w0 (claim vol)) eqn:Ec.
  - destruct (IH (mkWorld (wBK w0) (wReadOnly w0) (at_key (claim vol) false (wClaims w0))) Hw)
      as (f & Hf & Hdel & Hkeep). cbn [wBK wReadOnly wClaims] in *.
    exists f. split.
    { step; [by step; rewrite Ec|]. cbv beta iota. step; [by step|exact Hf]. }
    split.
    + intros v [->|Hv]%elem_of_cons; [|by apply Hdel]. apply Hkeep, at_key_same.
    + intros nn Hn. apply Hkeep. unfold at_key. by destruct (decide _).
  - destruct (IH w0 Hw) as (f & Hf & Hdel & Hkeep). exists f. split.
    { step; [by step; rewrite Ec|]. exact Hf. }
    split; [|done]. intros v [->|Hv]%elem_of_cons; [by apply Hkeep|by apply Hdel].
Qed.

Lemma goes_deletePVCs :
  decommissionGateEnabled (bkSpec (wBK w)) = true → resolveReplicas (bkSpec (wBK w)) <= ord →
  dPhase d = PhaseDeletingPVCs →
  goes PhaseDeletingPVCs (phaseDeletePVCs hasRecorder (wBK w) ord) w.
Proof.
  intros Hg Hr Hp. unfold phaseDeletePVCs. cbv zeta.
  assert (mkNN (bkNamespace (wBK w)) podName = targetPod) as Ht by (unfold targetPod; by rewrite <- Hk).
  destruct (ePod e (bkSpec (wBK w)) targetPod) as [pod|] eqn:Ep.
  - eapply goes_first; [step; rewrite Ht, Ep; reflexivity|]. cbv beta iota.
    exists (Ok (mkResult phaseRequeueInterval)), w. split; [step|]. right. exists PhaseDeletingPVCs.
    split; [split; [done|by exists d|done|done]|]. split; [simpl; lia|]. right. split; [done|].
    intros Hready. specialize (Hready _ Hr). congruence.
  - eapply goes_first; [step; rewrite Ht, Ep; reflexivity|]. cbv beta iota. cbn [IsNotFound].
    destruct (does_deletePVCs volumeNames w eq_refl) as (f & Hf & Hdel & _).
    eapply (goes_first (A := res unit)); [exact Hf|]. cbv beta iota.
    apply goes_finish; [done|done|]. right. split; [done|exact Hdel].
Qed.

End Phases.

(** One reconcile of an attempt in flight. *)
Lemma round e w p :
  attempt w p → (0 < rank p)%nat →
  ∃ r w', does e (Reconcile hasRecorder req) w r w' ∧ outcome e p w'.
Proof.
  intros [Hk (d & Hd & Hp & Ho & Hs) Hspec Hv] Hr.
  assert (decommissionGateEnabled (bkSpec (wBK w)) = true) as Hg
    by (destruct (decide _); [by apply Hspec|by rewrite Hspec]).
  assert (inFlight (wBK w) = Some d) as Hf.
  { unfold inFlight. rewrite Hd. cbn [mbind option_bind]. rewrite Hp. destruct p; simpl in Hr; done || lia. }
  unfold Reconcile. eapply goes_first; [step; rewrite decide_True by done; reflexivity|]. cbv beta iota.
  rewrite Hg, Hf. cbn [negb]. unfold resume. rewrite Ho. cbv zeta. rewrite Hp.
  destruct p; try (simpl in Hr; lia).
  - apply goes_verify with (d := d); auto.
  - apply goes_markReadOnly with (d := d); auto.
  - apply goes_triggerRecovery; auto.
  - apply goes_awaitReplication; auto.
  - apply goes_invalidateCookie with (d := d); auto.
  - apply goes_scaleDown with (d := d); auto.
  - apply goes_deletePVCs with (d := d); auto; by destruct Hspec.
Qed.

(** * Rounds *)

(** The world after [n] reconciles. *)
Fixpoint rounds (env : nat → Env) (n : nat) (w : World) : World :=
  match n with
  | O => w
  | S n => (exec (obey (env n)) (Reconcile hasRecorder req) (rounds env n w)).1.2
  end.

Lemma ended_mono (P Q : Prop) w : (P → Q) → ended P w → ended Q w.
Proof. intros H [? ? [[? ?]|?]]; split; auto. Qed.

(** C4: A decommission that stays enabled comes to an end.  Let the API server
    store what it is given, nobody else edit the BookKeeper and the bookies do
    what they are told; let the spec keep the decommission enabled throughout
    ([decommissionGateEnabled spec0]: with it off an attempt in flight is frozen,
    see [gate_off_freezes]), with an ordinal in the range of an [int32]; and from
    round [m] on let the drain be over or out of time, and the pod of a bookie
    that is out of the spec be gone.  Then an attempt in flight, at whatever phase
    the last process left it, is over at most seven rounds after round [m]: its
    status is cleared and the condition False, and the bookie is out of the spec
    with its volume claims deleted; or, if the verification failed, the deadline
    passed or bookies were added above it, it is back in service with the spec
    as it was.  It is never left half drained. *)
Theorem decommission_ends (env : nat → Env) (m : nat) w p :
  attempt w p → (0 < rank p)%nat →
  (∀ k, (m ≤ k)%nat → ready (env k) PhaseAwaitingReplication ∧ ready (env k) PhaseDeletingPVCs) →
  ∃ k, (k ≤ m + 7)%nat ∧
    ended (p = PhaseVerifying ∨ (∃ j, (j < k)%nat ∧ late (env j)) ∨ ord + 1 < resolveReplicas spec0)
      (rounds env k w).
Proof.
  intros Ha Hr Hready.
  set (why k := p = PhaseVerifying ∨ (∃ j, (j < k)%nat ∧ late (env j)) ∨ ord + 1 < resolveReplicas spec0).
  assert (∀ n, (∃ k, (k ≤ n)%nat ∧ ended (why k) (rounds env k w)) ∨
    ∃ q, attempt (rounds env n w) q ∧ (0 < rank q)%nat ∧ (rank q ≤ rank p)%nat ∧ (rank q + (n - m) ≤ 7)%nat)
    as H.
  { induction n as [|n [(k & Hk & He)|(q & Hq & Hq0 & Hqp & Hm)]].
    - right. exists p. split; [done|]. split; [done|]. destruct p; simpl; lia.
    - left. exists k. split; [lia|done].
    - destruct (round (env n) (rounds env n w) q Hq Hq0) as (r & w' & Hw & Hout).
      assert (rounds env (S n) w = w') as E by (simpl; by rewrite Hw).
      destruct Hout as [He|(q' & Hq' & Hq0' & Hstep)]; [left|right].
      + exists (S n). split; [done|]. rewrite E. eapply ended_mono, He.
        intros [->|[Hl|Hg]]; unfold why; [left|right; left; eauto with lia|auto].
        destruct p; simpl in Hqp; done || lia.
      + exists q'. rewrite E. split; [done|]. split; [done|].
        destruct Hstep as [Hlt|[-> Hnr]]; [lia|]. split; [done|].
        destruct (decide (m ≤ n)%nat) as [Hmn|]; [|lia]. destruct (Hready n Hmn) as [H1 H2].
        by destruct q. }
  destruct (H (m + 7)%nat) as [(k & Hk & He)|(q & _ & Hq & _ & Hm)]; [by exists k|lia].
Qed.

End Attempt.
End DecommissionLive.

(** * A concrete attempt *)

Module DecommissionLiveDemo.
Import Decom DecommissionLive.

(** Four bookies, the top one being drained. *)
Definition demoSpec : BookKeeperSpec :=
  mkBKSpec (Some 4) None
    (Some (mkBKAutoscaler true None None None None None None None (Some true) None None)).

Definition demoBK : BookKeeper :=
  mkBK "bk" "ns" 1 ∅ demoSpec
    (mkBKStatus 4 4 4 None (Some (mkDecom PhaseAwaitingReplication (Some 3) "bookie-3" false (Some 0) "")) 1 []).

Definition demoWorld : World := mkWorld demoBK (λ _, true) (λ _, true).

(** The drain is over from the third round on, and the pod is gone once the
    spec says so. *)
Definition demoEnv (k : nat) : Env :=
  mkEnv 0 (λ _ _, None) (λ _, None) (λ _, true) true (Nat.ltb k 2) true.

Lemma demo_attempt : attempt (mkNN "ns" "bk") 3 (Some 0) demoSpec demoWorld PhaseAwaitingReplication.
Proof. split; [done| |done|done]. eexists. by split_and!. Qed.

Lemma decommission_ends_witness :
  ∃ k, (k ≤ 9)%nat ∧
    resolveReplicas (bkSpec (wBK (rounds (AM := refApiMeta) true (mkNN "ns" "bk") demoEnv k demoWorld))) <= 3.
Proof.
  destruct (decommission_ends (AM := refApiMeta) true (mkNN "ns" "bk") 3 (Some 0) demoSpec
              ltac:(unfold in32; lia) eq_refl demoEnv 2 demoWorld PhaseAwaitingReplication demo_attempt)
    as (k & Hk & [_ _ He]).
  - simpl. lia.
  - intros k Hk. split; [|done]. left. split; [|done]. simpl. apply Nat.ltb_ge. exact Hk.
  - exists k. split; [exact Hk|]. destruct He as [[Hwhy _]|[He _]]; [|exact He].
    destruct Hwhy as [Hv|[(j & _ & t & Ht & Hl)|Hg]]; [done| |vm_compute in Hg; done].
    injection Ht as <-. by vm_compute in Hl.
Defined.

(** The seven rounds are met: two of waiting, then four phases. *)
Example demo_ends :
  let w := rounds (AM := refApiMeta) true (mkNN "ns" "bk") demoEnv 6 demoWorld in
  stDecommission (bkStatus (wBK w)) = None ∧ Replicas (bkSpec (wBK w)) = Some 3 ∧
  wClaims w (claim (mkNN "ns" "bk") 3 "journal") = false.
Proof. by vm_compute. Qed.

End DecommissionLiveDemo.
