(* ===== verification/ObjectStore.v ===== *)
(** Object-store locations: the pure part of internal/objectstore/objectstore.go
    (where a key of a backup destination lives, and recovering the key from
    the artifact URI), with the path functions of the Go standard library it
    uses ([path.Join], [filepath.Rel], both lexical, on '/'-separated
    paths). *)

From S2P Require Import Prelude.
Open Scope go_scope.

(** * Paths *)

(** [strings.Split(s, "/")]: the components, at least one. *)
Fixpoint splitSlash (s : string) : list string :=
  match s with
  | EmptyString => [""]
  | String c s' =>
      match splitSlash s' with
      | [] => []
      | w :: ws => if Ascii.eqb c "/" then "" :: w :: ws else String c w :: ws
      end
  end.

Fixpoint joinSlash (ws : list string) : string :=
  match ws with
  | [] => ""
  | [w] => w
  | w :: ws => w ++! "/" ++! joinSlash ws
  end.

(** The components of the shortest equivalent path, given the components
    already output in reverse. *)
Fixpoint cleanComps (rooted : bool) (out ws : list string) : list string :=
  match ws with
  | [] => reverse out
  | w :: ws =>
      if String.eqb w "" || String.eqb w "." then cleanComps rooted out ws
      else if String.eqb w ".." then
        match out with
        | o :: out' =>
            if String.eqb o ".." then cleanComps rooted (".." :: out) ws
            else cleanComps rooted out' ws
        | [] => if rooted then cleanComps rooted [] ws else cleanComps rooted [".."] ws
        end
      else cleanComps rooted (w :: out) ws
  end.

Definition isRooted (s : string) : bool :=
  match s with String c _ => Ascii.eqb c "/" | EmptyString => false end.

(** [path.Clean]. *)
Definition Clean (s : string) : string :=
  let ws := cleanComps (isRooted s) [] (splitSlash s) in
  if isRooted s then "/" ++! joinSlash ws
  else match ws with [] => "." | _ => joinSlash ws end.

(** [path.Join]: the non-empty elements joined, then cleaned. *)
Definition pathJoin (elems : list string) : string :=
  match filter (λ e, e ≠ "") elems with
  | [] => ""
  | es => Clean (joinSlash es)
  end.

Fixpoint stripCommon (bs ts : list string) : list string * list string :=
  match bs, ts with
  | b :: bs', t :: ts' => if String.eqb b t then stripCommon bs' ts' else (bs, ts)
  | _, _ => (bs, ts)
  end.

Definition components (cleaned : string) : list string :=
  filter (λ w, w ≠ "") (splitSlash cleaned).

(** [filepath.Rel]; [None] is its error. *)
Definition Rel (basepath targpath : string) : option string :=
  let base := Clean basepath in
  let targ := Clean targpath in
  if String.eqb targ base then Some "."
  else
    let base := if String.eqb base "." then "" else base in
    if negb (Bool.eqb (isRooted base) (isRooted targ)) then None
    else
      let '(bs, ts) := stripCommon (components base) (components targ) in
      match bs with
      | [] => Some (joinSlash ts)
      | b :: _ =>
          if String.eqb b ".." then None
          else Some (joinSlash (replicate (length bs) ".." ++ ts))
      end.

(** [strings.CutPrefix] and [strings.HasPrefix]. *)
Fixpoint CutPrefix (s prefix : string) {struct prefix} : option string :=
  match prefix, s with
  | EmptyString, _ => Some s
  | String c p, String d s' => if Ascii.eqb c d then CutPrefix s' p else None
  | String _ _, EmptyString => None
  end.

Definition HasPrefix (s prefix : string) : bool := bool_decide (is_Some (CutPrefix s prefix)).

(** [strings.Contains]. *)
Fixpoint Contains (s sub : string) : bool :=
  HasPrefix s sub || match s with EmptyString => false | String _ s' => Contains s' sub end.

(** * Locations *)

Definition DriverAWSS3 : string := "aws-s3".
Definition DriverGCS : string := "google-cloud-storage".
Definition DriverAzureBlob : string := "azureblob".
Definition DriverFilesystem : string := "filesystem".
Definition DefaultFilesystemRoot : string := "/backups".

Record Config := mkConfig {
  Driver : string;
  Bucket : string;
  Region : string;
  Endpoint : string;
  Prefix : string;
  AWSAccessKeyID : string;
  AWSSecretAccessKey : string;
  AzureAccount : string;
  AzureAccessKey : string;
  GCSCredentialsJSON : string
}.

#[export] Instance Config_eq_dec : EqDecision Config.
Proof. solve_decision. Defined.

(** A configuration without inline credentials. *)
Definition location (driver bucket region endpoint prefix : string) : Config :=
  mkConfig driver bucket region endpoint prefix "" "" "" "" "".

Definition resolveKey (cfg : Config) (key : string) : string :=
  if String.eqb (Prefix cfg) "" then key else pathJoin [Prefix cfg; key].

Definition filesystemRoot (cfg : Config) : string :=
  if String.eqb (Bucket cfg) "" then DefaultFilesystemRoot else Bucket cfg.

Definition filesystemPath (cfg : Config) (key : string) : string :=
  pathJoin [filesystemRoot cfg; Prefix cfg; key].

Definition URI (cfg : Config) (key : string) : string :=
  let full := resolveKey cfg key in
  if String.eqb (Driver cfg) DriverAWSS3 then "s3://" ++! pathJoin [Bucket cfg; full]
  else if String.eqb (Driver cfg) DriverGCS then "gs://" ++! pathJoin [Bucket cfg; full]
  else if String.eqb (Driver cfg) DriverAzureBlob then "azblob://" ++! pathJoin [Bucket cfg; full]
  else if String.eqb (Driver cfg) DriverFilesystem then "file://" ++! filesystemPath cfg key
  else "".

Definition uriScheme (driver : string) : option string :=
  if String.eqb driver DriverAWSS3 then Some "s3://"
  else if String.eqb driver DriverGCS then Some "gs://"
  else if String.eqb driver DriverAzureBlob then Some "azblob://"
  else if String.eqb driver DriverFilesystem then Some "file://"
  else None.

Definition KeyFromURI (cfg : Config) (uri : string) : res string :=
  match uriScheme (Driver cfg) with
  | None => Err (ErrPlain ("objectstore: unsupported driver " ++! quote (Driver cfg)))
  | Some scheme =>
      match CutPrefix uri scheme with
      | None => Err (ErrPlain ("objectstore: artifact URI " ++! quote uri ++! " does not have the " ++!
                   scheme ++! " scheme expected for driver " ++! quote (Driver cfg)))
      | Some rest =>
          if String.eqb (Driver cfg) DriverFilesystem then
            let base := pathJoin [filesystemRoot cfg; Prefix cfg] in
            match Rel base rest with
            | None => Err (ErrPlain ("objectstore: artifact URI " ++! quote uri ++! " is not under " ++! quote base))
            | Some rel =>
                if String.eqb rel ".." || HasPrefix rel "../" then
                  Err (ErrPlain ("objectstore: artifact URI " ++! quote uri ++! " is not under " ++! quote base))
                else Ok rel
            end
          else
            match CutPrefix rest (Bucket cfg ++! "/") with
            | None => Err (ErrPlain ("objectstore: artifact URI " ++! quote uri ++!
                         " does not belong to bucket " ++! quote (Bucket cfg)))
            | Some full =>
                if String.eqb (Prefix cfg) "" then Ok full
                else
                  match CutPrefix full (Prefix cfg ++! "/") with
                  | None => Err (ErrPlain ("objectstore: artifact URI " ++! quote uri ++!
                               " does not have prefix " ++! quote (Prefix cfg)))
                  | Some key => Ok key
                  end
            end
      end
  end.

(** * Recovering the key *)

(** A path component that cleaning leaves alone. *)
Definition plain (w : string) : Prop :=
  w ≠ "" ∧ w ≠ "." ∧ w ≠ ".." ∧ splitSlash w = [w].

#[export] Instance plain_dec w : Decision (plain w).
Proof. unfold plain. apply _. Defined.

Lemma app_nil_r_str (s : string) : s ++! "" = s.
Proof. induction s as [|c s IH]; [done|]. by rewrite append_cons, IH. Qed.

Lemma app_assoc_str (s t u : string) : (s ++! t) ++! u = s ++! (t ++! u).
Proof. induction s as [|c s IH]; [done|]. by rewrite !append_cons, IH. Qed.

Lemma CutPrefix_app (p s : string) : CutPrefix (p ++! s) p = Some s.
Proof.
  induction p as [|c p IH]; [by rewrite append_nil|].
  rewrite append_cons. simpl. by rewrite Ascii.eqb_refl.
Qed.

Lemma CutPrefix_Some s p r : CutPrefix s p = Some r → s = p ++! r.
Proof.
  revert s. induction p as [|c p IH]; intros [|d s]; simpl; try done; try (by intros [= <-]).
  destruct (Ascii.eqb_spec c d) as [<-|]; [|done]. intros ->%IH. by rewrite append_cons.
Qed.

Lemma splitSlash_nonempty s : splitSlash s ≠ [].
Proof.
  induction s as [|c s IH]; simpl; [done|]. destruct (splitSlash s); [done|].
  by destruct (Ascii.eqb c "/").
Qed.

Lemma splitSlash_app (w s : string) :
  splitSlash w = [w] → splitSlash (w ++! "/" ++! s) = w :: splitSlash s.
Proof.
  induction w as [|c w IH].
  - intros _. change ("" ++! "/" ++! s) with (String "/" s). simpl.
    destruct (splitSlash s) eqn:E; [|done]. by apply splitSlash_nonempty in E.
  - rewrite append_cons. simpl. destruct (splitSlash w) as [|v vs] eqn:E; [done|].
    destruct (Ascii.eqb c "/"); [done|]. intros [= -> ->]. by rewrite IH.
Qed.

Lemma split_join ws : ws ≠ [] → Forall plain ws → splitSlash (joinSlash ws) = ws.
Proof.
  induction ws as [|w ws IH]; [done|]. intros _ [Hw Hws]%Forall_cons.
  destruct ws as [|w' ws]; [by destruct Hw as (_ & _ & _ & ?)|].
  change (joinSlash (w :: w' :: ws)) with (w ++! "/" ++! joinSlash (w' :: ws)).
  rewrite splitSlash_app by apply Hw. by rewrite IH.
Qed.

Lemma cleanComps_plain r out ws : Forall plain ws → cleanComps r out ws = reverse out ++ ws.
Proof.
  intros H. revert out. induction H as [|w ws (H1 & H2 & H3 & _) _ IH]; intros out; simpl.
  - by rewrite app_nil_r.
  - destruct (String.eqb_spec w ""); [done|]. destruct (String.eqb_spec w "."); [done|].
    destruct (String.eqb_spec w ".."); [done|]. simpl.
    rewrite IH, reverse_cons, <- (assoc_L (++)). done.
Qed.

Lemma plain_not_rooted w s : plain w → isRooted (w ++! s) = false.
Proof.
  intros (H & _ & _ & Hs). destruct w as [|c w]; [done|].
  rewrite append_cons. simpl in *.
  destruct (Ascii.eqb c "/"); [|done]. destruct (splitSlash w); done.
Qed.

Lemma join_not_rooted ws : ws ≠ [] → Forall plain ws → isRooted (joinSlash ws) = false.
Proof.
  destruct ws as [|w ws]; [done|]. intros _ [Hw _]%Forall_cons.
  destruct ws; [rewrite <- (app_nil_r_str (joinSlash [w]))|]; by apply plain_not_rooted.
Qed.

(** A relative path of plain components is clean. *)
Lemma Clean_plain ws : ws ≠ [] → Forall plain ws → Clean (joinSlash ws) = joinSlash ws.
Proof.
  intros Hne Hws. unfold Clean. rewrite join_not_rooted, split_join, cleanComps_plain by done.
  rewrite reverse_nil. simpl. by destruct ws.
Qed.

(** So is an absolute one. *)
Lemma Clean_rooted ws :
  ws ≠ [] → Forall plain ws → Clean ("/" ++! joinSlash ws) = "/" ++! joinSlash ws.
Proof.
  intros Hne Hws. unfold Clean. change ("/" ++! joinSlash ws) with (String "/" (joinSlash ws)).
  cbn [isRooted splitSlash]. destruct (splitSlash (joinSlash ws)) as [|v vs] eqn:E; [by apply splitSlash_nonempty in E|].
  rewrite split_join in E by done. subst ws.
  change (Ascii.eqb "/" "/") with true. cbv iota.
  change (cleanComps true [] ("" :: v :: vs)) with (cleanComps true [] (v :: vs)).
  rewrite cleanComps_plain by done. reflexivity.
Qed.

Lemma joinSlash_app ws vs :
  ws ≠ [] → vs ≠ [] → joinSlash (ws ++ vs) = joinSlash ws ++! "/" ++! joinSlash vs.
Proof.
  intros Hw Hv. induction ws as [|w ws IH]; [done|]. destruct ws as [|w' ws].
  - simpl. by destruct vs.
  - change (joinSlash ((w :: w' :: ws) ++ vs)) with (w ++! "/" ++! joinSlash ((w' :: ws) ++ vs)).
    rewrite IH by done. change (joinSlash (w :: w' :: ws)) with (w ++! "/" ++! joinSlash (w' :: ws)).
    by rewrite !app_assoc_str.
Qed.

Lemma joinSlash_nonempty ws : ws ≠ [] → Forall plain ws → joinSlash ws ≠ "".
Proof.
  destruct ws as [|w ws]; [done|]. intros _ [(Hw & _) _]%Forall_cons E.
  destruct ws; simpl in E; [done|]. by destruct w.
Qed.

Lemma pathJoin_two a b : a ≠ "" → b ≠ "" → pathJoin [a; b] = Clean (a ++! "/" ++! b).
Proof. intros Ha Hb. unfold pathJoin. by rewrite !filter_cons_True by done. Qed.

(** [path.Join] of two non-empty lists of plain components concatenates. *)
Lemma pathJoin_plain ws vs :
  ws ≠ [] → vs ≠ [] → Forall plain ws → Forall plain vs →
  pathJoin [joinSlash ws; joinSlash vs] = joinSlash (ws ++ vs).
Proof.
  intros. rewrite pathJoin_two by (by apply joinSlash_nonempty).
  rewrite <- joinSlash_app by done. apply Clean_plain; [by destruct ws|by apply Forall_app].
Qed.

(** The key a driver with buckets stores under: the prefix components (if
    any) and the key components. *)
Lemma resolveKey_plain cfg ps ks :
  Prefix cfg = joinSlash ps → ks ≠ [] → Forall plain ps → Forall plain ks →
  resolveKey cfg (joinSlash ks) = joinSlash (ps ++ ks).
Proof.
  intros Hp Hk Hps Hks. unfold resolveKey. rewrite Hp. destruct ps as [|p ps]; [done|].
  destruct (String.eqb_spec (joinSlash (p :: ps)) "") as [E|_]; [by apply joinSlash_nonempty in E|].
  by rewrite pathJoin_plain.
Qed.

Definition bucketDriver (d : string) : Prop := d ∈ [DriverAWSS3; DriverGCS; DriverAzureBlob].

Lemma URI_bucket cfg key :
  bucketDriver (Driver cfg) → ∃ scheme,
    uriScheme (Driver cfg) = Some scheme ∧ String.eqb (Driver cfg) DriverFilesystem = false ∧
    URI cfg key = scheme ++! pathJoin [Bucket cfg; resolveKey cfg key].
Proof.
  unfold bucketDriver, URI. rewrite !elem_of_cons, elem_of_nil.
  intros [->|[->|[->|[]]]]; eexists; by split_and!.
Qed.

(** The key of a backup is recovered from its artifact URI.  For a bucket
    driver with a plain bucket name and a prefix and key made of plain path
    components, [KeyFromURI] inverts [URI]. *)
Theorem KeyFromURI_URI_bucket cfg ps ks :
  bucketDriver (Driver cfg) → plain (Bucket cfg) → Prefix cfg = joinSlash ps →
  Forall plain ps → Forall plain ks → ks ≠ [] →
  KeyFromURI cfg (URI cfg (joinSlash ks)) = Ok (joinSlash ks).
Proof.
  intros Hd Hb Hp Hps Hks Hne. destruct (URI_bucket cfg (joinSlash ks) Hd) as (scheme & Hs & Hf & ->).
  unfold KeyFromURI. rewrite Hs, CutPrefix_app, Hf.
  rewrite (resolveKey_plain _ ps) by done.
  change (Bucket cfg) with (joinSlash [Bucket cfg]) at 1.
  assert (ps ++ ks ≠ []) as Hpk by (by destruct ps).
  rewrite pathJoin_plain; [|done..|by constructor|by apply Forall_app].
  rewrite joinSlash_app by done. rewrite <- app_assoc_str, CutPrefix_app.
  rewrite Hp. destruct ps as [|p ps]; [done|].
  destruct (String.eqb_spec (joinSlash (p :: ps)) "") as [E|_]; [by apply joinSlash_nonempty in E|].
  by rewrite joinSlash_app, <- app_assoc_str, CutPrefix_app.
Qed.

Lemma components_rooted ws : ws ≠ [] → Forall plain ws → components ("/" ++! joinSlash ws) = ws.
Proof.
  intros Hne Hws. unfold components. change ("/" ++! joinSlash ws) with ("" ++! "/" ++! joinSlash ws).
  rewrite splitSlash_app, split_join by done. rewrite filter_cons_False by (by intros []).
  induction Hws as [|w ws (Hw & _) Hws IH]; [done|]. rewrite filter_cons_True by done. f_equal.
  destruct ws; [done|by apply IH].
Qed.

Lemma stripCommon_app ws vs : stripCommon ws (ws ++ vs) = ([], vs).
Proof. induction ws as [|w ws IH]; simpl; [by destruct vs|]. by rewrite String.eqb_refl. Qed.

Lemma joinSlash_merge a b rest : joinSlash (a :: b :: rest) = joinSlash ((a ++! "/" ++! b) :: rest).
Proof.
  destruct rest; [done|].
  change (a ++! "/" ++! (b ++! "/" ++! joinSlash (s :: rest)) =
          (a ++! "/" ++! b) ++! "/" ++! joinSlash (s :: rest)).
  by rewrite !app_assoc_str.
Qed.

(** [path.Join] of an absolute path and relative ones, all plain, some of
    them possibly empty. *)
Lemma pathJoin_rooted rs gs :
  rs ≠ [] → Forall plain rs → Forall (Forall plain) gs →
  pathJoin (("/" ++! joinSlash rs) :: (joinSlash <$> gs)) = "/" ++! joinSlash (rs ++ concat gs).
Proof.
  intros Hne Hrs Hgs. unfold pathJoin. rewrite filter_cons_True by (by destruct (joinSlash rs)).
  assert (joinSlash (("/" ++! joinSlash rs) :: filter (λ e, e ≠ "") (joinSlash <$> gs)) =
          "/" ++! joinSlash (rs ++ concat gs)) as ->.
  { clear Hrs. revert rs Hne. induction Hgs as [|g gs Hg _ IH]; intros rs Hne; cbn [concat].
    - by rewrite app_nil_r.
    - rewrite fmap_cons. destruct (decide (g = [])) as [->|Hgn].
      + rewrite filter_cons_False by (by intros []). by apply IH.
      + rewrite filter_cons_True by (by apply joinSlash_nonempty).
        rewrite joinSlash_merge, app_assoc_str, <- joinSlash_app by done.
        rewrite (assoc_L (++)). apply IH. by destruct rs. }
  apply Clean_rooted; [by destruct rs|]. apply Forall_app_2; [done|].
  induction Hgs; simpl; [constructor|by apply Forall_app_2].
Qed.

Lemma not_dotdot ks : Forall plain ks → ks ≠ [] →
  String.eqb (joinSlash ks) ".." || HasPrefix (joinSlash ks) "../" = false.
Proof.
  intros Hks Hne. apply orb_false_iff. split.
  - apply String.eqb_neq. intros E. pose proof (split_join ks Hne Hks) as Hs. rewrite E in Hs.
    rewrite <- Hs in Hks. apply Forall_cons in Hks as [(_ & _ & Hdd & _) _]. by apply Hdd.
  - apply bool_decide_eq_false. intros [s Hs].
    apply CutPrefix_Some in Hs as E. change ("../" ++! s) with (".." ++! "/" ++! s) in E.
    pose proof (split_join ks Hne Hks) as Hsp. rewrite E, splitSlash_app in Hsp by done.
    rewrite <- Hsp in Hks. apply Forall_cons in Hks as [(_ & _ & Hdd & _) _]. by apply Hdd.
Qed.

Lemma Rel_plain rs ks :
  rs ≠ [] → Forall plain rs → Forall plain ks → ks ≠ [] →
  Rel ("/" ++! joinSlash rs) ("/" ++! joinSlash (rs ++ ks)) = Some (joinSlash ks).
Proof.
  intros Hr Hrs Hks Hne. unfold Rel.
  assert (rs ++ ks ≠ [] ∧ Forall plain (rs ++ ks)) as [? ?].
  { split; [by destruct rs|by apply Forall_app_2]. }
  rewrite !Clean_rooted by done.
  destruct (String.eqb_spec ("/" ++! joinSlash (rs ++ ks)) ("/" ++! joinSlash rs)) as [E|_].
  { apply (f_equal components) in E. rewrite !components_rooted in E by done.
    apply (f_equal length) in E. rewrite length_app in E. destruct ks; simpl in *; [done|lia]. }
  destruct (String.eqb_spec ("/" ++! joinSlash rs) ".") as [E|_]; [by destruct (joinSlash rs)|].
  change (isRooted ("/" ++! joinSlash rs)) with true.
  change (isRooted ("/" ++! joinSlash (rs ++ ks))) with true. simpl.
  by rewrite !components_rooted, stripCommon_app.
Qed.

(** The same for the filesystem driver, with an absolute root made of
    plain components (the default root is one). *)
Theorem KeyFromURI_URI_filesystem cfg rs ps ks :
  Driver cfg = DriverFilesystem → filesystemRoot cfg = "/" ++! joinSlash rs →
  Prefix cfg = joinSlash ps → Forall plain rs → Forall plain ps → Forall plain ks →
  rs ≠ [] → ks ≠ [] →
  KeyFromURI cfg (URI cfg (joinSlash ks)) = Ok (joinSlash ks).
Proof.
  intros Hd Hr Hp Hrs Hps Hks Hrn Hkn. unfold KeyFromURI, URI. rewrite Hd.
  change (String.eqb DriverFilesystem DriverAWSS3) with false.
  change (String.eqb DriverFilesystem DriverGCS) with false.
  change (String.eqb DriverFilesystem DriverAzureBlob) with false.
  change (uriScheme DriverFilesystem) with (Some "file://").
  rewrite String.eqb_refl, CutPrefix_app. unfold filesystemPath.
  assert (pathJoin [filesystemRoot cfg; Prefix cfg] = "/" ++! joinSlash (rs ++ ps)) as ->.
  { rewrite Hr, Hp. pose proof (pathJoin_rooted rs [ps]) as E. simpl in E.
    rewrite app_nil_r in E. apply E; [done..|by constructor]. }
  assert (pathJoin [filesystemRoot cfg; Prefix cfg; joinSlash ks] =
          "/" ++! joinSlash ((rs ++ ps) ++ ks)) as ->.
  { rewrite Hr, Hp. pose proof (pathJoin_rooted rs [ps; ks]) as E. simpl in E.
    rewrite app_nil_r, (assoc_L (++)) in E. apply E; [done..|by repeat constructor]. }
  rewrite Rel_plain by (done || (by destruct rs) || by apply Forall_app_2).
  by rewrite not_dotdot.
Qed.

(** A prefix with a trailing slash is written to but cannot be read back:
    the location is cleaned when the URI is made, and the prefix is compared
    as it was given when the key is recovered, so every Restore of such a
    Backup fails. *)
Theorem KeyFromURI_trailing_slash cfg p ks :
  bucketDriver (Driver cfg) → plain (Bucket cfg) → plain p → Prefix cfg = p ++! "/" →
  Forall plain ks → ks ≠ [] →
  ∃ e, KeyFromURI cfg (URI cfg (joinSlash ks)) = Err e.
Proof.
  intros Hd Hb Hpl Hp Hks Hne. destruct (URI_bucket cfg (joinSlash ks) Hd) as (scheme & Hs & Hf & ->).
  unfold KeyFromURI. rewrite Hs, CutPrefix_app, Hf.
  assert (resolveKey cfg (joinSlash ks) = joinSlash ([p] ++ ks)) as ->.
  { unfold resolveKey. rewrite Hp.
    destruct (String.eqb_spec (p ++! "/") "") as [E|_]; [by destruct p|].
    rewrite pathJoin_two by (done || (by destruct p) || by apply joinSlash_nonempty).
    unfold Clean. rewrite app_assoc_str, plain_not_rooted by done.
    rewrite splitSlash_app by apply Hpl. change (String.append "/" (joinSlash ks)) with
      (String.append "" (String.append "/" (joinSlash ks))).
    rewrite splitSlash_app, split_join by done.
    assert (cleanComps false [] (p :: "" :: ks) = [p] ++ ks) as ->; [|done].
    simpl. destruct Hpl as (? & ? & ? & _). destruct (String.eqb_spec p ""); [done|].
    destruct (String.eqb_spec p "."); [done|]. destruct (String.eqb_spec p ".."); [done|].
    simpl. by rewrite cleanComps_plain. }
  change (Bucket cfg) with (joinSlash [Bucket cfg]) at 1.
  rewrite pathJoin_plain; [|done..|by constructor|by constructor].
  rewrite joinSlash_app by done. rewrite <- app_assoc_str, CutPrefix_app, Hp.
  destruct (String.eqb_spec (p ++! "/") "") as [E|_]; [by destruct p|].
  rewrite joinSlash_app by done. change (joinSlash [p]) with p.
  destruct (CutPrefix _ _) as [k|] eqn:E; [|by eexists].
  apply CutPrefix_Some in E. rewrite !app_assoc_str in E.
  apply (inj (String.append p)), (inj (String.append "/")) in E.
  pose proof (join_not_rooted ks Hne Hks) as Hr. by rewrite E in Hr.
Qed.

(** The configurations and keys an artifact URI can be read back for: a plain
    bucket, or a rooted directory, with a prefix and a key of plain path
    components. *)
Definition invertible (cfg : Config) (key : string) : Prop :=
  ∃ ps ks, Prefix cfg = joinSlash ps ∧ key = joinSlash ks ∧ ks ≠ [] ∧ Forall plain ps ∧ Forall plain ks ∧
    (bucketDriver (Driver cfg) ∧ plain (Bucket cfg) ∨
     Driver cfg = DriverFilesystem ∧ ∃ rs, rs ≠ [] ∧ Forall plain rs ∧ filesystemRoot cfg = "/" ++! joinSlash rs).

Lemma KeyFromURI_URI cfg key : invertible cfg key → KeyFromURI cfg (URI cfg key) = Ok key.
Proof.
  intros (ps & ks & Hp & -> & Hne & Hps & Hks & [[Hd Hb]|(Hd & rs & Hrs & Hr & E)]).
  - by apply (KeyFromURI_URI_bucket cfg ps).
  - by apply (KeyFromURI_URI_filesystem cfg rs ps).
Qed.

Lemma invertible_driver cfg key : invertible cfg key → String.eqb (Driver cfg) "" = false.
Proof.
  intros (ps & ks & _ & _ & _ & _ & _ & [[Hd _]|[-> _]]); [|done]. unfold bucketDriver in Hd.
  apply String.eqb_neq. intros E. rewrite E in Hd. revert Hd. by compute_done.
Qed.

Module ObjectStoreDemo.

Definition s3 : Config := location DriverAWSS3 "backups" "us-east-1" "" "prod/pulsar".
Definition s3slash : Config := location DriverAWSS3 "backups" "us-east-1" "" "prod/".
Definition fs : Config := location DriverFilesystem "" "" "" "prod".

Lemma KeyFromURI_URI_bucket_witness :
  URI s3 "b1.manifest" = "s3://backups/prod/pulsar/b1.manifest" ∧
  KeyFromURI s3 (URI s3 "b1.manifest") = Ok "b1.manifest".
Proof.
  split; [by vm_compute|].
  apply (KeyFromURI_URI_bucket s3 ["prod"; "pulsar"] ["b1.manifest"]);
    first [by left | reflexivity | done | by repeat constructor; compute_done].
Defined.

Lemma KeyFromURI_URI_filesystem_witness :
  URI fs "b1.manifest" = "file:///backups/prod/b1.manifest" ∧
  KeyFromURI fs (URI fs "b1.manifest") = Ok "b1.manifest".
Proof.
  split; [by vm_compute|].
  apply (KeyFromURI_URI_filesystem fs ["backups"] ["prod"] ["b1.manifest"]);
    first [reflexivity | done | by repeat constructor; compute_done].
Defined.

Lemma KeyFromURI_trailing_slash_witness :
  URI s3slash "b1.manifest" = "s3://backups/prod/b1.manifest" ∧
  ∃ e, KeyFromURI s3slash (URI s3slash "b1.manifest") = Err e.
Proof.
  split; [by vm_compute|].
  apply (KeyFromURI_trailing_slash s3slash "prod" ["b1.manifest"]);
    first [by left | reflexivity | done | by repeat constructor; compute_done].
Defined.

End ObjectStoreDemo.
