(* ===== verification/ObjectTransfer.v ===== *)
(** The object stores behind internal/objectstore: [New] and the Upload,
    Download and URI of the four drivers (filesystem.go, s3.go, gcs.go,
    azure.go).  The calls are those of the SDKs and of package os; what is
    stored is a parameter. *)

From S2P Require Import Prelude Effects ObjectStore.
Open Scope go_scope.

(** [path.Dir]: what precedes the last slash, cleaned. *)
Definition Dir (p : string) : string :=
  match splitSlash p with
  | [] | [_] => Clean ""
  | cs => Clean (joinSlash (removelast cs) ++! "/")
  end.

Module ObjectTransfer.

Definition envAzureStorageAccount : string := "AZURE_STORAGE_ACCOUNT".
Definition envAzureStorageAccessKey : string := "AZURE_STORAGE_ACCESS_KEY".

(** When the S3 client adds and checks checksums. *)
Inductive ChecksumMode := WhenSupported | WhenRequired.

(** The options an S3 client is built with. *)
Record S3Client := mkS3 {
  s3Region : string;
  s3StaticCredentials : option (string * string);
  s3BaseEndpoint : option string;
  s3UsePathStyle : bool;
  s3Checksums : ChecksumMode
}.

(** What opening a stored object gives. *)
Inductive Fetched (content : Type) :=
| NoSuch (e : goerr)
| FetchFailed (e : goerr)
| Fetch (c : content).
Arguments NoSuch {content} e.
Arguments FetchFailed {content} e.
Arguments Fetch {content} c.

Section Transfer.
Context {content : Type}.

Inductive call :=
| LoadAWSConfig (region : string) (static : option (string * string))
| PutObject (client : S3Client) (bucket key : string) (body : content)
| GetObject (client : S3Client) (bucket key : string)
| NewGCSClient (serviceAccountJSON : option string)
| GCSCopy (bucket object : string) (body : content)
| GCSClose (bucket object : string)
| GCSNewReader (bucket object : string)
| Getenv (name : string)
| NewSharedKeyCredential (account key : string)
| NewAzureClient (serviceURL : string)
| AzureUploadStream (container blob : string) (body : content)
| AzureDownloadStream (container blob : string)
| MkdirAll (dir : string)
| CreateFile (path : string)
| CopyFile (path : string) (body : content)
| CloseFile (path : string)
| OpenFile (path : string).

Definition ans (c : call) : Type :=
  match c with
  | GetObject _ _ _ | GCSNewReader _ _ | AzureDownloadStream _ _ | OpenFile _ => Fetched content
  | Getenv _ => string
  | _ => res unit
  end.

Abbreviation M A := (prog ans (res A)).

(** A Store is its configuration with the client that was built for it. *)
Inductive Store :=
| filesystemStore (cfg : Config)
| s3Store (cfg : Config) (client : S3Client)
| gcsStore (cfg : Config)
| azureStore (cfg : Config).

Definition storeConfig (s : Store) : Config :=
  match s with filesystemStore cfg | s3Store cfg _ | gcsStore cfg | azureStore cfg => cfg end.

(** * Construction *)

Definition newS3Store (cfg : Config) : M Store :=
  let static := if String.eqb (AWSAccessKeyID cfg) "" then None
                else Some (AWSAccessKeyID cfg, AWSSecretAccessKey cfg) in
  (try! ["objectstore: load AWS config"] _ := perform ans (LoadAWSConfig (Region cfg) static) in
   Ret (Ok (s3Store cfg
     (if String.eqb (Endpoint cfg) "" then mkS3 (Region cfg) static None false WhenSupported
      else mkS3 (Region cfg) static (Some (Endpoint cfg)) true WhenRequired))))%prog.

Definition newGCSStore (cfg : Config) : M Store :=
  (try! ["objectstore: create GCS client"] _ :=
     perform ans (NewGCSClient (if String.eqb (GCSCredentialsJSON cfg) "" then None
                                else Some (GCSCredentialsJSON cfg))) in
   Ret (Ok (gcsStore cfg)))%prog.

(** The inline value, or else the environment's. *)
Definition orEnv (inline name : string) : prog ans string :=
  if String.eqb inline "" then perform ans (Getenv name) else Ret inline.

Definition newAzureStore (cfg : Config) : M Store :=
  (let! account := orEnv (AzureAccount cfg) envAzureStorageAccount in
   let! key := orEnv (AzureAccessKey cfg) envAzureStorageAccessKey in
   if String.eqb account "" || String.eqb key "" then
     Ret (Err (ErrPlain ("objectstore: azureblob requires " ++! envAzureStorageAccount ++!
            " and " ++! envAzureStorageAccessKey ++! " in the environment")))
   else
     try! ["objectstore: azure shared-key credential"] _ :=
       perform ans (NewSharedKeyCredential account key) in
     let serviceURL := if String.eqb (Endpoint cfg) ""
       then "https://" ++! account ++! ".blob.core.windows.net/" else Endpoint cfg in
     try! ["objectstore: create azure client"] _ := perform ans (NewAzureClient serviceURL) in
     Ret (Ok (azureStore cfg)))%prog.

Definition New (cfg : Config) : M Store :=
  if String.eqb (Driver cfg) DriverFilesystem then Ret (Ok (filesystemStore cfg))
  else if String.eqb (Driver cfg) DriverAWSS3 then newS3Store cfg
  else if String.eqb (Driver cfg) DriverGCS then newGCSStore cfg
  else if String.eqb (Driver cfg) DriverAzureBlob then newAzureStore cfg
  else Ret (Err (ErrPlain ("objectstore: unsupported driver " ++! quote (Driver cfg)))).

(** * Transfers *)

(** The driver's name for an object in its messages. *)
Definition named (scheme : string) (cfg : Config) (full : string) : string :=
  scheme ++! "://" ++! Bucket cfg ++! "/" ++! full.

Definition filesystemUpload (cfg : Config) (key : string) (r : content) : M unit :=
  let dst := filesystemPath cfg key in
  (try! ["objectstore: create directory for " ++! quote dst] _ := perform ans (MkdirAll (Dir dst)) in
   try! ["objectstore: create " ++! quote dst] _ := perform ans (CreateFile dst) in
   let! copied := perform ans (CopyFile dst r) in
   match copied with
   | Err e =>
       let! _ := perform ans (CloseFile dst) in
       Ret (Err (Errorf ("objectstore: write " ++! quote dst) e))
   | Ok _ =>
       try! ["objectstore: close " ++! quote dst] _ := perform ans (CloseFile dst) in
       Ret (Ok tt)
   end)%prog.

(** Reading the manifest, which is in memory, does not fail. *)
Definition s3Upload (cfg : Config) (client : S3Client) (key : string) (r : content) : M unit :=
  let full := resolveKey cfg key in
  (try! ["objectstore: put " ++! named "s3" cfg full] _ :=
     perform ans (PutObject client (Bucket cfg) full r) in
   Ret (Ok tt))%prog.

Definition gcsUpload (cfg : Config) (key : string) (r : content) : M unit :=
  let full := resolveKey cfg key in
  (let! copied := perform ans (GCSCopy (Bucket cfg) full r) in
   match copied with
   | Err e =>
       let! _ := perform ans (GCSClose (Bucket cfg) full) in
       Ret (Err (Errorf ("objectstore: write " ++! named "gs" cfg full) e))
   | Ok _ =>
       try! ["objectstore: commit " ++! named "gs" cfg full] _ :=
         perform ans (GCSClose (Bucket cfg) full) in
       Ret (Ok tt)
   end)%prog.

Definition azureUpload (cfg : Config) (key : string) (r : content) : M unit :=
  let full := resolveKey cfg key in
  (try! ["objectstore: upload " ++! named "azblob" cfg full] _ :=
     perform ans (AzureUploadStream (Bucket cfg) full r) in
   Ret (Ok tt))%prog.

Definition Upload (s : Store) (key : string) (r : content) : M unit :=
  match s with
  | filesystemStore cfg => filesystemUpload cfg key r
  | s3Store cfg client => s3Upload cfg client key r
  | gcsStore cfg => gcsUpload cfg key r
  | azureStore cfg => azureUpload cfg key r
  end.

(** [IsNotExist] of the error, kept beside it. *)
Inductive DownloadError := notExistError (e : goerr) | otherError (e : goerr).

Definition IsNotExist (e : DownloadError) : bool :=
  match e with notExistError _ => true | otherError _ => false end.
Definition downloadError (e : DownloadError) : goerr :=
  match e with notExistError e | otherError e => e end.

Definition opened (what : string) (f : Fetched content) : content + DownloadError :=
  match f with
  | NoSuch e => inr (notExistError (Errorf what e))
  | FetchFailed e => inr (otherError (Errorf what e))
  | Fetch c => inl c
  end.

Definition filesystemDownload (cfg : Config) (key : string) : prog ans (content + DownloadError) :=
  let src := filesystemPath cfg key in
  (let! f := perform ans (OpenFile src) in
   Ret (opened ("objectstore: open " ++! quote src) f))%prog.

Definition s3Download (cfg : Config) (client : S3Client) (key : string) :
    prog ans (content + DownloadError) :=
  let full := resolveKey cfg key in
  (let! f := perform ans (GetObject client (Bucket cfg) full) in
   Ret (opened ("objectstore: get " ++! named "s3" cfg full) f))%prog.

Definition gcsDownload (cfg : Config) (key : string) : prog ans (content + DownloadError) :=
  let full := resolveKey cfg key in
  (let! f := perform ans (GCSNewReader (Bucket cfg) full) in
   Ret (opened ("objectstore: read " ++! named "gs" cfg full) f))%prog.

Definition azureDownload (cfg : Config) (key : string) : prog ans (content + DownloadError) :=
  let full := resolveKey cfg key in
  (let! f := perform ans (AzureDownloadStream (Bucket cfg) full) in
   Ret (opened ("objectstore: download " ++! named "azblob" cfg full) f))%prog.

Definition Download (s : Store) (key : string) : prog ans (content + DownloadError) :=
  match s with
  | filesystemStore cfg => filesystemDownload cfg key
  | s3Store cfg client => s3Download cfg client key
  | gcsStore cfg => gcsDownload cfg key
  | azureStore cfg => azureDownload cfg key
  end.

Definition storeURI (s : Store) (key : string) : string := URI (storeConfig s) key.

(** * Objects *)

(** Where an object is: the driver, the bucket ("" for a file) and the full
    key or path. *)
Definition Location : Type := string * string * string.

Definition locate (cfg : Config) (key : string) : Location :=
  if String.eqb (Driver cfg) DriverFilesystem then (DriverFilesystem, "", filesystemPath cfg key)
  else (Driver cfg, Bucket cfg, resolveKey cfg key).

(** The object a call writes, with its content. *)
Definition stores (c : call) : option (Location * content) :=
  match c with
  | PutObject _ b k r => Some (DriverAWSS3, b, k, r)
  | GCSCopy b k r => Some (DriverGCS, b, k, r)
  | AzureUploadStream b k r => Some (DriverAzureBlob, b, k, r)
  | CopyFile p r => Some (DriverFilesystem, "", p, r)
  | _ => None
  end.

(** The object a call opens, with what it got. *)
Definition fetches (e : Effects.event ans) : option (Location * Fetched content) :=
  match e with
  | Ev c x =>
      match c return ans c → option (Location * Fetched content) with
      | GetObject _ b k => λ x, Some (DriverAWSS3, b, k, x)
      | GCSNewReader b k => λ x, Some (DriverGCS, b, k, x)
      | AzureDownloadStream b k => λ x, Some (DriverAzureBlob, b, k, x)
      | OpenFile p => λ x, Some (DriverFilesystem, "", p, x)
      | _ => λ _, None
      end x
  end.

Definition storedBy (t : list (Effects.event ans)) : list (Location * content) :=
  omap (λ e, stores (ev_call e)) t.
Definition fetchedBy (t : list (Effects.event ans)) : list (Location * Fetched content) :=
  omap fetches t.

Ltac case_unit := match goal with a : () |- _ => destruct a end.

Lemma storedBy_app t1 t2 : storedBy (t1 ++ t2) = storedBy t1 ++ storedBy t2.
Proof. apply omap_app. Qed.
Lemma fetchedBy_app t1 t2 : fetchedBy (t1 ++ t2) = fetchedBy t1 ++ fetchedBy t2.
Proof. apply omap_app. Qed.

(** The store is of the driver its configuration names. *)
Definition ofDriver (s : Store) : Prop :=
  Driver (storeConfig s) =
  match s with
  | filesystemStore _ => DriverFilesystem
  | s3Store _ _ => DriverAWSS3
  | gcsStore _ => DriverGCS
  | azureStore _ => DriverAzureBlob
  end.

Definition succeeded (c : call) (x : ans c) : Prop :=
  match c return ans c → Prop with
  | GetObject _ _ _ | GCSNewReader _ _ | AzureDownloadStream _ _ | OpenFile _ | Getenv _ => λ _, True
  | _ => λ x, x = Ok tt
  end x.

Lemma orEnv_quiet inline name t a :
  runs (orEnv inline name) t a → storedBy t = [] ∧ fetchedBy t = [].
Proof.
  unfold orEnv. destruct (String.eqb _ _); [|by intros [-> _]].
  by intros (x & t' & -> & -> & _).
Qed.

(** What [New] returns is a store of that driver and configuration, and it
    touches no object. *)
Lemma runs_New cfg t s :
  runs (New cfg) t (Ok s) →
  storeConfig s = cfg ∧ storedBy t = [] ∧ fetchedBy t = [] ∧
  ofDriver s.
Proof.
  unfold New. destruct (String.eqb_spec (Driver cfg) DriverFilesystem) as [Hd|_].
  { by intros [-> [= ->]]. }
  destruct (String.eqb_spec (Driver cfg) DriverAWSS3) as [Hd|_].
  { unfold newS3Store. intros (x & t' & -> & H). destruct x; [|by destruct H].
    destruct H as [-> [= ->]]. by destruct (String.eqb (Endpoint cfg) ""). }
  destruct (String.eqb_spec (Driver cfg) DriverGCS) as [Hd|_].
  { unfold newGCSStore. intros (x & t' & -> & H). destruct x; [|by destruct H].
    by destruct H as [-> [= ->]]. }
  destruct (String.eqb_spec (Driver cfg) DriverAzureBlob) as [Hd|_]; [|by intros [_ ?]].
  unfold newAzureStore. intros H. apply runs_bind in H as (t1 & t2 & account & -> & H1 & H).
  apply runs_bind in H as (t3 & t4 & key & -> & H3 & H).
  destruct (_ || _); [by destruct H|].
  destruct H as (x & t & -> & H). destruct x; [|by destruct H].
  destruct H as (y & t' & -> & H). destruct y; [|by destruct H]. destruct H as [-> [= ->]].
  rewrite !storedBy_app, !fetchedBy_app. unfold ofDriver.
  destruct (orEnv_quiet _ _ _ _ H1) as [-> ->], (orEnv_quiet _ _ _ _ H3) as [-> ->]. done.
Qed.

(** A successful upload has stored the content at the location of the key,
    and nothing else; its last step succeeded. *)
Lemma runs_Upload cfg s key r t :
  storeConfig s = cfg →
  ofDriver s →
  runs (Upload s key r) t (Ok tt) →
  storedBy t = [(locate cfg key, r)] ∧ fetchedBy t = [] ∧
  Forall (λ e, match e with Ev c x => succeeded c x end) t.
Proof.
  intros <- Hd H. unfold locate, ofDriver in *.
  destruct s as [cfg|cfg client|cfg|cfg]; cbn [storeConfig] in *; rewrite Hd; simpl in H.
  - destruct H as (x & t1 & -> & H). destruct x; [|by destruct H].
    destruct H as (x & t2 & -> & H). destruct x; [|by destruct H].
    destruct H as (x & t3 & -> & H). destruct x; [|by destruct H as (? & ? & -> & -> & ?)].
    destruct H as (x & t4 & -> & H). destruct x; [|by destruct H]. destruct H as [-> _].
    split_and!; try done. by repeat case_unit; repeat constructor.
  - destruct H as (x & t1 & -> & H). destruct x; [|by destruct H]. destruct H as [-> _].
    split_and!; try done. by repeat case_unit; repeat constructor.
  - destruct H as (x & t1 & -> & H). destruct x; [|by destruct H as (? & ? & -> & -> & ?)].
    destruct H as (x & t4 & -> & H). destruct x; [|by destruct H]. destruct H as [-> _].
    split_and!; try done. by repeat case_unit; repeat constructor.
  - destruct H as (x & t1 & -> & H). destruct x; [|by destruct H]. destruct H as [-> _].
    split_and!; try done. by repeat case_unit; repeat constructor.
Qed.

(** A download opens exactly the object an upload of that key stores. *)
Lemma runs_Download cfg s key t out :
  storeConfig s = cfg →
  ofDriver s →
  runs (Download s key) t out →
  storedBy t = [] ∧ ∃ f what, fetchedBy t = [(locate cfg key, f)] ∧ out = opened what f.
Proof.
  intros <- Hd H. unfold locate, ofDriver in *.
  destruct s as [cfg|cfg client|cfg|cfg]; cbn [storeConfig] in *; rewrite Hd;
    destruct H as (x & t1 & -> & -> & ->); split; try done; by eexists _, _.
Qed.
End Transfer.
End ObjectTransfer.
