(* ===== verification/BackupTypes.v ===== *)
(** The backup API group (api/backup/v1alpha1), the Job objects its
    controllers create and watch, and what the backup and restore controllers
    share: defaults.go, jobstatus.go and the credential wiring of
    backup_job.go. *)

From S2P Require Import Prelude Kube ObjectStore.
Open Scope Z_scope.
Open Scope go_scope.

(** * Resources *)

Record BackupDestination := mkDestination {
  dDriver : string;
  dBucket : string;
  dRegion : string;
  dEndpoint : string;
  dPrefix : string;
  dCredentialsSecretRef : option string
}.

#[export] Instance BackupDestination_eq_dec : EqDecision BackupDestination.
Proof. solve_decision. Defined.

Record BackupComponents := mkComponents {
  OxiaMetadata : option bool;
  OxiaVolumes : option bool;
  BookkeeperVolumes : option bool
}.

#[export] Instance BackupComponents_eq_dec : EqDecision BackupComponents.
Proof. solve_decision. Defined.

Record BackupSpec := mkBackupSpec {
  ClusterRef : string;
  Components : BackupComponents;
  Destination : BackupDestination;
  Consistency : string;
  IncludeEphemeral : option bool
}.

#[export] Instance BackupSpec_eq_dec : EqDecision BackupSpec.
Proof. solve_decision. Defined.

Definition BackupConsistencyCrash : string := "crash".
Definition BackupConsistencyApplication : string := "application".
Definition BackupPhasePending : string := "Pending".
Definition BackupPhaseRunning : string := "Running".
Definition BackupPhaseCompleted : string := "Completed".
Definition BackupPhaseFailed : string := "Failed".

Record BackupStatus := mkBackupStatus {
  bsPhase : string;
  bsStartTime : option Z;
  bsCompletionTime : option Z;
  bsArtifactURI : string;
  bsOxiaKeysCaptured : Z;
  bsSizeBytes : Z;
  bsCapturedInstanceID : string;
  bsObservedGeneration : Z;
  bsConditions : list Condition
}.

#[export] Instance BackupStatus_eq_dec : EqDecision BackupStatus.
Proof. solve_decision. Defined.

(** [bUID] and [bController] are the object's UID and the UID of its
    controlling owner. *)
Record Backup := mkBackup {
  bName : string;
  bNamespace : string;
  bUID : string;
  bController : option string;
  bCreationTimestamp : Z;
  bGeneration : Z;
  bLabels : gmap string string;
  bAnnotations : gmap string string;
  bSpec : BackupSpec;
  bStatus : BackupStatus
}.

#[export] Instance Backup_eq_dec : EqDecision Backup.
Proof. solve_decision. Defined.

Definition emptyBackupStatus : BackupStatus := mkBackupStatus "" None None "" 0 0 "" 0 [].

Definition set_backupStatus (st : BackupStatus) (b : Backup) : Backup :=
  mkBackup (bName b) (bNamespace b) (bUID b) (bController b) (bCreationTimestamp b)
    (bGeneration b) (bLabels b) (bAnnotations b) (bSpec b) st.

(** * Defaults *)

Definition defaultSuccessfulBackupsHistoryLimit : Z := 3.

Definition oxiaMetadataEnabled (components : BackupComponents) : bool :=
  default true (OxiaMetadata components).

Definition includeEphemeralEnabled (spec : BackupSpec) : bool :=
  default false (IncludeEphemeral spec).

Definition backupConsistency (spec : BackupSpec) : string :=
  if String.eqb (Consistency spec) "" then BackupConsistencyCrash else Consistency spec.

(** * Jobs *)

Inductive JobConditionType := JobComplete | JobFailed | JobOther (s : string).

#[export] Instance JobConditionType_eq_dec : EqDecision JobConditionType.
Proof. solve_decision. Defined.

Record JobCondition := mkJobCondition { jcType : JobConditionType; jcStatus : ConditionStatus }.

(** A Job as the controllers read it back. *)
Record Job := mkJob {
  jobName : string;
  jobUID : string;
  jobConditions : list JobCondition;
  jobActive : Z;
  jobSucceededCount : Z
}.

Fixpoint findJobCondition (cs : list JobCondition) (condType : JobConditionType) :
    option JobCondition :=
  match cs with
  | [] => None
  | c :: cs' => if decide (jcType c = condType) then Some c else findJobCondition cs' condType
  end.

Definition jobSucceeded (job : Job) : bool :=
  match findJobCondition (jobConditions job) JobComplete with
  | Some c => bool_decide (jcStatus c = ConditionTrue)
  | None => jobSucceededCount job >? 0
  end.

Definition jobFailedPermanently (job : Job) : bool :=
  match findJobCondition (jobConditions job) JobFailed with
  | Some c => bool_decide (jcStatus c = ConditionTrue)
  | None => false
  end.

Inductive EnvVar :=
| EnvValue (name value : string)
| EnvSecret (name secret key : string).

Record Volume := mkVolume { volName : string; volSecret : string; volKey : string; volPath : string }.
Record VolumeMount := mkMount { mountName : string; mountPath : string; mountReadOnly : bool }.

(** A Job as the controllers build it: one container, never restarted. *)
Record JobObject := mkJobObject {
  joName : string;
  joNamespace : string;
  joLabels : gmap string string;
  joOwner : string;
  joBackoffLimit : Z;
  joActiveDeadlineSeconds : Z;
  joContainerName : string;
  joImage : string;
  joCommand : list string;
  joArgs : list string;
  joEnv : list EnvVar;
  joTerminationMessagePath : string;
  joVolumeMounts : list VolumeMount;
  joVolumes : list Volume
}.

(** ** Credentials *)

Definition envAWSAccessKeyID : string := "AWS_ACCESS_KEY_ID".
Definition envAWSSecretAccessKey : string := "AWS_SECRET_ACCESS_KEY".
Definition envAzureStorageAccount : string := "AZURE_STORAGE_ACCOUNT".
Definition envAzureStorageAccessKey : string := "AZURE_STORAGE_ACCESS_KEY".
Definition envGoogleAppCredentials : string := "GOOGLE_APPLICATION_CREDENTIALS".
Definition backupCredentialVolumeName : string := "backup-gcs-credentials".
Definition gcsKeyDir : string := "/etc/pulsar/backup-gcs".
Definition gcsKeySecretKey : string := "key.json".
Definition gcsKeyPath : string := gcsKeyDir ++! "/" ++! gcsKeySecretKey.
Definition managerBinary : string := "/manager".
Definition terminationMessagePath : string := "/dev/termination-log".

Definition destConfig (dest : BackupDestination) : Config :=
  location (dDriver dest) (dBucket dest) (dRegion dest) (dEndpoint dest) (dPrefix dest).

Definition appendFlagIfSet (args : list string) (flag value : string) : list string :=
  if String.eqb value "" then args else args ++ [flag; value].

Definition secretEnvVars (secretName : string) (keys : list string) : list EnvVar :=
  (λ key, EnvSecret key secretName key) <$> keys.

Definition destCredentialEnv (dest : BackupDestination) : list EnvVar :=
  match dCredentialsSecretRef dest with
  | None => []
  | Some secret =>
      if String.eqb (dDriver dest) DriverAWSS3 then
        secretEnvVars secret [envAWSAccessKeyID; envAWSSecretAccessKey]
      else if String.eqb (dDriver dest) DriverAzureBlob then
        secretEnvVars secret [envAzureStorageAccount; envAzureStorageAccessKey]
      else if String.eqb (dDriver dest) DriverGCS then
        [EnvValue envGoogleAppCredentials gcsKeyPath]
      else []
  end.

Definition gcsKeyFileMounted (dest : BackupDestination) : bool :=
  String.eqb (dDriver dest) DriverGCS && bool_decide (is_Some (dCredentialsSecretRef dest)).

Definition destCredentialVolumes (dest : BackupDestination) : list Volume :=
  if negb (gcsKeyFileMounted dest) then []
  else [mkVolume backupCredentialVolumeName (default "" (dCredentialsSecretRef dest))
          gcsKeySecretKey gcsKeySecretKey].

Definition destCredentialVolumeMounts (dest : BackupDestination) : list VolumeMount :=
  if negb (gcsKeyFileMounted dest) then []
  else [mkMount backupCredentialVolumeName gcsKeyDir true].

(** ** The cluster a backup belongs to *)

Definition ServerPort : Z := 6648.

Definition PublicServiceName (oxiaClusterName : string) : string := oxiaClusterName ++! "-oxia".

Definition oxiaExportAddress (clusterName : string) : string :=
  PublicServiceName (clusterName ++! "-oxia") ++! ":" ++! %d ServerPort.

(** * Wedged pods *)

Definition reasonImagePullError : string := "ImagePullError".
Definition reasonContainerConfigError : string := "ContainerConfigError".
Definition reasonPodStartTimeout : string := "PodStartTimeout".
Definition containerWaitingReasonImagePullBackOff : string := "ImagePullBackOff".
Definition containerWaitingReasonErrImagePull : string := "ErrImagePull".
Definition containerWaitingReasonCreateConfigError : string := "CreateContainerConfigError".
Definition containerWaitingReasonCreateContainerError : string := "CreateContainerError".
Definition containerWaitingReasonContainerCreating : string := "ContainerCreating".
Definition containerWaitingReasonPodInitializing : string := "PodInitializing".

Record podStuckInfo := mkStuck {
  stuck : bool;
  hard : bool;
  stuckReason : string;
  stuckMessage : string;
  since : Z
}.

Definition notStuck : podStuckInfo := mkStuck false false "" "" zeroTime.

Definition waitingReasonOrUnknown (reason : string) : string :=
  if String.eqb reason "" then "ContainerCreating" else reason.

(** The classification of one waiting container; [checkSecret] and
    [checkMount] are the two hints the export and import variants differ in. *)
Definition classifyWaiting (checkSecret checkMount image reason : string) (created : Z) :
    option podStuckInfo :=
  if String.eqb reason containerWaitingReasonImagePullBackOff ||
     String.eqb reason containerWaitingReasonErrImagePull then
    Some (mkStuck true true reasonImagePullError
            ("cannot pull image " ++! quote image ++! ": " ++! reason) created)
  else if String.eqb reason containerWaitingReasonCreateConfigError ||
          String.eqb reason containerWaitingReasonCreateContainerError then
    Some (mkStuck true true reasonContainerConfigError
            ("container cannot be created (" ++! reason ++! "); check " ++! checkSecret) created)
  else if String.eqb reason containerWaitingReasonContainerCreating ||
          String.eqb reason containerWaitingReasonPodInitializing || String.eqb reason "" then
    Some (mkStuck true false reasonPodStartTimeout
            ("pod has not started (" ++! waitingReasonOrUnknown reason ++! "); check the " ++!
             checkMount ++! " can be mounted") created)
  else None.

(** The first container of that name that waits for a known reason. *)
Fixpoint wedgeOf (containerName checkSecret checkMount : string) (created : Z)
    (cs : list ContainerStatus) : option podStuckInfo :=
  match cs with
  | [] => None
  | c :: cs' =>
      let next := wedgeOf containerName checkSecret checkMount created cs' in
      if negb (String.eqb (csName c) containerName) then next
      else
        match csWaiting c with
        | None => next
        | Some reason =>
            match classifyWaiting checkSecret checkMount (csImage c) reason created with
            | Some info => Some info
            | None => next
            end
        end
  end.

(** The first hard wedge among the pods the Job controls, else the last soft
    one. *)
Fixpoint firstHard (wedge : Pod → option podStuckInfo) (jobUID : string) (soft : podStuckInfo)
    (pods : list Pod) : podStuckInfo :=
  match pods with
  | [] => soft
  | pod :: pods' =>
      if negb (IsControlledBy pod jobUID) then firstHard wedge jobUID soft pods'
      else
        match wedge pod with
        | None => firstHard wedge jobUID soft pods'
        | Some info => if hard info then info else firstHard wedge jobUID info pods'
        end
  end.

(** The termination message of a container: the first non-empty one among the
    pods the Job controls. *)
Fixpoint terminationOf (containerName : string) (cs : list ContainerStatus) : option string :=
  match cs with
  | [] => None
  | c :: cs' =>
      if negb (String.eqb (csName c) containerName) then terminationOf containerName cs'
      else
        match csTerminated c with
        | Some msg => if String.eqb msg "" then terminationOf containerName cs' else Some msg
        | None => terminationOf containerName cs'
        end
  end.

Fixpoint terminationMessage (containerName jobUID : string) (pods : list Pod) : option string :=
  match pods with
  | [] => None
  | pod :: pods' =>
      if negb (IsControlledBy pod jobUID) then terminationMessage containerName jobUID pods'
      else
        match terminationOf containerName (podContainerStatuses pod) with
        | Some msg => Some msg
        | None => terminationMessage containerName jobUID pods'
        end
  end.
