(* ===== verification/BackupCtl.v ===== *)
(** The Backup controller (internal/controller/backup/backup_controller.go and
    the export Job of backup_job.go): a one-shot capture driven from the
    observed state of the Job it creates.

    A handler that mutates [backup.Status] returns the mutated object beside
    its result: the status is patched once, at the end, whether or not the
    handler failed.  The decoder of the export Job's termination message is a
    parameter. *)

From S2P Require Import Prelude Effects Kube ObjectStore BackupTypes.
Open Scope Z_scope.
Open Scope go_scope.

Module BackupCtl.

Definition conditionTypeExportSucceeded : string := "ExportSucceeded".
Definition reasonPending : string := "Pending".
Definition reasonRunning : string := "Running".
Definition reasonCompleted : string := "Completed".
Definition reasonExportJobFailed : string := "ExportJobFailed".
Definition reasonExportResultUnreadable : string := "ExportResultUnreadable".
Definition reasonClusterNotFound : string := "ClusterNotFound".
Definition reasonOperatorImage : string := "OperatorImageNotConfigured".
Definition reasonConsistencyUnsup : string := "ApplicationConsistencyNotImplemented".
Definition exportPollInterval : Z := 15 * Second.
Definition exportStuckGracePeriod : Z := 5 * Minute.

(** * The export Job *)

Definition backupComponentName : string := "backup-export".
Definition exportContainerName : string := "backup-export".
Definition ExportCommandName : string := "backup-export".
Definition exportJobBackoffLimit : Z := 3.
Definition exportJobActiveDeadlineSeconds : Z := 3600.
Definition manifestKeySuffix : string := ".manifest".

Definition backupJobName (backupName : string) : string := backupName ++! "-export".

Definition manifestObjectKey (b : Backup) : string := bName b ++! manifestKeySuffix.

Definition buildExportJob (b : Backup) (clusterName image : string) : JobObject :=
  let labels := Labels (bName b) backupComponentName in
  let dest := Destination (bSpec b) in
  let args := [ExportCommandName; "--oxia"; oxiaExportAddress clusterName;
               "--dest-driver"; dDriver dest; "--dest-key"; manifestObjectKey b;
               "--result-path"; terminationMessagePath] in
  let args := appendFlagIfSet args "--dest-bucket" (dBucket dest) in
  let args := appendFlagIfSet args "--dest-region" (dRegion dest) in
  let args := appendFlagIfSet args "--dest-endpoint" (dEndpoint dest) in
  let args := appendFlagIfSet args "--dest-prefix" (dPrefix dest) in
  mkJobObject (backupJobName (bName b)) (bNamespace b) labels (bUID b)
    exportJobBackoffLimit exportJobActiveDeadlineSeconds exportContainerName image
    [managerBinary] args (destCredentialEnv dest) terminationMessagePath
    (destCredentialVolumeMounts dest) (destCredentialVolumes dest).

(** What the export tool reports. *)
Record ExportResult := mkExportResult {
  erArtifactURI : string;
  erOxiaKeysCaptured : Z;
  erCapturedInstanceID : string;
  erSizeBytes : Z
}.

(** * Calls *)

(** [GetCluster] answers with the PulsarCluster's name, [SetOwner] is
    [controllerutil.SetControllerReference]. *)
Inductive call :=
| GetBackup (nn : NamespacedName)
| GetCluster (nn : NamespacedName)
| GetJob (nn : NamespacedName)
| SetOwner (ownerUID : string)
| CreateJob (job : JobObject)
| ListPods (ns : string) (selector : gmap string string)
| StatusPatch (base updated : Backup)
| Now
| Eventf (b : Backup) (ty : EventType) (reason note : string).

Definition ans (c : call) : Type :=
  match c with
  | GetBackup _ => res Backup
  | GetCluster _ => res string
  | GetJob _ => res Job
  | SetOwner _ => res unit
  | CreateJob _ => res unit
  | ListPods _ _ => res (list Pod)
  | StatusPatch _ _ => res unit
  | Now => Z
  | Eventf _ _ _ _ => unit
  end.

Section Reconciler.
Context `{AM : !ApiMeta} (operatorImage : string) (parseExportResult : string → res ExportResult).

(** A step of the handler: the object with its status mutated, and the
    result. *)
Abbreviation M := (prog ans (Backup * res Result)).

(** * Status *)

Definition withStatus (f : BackupStatus → BackupStatus) (b : Backup) : Backup :=
  set_backupStatus (f (bStatus b)) b.

Definition setPhase (phase : string) (b : Backup) : Backup :=
  withStatus (λ s, mkBackupStatus phase (bsStartTime s) (bsCompletionTime s) (bsArtifactURI s)
    (bsOxiaKeysCaptured s) (bsSizeBytes s) (bsCapturedInstanceID s) (bsObservedGeneration s)
    (bsConditions s)) b.

Definition setExportCondition (st : ConditionStatus) (reason msg : string) (b : Backup) : Backup :=
  withStatus (λ s, mkBackupStatus (bsPhase s) (bsStartTime s) (bsCompletionTime s)
    (bsArtifactURI s) (bsOxiaKeysCaptured s) (bsSizeBytes s) (bsCapturedInstanceID s)
    (bsObservedGeneration s)
    (setCond (bsConditions s)
       (newCondition conditionTypeExportSucceeded st (bGeneration b) reason msg))) b.

Definition setInProgress (phase reason message : string) (b : Backup) : Backup :=
  setExportCondition ConditionFalse reason message (setPhase phase b).

(** [if backup.Status.CompletionTime == nil { now := metav1.Now(); ... }] *)
Definition stampCompletion (b : Backup) : prog ans Backup :=
  match bsCompletionTime (bStatus b) with
  | Some _ => Ret b
  | None =>
      (let! now := perform ans Now in
       Ret (withStatus (λ s, mkBackupStatus (bsPhase s) (bsStartTime s) (Some now)
         (bsArtifactURI s) (bsOxiaKeysCaptured s) (bsSizeBytes s) (bsCapturedInstanceID s)
         (bsObservedGeneration s) (bsConditions s)) b))%prog
  end.

Definition fail (b : Backup) (reason message : string) : prog ans Backup :=
  (let! b := stampCompletion (setPhase BackupPhaseFailed b) in
   let b := setExportCondition ConditionFalse reason message b in
   let! _ := perform ans (Eventf b EventTypeWarning reason message) in
   Ret b)%prog.

Definition reportStuck (b : Backup) (reason message : string) : prog ans Backup :=
  let changed :=
    match FindStatusCondition (bsConditions (bStatus b)) conditionTypeExportSucceeded with
    | None => true
    | Some prior => negb (String.eqb (cReason prior) reason)
    end in
  let b := setInProgress BackupPhasePending reason message b in
  if changed then
    (let! _ := perform ans (Eventf b EventTypeWarning reason message) in Ret b)%prog
  else Ret b.

(** * The Job's pods *)

Definition exportPodWedge (pod : Pod) : option podStuckInfo :=
  wedgeOf exportContainerName "destination.credentialsSecretRef" "destination volume/secret"
    (podCreationTimestamp pod) (podContainerStatuses pod).

Definition listJobPods (b : Backup) : prog ans (res (list Pod)) :=
  perform ans (ListPods (bNamespace b) (SelectorLabels (bName b) backupComponentName)).

Definition podStuck (b : Backup) (job : Job) : prog ans (res podStuckInfo) :=
  (try! ["listing export job pods"] pods := listJobPods b in
   Ret (Ok (firstHard exportPodWedge (jobUID job) notStuck pods)))%prog.

(** [Ok None] is the [(_, false, nil)] of the code: definitively absent. *)
Definition readExportResult (b : Backup) (job : Job) : prog ans (res (option ExportResult)) :=
  (try! ["listing export job pods to read result"] pods := listJobPods b in
   Ret (Ok (match terminationMessage exportContainerName (jobUID job) pods with
            | None => None
            | Some msg =>
                match parseExportResult msg with
                | Err _ => None
                | Ok r => Some r
                end
            end)))%prog.

(** * Progress *)

Definition handleStuck (b : Backup) (jobName : string) (info : podStuckInfo) :
    prog ans (Backup * Result) :=
  (let! now := perform ans Now in
   let elapsed := Sub now (since info) in
   let message := "export job " ++! quote jobName ++! " " ++! stuckMessage info in
   if hard info && (elapsed >=? exportStuckGracePeriod) then
     let! b := fail b (stuckReason info) message in Ret (b, emptyResult)
   else if hard info then
     let! b := reportStuck b (stuckReason info) message in Ret (b, mkResult exportPollInterval)
   else if elapsed >=? exportStuckGracePeriod then
     let! b := fail b reasonPodStartTimeout message in Ret (b, emptyResult)
   else
     Ret (setInProgress BackupPhasePending reasonPending
            ("export job " ++! quote jobName ++! " pod is starting") b,
          mkResult exportPollInterval))%prog.

Definition stampStart (b : Backup) : prog ans Backup :=
  match bsStartTime (bStatus b) with
  | Some _ => Ret b
  | None =>
      (let! now := perform ans Now in
       Ret (withStatus (λ s, mkBackupStatus (bsPhase s) (Some now) (bsCompletionTime s)
         (bsArtifactURI s) (bsOxiaKeysCaptured s) (bsSizeBytes s) (bsCapturedInstanceID s)
         (bsObservedGeneration s) (bsConditions s)) b))%prog
  end.

Definition setArtifactURI (uri : string) (b : Backup) : Backup :=
  withStatus (λ s, mkBackupStatus (bsPhase s) (bsStartTime s) (bsCompletionTime s) uri
    (bsOxiaKeysCaptured s) (bsSizeBytes s) (bsCapturedInstanceID s) (bsObservedGeneration s)
    (bsConditions s)) b.

Definition createExportJob (b : Backup) (clusterName : string) : M :=
  let job := buildExportJob b clusterName operatorImage in
  (let! own := perform ans (SetOwner (bUID b)) in
   match own with
   | Err e => Ret (b, Err (Errorf "setting owner reference on export job" e))
   | Ok _ =>
       let! created := perform ans (CreateJob job) in
       match created with
       | Err e => Ret (b, Err (Errorf "creating export job" e))
       | Ok _ =>
           let! b := stampStart b in
           let b := setArtifactURI (URI (destConfig (Destination (bSpec b))) (manifestObjectKey b)) b in
           Ret (setInProgress BackupPhasePending reasonPending
                  ("export job " ++! quote (joName job) ++! " created") b,
                Ok (mkResult exportPollInterval))
       end
   end)%prog.

Definition recordResult (r : ExportResult) (b : Backup) : Backup :=
  let b := if String.eqb (erArtifactURI r) "" then b else setArtifactURI (erArtifactURI r) b in
  withStatus (λ s, mkBackupStatus BackupPhaseCompleted (bsStartTime s) (bsCompletionTime s)
    (bsArtifactURI s) (erOxiaKeysCaptured r) (erSizeBytes r) (erCapturedInstanceID r)
    (bsObservedGeneration s) (bsConditions s)) b.

Definition completeFromJob (b : Backup) (job : Job) : M :=
  (let! read := readExportResult b job in
   match read with
   | Err e => Ret (b, Err e)
   | Ok None =>
       let! b := fail b reasonExportResultUnreadable
         ("export job " ++! quote (jobName job) ++! " reported success but no readable result was found in its pod termination message; the backup's contents cannot be verified") in
       Ret (b, Ok emptyResult)
   | Ok (Some r) =>
       let! b := stampCompletion (recordResult r b) in
       let message := "captured " ++! %d (bsOxiaKeysCaptured (bStatus b)) ++! " Oxia key(s) to " ++!
                      bsArtifactURI (bStatus b) in
       let b := setExportCondition ConditionTrue reasonCompleted message b in
       let! _ := perform ans (Eventf b EventTypeNormal reasonCompleted message) in
       Ret (b, Ok emptyResult)
   end)%prog.

Definition reconcileExportJob (b : Backup) (clusterName : string) : M :=
  let name := backupJobName (bName b) in
  (let! got := perform ans (GetJob (mkNN (bNamespace b) name)) in
   match got with
   | Err e =>
       if IsNotFound e then createExportJob b clusterName
       else Ret (b, Err (Errorf ("getting export job " ++! quote name) e))
   | Ok job =>
       if jobSucceeded job then completeFromJob b job
       else if jobFailedPermanently job then
         let! b := fail b reasonExportJobFailed ("export job " ++! quote name ++! " failed") in
         Ret (b, Ok emptyResult)
       else
         let! info := podStuck b job in
         match info with
         | Err e => Ret (b, Err e)
         | Ok info =>
             if stuck info then
               let! r := handleStuck b name info in Ret (r.1, Ok r.2)
             else if jobActive job >? 0 then
               Ret (setInProgress BackupPhaseRunning reasonRunning
                      ("export job " ++! quote name ++! " is running") b,
                    Ok (mkResult exportPollInterval))
             else
               Ret (setInProgress BackupPhasePending reasonPending
                      ("export job " ++! quote name ++! " is starting") b,
                    Ok (mkResult exportPollInterval))
         end
   end)%prog.

Definition advance (b : Backup) : M :=
  if String.eqb (backupConsistency (bSpec b)) BackupConsistencyApplication then
    (let! b := fail b reasonConsistencyUnsup
       "application-consistent backups are not yet implemented; set spec.consistency: crash" in
     Ret (b, Ok emptyResult))%prog
  else if String.eqb operatorImage "" then
    (let! b := fail b reasonOperatorImage
       "operator image is not configured; set the OPERATOR_IMAGE env on the controller-manager" in
     Ret (b, Ok emptyResult))%prog
  else
    let clusterKey := mkNN (bNamespace b) (ClusterRef (bSpec b)) in
    (let! cluster := perform ans (GetCluster clusterKey) in
     match cluster with
     | Err e =>
         if IsNotFound e then
           let! b := fail b reasonClusterNotFound
             ("PulsarCluster " ++! quote (nnName clusterKey) ++! " not found in namespace " ++!
              quote (nnNamespace clusterKey)) in
           Ret (b, Ok emptyResult)
         else Ret (b, Err (Errorf ("getting PulsarCluster " ++! quote (nnName clusterKey)) e))
     | Ok clusterName => reconcileExportJob b clusterName
     end)%prog.

Definition statusEqual (a b : BackupStatus) : bool := bool_decide (a = b).

Definition patchStatus (base updated : Backup) : prog ans (res unit) :=
  if statusEqual (bStatus base) (bStatus updated) then Ret (Ok tt)
  else perform ans (StatusPatch base updated).

Definition terminalPhase (phase : string) : bool :=
  String.eqb phase BackupPhaseCompleted || String.eqb phase BackupPhaseFailed.

Definition observeGeneration (b : Backup) : Backup :=
  withStatus (λ s, mkBackupStatus (bsPhase s) (bsStartTime s) (bsCompletionTime s)
    (bsArtifactURI s) (bsOxiaKeysCaptured s) (bsSizeBytes s) (bsCapturedInstanceID s)
    (bGeneration b) (bsConditions s)) b.

(** The result returned beside the handler's own error, or the patch error. *)
Definition Reconcile (req : NamespacedName) : prog ans (res Result) :=
  (let! got := perform ans (GetBackup req) in
   match got with
   | Err e => Ret (ignore_not_found e)
   | Ok base =>
       if terminalPhase (bsPhase (bStatus base)) then Ret (Ok emptyResult)
       else
         let! out := advance (observeGeneration base) in
         let! patched := patchStatus base out.1 in
         Ret (match out.2, patched with
              | Err e, _ => Err e
              | Ok r, Ok _ => Ok r
              | Ok _, Err e => Err e
              end)
   end)%prog.

(** * What a verdict rests on *)

(** The Backup's own export Job, and its pods, as they were read. *)
Definition observedJob (h : list (event ans)) (b : Backup) (job : Job) : Prop :=
  Ev (GetJob (mkNN (bNamespace b) (backupJobName (bName b)))) (Ok job) ∈ h.
Definition observedPods (h : list (event ans)) (b : Backup) (pods : list Pod) : Prop :=
  Ev (ListPods (bNamespace b) (SelectorLabels (bName b) backupComponentName)) (Ok pods) ∈ h.

(** The evidence in a trace for the phase a status write claims: the Job
    succeeded and its pod reported what the status [st] records. *)
Definition captured (h : list (event ans)) (b : Backup) (st : BackupStatus) : Prop :=
  ∃ job pods msg r,
    observedJob h b job ∧ jobSucceeded job = true ∧ observedPods h b pods ∧
    terminationMessage exportContainerName (jobUID job) pods = Some msg ∧
    parseExportResult msg = Ok r ∧
    bsOxiaKeysCaptured st = erOxiaKeysCaptured r ∧
    bsCapturedInstanceID st = erCapturedInstanceID r ∧
    bsSizeBytes st = erSizeBytes r ∧
    bsArtifactURI st =
      if String.eqb (erArtifactURI r) "" then bsArtifactURI (bStatus b) else erArtifactURI r.

Definition unreadable (h : list (event ans)) (b : Backup) : Prop :=
  ∃ job pods,
    observedJob h b job ∧ jobSucceeded job = true ∧ observedPods h b pods ∧
    ∀ msg r, terminationMessage exportContainerName (jobUID job) pods = Some msg →
      parseExportResult msg ≠ Ok r.

(** The Job is neither finished nor failed, and this is what its pods say. *)
Definition unfinished (h : list (event ans)) (b : Backup) (job : Job) (info : podStuckInfo) : Prop :=
  ∃ pods,
    observedJob h b job ∧ jobSucceeded job = false ∧ jobFailedPermanently job = false ∧
    observedPods h b pods ∧ info = firstHard exportPodWedge (jobUID job) notStuck pods.

Definition wedged (h : list (event ans)) (b : Backup) (reason : string) : Prop :=
  ∃ job info now,
    unfinished h b job info ∧ Ev Now now ∈ h ∧ stuck info = true ∧
    reason = (if hard info then stuckReason info else reasonPodStartTimeout) ∧
    exportStuckGracePeriod <= Sub now (since info).

(** Why a Backup is still in progress: its Job was missing and has just been
    created; or the Job runs, or starts; or its pod is stuck, for less than the
    grace period so far. *)
Inductive underway (h : list (event ans)) (b : Backup) (st : BackupStatus) : string → string → Prop :=
| just_created cl e :
    (Ev (GetCluster (mkNN (bNamespace b) (ClusterRef (bSpec b)))) (Ok cl) : event ans) ∈ h →
    (Ev (GetJob (mkNN (bNamespace b) (backupJobName (bName b)))) (Err e) : event ans) ∈ h → IsNotFound e = true →
    (Ev (CreateJob (buildExportJob b cl operatorImage)) (Ok tt) : event ans) ∈ h → is_Some (bsStartTime st) →
    bsArtifactURI st = URI (destConfig (Destination (bSpec b))) (manifestObjectKey b) →
    underway h b st BackupPhasePending reasonPending
| healthy job info :
    unfinished h b job info → stuck info = false →
    underway h b st (if jobActive job >? 0 then BackupPhaseRunning else BackupPhasePending)
      (if jobActive job >? 0 then reasonRunning else reasonPending)
| in_grace job info now :
    unfinished h b job info → stuck info = true → (Ev Now now : event ans) ∈ h →
    Sub now (since info) < exportStuckGracePeriod →
    underway h b st BackupPhasePending (if hard info then stuckReason info else reasonPending).

Inductive refused (h : list (event ans)) (b : Backup) : string → Prop :=
| unsupported :
    backupConsistency (bSpec b) = BackupConsistencyApplication → refused h b reasonConsistencyUnsup
| no_image : operatorImage = "" → refused h b reasonOperatorImage
| no_cluster e :
    (Ev (GetCluster (mkNN (bNamespace b) (ClusterRef (bSpec b)))) (Err e) : event ans) ∈ h → IsNotFound e = true →
    refused h b reasonClusterNotFound
| job_failed job :
    observedJob h b job → jobSucceeded job = false → jobFailedPermanently job = true →
    refused h b reasonExportJobFailed
| no_result : unreadable h b → refused h b reasonExportResultUnreadable
| pod_wedged reason : wedged h b reason → refused h b reason.

(** The phase written for the Backup [b], its condition, and why. *)
Inductive verdict (h : list (event ans)) (b b' : Backup) : Prop :=
| in_progress reason :
    underway h b (bStatus b') (bsPhase (bStatus b')) reason →
    condStatus (bsConditions (bStatus b')) conditionTypeExportSucceeded = Some ConditionFalse →
    condReason (bsConditions (bStatus b')) conditionTypeExportSucceeded = Some reason →
    verdict h b b'
| completed :
    bsPhase (bStatus b') = BackupPhaseCompleted →
    condStatus (bsConditions (bStatus b')) conditionTypeExportSucceeded = Some ConditionTrue →
    condReason (bsConditions (bStatus b')) conditionTypeExportSucceeded = Some reasonCompleted →
    is_Some (bsCompletionTime (bStatus b')) → captured h b (bStatus b') → verdict h b b'
| failed reason :
    bsPhase (bStatus b') = BackupPhaseFailed →
    condStatus (bsConditions (bStatus b')) conditionTypeExportSucceeded = Some ConditionFalse →
    condReason (bsConditions (bStatus b')) conditionTypeExportSucceeded = Some reason →
    is_Some (bsCompletionTime (bStatus b')) → refused h b reason → verdict h b b'.

(** Only the status differs. *)
Definition same (b b' : Backup) : Prop := b' = set_backupStatus (bStatus b') b.

(** No assumption on the answers and no restriction on the calls. *)
Abbreviation wpT p Q h := (wp (λ _ _, True) (λ _ _, True) p Q h).

(** A handler either fails and leaves the object as it was, or reaches a
    verdict. *)
Definition decided (b : Backup) (out : Backup * res Result) (h : list (event ans)) : Prop :=
  match out.2 with
  | Err _ => out.1 = b
  | Ok _ => same b out.1 ∧ verdict h b out.1
  end.

Lemma condStatus_setExport st reason msg b :
  condStatus (bsConditions (bStatus (setExportCondition st reason msg b)))
    conditionTypeExportSucceeded = Some st.
Proof. apply (condStatus_set _ (newCondition conditionTypeExportSucceeded st _ reason msg)). Qed.

Lemma condReason_setExport st reason msg b :
  condReason (bsConditions (bStatus (setExportCondition st reason msg b)))
    conditionTypeExportSucceeded = Some reason.
Proof. apply (condReason_set _ (newCondition conditionTypeExportSucceeded st _ reason msg)). Qed.

Lemma same_refl b : same b b.
Proof. by destruct b. Qed.

Lemma same_setInProgress b0 phase reason msg b :
  same b0 b → same b0 (setInProgress phase reason msg b).
Proof. unfold same. by intros ->. Qed.

Lemma verdict_in_progress h b0 phase reason msg b :
  same b0 b → underway h b0 (bStatus (setInProgress phase reason msg b)) phase reason →
  decided b0 (setInProgress phase reason msg b, Ok (mkResult exportPollInterval)) h.
Proof.
  intros Hs Hu. split; [by apply same_setInProgress|].
  apply in_progress with reason; [done|apply condStatus_setExport|apply condReason_setExport].
Qed.

Lemma wp_fail b reason msg (Q : Backup → list (event ans) → Prop) h :
  (∀ b' es, same b b' → (refused (h ++ es) b reason → verdict (h ++ es) b b') → Q b' (h ++ es)) →
  wpT (fail b reason msg) Q h.
Proof.
  intros HQ. unfold fail, stampCompletion. simpl.
  destruct (bsCompletionTime (bStatus b)) eqn:Ec; simpl.
  - split; [done|]. intros [] _. apply HQ; [done|]. intros Hr. apply failed with reason; try done.
    + apply condStatus_setExport.
    + apply condReason_setExport.
  - split; [done|]. intros now _. split; [done|]. intros [] _. rewrite <- (assoc_L (++)).
    apply HQ; [done|]. intros Hr.
    apply failed with reason; try done; [apply condStatus_setExport|apply condReason_setExport].
Qed.

(** A handler that ends by failing the Backup for a reason in evidence. *)
Lemma wp_fail_then b reason msg res0 h :
  (∀ es, refused (h ++ es) b reason) →
  wpT (bind (fail b reason msg) (λ b', Ret (b', Ok res0))) (decided b) h.
Proof.
  intros Hr. apply wp_bind, wp_fail. intros b' es Hb Hv. unfold decided. cbn [wp fst snd].
  split; [done|]. by apply Hv, Hr.
Qed.

Lemma wp_reportStuck b reason msg (Q : Backup → list (event ans) → Prop) h :
  (∀ es, Q (setInProgress BackupPhasePending reason msg b) (h ++ es)) →
  wpT (reportStuck b reason msg) Q h.
Proof.
  intros HQ. pose proof (HQ []) as HQ0. rewrite app_nil_r in HQ0. unfold reportStuck.
  destruct (FindStatusCondition _ _) as [prior|]; [destruct (negb _)|]; simpl; try done;
    (split; [done|]); intros [] _; apply HQ.
Qed.

Lemma unfinished_mono h h' b job info : h ⊆ h' → unfinished h b job info → unfinished h' b job info.
Proof. intros Hs (pods & H1 & H2 & H3 & H4 & H5). exists pods. split_and!; try done; by apply Hs. Qed.

Lemma decided_handleStuck b name job info h :
  unfinished h b job info → stuck info = true →
  wpT (bind (handleStuck b name info) (λ r, Ret (r.1, Ok r.2))) (decided b) h.
Proof.
  intros Hu Hst. apply wp_bind. unfold handleStuck. simpl. split; [done|]. intros now _.
  assert (∀ es, unfinished ((h ++ [Ev Now now]) ++ es) b job info ∧ Ev Now now ∈ (h ++ [Ev Now now]) ++ es)
    as Hev.
  { intros es. split; [eapply unfinished_mono, Hu; set_solver|set_solver]. }
  assert (∀ es reason, exportStuckGracePeriod <= Sub now (since info) →
    reason = (if hard info then stuckReason info else reasonPodStartTimeout) →
    refused ((h ++ [Ev Now now]) ++ es) b reason) as Hw.
  { intros es reason Hg Hr. apply pod_wedged. exists job, info, now. by destruct (Hev es). }
  assert (∀ es st, Sub now (since info) < exportStuckGracePeriod →
    underway ((h ++ [Ev Now now]) ++ es) b st BackupPhasePending
      (if hard info then stuckReason info else reasonPending)) as Hg.
  { intros es st Hlt. destruct (Hev es). by apply in_grace with job now. }
  destruct (hard info) eqn:Eh; simpl; destruct (_ >=? _) eqn:Eg; zbool.
  - apply wp_bind, wp_fail. intros b' es Hb Hv. split; [done|]. by apply Hv, Hw.
  - apply wp_bind, wp_reportStuck. intros es. apply verdict_in_progress; [apply same_refl|]. by apply Hg.
  - apply wp_bind, wp_fail. intros b' es Hb Hv. split; [done|]. by apply Hv, Hw.
  - apply verdict_in_progress; [apply same_refl|]. specialize (Hg []). rewrite app_nil_r in Hg. by apply Hg.
Qed.

Lemma decided_completeFromJob b job h :
  observedJob h b job → jobSucceeded job = true → wpT (completeFromJob b job) (decided b) h.
Proof.
  intros Hj Hs. unfold completeFromJob, readExportResult, listJobPods. simpl. split; [done|].
  intros [pods|e] _; [|done].
  set (q := Ev (ListPods (bNamespace b) (SelectorLabels (bName b) backupComponentName)) (Ok pods)) in *.
  assert (∀ es, observedPods ((h ++ [q]) ++ es) b pods) as Hp by (intros es; unfold observedPods; set_solver).
  assert (∀ es, observedJob ((h ++ [q]) ++ es) b job) as Hj' by (intros es; unfold observedJob in *; set_solver).
  clearbody q. destruct (match terminationMessage exportContainerName (jobUID job) pods with
    | None => None | Some m => match parseExportResult m with Err _ => None | Ok r => Some r end end)
    as [r|] eqn:Er.
  - destruct (terminationMessage _ _ _) as [msg|] eqn:Em; [|done].
    destruct (parseExportResult msg) as [r'|] eqn:Epm; simplify_eq.
    assert (∀ es st, bsOxiaKeysCaptured st = erOxiaKeysCaptured r → bsSizeBytes st = erSizeBytes r →
      bsCapturedInstanceID st = erCapturedInstanceID r →
      bsArtifactURI st = bsArtifactURI (bStatus (recordResult r b)) →
      captured ((h ++ [q]) ++ es) b st) as Hcap.
    { intros es st H1 H2 H3 H4. exists job, pods, msg, r. split_and!; try done. rewrite H4.
      unfold recordResult. by destruct (String.eqb _ _). }
    assert (same b (recordResult r b)) as Hspec
      by (unfold same, recordResult; destruct (String.eqb _ _); by destruct b).
    apply wp_bind. cbn [wp]. apply wp_bind. unfold stampCompletion.
    destruct (bsCompletionTime (bStatus (recordResult r b))) eqn:Ec; simpl;
      [|split; [done|]; intros now _; simpl];
      (split; [done|]); intros [] _; (split; [unfold same in *; by rewrite Hspec|]);
      (apply completed; [done|apply condStatus_setExport|apply condReason_setExport|simpl; by rewrite ?Ec|]);
      rewrite <- ?(assoc_L (++)) with (x := h ++ [q]); by apply Hcap.
  - apply wp_bind. cbn [wp]. apply wp_fail_then. intros es. apply no_result.
    exists job, pods. split_and!; [apply Hj'|done|apply Hp|].
    intros msg r E. rewrite E in Er. by destruct (parseExportResult msg).
Qed.

Lemma decided_createExportJob b cl e h :
  Ev (GetCluster (mkNN (bNamespace b) (ClusterRef (bSpec b)))) (Ok cl) ∈ h →
  Ev (GetJob (mkNN (bNamespace b) (backupJobName (bName b)))) (Err e) ∈ h → IsNotFound e = true →
  wpT (createExportJob b cl) (decided b) h.
Proof.
  intros Hc Hj He. unfold createExportJob. simpl. split; [done|]. intros [[]|e1] _; [|done].
  simpl. split; [done|]. intros [[]|e2] _; [|done]. apply wp_bind. unfold stampStart.
  destruct (bsStartTime (bStatus b)) eqn:Es; simpl; [|split; [done|]; intros now _];
    (apply verdict_in_progress; [by destruct b|]);
    (apply just_created with cl e; [set_solver|set_solver|done|set_solver| |done]; simpl; by rewrite ?Es).
Qed.

Lemma decided_reconcileExportJob b cl h :
  Ev (GetCluster (mkNN (bNamespace b) (ClusterRef (bSpec b)))) (Ok cl) ∈ h →
  wpT (reconcileExportJob b cl) (decided b) h.
Proof.
  intros Hc. unfold reconcileExportJob. split; [done|]. intros [job|e] _; cbn -[completeFromJob createExportJob].
  2:{ destruct (IsNotFound e) eqn:He; [|done].
      eapply decided_createExportJob, He; [by apply elem_of_app; left|apply elem_of_app; right; by left]. }
  set (q := Ev (GetJob (mkNN (bNamespace b) (backupJobName (bName b)))) (Ok job)).
  assert (∀ es, observedJob ((h ++ [q]) ++ es) b job) as Hj by (intros es; unfold observedJob; set_solver).
  pose proof (Hj []) as Hj0. rewrite app_nil_r in Hj0. clearbody q.
  destruct (jobSucceeded job) eqn:Es; [by apply decided_completeFromJob|].
  destruct (jobFailedPermanently job) eqn:Ef.
  { apply wp_fail_then. intros es. by apply job_failed with job. }
  unfold podStuck, listJobPods. cbn -[handleStuck]. split; [done|].
  intros [pods|e] _; cbn -[handleStuck]; [|done].
  lazymatch goal with |- wp _ _ _ _ ?h' =>
    assert (unfinished h' b job (firstHard exportPodWedge (jobUID job) notStuck pods)) as Hu end.
  { exists pods. split_and!; try done. apply elem_of_app; right; by left. }
  destruct (stuck _) eqn:Est; [by eapply decided_handleStuck|].
  pose proof (healthy _ b (bStatus b) _ _ Hu Est) as Hh.
  destruct (_ >? _) eqn:Ea; (apply verdict_in_progress; [apply same_refl|]);
    pose proof (λ st, healthy _ b st _ _ Hu Est) as Hh'; rewrite Ea in Hh'; apply Hh'.
Qed.

Lemma decided_advance b : wpT (advance b) (decided b) [].
Proof.
  unfold advance. destruct (String.eqb_spec (backupConsistency (bSpec b)) BackupConsistencyApplication)
    as [Ec|_].
  { apply wp_fail_then. intros es. by apply unsupported. }
  destruct (String.eqb_spec operatorImage "") as [Ei|_].
  { apply wp_fail_then. intros es. by apply no_image. }
  split; [done|]. intros [cl|e] _; cbn -[reconcileExportJob].
  { apply decided_reconcileExportJob. by left. }
  destruct (IsNotFound e) eqn:En; [|done].
  apply wp_fail_then. intros es. apply no_cluster with e; [by left|done].
Qed.

(** The status writes of a run. *)
Definition statusPatches (t : list (event ans)) : list (Backup * Backup) :=
  omap (λ e, match ev_call e with StatusPatch b u => Some (b, u) | _ => None end) t.

Definition createdJobs (t : list (event ans)) : list JobObject :=
  omap (λ e, match ev_call e with CreateJob j => Some j | _ => None end) t.

Definition noPatch (c : call) : Prop := match c with StatusPatch _ _ => False | _ => True end.

(** The evidence of the handlers, run on the Backup with its generation noted,
    is evidence about the Backup read. *)
Lemma verdict_mono h h' b b' : h ⊆ h' → verdict h (observeGeneration b) b' → verdict h' b b'.
Proof.
  intros Hs [reason Hu ? ?|? ? ? ? Hcap|reason ? ? ? ? Hr].
  - apply in_progress with reason; try done. destruct Hu as [cl e|job info Hu|job info now Hu ? ?].
    + apply just_created with cl e; auto.
    + apply healthy with info; [by eapply unfinished_mono|done].
    + apply in_grace with job now; [by eapply unfinished_mono|done|auto|done].
  - apply completed; try done. destruct Hcap as (job & pods & msg & r & ? & ? & ? & Hc).
    exists job, pods, msg, r. split_and!; try apply Hs; tauto.
  - apply failed with reason; try done. destruct Hr as [?|?|e|job|Hn|reason Hw].
    + by apply unsupported.
    + by apply no_image.
    + apply no_cluster with e; auto.
    + apply job_failed with job; [by apply Hs|done|done].
    + apply no_result. destruct Hn as (job & pods & ? & ? & ? & Hm). exists job, pods.
      split_and!; try apply Hs; done.
    + apply pod_wedged. destruct Hw as (job & info & now & ? & ? & Hm). exists job, info, now.
      split; [by eapply unfinished_mono|]. split; [by apply Hs|done].
Qed.

Lemma noPatch_fail b reason msg : only noPatch (fail b reason msg).
Proof.
  unfold fail, stampCompletion. destruct (bsCompletionTime _); simpl; by repeat split.
Qed.

Lemma noPatch_advance b : only noPatch (advance b).
Proof.
  assert (∀ (X : Backup) r m (k : Backup → prog ans (Backup * res Result)),
    (∀ b', only noPatch (k b')) → only noPatch (bind (fail X r m) k)) as Hf.
  { intros. apply only_bind; [apply noPatch_fail|done]. }
  unfold advance. destruct (String.eqb _ _); [by apply Hf|]. destruct (String.eqb _ _); [by apply Hf|].
  split; [done|]. intros [cl|e]; cbn -[fail reconcileExportJob];
    [|by destruct (IsNotFound e); [apply Hf|]].
  unfold reconcileExportJob. split; [done|]. intros [job|e]; cbn -[fail completeFromJob podStuck handleStuck].
  2:{ destruct (IsNotFound e); [|done]. split; [done|]. intros [[]|e']; [|done]. split; [done|].
      intros [[]|e']; [|done]. apply only_bind; [|done]. unfold stampStart. by destruct (bsStartTime _). }
  destruct (jobSucceeded job).
  { unfold completeFromJob. apply only_bind.
    - split; [done|]. by intros [].
    - intros [[r|]|e']; [|by apply Hf|done]. apply only_bind; [|done].
      unfold stampCompletion. by destruct (bsCompletionTime _). }
  destruct (jobFailedPermanently job); [by apply Hf|]. split; [done|]. intros [pods|e']; [|done].
  cbn -[handleStuck]. destruct (stuck _); [|by destruct (_ >? _)].
  apply only_bind; [|done]. split; [done|]. intros now. cbn -[fail reportStuck].
  assert (∀ (X : Backup) r m (k : Backup → prog ans (Backup * Result)),
    (∀ b', only noPatch (k b')) → only noPatch (bind (fail X r m) k)) as Hf'.
  { intros. apply only_bind; [apply noPatch_fail|done]. }
  destruct (hard _ && _); [by apply Hf'|]. destruct (hard _).
  - apply only_bind; [|done]. unfold reportStuck.
    destruct (FindStatusCondition _ _); [destruct (negb _)|]; by repeat split.
  - destruct (_ >=? _); [by apply Hf'|done].
Qed.

(** C34: A Backup's verdict always rests on what was observed of it.  A
    reconcile that reads the Backup, and finds it neither Completed nor Failed,
    ends with a status that is written once, if it differs from the one read,
    and of which nothing but the status differs.  Either a call failed, and the
    reconcile returns the error and only notes the generation; or the phase and
    the condition's reason are backed by the answers about this Backup's own
    cluster, Job and pods:
    - Completed only with a succeeded Job whose pod reported a readable result,
      recorded as reported;
    - Failed only with the evidence for its reason: an unsupported consistency,
      no operator image, a cluster that does not exist, a Job failed for good,
      a success without a readable result, or a pod stuck for the grace period;
    - Running exactly when the Job, neither succeeded nor failed for good, has
      an active pod and none is stuck; Pending when it has no active pod, when
      its pod has been stuck for less than the grace period, or when the Job
      was missing and has just been created.
    A reconcile of a Backup that is gone, unreadable, Completed or Failed
    writes nothing. *)
Theorem Backup_verdict_justified req t r :
  runs (Reconcile req) t r →
  (statusPatches t = [] ∧
   ((∃ e, Ev (GetBackup req) (Err e) ∈ t) ∨
    ∃ base, Ev (GetBackup req) (Ok base) ∈ t ∧ terminalPhase (bsPhase (bStatus base)) = true)) ∨
  ∃ base upd, Ev (GetBackup req) (Ok base) ∈ t ∧ terminalPhase (bsPhase (bStatus base)) = false ∧
    statusPatches t = (if statusEqual (bStatus base) (bStatus upd) then [] else [(base, upd)]) ∧
    (upd = observeGeneration base ∧ (∃ e, r = Err e) ∨ same base upd ∧ verdict t base upd).
Proof.
  intros H. run_step H. destruct x as [base|e]; [|run_step H; left; split; [done|]; left; exists e; by left].
  destruct (terminalPhase _) eqn:Et.
  { run_step H. left. split; [done|]. right. exists base. split; [by left|done]. }
  apply runs_bind in H as (t1 & t2 & out & -> & Ha & H).
  pose proof (wp_top_runs _ _ _ _ (decided_advance (observeGeneration base)) Ha) as Hd.
  assert (statusPatches t1 = []) as Hn.
  { pose proof (only_runs _ _ _ _ (noPatch_advance _) Ha) as Hf. clear -Hf.
    induction Hf as [|[[] x] t' He _ IH]; simpl in *; done. }
  right. exists base, out.1. split; [by left|]. split; [done|].
  change (Ev (GetBackup req) (Ok base) :: t1 ++ t2) with ([Ev (GetBackup req) (Ok base)] ++ t1 ++ t2).
  assert (statusPatches t2 = (if statusEqual (bStatus base) (bStatus out.1) then [] else [(base, out.1)]) ∧
    ∀ e, out.2 = Err e → r = Err e) as [Hp He].
  { unfold patchStatus in H. destruct (statusEqual _ _); [|run_step H]; run_step H;
      (split; [done|]); by intros e ->. }
  split; [unfold statusPatches in *; by rewrite !omap_app, Hn, Hp|].
  unfold decided in Hd. destruct (out.2) as [res0|e]; [right|left].
  - destruct Hd as [Hs Hv]. split; [exact Hs|]. eapply (verdict_mono t1), Hv. set_solver.
  - split; [done|]. exists e. by apply He.
Qed.

End Reconciler.
End BackupCtl.

(** * A concrete backup *)

Module BackupDemo.
Import BackupCtl.

Definition demoBackup : Backup :=
  mkBackup "b1" "ns" "uid-b1" None 0 1 ∅ ∅
    (mkBackupSpec "pulsar" (mkComponents None None None)
      (mkDestination DriverAWSS3 "backups" "us-east-1" "" "prod" (Some "creds")) "" None)
    (mkBackupStatus BackupPhaseRunning (Some 0) None "s3://backups/prod/b1.manifest" 0 0 "" 1 []).

Definition demoJob : Job :=
  mkJob "b1-export" "uid-job" [mkJobCondition JobComplete ConditionTrue] 0 1.

Definition demoPod : Pod :=
  mkPod "b1-export-x" "ns" 0 (Some "uid-job") "node" "10.0.0.1" []
    [mkContainerStatus exportContainerName "operator:1" None (Some "result")] [].

Definition demoParse (msg : string) : res ExportResult :=
  if String.eqb msg "result" then Ok (mkExportResult "" 42 "id-1" 1000)
  else Err (ErrPlain "unparsable").

Definition serve (c : call) (s : unit) : ans c * unit :=
  (match c return ans c with
   | GetBackup _ => Ok demoBackup
   | GetCluster _ => Ok "pulsar"
   | GetJob _ => Ok demoJob
   | SetOwner _ => Ok tt
   | CreateJob _ => Ok tt
   | ListPods _ _ => Ok [demoPod]
   | StatusPatch _ _ => Ok tt
   | Now => 60 * Second
   | Eventf _ _ _ _ => tt
   end, s).

Definition demoTrace : list (event ans) :=
  (exec serve (@Reconcile refApiMeta "operator:1" demoParse (mkNN "ns" "b1")) tt).2.

Definition demoUpdated : Backup := default demoBackup (snd <$> head (statusPatches demoTrace)).

Lemma Backup_verdict_justified_witness :
  bsPhase (bStatus demoUpdated) = BackupPhaseCompleted ∧
  statusPatches demoTrace = [(demoBackup, demoUpdated)] ∧
  (statusPatches demoTrace = [] ∨
   ∃ base upd, statusPatches demoTrace = (if statusEqual (bStatus base) (bStatus upd) then [] else [(base, upd)]) ∧
     terminalPhase (bsPhase (bStatus base)) = false).
Proof.
  split; [by vm_compute|]. split; [by vm_compute|].
  destruct (@Backup_verdict_justified refApiMeta "operator:1" demoParse (mkNN "ns" "b1") demoTrace _
    (exec_runs serve _ tt)) as [[H _]|(base & upd & _ & H2 & H1 & _)]; [by left|right].
  by exists base, upd.
Defined.

End BackupDemo.
