(* ===== verification/Utf8.v ===== *)
(** Strings as [encoding/json] carries them: Go strings are bytes, and a byte
    that is not part of a well-formed UTF-8 sequence is written, and read, as
    U+FFFD (unicode/utf8, encoding/json). *)

From S2P Require Import Prelude.
Open Scope go_scope.

Module Utf8.

Definition code (c : ascii) : nat := nat_of_ascii c.
Definition between (lo hi : nat) (c : ascii) : bool := ((lo <=? code c) && (code c <=? hi))%nat.
Definition cont : ascii → bool := between 128 191.

(** The well-formed sequences of two, three and four bytes, as
    [utf8.DecodeRuneInString] accepts them. *)
Definition two (a b : ascii) : bool := between 194 223 a && cont b.
Definition three (a b c : ascii) : bool :=
  ((code a =? 224)%nat && between 160 191 b ||
   (between 225 236 a || between 238 239 a) && cont b ||
   (code a =? 237)%nat && between 128 159 b) && cont c.
Definition four (a b c d : ascii) : bool :=
  ((code a =? 240)%nat && between 144 191 b ||
   between 241 243 a && cont b ||
   (code a =? 244)%nat && between 128 143 b) && cont c && cont d.

(** [utf8.ValidString]. *)
Fixpoint validUTF8 (s : string) : bool :=
  match s with
  | "" => true
  | String a s1 =>
      if (code a <? 128)%nat then validUTF8 s1
      else match s1 with
      | "" => false
      | String b s2 =>
          if two a b then validUTF8 s2
          else match s2 with
          | "" => false
          | String c s3 =>
              if three a b c then validUTF8 s3
              else match s3 with
              | "" => false
              | String d s4 => if four a b c d then validUTF8 s4 else false
              end
          end
      end
  end.

(** U+FFFD. *)
Definition replacement : string := String "239" (String "191" (String "189" "")).

(** A string after it was written and read back. *)
Fixpoint toValid (s : string) : string :=
  match s with
  | "" => ""
  | String a s1 =>
      if (code a <? 128)%nat then String a (toValid s1)
      else
        let bad := replacement ++! toValid s1 in
        match s1 with
        | "" => bad
        | String b s2 =>
            if two a b then String a (String b (toValid s2))
            else match s2 with
            | "" => bad
            | String c s3 =>
                if three a b c then String a (String b (String c (toValid s3)))
                else match s3 with
                | "" => bad
                | String d s4 =>
                    if four a b c d then String a (String b (String c (String d (toValid s4))))
                    else bad
                end
            end
        end
  end.

(** * One character at a time *)

(** The first character of a string that begins with [a], and what follows. *)
Definition split (a : ascii) (s1 : string) : option (string * string) :=
  if (code a <? 128)%nat then Some (String a "", s1)
  else match s1 with
  | "" => None
  | String b s2 =>
      if two a b then Some (String a (String b ""), s2)
      else match s2 with
      | "" => None
      | String c s3 =>
          if three a b c then Some (String a (String b (String c "")), s3)
          else match s3 with
          | "" => None
          | String d s4 =>
              if four a b c d then Some (String a (String b (String c (String d ""))), s4) else None
          end
      end
  end.

Ltac by_sequence a s1 :=
  unfold split; destruct (code a <? 128)%nat eqn:?; [done|];
  destruct s1 as [|b s2]; [done|]; destruct (two a b) eqn:?; [done|];
  destruct s2 as [|c s3]; [done|]; destruct (three a b c) eqn:?; [done|];
  destruct s3 as [|d s4]; [done|]; by destruct (four a b c d).

Lemma validUTF8_cons a s1 :
  validUTF8 (String a s1) = match split a s1 with Some (_, rest) => validUTF8 rest | None => false end.
Proof. cbn [validUTF8]. by_sequence a s1. Qed.

Lemma toValid_cons a s1 :
  toValid (String a s1) =
    match split a s1 with Some (rune, rest) => rune ++! toValid rest | None => replacement ++! toValid s1 end.
Proof. cbn [toValid]. by_sequence a s1. Qed.

Lemma split_Some a s1 rune rest :
  split a s1 = Some (rune, rest) →
  String a s1 = rune ++! rest ∧
  ∀ t, match rune ++! t with "" => False | String a' t1 => split a' t1 = Some (rune, t) end.
Proof.
  unfold split. destruct (code a <? 128)%nat eqn:Ea.
  { intros [= <- <-]. split; [done|]. intros t. rewrite append_cons. by rewrite Ea. }
  destruct s1 as [|b s2]; [done|]. destruct (two a b) eqn:E2.
  { intros [= <- <-]. split; [done|]. intros t. rewrite !append_cons. by rewrite Ea, E2. }
  destruct s2 as [|c s3]; [done|]. destruct (three a b c) eqn:E3.
  { intros [= <- <-]. split; [done|]. intros t. rewrite !append_cons. by rewrite Ea, E2, E3. }
  destruct s3 as [|d s4]; [done|]. destruct (four a b c d) eqn:E4; [|done].
  intros [= <- <-]. split; [done|]. intros t. rewrite !append_cons. by rewrite Ea, E2, E3, E4.
Qed.

(** Induction over the characters and the bytes that belong to none. *)
Lemma utf8_ind (P : string → Prop) :
  P "" →
  (∀ a s1 rune rest, split a s1 = Some (rune, rest) → P rest → P (String a s1)) →
  (∀ a s1, split a s1 = None → P s1 → P (String a s1)) →
  ∀ s, P s.
Proof.
  intros H0 H1 H2 s. remember (String.length s) as n eqn:En. revert s En.
  induction (lt_wf n) as [n _ IH]; intros [|a s1] ->; [done|].
  destruct (split a s1) as [[rune rest]|] eqn:E.
  - apply (H1 _ _ _ _ E). apply (IH (String.length rest)); [|done].
    revert E. simpl. unfold split. repeat case_match; intros [= <- <-]; simpl; lia.
  - apply (H2 _ _ E), (IH (String.length s1)); [simpl; lia|done].
Qed.

Lemma toValid_valid s : validUTF8 (toValid s) = true.
Proof.
  induction s as [|a s1 rune rest E IH|a s1 E IH] using utf8_ind; [done|rewrite toValid_cons, E..].
  - apply split_Some in E as [_ E]. specialize (E (toValid rest)).
    destruct (rune ++! toValid rest) as [|a' t1]; [done|]. by rewrite validUTF8_cons, E.
  - exact IH.
Qed.

Lemma toValid_id s : validUTF8 s = true → toValid s = s.
Proof.
  induction s as [|a s1 rune rest E IH|a s1 E IH] using utf8_ind; [done|rewrite validUTF8_cons, toValid_cons, E..].
  - intros Hv. apply split_Some in E as [-> _]. by rewrite IH.
  - done.
Qed.

End Utf8.
