(* ===== verification/Manifest.v ===== *)
(** The Oxia export/import engine of internal/backup: manifest.go, export.go,
    import.go, bookkeeper.go and namespaces.go.

    A manifest is a stream of JSON values, one per line: the header, then the
    records.  It is modelled at the level of the values: the encoder appends a
    value to the stream, the decoder takes the next one, and anything that is
    not a JSON value of the expected kind is [LBad].  What is read is what was
    written but for strings that are not UTF-8, whose stray bytes come back as
    U+FFFD; byte slices travel in base64 and come back as they were.  The names
    of the header's and of the record's fields are disjoint, so each decodes
    from the other's line to the zero value.  The digest of the records (hex SHA-256 of their
    JSON encodings) is a parameter here; RecordCodec.v writes it out.  Namespaces are scanned and written through
    calls, as the OxiaClient interface has them. *)

From S2P Require Import Prelude Effects Kube ObjectStore Utf8.
Import Utf8(validUTF8, toValid, toValid_valid, toValid_id).
Open Scope Z_scope.
Open Scope go_scope.

(** * Records *)

Definition SchemaVersion : Z := 1.

Record RecordVersion := mkRecordVersion {
  rvVersionID : Z;
  rvCreatedTimestamp : Z;
  rvModifiedTimestamp : Z;
  rvModificationsCount : Z;
  rvEphemeral : bool;
  rvSessionID : Z;
  rvClientIdentity : string
}.

(** Values are Go byte slices, as strings of bytes. *)
Record ManifestRecord := mkManifestRecord {
  mrNamespace : string;
  mrKey : string;
  mrValue : string;
  mrVersion : RecordVersion
}.

Record ManifestHeader := mkManifestHeader {
  mhSchemaVersion : Z;
  mhOxiaServiceAddress : string;
  mhNamespaces : list string;
  mhCapturedInstanceID : string;
  mhCookieKeys : list string;
  mhRecordCount : Z;
  mhChecksum : string;
  mhCapturedAt : Z
}.

#[export] Instance RecordVersion_eq_dec : EqDecision RecordVersion.
Proof. solve_decision. Defined.
#[export] Instance ManifestRecord_eq_dec : EqDecision ManifestRecord.
Proof. solve_decision. Defined.
#[export] Instance ManifestHeader_eq_dec : EqDecision ManifestHeader.
Proof. solve_decision. Defined.

Definition zeroVersion : RecordVersion := mkRecordVersion 0 0 0 0 false 0 "".
Definition zeroRecord : ManifestRecord := mkManifestRecord "" "" "" zeroVersion.
Definition zeroHeader : ManifestHeader := mkManifestHeader 0 "" [] "" [] 0 "" zeroTime.

(** * The stream *)

Inductive line :=
| LHeader (h : ManifestHeader)
| LRecord (r : ManifestRecord)
| LBad (e : goerr).

#[export] Instance goerr_eq_dec : EqDecision goerr.
Proof. solve_decision. Defined.
#[export] Instance line_eq_dec : EqDecision line.
Proof. solve_decision. Defined.

(** A record and a header after they were written and read back.  The
    checksum is left alone: it is compared with hexadecimal digits, which no
    string with a stray byte equals, before or after. *)
Definition utf8Version (v : RecordVersion) : RecordVersion :=
  mkRecordVersion (rvVersionID v) (rvCreatedTimestamp v) (rvModifiedTimestamp v)
    (rvModificationsCount v) (rvEphemeral v) (rvSessionID v) (toValid (rvClientIdentity v)).
Definition utf8Record (r : ManifestRecord) : ManifestRecord :=
  mkManifestRecord (toValid (mrNamespace r)) (toValid (mrKey r)) (mrValue r) (utf8Version (mrVersion r)).
Definition utf8Header (h : ManifestHeader) : ManifestHeader :=
  mkManifestHeader (mhSchemaVersion h) (toValid (mhOxiaServiceAddress h)) (toValid <$> mhNamespaces h)
    (toValid (mhCapturedInstanceID h)) (toValid <$> mhCookieKeys h) (mhRecordCount h) (mhChecksum h)
    (mhCapturedAt h).

Definition decodeHeader (l : line) : res ManifestHeader :=
  match l with LHeader h => Ok (utf8Header h) | LRecord _ => Ok zeroHeader | LBad e => Err e end.

Definition decodeRecord (l : line) : res ManifestRecord :=
  match l with LRecord r => Ok (utf8Record r) | LHeader _ => Ok zeroRecord | LBad e => Err e end.

(** The strings of a record are UTF-8. *)
Definition validRecord (r : ManifestRecord) : bool :=
  validUTF8 (mrNamespace r) && validUTF8 (mrKey r) && validUTF8 (rvClientIdentity (mrVersion r)).

Lemma utf8Record_valid r : validRecord (utf8Record r) = true.
Proof. unfold validRecord. simpl. by rewrite !toValid_valid. Qed.

Lemma utf8Record_id r : validRecord r = true → utf8Record r = r.
Proof.
  unfold validRecord. intros Hv. zbool. destruct r as [ns key v []]. unfold utf8Record, utf8Version.
  simpl in *. by rewrite !toValid_id.
Qed.

Lemma utf8Records_id rs : forallb validRecord rs = true → utf8Record <$> rs = rs.
Proof.
  induction rs as [|r rs IH]; [done|]. rewrite fmap_cons. cbn [forallb]. intros Hv. zbool.
  by rewrite utf8Record_id, IH.
Qed.

(** [manifestReader.ReadHeader]: the header and the rest of the stream. *)
Definition ReadHeader (ls : list line) : res (ManifestHeader * list line) :=
  match ls with
  | [] => Err (ErrPlain "EOF")
  | l :: ls' =>
      match decodeHeader l with
      | Err e => Err e
      | Ok h =>
          if negb (mhSchemaVersion h =? SchemaVersion) then
            Err (ErrPlain ("backup: unsupported manifest schema version: manifest is schema version " ++!
                           %d (mhSchemaVersion h) ++! ", importer supports " ++! %d SchemaVersion))
          else Ok (h, ls')
      end
  end.

Definition ReadManifestHeader (ls : list line) : res ManifestHeader :=
  match ReadHeader ls with Ok (h, _) => Ok h | Err e => Err e end.

Fixpoint readAllRecords (ls : list line) (records : list ManifestRecord) : res (list ManifestRecord) :=
  match ls with
  | [] => Ok records
  | l :: ls' =>
      match decodeRecord l with
      | Ok r => readAllRecords ls' (records ++ [r])
      | Err e =>
          Err (ErrPlain ("backup: truncated or corrupt manifest: read manifest record " ++!
                         %d (Z.of_nat (length records)) ++! ": " ++! error_text e))
      end
  end.

(** * BookKeeper keys *)

Definition DefaultNamespace : string := "default".
Definition BrokerNamespace : string := "broker".
Definition BookkeeperNamespace : string := "bookkeeper".
Definition DefaultNamespaces : list string := [DefaultNamespace; BrokerNamespace; BookkeeperNamespace].

Definition bookKeeperInstanceIDKeyName : string := "INSTANCEID".
Definition bookKeeperCookieNodeSegment : string := "/cookies/".

Fixpoint HasSuffix (s suffix : string) : bool :=
  String.eqb s suffix || match s with EmptyString => false | String _ s' => HasSuffix s' suffix end.

Definition isBookKeeperInstanceIDKey (key : string) : bool :=
  String.eqb key bookKeeperInstanceIDKeyName ||
  HasSuffix key ("/" ++! bookKeeperInstanceIDKeyName).

Definition isBookKeeperCookieKey (key : string) : bool := Contains key bookKeeperCookieNodeSegment.

(** * Calls *)

(** One element of a scan: a record, or the terminal error. *)
Record Scanned := mkScanned { scKey : string; scValue : string; scVersion : RecordVersion }.
Definition ScanResult : Type := res Scanned.

(** [CtxErr] is [ctx.Err()]; [WriteLine] encodes one value to the output. *)
Inductive call :=
| NewClient (ns : string)
| RangeScanAll (ns : string)
| Put (ns key value : string)
| CtxErr
| WriteLine (l : line).

Definition ans (c : call) : Type :=
  match c with
  | NewClient _ => res unit
  | RangeScanAll _ => list ScanResult
  | Put _ _ _ => res unit
  | CtxErr => option goerr
  | WriteLine _ => res unit
  end.

Abbreviation M A := (prog ans (res A)).

Definition connect (ns : string) : M unit :=
  (try! ["backup: connect to oxia namespace " ++! quote ns] _ := perform ans (NewClient ns) in
   Ret (Ok tt))%prog.

(** * Export *)

Section Engine.
Context (digest : list ManifestRecord → string).

(** The records of one namespace, the last instanceId and the cookie keys
    among them. *)
Record Scan := mkScan { snRecords : list ManifestRecord; snInstanceID : string; snCookieKeys : list string }.
Definition emptyScan : Scan := mkScan [] "" [].

Definition absorb (ns : string) (a : Scan) (r : Scanned) : Scan :=
  let bk := String.eqb ns BookkeeperNamespace in
  mkScan (snRecords a ++ [mkManifestRecord ns (scKey r) (scValue r) (scVersion r)])
    (if bk && isBookKeeperInstanceIDKey (scKey r) then scValue r else snInstanceID a)
    (if bk && negb (isBookKeeperInstanceIDKey (scKey r)) && isBookKeeperCookieKey (scKey r)
     then snCookieKeys a ++ [scKey r] else snCookieKeys a).

Fixpoint scanLoop (ns : string) (rs : list ScanResult) (a : Scan) : M Scan :=
  match rs with
  | [] => Ret (Ok a)
  | r :: rs' =>
      (let! ctxErr := perform ans CtxErr in
       match ctxErr with
       | Some e => Ret (Err e)
       | None =>
           match r with
           | Err e => Ret (Err (Errorf ("backup: scan oxia namespace " ++! quote ns) e))
           | Ok r => scanLoop ns rs' (absorb ns a r)
           end
       end)%prog
  end.

Definition scanNamespace (ns : string) : M Scan :=
  (try! _ := connect ns in
   let! rs := perform ans (RangeScanAll ns) in
   scanLoop ns rs emptyScan)%prog.

Definition merge (a b : Scan) : Scan :=
  mkScan (snRecords a ++ snRecords b)
    (if String.eqb (snInstanceID b) "" then snInstanceID a else snInstanceID b)
    (snCookieKeys a ++ snCookieKeys b).

Fixpoint scanAll (nss : list string) (a : Scan) : M Scan :=
  match nss with
  | [] => Ret (Ok a)
  | ns :: nss' => (try! s := scanNamespace ns in scanAll nss' (merge a s))%prog
  end.

Fixpoint writeRecords (header : ManifestHeader) (rs : list ManifestRecord) : M ManifestHeader :=
  match rs with
  | [] => Ret (Ok header)
  | r :: rs' =>
      (try! ["backup: write manifest record for key " ++! quote (mrKey r)] _ :=
         perform ans (WriteLine (LRecord r)) in
       writeRecords header rs')%prog
  end.

Definition headerFor (address : string) (namespaces : list string) (s : Scan) (capturedAt : Z) :
    ManifestHeader :=
  mkManifestHeader SchemaVersion address namespaces (snInstanceID s) (snCookieKeys s)
    (Z.of_nat (length (snRecords s))) (digest (snRecords s)) capturedAt.

Definition Export (address : string) (namespaces : list string) (capturedAt : Z) : M ManifestHeader :=
  let namespaces := match namespaces with [] => DefaultNamespaces | _ => namespaces end in
  (try! s := scanAll namespaces emptyScan in
   let header := headerFor address namespaces s capturedAt in
   try! ["backup: write manifest header"] _ := perform ans (WriteLine (LHeader header)) in
   writeRecords header (snRecords s))%prog.

(** * Import *)

Record ImportResult := mkImportResult {
  irCapturedInstanceID : string;
  irKeysRestored : Z;
  irKeysSkippedEphemeral : Z
}.

(** The result so far beside the error, as [apply] returns it. *)
Definition ImportOut : Type := ImportResult * option goerr.

Definition zeroImport : ImportResult := mkImportResult "" 0 0.

Fixpoint applyLoop (includeEphemeral : bool) (rs : list ManifestRecord) (clients : gset string)
    (result : ImportResult) : prog ans ImportOut :=
  match rs with
  | [] => Ret (result, None)
  | rec :: rs' =>
      (let! ctxErr := perform ans CtxErr in
       match ctxErr with
       | Some e => Ret (result, Some e)
       | None =>
           if rvEphemeral (mrVersion rec) && negb includeEphemeral then
             applyLoop includeEphemeral rs' clients
               (mkImportResult (irCapturedInstanceID result) (irKeysRestored result)
                  (irKeysSkippedEphemeral result + 1))
           else
             let! client :=
               if decide (mrNamespace rec ∈ clients) then Ret (Ok tt) else connect (mrNamespace rec) in
             match client with
             | Err e => Ret (result, Some e)
             | Ok _ =>
                 let! put := perform ans (Put (mrNamespace rec) (mrKey rec) (mrValue rec)) in
                 match put with
                 | Err e =>
                     Ret (result, Some (Errorf ("backup: put key " ++! quote (mrKey rec) ++!
                            " into namespace " ++! quote (mrNamespace rec)) e))
                 | Ok _ =>
                     applyLoop includeEphemeral rs' ({[mrNamespace rec]} ∪ clients)
                       (mkImportResult (irCapturedInstanceID result) (irKeysRestored result + 1)
                          (irKeysSkippedEphemeral result))
                 end
             end
       end)%prog
  end.

Definition apply (includeEphemeral : bool) (header : ManifestHeader) (rs : list ManifestRecord) :
    prog ans ImportOut :=
  applyLoop includeEphemeral rs ∅ (mkImportResult (mhCapturedInstanceID header) 0 0).

Definition Import (includeEphemeral : bool) (ls : list line) : prog ans ImportOut :=
  match ReadHeader ls with
  | Err e => Ret (zeroImport, Some (Errorf "backup: read manifest header" e))
  | Ok (header, rest) =>
      match readAllRecords rest [] with
      | Err e => Ret (zeroImport, Some e)
      | Ok records =>
          if negb (Z.of_nat (length records) =? mhRecordCount header) then
            Ret (zeroImport, Some (ErrPlain
              ("backup: truncated or corrupt manifest: header declares " ++!
               %d (mhRecordCount header) ++! " records, manifest contains " ++!
               %d (Z.of_nat (length records)))))
          else if negb (String.eqb (digest records) (mhChecksum header)) then
            Ret (zeroImport, Some (ErrPlain
              ("backup: truncated or corrupt manifest: checksum mismatch (want " ++!
               mhChecksum header ++! ", got " ++! digest records ++! ")")))
          else apply includeEphemeral header records
      end
  end.

End Engine.

(** * The target's lineage *)

Fixpoint findInstanceID (rs : list ScanResult) : M (option string) :=
  match rs with
  | [] => Ret (Ok None)
  | r :: rs' =>
      (let! ctxErr := perform ans CtxErr in
       match ctxErr with
       | Some e => Ret (Err e)
       | None =>
           match r with
           | Err e => Ret (Err (Errorf ("backup: scan oxia namespace " ++! quote BookkeeperNamespace) e))
           | Ok r => if isBookKeeperInstanceIDKey (scKey r) then Ret (Ok (Some (scValue r)))
                     else findInstanceID rs'
           end
       end)%prog
  end.

(** [Ok None] is [found = false]. *)
Definition ReadTargetInstanceID : M (option string) :=
  (try! _ := connect BookkeeperNamespace in
   let! rs := perform ans (RangeScanAll BookkeeperNamespace) in
   findInstanceID rs)%prog.

(** * What was scanned, written and put *)

Definition puts (t : list (event ans)) : list (string * string * string) :=
  omap (λ e, match ev_call e with Put ns k v => Some (ns, k, v) | _ => None end) t.

(** The lines written, in order. *)
Definition written (t : list (event ans)) : list line :=
  omap (λ e, match ev_call e with WriteLine l => Some l | _ => None end) t.

(** The records of one scan, tagged with the namespace. *)
Definition recordsOf (ns : string) (rs : list ScanResult) : list ManifestRecord :=
  omap (λ r, match r with
             | Ok s => Some (mkManifestRecord ns (scKey s) (scValue s) (scVersion s))
             | Err _ => None
             end) rs.

(** Every record the scans of a run returned, in order. *)
Fixpoint scanned (t : list (event ans)) : list ManifestRecord :=
  match t with
  | [] => []
  | Ev c x :: t =>
      match c return ans c → list ManifestRecord with
      | RangeScanAll ns => λ x, recordsOf ns x
      | _ => λ _, []
      end x ++ scanned t
  end.

Definition triple (r : ManifestRecord) : string * string * string :=
  (mrNamespace r, mrKey r, mrValue r).

(** The records an import replays. *)
Definition replayed (includeEphemeral : bool) (rs : list ManifestRecord) : list ManifestRecord :=
  filter (λ r, rvEphemeral (mrVersion r) && negb includeEphemeral = false) rs.

Lemma replayed_all inc rs :
  replayed inc rs = if inc then rs else filter (λ r, rvEphemeral (mrVersion r) = false) rs.
Proof.
  unfold replayed. induction rs as [|r rs IH]; [by destruct inc|].
  rewrite filter_cons, IH. destruct inc; cbn [negb]; rewrite ?andb_false_r, ?andb_true_r.
  - by rewrite decide_True.
  - by rewrite filter_cons.
Qed.

Lemma puts_app t1 t2 : puts (t1 ++ t2) = puts t1 ++ puts t2.
Proof. apply omap_app. Qed.
Lemma written_app t1 t2 : written (t1 ++ t2) = written t1 ++ written t2.
Proof. apply omap_app. Qed.
Lemma scanned_app t1 t2 : scanned (t1 ++ t2) = scanned t1 ++ scanned t2.
Proof. induction t1 as [|[c x] t1 IH]; simpl; [done|]. by rewrite IH, (assoc_L (++)). Qed.

Lemma connect_quiet ns t r :
  runs (connect ns) t r → puts t = [] ∧ written t = [] ∧ scanned t = [].
Proof. intros H. run_step H. destruct x; by run_step H. Qed.

(** ** Import *)

Definition total (r : ImportResult) : Z := irKeysRestored r + irKeysSkippedEphemeral r.

Lemma applyLoop_puts inc rs cl r0 t out :
  runs (applyLoop inc rs cl r0) t out →
  puts t `prefix_of` (triple <$> replayed inc rs) ∧
  irCapturedInstanceID out.1 = irCapturedInstanceID r0 ∧
  (out.2 = None → puts t = triple <$> replayed inc rs ∧
     irKeysRestored out.1 = irKeysRestored r0 + Z.of_nat (length (replayed inc rs)) ∧
     total out.1 = total r0 + Z.of_nat (length rs)).
Proof.
  revert cl r0 t. induction rs as [|rec rs IH]; intros cl r0 t.
  - intros [-> ->]. unfold total. simpl. split_and!; [done..|]. intros _. split_and!; [done|lia|lia].
  - intros H. run_step H. destruct x as [e|].
    { run_step H. simpl. split_and!; [apply prefix_nil|done|done]. }
    unfold replayed. simpl in H. destruct (rvEphemeral (mrVersion rec) && negb inc) eqn:Ee.
    + rewrite filter_cons_False by congruence. apply IH in H as (? & ? & Hok).
      split_and!; [done..|]. intros Hn. destruct (Hok Hn) as (? & Hk & Ht).
      simpl in Hk, Ht. unfold total in *. simpl in Ht. split_and!; [done|done|simpl; lia].
    + rewrite filter_cons_True by done.
      apply runs_bind in H as (t1 & t2 & cl' & -> & Hc & H).
      assert (puts t1 = []) as Hq.
      { destruct (decide _); [by destruct Hc as [-> _]|by apply connect_quiet in Hc as [? _]]. }
      change (Ev CtxErr None :: t1 ++ t2) with ([Ev CtxErr None] ++ t1 ++ t2).
      rewrite !puts_app, Hq. simpl app.
      destruct cl' as [[]|e]; [|run_step H; split_and!; [apply prefix_nil|done|done]].
      run_step H. destruct x as [[]|e].
      * apply IH in H as (Hp & Hi & Hok). simpl. split_and!; [by apply prefix_cons|done|].
        intros Hn. destruct (Hok Hn) as (-> & Hk & Ht). unfold total, replayed in *. simpl in *.
        split_and!; [done|lia|lia].
      * run_step H. simpl. split_and!; [|done|done]. apply prefix_cons, prefix_nil.
Qed.

Section Theorems.
Context (digest : list ManifestRecord → string).

(** The stream carries what its header declares. *)
Definition wellFormed (ls : list line) (h : ManifestHeader) (rs : list ManifestRecord) : Prop :=
  ∃ rest, ReadHeader ls = Ok (h, rest) ∧ readAllRecords rest [] = Ok rs ∧
    Z.of_nat (length rs) = mhRecordCount h ∧ digest rs = mhChecksum h.

(** An import either rejects the stream without a call, or replays the
    records of a well-formed one. *)
Lemma Import_cases inc ls :
  (∃ e, Import digest inc ls = Ret (zeroImport, Some e)) ∨
  ∃ h rs, wellFormed ls h rs ∧ Import digest inc ls = apply inc h rs.
Proof.
  unfold Import, wellFormed. destruct (ReadHeader ls) as [[h rest]|e]; [|left; by eexists].
  destruct (readAllRecords rest []) as [rs|e] eqn:Er; [|left; by eexists].
  destruct (_ =? _) eqn:En; simpl; [|left; by eexists].
  destruct (String.eqb _ _) eqn:Ed; simpl; [|left; by eexists].
  right. exists h, rs. zbool. split; [|done]. by exists rest.
Qed.

(** C13: An import fails closed.  Unless the stream starts with a header of the
    supported version and carries exactly the declared number of records with
    the declared digest, the import returns an error and has not written a
    single key. *)
Theorem Import_fails_closed inc ls t out :
  runs (Import digest inc ls) t out → puts t ≠ [] ∨ out.2 = None →
  ∃ h rs, wellFormed ls h rs ∧ mhSchemaVersion h = SchemaVersion.
Proof.
  intros Hr Hne. destruct (Import_cases inc ls) as [[e E]|(h & rs & Hw & _)].
  - rewrite E in Hr. destruct Hr as [-> ->]. by destruct Hne.
  - exists h, rs. split; [done|]. destruct Hw as (rest & Hh & _). unfold ReadHeader in Hh.
    destruct ls as [|l ls]; [done|]. destruct (decodeHeader l) as [h'|]; [|done].
    destruct (mhSchemaVersion h' =? SchemaVersion) eqn:E; simplify_eq/=. by zbool.
Qed.

Lemma readAllRecords_records rs acc :
  readAllRecords (LRecord <$> rs) acc = Ok (acc ++ (utf8Record <$> rs)).
Proof.
  revert acc. induction rs as [|r rs IH]; intros acc; simpl; [by rewrite app_nil_r|].
  by rewrite IH, <- (assoc_L (++)).
Qed.

(** A truncated manifest is always rejected.  Cutting a written manifest
    anywhere before its end, even between two lines, makes the import fail
    without writing a key; no assumption on the digest is needed. *)
Theorem truncated_manifest_rejected inc h rs n :
  mhRecordCount h = Z.of_nat (length rs) → (n < S (length rs))%nat →
  ∃ e, Import digest inc (take n (LHeader h :: (LRecord <$> rs))) = Ret (zeroImport, Some e).
Proof.
  intros Hc Hn. destruct (Import_cases inc (take n (LHeader h :: (LRecord <$> rs))))
    as [?|(h' & rs' & (rest & Hh & Hr & Hl & _) & _)]; [done|]. exfalso.
  destruct n as [|n]; simpl in Hh; [done|].
  unfold ReadHeader in Hh. simpl in Hh. destruct (_ =? _) in Hh; simplify_eq/=.
  rewrite <- fmap_take, readAllRecords_records in Hr. simplify_eq/=.
  rewrite Hc in Hl. rewrite length_fmap, length_take in Hl. lia.
Qed.

(** A manifest with other records is rejected.  Replacing, dropping,
    adding or reordering records of a manifest makes the import fail without
    writing a key, as long as the digest tells what is read from the original
    records. *)
Theorem tampered_manifest_rejected inc h rs rs' :
  mhChecksum h = digest rs → digest (utf8Record <$> rs') ≠ digest rs →
  ∃ e, Import digest inc (LHeader h :: (LRecord <$> rs')) = Ret (zeroImport, Some e).
Proof.
  intros Hc Hd. destruct (Import_cases inc (LHeader h :: (LRecord <$> rs')))
    as [?|(h' & rs'' & (rest & Hh & Hr & _ & Hk) & _)]; [done|]. exfalso.
  unfold ReadHeader in Hh. simpl in Hh. destruct (_ =? _) in Hh; simplify_eq/=.
  rewrite readAllRecords_records in Hr. simplify_eq/=. congruence.
Qed.

(** ** Export *)

Lemma scanLoop_spec ns rs a t s :
  runs (scanLoop ns rs a) t (Ok s) →
  puts t = [] ∧ written t = [] ∧ scanned t = [] ∧ snRecords s = snRecords a ++ recordsOf ns rs.
Proof.
  revert a t. induction rs as [|r rs IH]; intros a t.
  - intros [-> E]. simplify_eq. simpl. by rewrite app_nil_r.
  - intros H. run_step H. destruct x as [e|]; [by destruct H|]. destruct r as [r|e]; [|by destruct H].
    apply IH in H as (? & ? & ? & Hs). split_and!; [done..|]. rewrite Hs. simpl.
    by rewrite <- (assoc_L (++)).
Qed.

Lemma scanNamespace_spec ns t s :
  runs (scanNamespace ns) t (Ok s) → written t = [] ∧ snRecords s = scanned t.
Proof.
  intros H. apply runs_bind in H as (t1 & t2 & [[]|e] & -> & Hc & H); [|by destruct H].
  apply connect_quiet in Hc as (_ & Hw & Hs). run_step H.
  apply scanLoop_spec in H as (_ & Hw' & Hs' & ->).
  change (Ev (RangeScanAll ns) x :: t) with ([Ev (RangeScanAll ns) x] ++ t).
  rewrite !written_app, !scanned_app, Hw, Hs, Hw', Hs'. simpl. by rewrite !app_nil_r.
Qed.

Lemma scanAll_spec nss a t s :
  runs (scanAll nss a) t (Ok s) → written t = [] ∧ snRecords s = snRecords a ++ scanned t.
Proof.
  revert a t. induction nss as [|ns nss IH]; intros a t.
  - intros [-> E]. simplify_eq. simpl. by rewrite app_nil_r.
  - intros H. apply runs_bind in H as (t1 & t2 & [s1|e] & -> & Hn & H); [|by destruct H].
    apply scanNamespace_spec in Hn as [Hw Hs]. apply IH in H as [Hw' ->].
    rewrite written_app, scanned_app, Hw, Hw', <- Hs. simpl. by rewrite (assoc_L (++)).
Qed.

Lemma writeRecords_spec h rs t h' :
  runs (writeRecords h rs) t (Ok h') →
  h' = h ∧ written t = LRecord <$> rs ∧ scanned t = [].
Proof.
  revert t. induction rs as [|r rs IH]; intros t; [by intros [-> E]; simplify_eq|].
  intros H. run_step H. destruct x as [[]|e]; [|by destruct H].
  apply IH in H as (-> & Hw & Hs). split_and!; [done| |done]. simpl. by f_equal.
Qed.

(** A finished export wrote the header, then every scanned record. *)
Lemma Export_written addr nss at_ t h :
  runs (Export digest addr nss at_) t (Ok h) →
  written t = LHeader h :: (LRecord <$> scanned t) ∧
  mhSchemaVersion h = SchemaVersion ∧
  mhRecordCount h = Z.of_nat (length (scanned t)) ∧ mhChecksum h = digest (scanned t).
Proof.
  unfold Export. intros H. apply runs_bind in H as (t1 & t2 & [s|e] & -> & Hs & H); [|by destruct H].
  apply scanAll_spec in Hs as [Hw Hs]. simpl in Hs.
  run_step H. destruct x as [[]|e]; [|by destruct H].
  apply writeRecords_spec in H as (-> & Hw' & Hs').
  change (Ev (WriteLine ?l) ?x :: t) with ([Ev (WriteLine l) x] ++ t).
  rewrite !written_app, Hw, Hw'. rewrite !scanned_app, Hs'. simpl. rewrite !app_nil_r, <- Hs. done.
Qed.

(** The manifest an export wrote is accepted: its import begins the replay. *)
Lemma exported_accepted addr nss at_ te h inc :
  runs (Export digest addr nss at_) te (Ok h) → forallb validRecord (scanned te) = true →
  Import digest inc (written te) = apply inc (utf8Header h) (scanned te).
Proof.
  intros (Hw & Hv & Hn & Hd)%Export_written Hu.
  unfold Import. rewrite Hw. unfold ReadHeader. simpl. rewrite Hv. simpl.
  rewrite readAllRecords_records, (utf8Records_id _ Hu). simpl.
  by rewrite Hn, Hd, Z.eqb_refl, String.eqb_refl.
Qed.

(** Its replay puts what the export scanned. *)
Lemma replay_exported addr nss at_ te h inc ls ti r :
  runs (Export digest addr nss at_) te (Ok h) → forallb validRecord (scanned te) = true → ls = written te →
  runs (Import digest inc ls) ti (r, None) →
  puts ti = triple <$> replayed inc (scanned te) ∧
  irKeysRestored r = Z.of_nat (length (replayed inc (scanned te))) ∧
  irKeysRestored r + irKeysSkippedEphemeral r = mhRecordCount h ∧
  irCapturedInstanceID r = toValid (mhCapturedInstanceID h).
Proof.
  intros He Hu -> Hi. rewrite (exported_accepted _ _ _ _ _ _ He Hu) in Hi.
  apply Export_written in He as (_ & _ & Hn & _).
  apply applyLoop_puts in Hi as (_ & Hid & Hok).
  destruct (Hok eq_refl) as (? & Hk & Ht). unfold total in Ht. simpl in *. split_and!; [done|lia|lia|done].
Qed.

(** C12: Restoring a backup replays exactly what was captured.  Let the
    namespaces, keys and client identities of the records be UTF-8, as Oxia's
    protocol carries them.  If an export finished, the manifest it wrote is
    accepted: importing it comes down to the replay of the scanned records.
    When the import finishes it has put, in order, exactly these records with
    their namespaces, keys and values - all of them if ephemeral records are
    asked for, else all but the ephemeral ones - and its counters add up to the
    header's record count. *)
Theorem export_import_roundtrip addr nss at_ te h inc :
  runs (Export digest addr nss at_) te (Ok h) → forallb validRecord (scanned te) = true →
  Import digest inc (written te) = apply inc (utf8Header h) (scanned te) ∧
  ∀ ti r, runs (Import digest inc (written te)) ti (r, None) →
    puts ti = triple <$> (if inc then scanned te
                          else filter (λ r, rvEphemeral (mrVersion r) = false) (scanned te)) ∧
    irKeysRestored r = Z.of_nat (length (puts ti)) ∧
    irKeysRestored r + irKeysSkippedEphemeral r = mhRecordCount h ∧
    mhRecordCount h = Z.of_nat (length (scanned te)) ∧
    irCapturedInstanceID r = toValid (mhCapturedInstanceID h).
Proof.
  intros He Hu. split; [by eapply exported_accepted|]. intros ti r Hi.
  destruct (replay_exported _ _ _ _ _ _ _ _ _ He Hu eq_refl Hi) as (Hp & Hk & Ht & Hid).
  apply Export_written in He as (_ & _ & Hn & _). rewrite <- replayed_all, Hp, length_fmap. by split_and!.
Qed.

End Theorems.

(** * Lineage *)

(** The instanceId values of a scan of the bookkeeper namespace. *)
Definition instanceIDs (rs : list ScanResult) : list string :=
  omap (λ r, match r with
             | Ok s => if isBookKeeperInstanceIDKey (scKey s) then Some (scValue s) else None
             | Err _ => None
             end) rs.

Lemma scanLoop_instanceID rs a t s :
  runs (scanLoop BookkeeperNamespace rs a) t (Ok s) →
  snInstanceID s = default (snInstanceID a) (last (instanceIDs rs)).
Proof.
  revert a t. induction rs as [|r rs IH]; intros a t; [by intros [-> E]; simplify_eq|].
  intros H. run_step H. destruct x as [e|]; [by destruct H|]. destruct r as [r|e]; [|by destruct H].
  apply IH in H as ->. simpl. destruct (isBookKeeperInstanceIDKey (scKey r)); simpl; [|done].
  rewrite last_cons. by destruct (last (instanceIDs rs)).
Qed.

Lemma findInstanceID_head rs t o : runs (findInstanceID rs) t (Ok o) → o = head (instanceIDs rs).
Proof.
  revert t. induction rs as [|r rs IH]; intros t; [by intros [-> E]; simplify_eq|].
  intros H. run_step H. destruct x as [e|]; [by destruct H|]. destruct r as [r|e]; [|by destruct H].
  simpl in *. destruct (isBookKeeperInstanceIDKey (scKey r)); [by destruct H as [_ E]; simplify_eq|].
  by eapply IH.
Qed.

(** Capture and check read the same lineage when it is unique.  Over one
    scan of the bookkeeper namespace, the export records the last instanceId
    it meets and the restore's pre-flight check reads the first one: the two
    agree when the namespace holds a single instanceId record, and disagree
    when the first and last of several differ, in which case a cluster fails
    the lineage check against its own backup. *)
Theorem lineage_capture_vs_check rs t s t' o :
  runs (scanLoop BookkeeperNamespace rs emptyScan) t (Ok s) →
  runs (findInstanceID rs) t' (Ok o) →
  snInstanceID s = default "" (last (instanceIDs rs)) ∧ o = head (instanceIDs rs) ∧
  (∀ id, instanceIDs rs = [id] → o = Some (snInstanceID s)) ∧
  (∀ a ids b, instanceIDs rs = a :: ids ++ [b] → a ≠ b → o ≠ Some (snInstanceID s)).
Proof.
  intros Hs Hf. pose proof (scanLoop_instanceID _ _ _ _ Hs) as E.
  pose proof (findInstanceID_head _ _ _ Hf) as ->.
  split_and!; [done..| |]; rewrite E.
  - by intros id ->.
  - intros a ids b -> Hab. simpl. rewrite app_comm_cons, last_snoc. simpl. congruence.
Qed.

(** * A concrete backup *)

Module ManifestDemo.

Definition demoDigest (rs : list ManifestRecord) : string :=
  foldr (λ r s, mrNamespace r ++! "/" ++! mrKey r ++! "=" ++! mrValue r ++! ";" ++! s) "" rs.

Definition persistent : RecordVersion := mkRecordVersion 1 10 10 0 false 0 "".
Definition ephemeral : RecordVersion := mkRecordVersion 2 11 11 0 true 7 "broker-0".

Definition scanOf (ns : string) : list ScanResult :=
  if String.eqb ns BookkeeperNamespace then
    [Ok (mkScanned "/ledgers/INSTANCEID" "id-1" persistent);
     Ok (mkScanned "/ledgers/cookies/bk-0" "cookie" persistent)]
  else if String.eqb ns DefaultNamespace then
    [Ok (mkScanned "/admin/tenant" "t" persistent); Ok (mkScanned "/loadbalance/b0" "lock" ephemeral)]
  else [].

Definition demoServe (c : call) (s : unit) : ans c * unit :=
  (match c return ans c with
   | NewClient _ => Ok tt
   | RangeScanAll ns => scanOf ns
   | Put _ _ _ => Ok tt
   | CtxErr => None
   | WriteLine _ => Ok tt
   end, s).

Definition exportRun := exec demoServe (Export demoDigest "oxia:6648" [] 0) tt.
Definition exported : list line := written exportRun.2.
Definition importRun := exec demoServe (Import demoDigest false exported) tt.
Definition demoHeader : ManifestHeader :=
  match exportRun.1.1 with Ok h => h | Err _ => zeroHeader end.

Lemma export_import_roundtrip_witness :
  puts importRun.2 = [("default", "/admin/tenant", "t"); ("bookkeeper", "/ledgers/INSTANCEID", "id-1");
                      ("bookkeeper", "/ledgers/cookies/bk-0", "cookie")] ∧
  irKeysRestored importRun.1.1.1 + irKeysSkippedEphemeral importRun.1.1.1 = mhRecordCount demoHeader.
Proof.
  assert (exportRun.1.1 = Ok demoHeader) as Ee by (vm_compute; reflexivity).
  assert (importRun.1.1.2 = None) as Ei by (vm_compute; reflexivity).
  destruct (export_import_roundtrip demoDigest "oxia:6648" [] 0 exportRun.2 demoHeader false) as [_ H].
  - rewrite <- Ee. exact (exec_runs demoServe (Export demoDigest "oxia:6648" [] 0) tt).
  - vm_compute. reflexivity.
  - destruct (H importRun.2 importRun.1.1.1) as (Hp & _ & Ht & _).
    + rewrite <- Ei, <- surjective_pairing.
      exact (exec_runs demoServe (Import demoDigest false exported) tt).
    + split; [rewrite Hp; vm_compute; reflexivity|exact Ht].
Defined.

Lemma Import_fails_closed_witness : ∃ h rs, wellFormed demoDigest exported h rs.
Proof.
  destruct (Import_fails_closed demoDigest false exported importRun.2 importRun.1.1
    (exec_runs demoServe (Import demoDigest false exported) tt)) as (h & rs & Hw & _).
  - right. vm_compute. reflexivity.
  - by exists h, rs.
Defined.

Definition demoRecords : list ManifestRecord := scanned exportRun.2.

Lemma truncated_manifest_rejected_witness :
  length demoRecords = 4%nat ∧
  ∃ e, Import demoDigest false (take 3 (LHeader demoHeader :: (LRecord <$> demoRecords))) =
       Ret (zeroImport, Some e).
Proof.
  split; [vm_compute; reflexivity|].
  apply truncated_manifest_rejected; [vm_compute; reflexivity|vm_compute; lia].
Defined.

Lemma tampered_manifest_rejected_witness :
  ∃ e, Import demoDigest false (LHeader demoHeader :: (LRecord <$> reverse demoRecords)) =
       Ret (zeroImport, Some e).
Proof.
  apply tampered_manifest_rejected with demoRecords; [vm_compute; reflexivity|by vm_compute].
Defined.

(** Two instanceId records: the backup carries the second one, the check
    reads the first one. *)
Definition twoIDs : list ScanResult :=
  [Ok (mkScanned "/ledgers/INSTANCEID" "id-1" persistent);
   Ok (mkScanned "/old-ledgers/INSTANCEID" "id-0" persistent)].

Definition scanRun := exec demoServe (scanLoop BookkeeperNamespace twoIDs emptyScan) tt.
Definition findRun := exec demoServe (findInstanceID twoIDs) tt.

Lemma lineage_capture_vs_check_witness :
  ∃ s o, scanRun.1.1 = Ok s ∧ findRun.1.1 = Ok o ∧ o ≠ Some (snInstanceID s).
Proof.
  destruct (scanRun.1.1) as [s|] eqn:Es; [|by vm_compute in Es].
  destruct (findRun.1.1) as [o|] eqn:Eo; [|by vm_compute in Eo].
  destruct (lineage_capture_vs_check twoIDs scanRun.2 s findRun.2 o) as (_ & _ & _ & H).
  - rewrite <- Es. exact (exec_runs demoServe (scanLoop BookkeeperNamespace twoIDs emptyScan) tt).
  - rewrite <- Eo. exact (exec_runs demoServe (findInstanceID twoIDs) tt).
  - exists s, o. split_and!; [done..|]. by apply (H "id-1" [] "id-0").
Defined.

End ManifestDemo.
