(* ===== verification/ScanStream.v ===== *)
(** The Oxia client adapter of internal/backup/oxia_client.go: the goroutine
    that forwards the library's scan over an unbuffered channel, beside the
    [for range] loop that reads it in export.go and bookkeeper.go.

    Manifest.v gives a loop the whole scan as a list.  Here the two goroutines
    are a step relation, and [stream_refines_list] shows that the loops of
    Manifest.v are what the two of them compute.  What the list cannot show is
    stated on the step relation: every schedule ends, the reader is never
    stuck, and the goroutine of a loop that returned early is blocked on its
    send for good. *)

From S2P Require Import Prelude Effects Kube ObjectStore Manifest.
Open Scope Z_scope.
Open Scope go_scope.

Module ScanStream.

(** * The adapter *)

(** The fields of a library result that the adapter reads; [grErr] is nil for
    a record. *)
Record Version := mkVersion {
  vVersionId : Z;
  vCreatedTimestamp : Z;
  vModifiedTimestamp : Z;
  vModificationsCount : Z;
  vEphemeral : bool;
  vSessionId : Z;
  vClientIdentity : string
}.
Record GetResult := mkGetResult {
  grKey : string;
  grValue : string;
  grVersion : Version;
  grErr : option goerr
}.

Record ScanResult := mkScanResult {
  srKey : string;
  srValue : string;
  srVersion : RecordVersion;
  srErr : option goerr
}.

(** The body of the goroutine's loop. *)
Definition adapt (r : GetResult) : ScanResult :=
  mkScanResult (grKey r) (grValue r)
    (match grErr r with
     | None =>
         let v := grVersion r in
         mkRecordVersion (vVersionId v) (vCreatedTimestamp v) (vModifiedTimestamp v)
           (vModificationsCount v) (vEphemeral v) (vSessionId v) (vClientIdentity v)
     | Some _ => zeroVersion
     end)
    (grErr r).

(** What the loops look at: [res.Err], then the record. *)
Definition seen (s : ScanResult) : Manifest.ScanResult :=
  match srErr s with
  | Some e => Err e
  | None => Ok (mkScanned (srKey s) (srValue s) (srVersion s))
  end.

(** The list Manifest.v works on. *)
Definition listed (us : list GetResult) : list Manifest.ScanResult := (λ r, seen (adapt r)) <$> us.

(** * The loops *)

Section Loop.
(** A loop [for res := range ch] whose body, once [ctx.Err()] is nil, goes on
    with another state or returns; [finish] is what follows the loop. *)
Context {A B : Type} (body : A → Manifest.ScanResult → A + res B) (finish : A → res B).

Fixpoint rangeLoop (rs : list Manifest.ScanResult) (a : A) : M B :=
  match rs with
  | [] => Ret (finish a)
  | r :: rs' =>
      (let! ctxErr := perform ans CtxErr in
       match ctxErr with
       | Some e => Ret (Err e)
       | None => match body a r with inl a' => rangeLoop rs' a' | inr b => Ret b end
       end)%prog
  end.

(** * The two goroutines *)

(** The sender waits for the library's next result, is blocked on
    [out <- result], or has closed the channel and ended. *)
Inductive Sender := Receiving | Sending (s : ScanResult) | Closed.

(** The reader waits for the channel, runs the body on a result, or has
    returned. *)
Inductive Reader := Ranging (a : A) | Body (a : A) (r : Manifest.ScanResult) | Returned (b : res B).

(** [upstream] is what the library has still to deliver before it closes its
    channel. *)
Record System := mkSystem { upstream : list GetResult; sender : Sender; reader : Reader }.

(** A step, with the calls it makes. *)
Inductive step : System → list (event ans) → System → Prop :=
| step_receive r us c :
    step (mkSystem (r :: us) Receiving c) [] (mkSystem us (Sending (adapt r)) c)
| step_close c :
    step (mkSystem [] Receiving c) [] (mkSystem [] Closed c)
| step_handoff us s a :
    step (mkSystem us (Sending s) (Ranging a)) [] (mkSystem us Receiving (Body a (seen s)))
| step_end us a :
    step (mkSystem us Closed (Ranging a)) [] (mkSystem us Closed (Returned (finish a)))
| step_cancelled us p a r e :
    step (mkSystem us p (Body a r)) [Ev CtxErr (Some e)] (mkSystem us p (Returned (Err e)))
| step_body us p a r :
    step (mkSystem us p (Body a r)) [Ev CtxErr None]
      (mkSystem us p (match body a r with inl a' => Ranging a' | inr b => Returned b end)).

(** An execution of [n] steps. *)
Inductive steps : nat → System → list (event ans) → System → Prop :=
| steps_refl s : steps 0 s [] s
| steps_cons n s t s' t' s'' : step s t s' → steps n s' t' s'' → steps (S n) s (t ++ t') s''.

(** [RangeScanAll] starts the sender; the loop begins in state [a]. *)
Definition start (us : list GetResult) (a : A) : System := mkSystem us Receiving (Ranging a).

Definition quiescent (s : System) : Prop := ∀ t s', ¬ step s t s'.

(** The reader has returned and the sender is blocked on its send. *)
Definition leaked (s : System) : bool :=
  match sender s, reader s with Sending _, Returned _ => true | _, _ => false end.

(** * What is left to do *)

(** The results the reader has not been given yet. *)
Definition pending (s : System) : list Manifest.ScanResult :=
  match sender s with Sending r => seen r :: listed (upstream s) | _ => listed (upstream s) end.

(** The loop that remains. *)
Definition residual (s : System) : M B :=
  match reader s with
  | Ranging a => rangeLoop (pending s) a
  | Body a r => rangeLoop (r :: pending s) a
  | Returned b => Ret b
  end.

(** The channel is closed only when the library's is drained. *)
Definition drained (s : System) : Prop := sender s = Closed → upstream s = [].

(** A bound on the steps that remain. *)
Definition fuel (s : System) : nat :=
  3 * length (upstream s) +
  match sender s with Receiving => 1 | Sending _ => 3 | Closed => 0 end +
  match reader s with Ranging _ => 1 | Body _ _ => 2 | Returned _ => 0 end.

Lemma step_drained s t s' : step s t s' → drained s → drained s'.
Proof. unfold drained. destruct 1; simpl; naive_solver. Qed.

Lemma step_fuel s t s' : step s t s' → (fuel s' < fuel s)%nat.
Proof.
  destruct 1; unfold fuel; simpl; try lia.
  destruct (body _ _); lia.
Qed.

(** A step of the system is a step of the loop that remains, or none. *)
Lemma step_residual s t s' t' o :
  step s t s' → drained s → runs (residual s') t' o → runs (residual s) (t ++ t') o.
Proof.
  destruct 1 as [r us c|c|us r a|us a|us p a r e|us p a r]; intros Hd Hr;
    unfold drained, residual, pending in *; simpl in *.
  - done.
  - done.
  - done.
  - specialize (Hd eq_refl). by subst us.
  - destruct Hr as [-> ->]. by exists (Some e), [].
  - exists None, t'. split; [done|]. by destruct (body a r).
Qed.

(** As long as the reader has not returned the system can go on, and in the
    way any run of the loop that remains asks for. *)
Lemma residual_step s t o :
  drained s → runs (residual s) t o →
  (reader s = Returned o ∧ t = []) ∨
  ∃ t1 t2 s', t = t1 ++ t2 ∧ step s t1 s' ∧ runs (residual s') t2 o.
Proof.
  destruct s as [us p c]. unfold drained, residual, pending. simpl. intros Hd Hr.
  destruct c as [a|a r|b]; [right|right|left; by destruct Hr as [-> ->]].
  - destruct p as [|r|].
    + destruct us; eexists [], t, _; (split; [done|]); (split; [constructor|done]).
    + eexists [], t, _. split; [done|]. split; [constructor|done].
    + specialize (Hd eq_refl) as ->. eexists [], t, _. split; [done|]. split; [constructor|done].
  - destruct Hr as ([e|] & t' & -> & Hr); simpl in Hr.
    + eexists [_], t', _. split; [done|]. split; [constructor|]. done.
    + eexists [_], t', _. split; [done|]. split; [constructor|]. simpl. by destruct (body a r).
Qed.

Lemma steps_drained n s t s' : steps n s t s' → drained s → drained s'.
Proof. induction 1; eauto using step_drained. Qed.

Lemma steps_residual n s t s' t' o :
  steps n s t s' → drained s → runs (residual s') t' o → runs (residual s) (t ++ t') o.
Proof.
  induction 1 as [|n s t s1 t1 s2 Hst Hsts IH]; intros Hd Hr; [done|].
  rewrite <- app_assoc. eapply step_residual; [done..|]. apply IH; [|done].
  by eapply step_drained.
Qed.

Lemma residual_steps s t o :
  drained s → runs (residual s) t o → ∃ n s', steps n s t s' ∧ reader s' = Returned o.
Proof.
  revert t. induction (wf_projected lt fuel (λ _ _ H, H) lt_wf s) as [s _ IH]. intros t Hd Hr.
  destruct (residual_step s t o Hd Hr) as [[Ho ->]|(t1 & t2 & s1 & -> & Hst & Hr1)].
  - eexists 0%nat, s. split; [constructor|done].
  - destruct (IH s1 (step_fuel _ _ _ Hst) t2) as (n & s2 & Hsts & Ho);
      [by eapply step_drained|done|].
    exists (S n), s2. split; [by econstructor|done].
Qed.

Lemma start_drained us a : drained (start us a).
Proof. done. Qed.

(** The reader of the two goroutines returns what the loop over the list
    returns, with the same calls, and every run of the loop over the list is
    one of theirs. *)
Lemma stream_iff us a t o :
  (∃ n s, steps n (start us a) t s ∧ reader s = Returned o) ↔ runs (rangeLoop (listed us) a) t o.
Proof.
  split.
  - intros (n & s & Hs & Ho). rewrite <- (app_nil_r t).
    apply (steps_residual _ _ _ _ _ _ Hs (start_drained us a)).
    unfold residual. by rewrite Ho.
  - apply (residual_steps (start us a)), start_drained.
Qed.

(** Every schedule ends, after at most [3 * n + 2] steps for a scan of [n]
    results. *)
Lemma schedule_bounded n us a t s : steps n (start us a) t s → (n ≤ 3 * length us + 2)%nat.
Proof.
  assert (∀ m s t s', steps m s t s' → (m + fuel s' ≤ fuel s)%nat) as Hm.
  { induction 1 as [|m s1 t1 s2 t2 s3 Hst]; [lia|]. pose proof (step_fuel _ _ _ Hst). lia. }
  intros H%Hm. unfold fuel, start in H. simpl in H. lia.
Qed.

(** When nothing can move, the reader has returned, and the sender has either
    ended or is blocked on its send. *)
Lemma quiescent_returned n us a t s :
  steps n (start us a) t s → quiescent s →
  (∃ o, reader s = Returned o) ∧ (sender s = Closed ∨ ∃ r, sender s = Sending r).
Proof.
  intros Hs Hq. pose proof (steps_drained _ _ _ _ Hs (start_drained us a)) as Hd.
  destruct s as [u p c]. unfold drained in Hd. simpl in *. split.
  - destruct c as [b|b r|o]; [|by destruct (Hq _ _ (step_body u p b r))|by eexists].
    destruct p as [|r|]; [|by destruct (Hq _ _ (step_handoff u r b))|].
    + destruct u as [|g u]; [by destruct (Hq _ _ (step_close _))|by destruct (Hq _ _ (step_receive g u _))].
    + rewrite (Hd eq_refl) in Hq. by destruct (Hq _ _ (step_end [] b)).
  - destruct p as [|r|]; [|by right; eexists|by left].
    destruct u as [|g u]; [by destruct (Hq _ _ (step_close c))|by destruct (Hq _ _ (step_receive g u c))].
Qed.

(** The results handed over so far: one [ctx.Err()] each, plus the one the
    body has in hand. *)
Lemma step_count s t s' :
  step s t s' →
  (length t + (match reader s' with Body _ _ => 1 | _ => 0 end) + length (pending s'))%nat
  = ((match reader s with Body _ _ => 1 | _ => 0 end) + length (pending s))%nat.
Proof.
  destruct 1; unfold pending; simpl; try lia. destruct (body _ _); lia.
Qed.

Lemma steps_count n s t s' :
  steps n s t s' →
  (length t + (match reader s' with Body _ _ => 1 | _ => 0 end) + length (pending s'))%nat
  = ((match reader s with Body _ _ => 1 | _ => 0 end) + length (pending s))%nat.
Proof.
  induction 1 as [|n s t s1 t1 s2 Hst Hsts IH]; [done|].
  rewrite length_app. pose proof (step_count _ _ _ Hst). lia.
Qed.

(** The sender ends exactly when the reader took every result. *)
Lemma leaked_iff n us a t s :
  steps n (start us a) t s → quiescent s → leaked s = true ↔ (length t < length us)%nat.
Proof.
  intros Hs Hq. pose proof (steps_count _ _ _ _ Hs) as Hc.
  destruct (quiescent_returned _ _ _ _ _ Hs Hq) as [[o Ho] Hp].
  pose proof (steps_drained _ _ _ _ Hs (start_drained us a)) as Hd.
  unfold leaked. destruct s as [u p c]. unfold drained, pending, listed in *. simpl in *. subst c.
  rewrite length_fmap in Hc. simpl in Hc.
  destruct Hp as [->|[r ->]]; simpl in Hc.
  - rewrite (Hd eq_refl) in Hc. simpl in Hc. split; [done|lia].
  - rewrite length_fmap in Hc. split; [lia|done].
Qed.

(** A loop whose body returns on a result never gets past it. *)
Lemma rangeLoop_stops pre r post a t o :
  (∀ a, ∃ b, body a r = inr b) →
  runs (rangeLoop (pre ++ r :: post) a) t o → (length t ≤ S (length pre))%nat.
Proof.
  intros Hb. revert a t. induction pre as [|r0 pre IH]; intros a t; simpl.
  - intros ([e|] & t' & -> & Hr); simpl in *; [by destruct Hr as [-> _]|].
    destruct (Hb a) as [b E]. rewrite E in Hr. by destruct Hr as [-> _].
  - intros ([e|] & t' & -> & Hr); simpl in *; [destruct Hr as [-> _]; simpl; lia|].
    destruct (body a r0) as [a'|b].
    + apply IH in Hr. lia.
    + destruct Hr as [-> _]. simpl. lia.
Qed.

End Loop.

(** * The two loops of the code *)

(** The body of [scanNamespace]'s loop. *)
Definition scanBody (ns : string) (a : Scan) (r : Manifest.ScanResult) : Scan + res Scan :=
  match r with
  | Err e => inr (Err (Errorf ("backup: scan oxia namespace " ++! quote ns) e))
  | Ok r => inl (absorb ns a r)
  end.

(** The body of [ReadTargetInstanceID]'s loop. *)
Definition findBody (_ : unit) (r : Manifest.ScanResult) : unit + res (option string) :=
  match r with
  | Err e => inr (Err (Errorf ("backup: scan oxia namespace " ++! quote BookkeeperNamespace) e))
  | Ok r => if isBookKeeperInstanceIDKey (scKey r) then inr (Ok (Some (scValue r))) else inl tt
  end.
Definition notFound (_ : unit) : res (option string) := Ok None.

Lemma scanLoop_rangeLoop ns rs a t o :
  runs (scanLoop ns rs a) t o ↔ runs (rangeLoop (scanBody ns) Ok rs a) t o.
Proof.
  revert a t. induction rs as [|[r|e] rs IH]; intros a t; simpl; [done| |].
  - split; intros ([e|] & t' & -> & Hr); simpl in Hr; eexists _, t'; (split; [done|]); simpl;
      try done; by apply IH.
  - split; intros ([e'|] & t' & -> & Hr); simpl in Hr; eexists _, t'; (split; [done|]); simpl; done.
Qed.

Lemma findInstanceID_rangeLoop rs t o :
  runs (findInstanceID rs) t o ↔ runs (rangeLoop findBody notFound rs tt) t o.
Proof.
  revert t. induction rs as [|[r|e] rs IH]; intros t; simpl; [done| |].
  - split; intros ([e|] & t' & -> & Hr); simpl in Hr; eexists _, t'; (split; [done|]); simpl;
      try done; destruct (isBookKeeperInstanceIDKey _); try done; by apply IH.
  - split; intros ([e'|] & t' & -> & Hr); simpl in Hr; eexists _, t'; (split; [done|]); simpl; done.
Qed.

(** A loop that never returns from its body takes every result. *)
Lemma scanLoop_takes_all ns rs a t s : runs (scanLoop ns rs a) t (Ok s) → length t = length rs.
Proof.
  revert a t. induction rs as [|[r|e] rs IH]; intros a t; simpl; [by intros [-> _]| |].
  - intros ([e|] & t' & -> & Hr); simpl in Hr; [by destruct Hr|]. simpl. f_equal. by eapply IH.
  - intros ([e'|] & t' & -> & Hr); simpl in Hr; by destruct Hr.
Qed.

(** * Results *)

(** The reader of a namespace's scan: whatever the two goroutines' schedule,
    what Export takes from the stream is what the loop over the whole list
    gives, every such run is a schedule's, and a scan that succeeds leaves no
    goroutine behind. *)
Theorem export_stream_sound ns us t :
  (∀ o, (∃ n s, steps (scanBody ns) Ok n (start us emptyScan) t s ∧ reader s = Returned o) ↔
        runs (scanLoop ns (listed us) emptyScan) t o) ∧
  (∀ n s v, steps (scanBody ns) Ok n (start us emptyScan) t s → quiescent (scanBody ns) Ok s →
        reader s = Returned (Ok v) → leaked s = false).
Proof.
  split; [intros o; rewrite scanLoop_rangeLoop; apply stream_iff|].
  intros n s v Hs Hq Ho. apply not_true_is_false. rewrite (leaked_iff _ _ _ _ _ _ _ Hs Hq).
  assert (runs (scanLoop ns (listed us) emptyScan) t (Ok v)) as H%scanLoop_takes_all.
  { apply scanLoop_rangeLoop, stream_iff. eauto. }
  unfold listed in H. rewrite length_fmap in H. lia.
Qed.

(** Once the scan has a result after the instanceId, every schedule of the
    read ends with the goroutine blocked on its send, whether the read
    succeeded, failed or was cancelled. *)
Lemma instance_id_leaks pre r post n t s :
  isBookKeeperInstanceIDKey (grKey r) = true → post ≠ [] →
  steps findBody notFound n (start (pre ++ r :: post) tt) t s → quiescent findBody notFound s →
  leaked s = true.
Proof.
  intros Hr Hp Hs Hq. apply (leaked_iff _ _ _ _ _ _ _ Hs Hq).
  destruct (quiescent_returned _ _ _ _ _ _ _ Hs Hq) as [[o Ho] _].
  assert (runs (rangeLoop findBody notFound (listed (pre ++ r :: post)) tt) t o) as H.
  { apply stream_iff. eauto. }
  unfold listed in H. rewrite fmap_app, fmap_cons in H. apply rangeLoop_stops in H.
  - rewrite length_fmap in H. rewrite length_app. simpl.
    destruct post; [done|simpl; lia].
  - intros ?. unfold findBody, seen, adapt. simpl. destruct (grErr r); simpl; [eauto|].
    rewrite Hr. eauto.
Qed.

(** C35: The read of the target's instanceId over the scanning goroutine's
    channel.  Whatever the schedule of the two goroutines, and whether or not
    the context is cancelled, the read makes the calls and returns the answer
    of the loop over the whole list of results, and every run of that loop is
    a schedule's.  Every schedule ends, within [3 * n + 2] steps for [n]
    results, with the read returned and the goroutine either ended or blocked
    on its send.  It is blocked exactly when the read left results untaken;
    so it always is once the scan has a result after the instanceId. *)
Theorem target_stream_sound us t :
  (∀ o, (∃ n s, steps findBody notFound n (start us tt) t s ∧ reader s = Returned o) ↔
        runs (findInstanceID (listed us)) t o) ∧
  (∀ n s, steps findBody notFound n (start us tt) t s →
     (n ≤ 3 * length us + 2)%nat ∧
     (quiescent findBody notFound s →
        (∃ o, reader s = Returned o) ∧
        (sender s = Closed ∨ ∃ r, sender s = Sending r) ∧
        (leaked s = true ↔ (length t < length us)%nat) ∧
        (∀ pre r post, us = pre ++ r :: post → isBookKeeperInstanceIDKey (grKey r) = true →
           post ≠ [] → leaked s = true))).
Proof.
  split; [intros o; rewrite findInstanceID_rangeLoop; apply stream_iff|].
  intros n s Hs. split; [by eapply schedule_bounded|]. intros Hq.
  destruct (quiescent_returned _ _ _ _ _ _ _ Hs Hq).
  split_and!; [done|done|by eapply leaked_iff|].
  intros pre r post -> Hr Hp. by eapply instance_id_leaks.
Qed.

(** * Running a schedule *)

(** The scheduler that lets the reader go first, with a context that is never
    cancelled. *)
Section Run.
Context {A B : Type} (body : A → Manifest.ScanResult → A + res B) (finish : A → res B).

Definition next (s : System (A:=A) (B:=B)) : option (list (event ans) * System (A:=A) (B:=B)) :=
  match reader s, sender s, upstream s with
  | Body a r, p, us =>
      Some ([Ev CtxErr None],
            mkSystem us p (match body a r with inl a' => Ranging a' | inr b => Returned b end))
  | Ranging a, Sending r, us => Some ([], mkSystem us Receiving (Body a (seen r)))
  | Ranging a, Closed, us => Some ([], mkSystem us Closed (Returned (finish a)))
  | c, Receiving, r :: us => Some ([], mkSystem us (Sending (adapt r)) c)
  | c, Receiving, [] => Some ([], mkSystem [] Closed c)
  | Returned _, _, _ => None
  end.

Fixpoint schedule (fuel : nat) (s : System (A:=A) (B:=B)) : nat * list (event ans) * System (A:=A) (B:=B) :=
  match fuel, next s with
  | S fuel, Some (t, s') => let '(n, t', s'') := schedule fuel s' in (S n, t ++ t', s'')
  | _, _ => (0%nat, [], s)
  end.

Lemma schedule_steps fuel s :
  steps body finish (schedule fuel s).1.1 s (schedule fuel s).1.2 (schedule fuel s).2.
Proof.
  revert s. induction fuel as [|fuel IH]; intros s; [constructor|]. simpl.
  destruct (next s) as [[t s']|] eqn:E; [|constructor].
  specialize (IH s'). destruct (schedule fuel s') as [[n t'] s'']. simpl in *.
  econstructor; [|exact IH]. revert E. destruct s as [us p c].
  unfold next. simpl. destruct c, p, us; intros; simplify_eq; constructor.
Qed.

Lemma next_quiescent s : next s = None → quiescent body finish s.
Proof.
  intros E t s' Hst. revert E. unfold next. by destruct Hst; simpl; repeat case_match.
Qed.
End Run.

Definition someVersion : Version := mkVersion 1 0 0 0 false 0 "".
Definition cookies : list GetResult :=
  [mkGetResult "/ledgers/INSTANCEID" "id-1" someVersion None;
   mkGetResult "/ledgers/cookies/bk-0" "cookie" someVersion None].

Definition cookieRun := schedule findBody notFound 100 (start cookies tt).

(** The read of an initialised target returns its id, and leaves the goroutine
    blocked on the cookie that follows it. *)
Lemma target_stream_sound_witness :
  reader cookieRun.2 = Returned (Ok (Some "id-1")) ∧ leaked cookieRun.2 = true.
Proof.
  split; [by vm_compute|].
  destruct (target_stream_sound cookies cookieRun.1.2) as [_ Hall].
  destruct (Hall _ _ (schedule_steps findBody notFound 100 (start cookies tt))) as [_ Hq].
  destruct Hq as (_ & _ & _ & Hleak); [apply next_quiescent; by vm_compute|].
  apply (Hleak [] (mkGetResult "/ledgers/INSTANCEID" "id-1" someVersion None)
           [mkGetResult "/ledgers/cookies/bk-0" "cookie" someVersion None]); [done|by vm_compute|done].
Defined.

End ScanStream.
