(* ===== verification/RecordCodec.v ===== *)
(** The checksum of a manifest (internal/backup/manifest.go,
    [checksumRecords]): SHA-256 over the [encoding/json] encodings of the
    records, one after the other with nothing between them.

    [json.Marshal] is written out for the record's struct: strings with their
    escapes, byte slices in base64, integers in decimal, the [omitempty] of
    clientIdentity.  The encodings can be told apart and told where they end,
    so the checksum binds the whole record list: two lists with one checksum
    are a collision of SHA-256, which is a parameter. *)

From S2P Require Import Prelude Effects Kube ObjectStore Utf8 Manifest.
Open Scope Z_scope.
Open Scope go_scope.

Module RecordCodec.
Import Utf8.

Definition dq : string := String "034" "".

(** * Strings *)

(** U+2028 and U+2029. *)
Definition lineSeparator (a b c : ascii) : bool :=
  (code a =? 226)%nat && (code b =? 128)%nat && ((code c =? 168)%nat || (code c =? 169)%nat).

(** [\u00XX]. *)
Definition backslash (s : string) : string := String "092" s.
Definition hex2 (c : ascii) : string :=
  String (hex_digit (code c / 16)) (String (hex_digit (code c mod 16)) "").

(** One byte below [utf8.RuneSelf]. *)
Definition escapeASCII (c : ascii) : string :=
  let n := code c in
  if (n =? 92)%nat || (n =? 34)%nat then backslash (String c "")
  else if (n =? 8)%nat then backslash "b"
  else if (n =? 12)%nat then backslash "f"
  else if (n =? 10)%nat then backslash "n"
  else if (n =? 13)%nat then backslash "r"
  else if (n =? 9)%nat then backslash "t"
  else if (n <? 32)%nat || (n =? 60)%nat || (n =? 62)%nat || (n =? 38)%nat
  then backslash ("u00" ++! hex2 c)
  else String c "".

(** [appendString] with HTML escaping, between the quotes.  A byte that is not
    part of a well-formed sequence becomes U+FFFD. *)
Fixpoint escape (s : string) : string :=
  match s with
  | "" => ""
  | String a s1 =>
      if (code a <? 128)%nat then escapeASCII a ++! escape s1
      else
        let bad := backslash "ufffd" ++! escape s1 in
        match s1 with
        | "" => bad
        | String b s2 =>
            if two a b then String a (String b (escape s2))
            else match s2 with
            | "" => bad
            | String c s3 =>
                if three a b c then
                  if lineSeparator a b c then
                    backslash ("u202" ++! String (hex_digit (code c mod 16)) "") ++! escape s3
                  else String a (String b (String c (escape s3)))
                else match s3 with
                | "" => bad
                | String d s4 =>
                    if four a b c d then String a (String b (String c (String d (escape s4))))
                    else bad
                end
            end
        end
  end.

Definition jsonString (s : string) : string := dq ++! escape s ++! dq.

(** * Byte slices *)

(** The base64 digit of six bits, the highest first. *)
Definition base64Alphabet : string :=
  "ABCDEFGHIJKLMNOPQRSTUVWXYZabcdefghijklmnopqrstuvwxyz0123456789+/".
Definition sextet (b5 b4 b3 b2 b1 b0 : bool) : ascii :=
  default "="%char (String.get (nat_of_ascii (Ascii b0 b1 b2 b3 b4 b5 false false)) base64Alphabet).

(** [base64.StdEncoding]: three bytes make four digits. *)
Fixpoint base64 (s : string) : string :=
  match s with
  | "" => ""
  | String (Ascii a0 a1 a2 a3 a4 a5 a6 a7) s1 =>
      let w := sextet a7 a6 a5 a4 a3 a2 in
      match s1 with
      | "" => String w (String (sextet a1 a0 false false false false) "==")
      | String (Ascii b0 b1 b2 b3 b4 b5 b6 b7) s2 =>
          let x := sextet a1 a0 b7 b6 b5 b4 in
          match s2 with
          | "" => String w (String x (String (sextet b3 b2 b1 b0 false false) "="))
          | String (Ascii c0 c1 c2 c3 c4 c5 c6 c7) s3 =>
              String w (String x (String (sextet b3 b2 b1 b0 c7 c6)
                (String (sextet c5 c4 c3 c2 c1 c0) (base64 s3))))
          end
      end
  end.

(** A byte slice; a nil one ([null]) is not told apart from an empty one. *)
Definition jsonBytes (s : string) : string := dq ++! base64 s ++! dq.

(** * Structs *)

Definition jsonInt (z : Z) : string := %d z.
Definition jsonBool (b : bool) : string := if b then "true" else "false".
Definition field (name : string) : string := dq ++! name ++! dq ++! ":".

Definition marshalVersion (v : RecordVersion) : string :=
  "{" ++! field "versionId" ++! jsonInt (rvVersionID v) ++!
  "," ++! field "createdTimestamp" ++! jsonInt (rvCreatedTimestamp v) ++!
  "," ++! field "modifiedTimestamp" ++! jsonInt (rvModifiedTimestamp v) ++!
  "," ++! field "modificationsCount" ++! jsonInt (rvModificationsCount v) ++!
  "," ++! field "ephemeral" ++! jsonBool (rvEphemeral v) ++!
  "," ++! field "sessionId" ++! jsonInt (rvSessionID v) ++!
  (if String.eqb (rvClientIdentity v) "" then ""
   else "," ++! field "clientIdentity" ++! jsonString (rvClientIdentity v)) ++! "}".

Definition marshalRecord (r : ManifestRecord) : string :=
  "{" ++! field "namespace" ++! jsonString (mrNamespace r) ++!
  "," ++! field "key" ++! jsonString (mrKey r) ++!
  "," ++! field "value" ++! jsonBytes (mrValue r) ++!
  "," ++! field "version" ++! marshalVersion (mrVersion r) ++! "}".

Fixpoint concatRecords (records : list ManifestRecord) : string :=
  match records with
  | [] => ""
  | r :: records' => marshalRecord r ++! concatRecords records'
  end.

(** [json.Marshal] cannot fail on these types. *)
Definition checksumRecords (sha256hex : string → string) (records : list ManifestRecord) : string :=
  sha256hex (concatRecords records).

Example marshal_example :
  marshalRecord (mkManifestRecord "bookkeeper" "/a<b" "id-1" (mkRecordVersion 7 1 2 (-1) true 9 "c")) =
  "{" ++! field "namespace" ++! dq ++! "bookkeeper" ++! dq ++! "," ++! field "key" ++! dq ++! "/a" ++!
  backslash "u003cb" ++! dq ++! "," ++! field "value" ++! dq ++! "aWQtMQ==" ++! dq ++! "," ++!
  field "version" ++! "{" ++! field "versionId" ++! "7," ++! field "createdTimestamp" ++! "1," ++!
  field "modifiedTimestamp" ++! "2," ++! field "modificationsCount" ++! "-1," ++!
  field "ephemeral" ++! "true," ++! field "sessionId" ++! "9," ++! field "clientIdentity" ++! dq ++! "c" ++!
  dq ++! "}}".
Proof. reflexivity. Qed.

(** * Reading an encoding back *)

(** The encodings of two values of [P], followed by anything, differ where the
    values do. *)
Definition prefixFree {A} (P : A → Prop) (enc : A → string) : Prop :=
  ∀ x y s t, P x → P y → enc x ++! s = enc y ++! t → x = y ∧ s = t.

Lemma append_assoc (a b c : string) : (a ++! b) ++! c = a ++! b ++! c.
Proof. induction a; [done|]. rewrite !append_cons. congruence. Qed.

Lemma append_drop (a s t : string) : a ++! s = a ++! t → s = t.
Proof. induction a; [done|]. rewrite !append_cons. intros. simplify_eq. eauto. Qed.

Definition hexValue (c : ascii) : nat := if (code c <? 58)%nat then code c - 48 else code c - 87.

Definition unescaped (k : ascii) : ascii :=
  if Ascii.eqb k "b" then "008" else if Ascii.eqb k "f" then "012"
  else if Ascii.eqb k "n" then "010" else if Ascii.eqb k "r" then "013"
  else if Ascii.eqb k "t" then "009" else k.

Definition prepend (p : string) (r : option (string * string)) : option (string * string) :=
  (λ '(v, rest), (p ++! v, rest)) <$> r.

(** What follows an opening quote, up to the closing one: the value and the
    rest. *)
Fixpoint readString (s : string) : option (string * string) :=
  match s with
  | "" => None
  | String c s1 =>
      if (code c =? 34)%nat then Some ("", s1)
      else if (code c =? 92)%nat then
        match s1 with
        | String "u" (String p (String _ (String h (String l s5)))) =>
            if Ascii.eqb p "2"
            then prepend (String "226" (String "128" (String (ascii_of_nat (160 + hexValue l)) ""))) (readString s5)
            else prepend (String (ascii_of_nat (16 * hexValue h + hexValue l)) "") (readString s5)
        | String k s2 => prepend (String (unescaped k) "") (readString s2)
        | "" => None
        end
      else prepend (String c "") (readString s1)
  end.

Lemma readString_escapeASCII c rest :
  (code c <? 128)%nat = true → readString (escapeASCII c ++! rest) = prepend (String c "") (readString rest).
Proof. destruct c as [[] [] [] [] [] [] [] []]; intros E; first [discriminate E|reflexivity]. Qed.

Lemma readString_raw c rest :
  (128 <= code c)%nat → readString (String c rest) = prepend (String c "") (readString rest).
Proof.
  intros Hc. cbn -[prepend]. rewrite !(proj2 (Nat.eqb_neq _ _)) by lia. done.
Qed.

Lemma prepend_prepend p q r : prepend p (prepend q r) = prepend (p ++! q) r.
Proof. destruct r as [[v rest]|]; [|done]. simpl. by rewrite append_assoc. Qed.

Lemma code_inj c n : (code c =? n)%nat = true → c = ascii_of_nat n.
Proof. intros <-%Nat.eqb_eq. symmetry. apply ascii_nat_embedding. Qed.

Lemma readString_separator n rest :
  n = 168%nat ∨ n = 169%nat →
  readString (backslash ("u202" ++! String (hex_digit (code (ascii_of_nat n) mod 16)) "") ++! rest) =
  prepend (String "226" (String "128" (String (ascii_of_nat n) ""))) (readString rest).
Proof. by intros [-> | ->]. Qed.

Ltac high := unfold two, three, four, cont, between in *;
  repeat match goal with
  | H : (_ && _)%bool = true |- _ => apply andb_true_iff in H as [? ?]
  | H : (_ || _)%bool = true |- _ => apply orb_true_iff in H as [?|?]
  | H : (_ <=? _)%nat = true |- _ => apply Nat.leb_le in H
  | H : (_ =? _)%nat = true |- _ => apply Nat.eqb_eq in H
  end; lia.

Lemma readString_escape s rest :
  validUTF8 s = true → readString (escape s ++! String "034" rest) = Some (s, rest).
Proof.
  remember (String.length s) as n eqn:En. revert s En.
  induction (lt_wf n) as [n _ IH]; intros s ->; destruct s as [|a s1]; [done|].
  cbn [validUTF8 escape]. destruct (code a <? 128)%nat eqn:Ea; intros Hv.
  { rewrite append_assoc, readString_escapeASCII by done.
    by rewrite (IH (String.length s1)) by (simpl; auto with lia). }
  apply Nat.ltb_ge in Ea. destruct s1 as [|b s2]; [done|]. destruct (two a b) eqn:E2.
  { rewrite !append_cons, !readString_raw, (IH (String.length s2)) by (first [done|simpl; lia|high]).
    done. }
  destruct s2 as [|c s3]; [done|]. destruct (three a b c) eqn:E3.
  { destruct (lineSeparator a b c) eqn:El.
    - unfold lineSeparator in El. apply andb_true_iff in El as [[->%code_inj ->%code_inj]%andb_true_iff Hc].
      assert (c = ascii_of_nat 168 ∨ c = ascii_of_nat 169) as [-> | ->]
        by (apply orb_true_iff in Hc as [?%code_inj|?%code_inj]; auto);
        rewrite append_assoc, readString_separator by auto;
        by rewrite (IH (String.length s3)) by (simpl; auto with lia).
    - rewrite !append_cons, !readString_raw, (IH (String.length s3)) by (first [done|simpl; lia|high]).
      done. }
  destruct s3 as [|d s4]; [done|]. destruct (four a b c d) eqn:E4; [|done].
  rewrite !append_cons, !readString_raw, (IH (String.length s4)) by (first [done|simpl; lia|high]).
  done.
Qed.

Lemma jsonString_prefixFree : prefixFree (λ s, validUTF8 s = true) jsonString.
Proof.
  intros x y s t Hx Hy E. unfold jsonString in E. rewrite !append_assoc in E.
  apply append_drop in E. pose proof (readString_escape x s Hx) as Rx.
  change (String "034" s) with (dq ++! s) in Rx. rewrite E in Rx.
  change (dq ++! t) with (String "034" t) in Rx. rewrite readString_escape in Rx by done. by simplify_eq.
Qed.

(** A text of characters of [P] ends where the first other character is. *)
Fixpoint all (P : ascii → bool) (s : string) : bool :=
  match s with "" => true | String c s' => P c && all P s' end.

Lemma span_unique P a b c d s t :
  all P a = true → all P b = true → P c = false → P d = false →
  a ++! String c s = b ++! String d t → a = b ∧ String c s = String d t.
Proof.
  intros Ha Hb Hc Hd. revert b Hb. induction a as [|x a IH]; intros [|y b] Hb; simpl in *;
    rewrite ?append_cons, ?append_nil; intros E; [done| | |].
  - simplify_eq. apply andb_true_iff in Hb as [Hb _]. congruence.
  - simplify_eq. apply andb_true_iff in Ha as [Ha _]. congruence.
  - simplify_eq. apply andb_true_iff in Ha as [_ Ha], Hb as [_ Hb].
    by destruct (IH Ha b Hb) as [-> ?].
Qed.

(** ** Base64 *)

Definition digitBits (c : ascii) : option ascii :=
  ascii_of_nat <$> String.index 0 (String c "") base64Alphabet.

Lemma digitBits_sextet b5 b4 b3 b2 b1 b0 :
  digitBits (sextet b5 b4 b3 b2 b1 b0) = Some (Ascii b0 b1 b2 b3 b4 b5 false false).
Proof. by destruct b0, b1, b2, b3, b4, b5. Qed.

Lemma sextet_inj b5 b4 b3 b2 b1 b0 c5 c4 c3 c2 c1 c0 :
  sextet b5 b4 b3 b2 b1 b0 = sextet c5 c4 c3 c2 c1 c0 →
  b5 = c5 ∧ b4 = c4 ∧ b3 = c3 ∧ b2 = c2 ∧ b1 = c1 ∧ b0 = c0.
Proof.
  intros E. pose proof (digitBits_sextet b5 b4 b3 b2 b1 b0) as H.
  rewrite E, digitBits_sextet in H. injection H as -> -> -> -> -> ->. by split_and!.
Qed.

Definition notQuote (c : ascii) : bool := negb (code c =? 34)%nat.

Lemma sextet_plain b5 b4 b3 b2 b1 b0 :
  notQuote (sextet b5 b4 b3 b2 b1 b0) = true ∧ sextet b5 b4 b3 b2 b1 b0 ≠ "="%char.
Proof. by destruct b0, b1, b2, b3, b4, b5. Qed.

(** Base64 takes three bytes at a time. *)
Lemma three_bytes_ind (Q : string → Prop) :
  Q "" → (∀ a, Q (String a "")) → (∀ a b, Q (String a (String b ""))) →
  (∀ a b c s, Q s → Q (String a (String b (String c s)))) → ∀ s, Q s.
Proof.
  intros H0 H1 H2 H3. fix IH 1. intros [|a [|b [|c s]]]; [exact H0|apply H1|apply H2|apply H3, IH].
Qed.

Lemma base64_plain s : all notQuote (base64 s) = true.
Proof.
  induction s as [|[]|[] []|[] [] [] s IH] using three_bytes_ind; cbn [base64 all]; [done|..];
    repeat (rewrite (proj1 (sextet_plain _ _ _ _ _ _)); cbn [andb]); done.
Qed.

Lemma base64_inj s t : base64 s = base64 t → s = t.
Proof.
  revert t. induction s as [|[]|[] []|[] [] [] s IH] using three_bytes_ind;
    intros [|[] [|[] [|[] t]]]; cbn [base64]; intros E; try done;
    repeat match goal with
    | E : String _ _ = String _ _ |- _ => injection E; clear E; intros
    | E : sextet _ _ _ _ _ _ = sextet _ _ _ _ _ _ |- _ => apply sextet_inj in E; destruct_and! E; subst
    | E : sextet ?a ?b ?c ?d ?e ?f = "="%char |- _ => by destruct (proj2 (sextet_plain a b c d e f))
    | E : "="%char = sextet ?a ?b ?c ?d ?e ?f |- _ => by destruct (proj2 (sextet_plain a b c d e f))
    end; try done; repeat f_equal; auto.
Qed.

Lemma jsonBytes_prefixFree : prefixFree (λ _, True) jsonBytes.
Proof.
  intros x y s t _ _ E. unfold jsonBytes in E. rewrite !append_assoc in E. apply append_drop in E.
  apply (span_unique notQuote) in E as [E Es]; [|apply base64_plain..|done|done].
  apply base64_inj in E as ->. by simplify_eq.
Qed.

(** ** Integers and booleans *)

Definition intChar (c : ascii) : bool := between 48 57 c || (code c =? 45)%nat.

Lemma pretty_N_char_digit (x : N) : (x < 10)%N → intChar (pretty_N_char x) = true.
Proof.
  intros H. assert (x ∈ [0;1;2;3;4;5;6;7;8;9]%N) as Hin.
  { rewrite !elem_of_cons, elem_of_nil. lia. }
  rewrite !elem_of_cons, elem_of_nil in Hin. by repeat destruct Hin as [->|Hin].
Qed.

Lemma pretty_N_go_chars (x : N) s : all intChar s = true → all intChar (pretty_N_go x s) = true.
Proof.
  revert s. induction (N.lt_wf_0 x) as [x _ IH]; intros s Hs.
  destruct (decide (x = 0%N)) as [->|Hx]; [by rewrite pretty_N_go_0|].
  rewrite pretty_N_go_step by lia. apply IH; [apply N.div_lt; lia|].
  cbn [all]. by rewrite pretty_N_char_digit by (apply N.mod_lt; lia).
Qed.

Lemma pretty_N_chars (x : N) : all intChar (pretty x) = true.
Proof. unfold pretty, pretty_N. case_decide; [done|]. by apply pretty_N_go_chars. Qed.

Lemma jsonInt_chars z : all intChar (jsonInt z) = true.
Proof.
  unfold jsonInt. destruct z as [|p|p]; [done| |]; unfold pretty, pretty_Z.
  - apply (pretty_N_chars (N.pos p)).
  - rewrite append_cons, append_nil. apply (pretty_N_chars (N.pos p)).
Qed.

(** An integer ends where a character that is neither digit nor sign is. *)
Lemma jsonInt_unique x y c d s t :
  intChar c = false → intChar d = false →
  jsonInt x ++! String c s = jsonInt y ++! String d t → x = y ∧ String c s = String d t.
Proof.
  intros Hc Hd E. apply (span_unique intChar) in E as [E Es]; [|apply jsonInt_chars..|done|done].
  unfold jsonInt in E. apply (inj pretty) in E. done.
Qed.

Lemma jsonInt_comma x y s t :
  jsonInt x ++! "," ++! s = jsonInt y ++! "," ++! t → x = y ∧ s = t.
Proof.
  rewrite !append_cons, !append_nil. intros E. apply jsonInt_unique in E as [-> E]; [|done..].
  by simplify_eq.
Qed.

Lemma jsonBool_prefixFree : prefixFree (λ _, True) jsonBool.
Proof.
  intros [] [] s t _ _; unfold jsonBool; rewrite !append_cons, !append_nil; intros E; by simplify_eq.
Qed.

(** ** Structs *)

Lemma marshalRecord_head r : ∃ w, marshalRecord r = String "{" w.
Proof. unfold marshalRecord. rewrite append_cons. eauto. Qed.

#[local] Opaque jsonString jsonBytes jsonInt jsonBool field.

(** Drop the literal both sides start with. *)
Ltac drop_literal E :=
  repeat match type of E with
  | field ?n ++! _ = field ?n ++! _ => apply append_drop in E
  | "{" ++! _ = "{" ++! _ => apply append_drop in E
  | "," ++! _ = "," ++! _ => apply append_drop in E
  end.

Lemma identity_unique x y s t :
  validUTF8 x = true → validUTF8 y = true →
  (if String.eqb x "" then "" else "," ++! field "clientIdentity" ++! jsonString x) ++! "}" ++! s =
  (if String.eqb y "" then "" else "," ++! field "clientIdentity" ++! jsonString y) ++! "}" ++! t →
  x = y ∧ s = t.
Proof.
  intros Hx Hy. destruct (String.eqb_spec x "") as [->|], (String.eqb_spec y "") as [->|];
    rewrite ?append_assoc, ?append_nil; intros E.
  - split; [done|]. by apply append_drop in E.
  - rewrite !append_cons in E. discriminate E.
  - rewrite !append_cons in E. discriminate E.
  - drop_literal E. apply jsonString_prefixFree in E as [-> E]; [|done..].
    split; [done|]. by apply append_drop in E.
Qed.

(** The last integer of a version, before the optional identity. *)
Lemma session_unique x y a b s t :
  validUTF8 a = true → validUTF8 b = true →
  jsonInt x ++! (if String.eqb a "" then "" else "," ++! field "clientIdentity" ++! jsonString a) ++! "}" ++! s =
  jsonInt y ++! (if String.eqb b "" then "" else "," ++! field "clientIdentity" ++! jsonString b) ++! "}" ++! t →
  x = y ∧ a = b ∧ s = t.
Proof.
  intros Ha Hb E.
  assert (∀ u v, ∃ c w, intChar c = false ∧
    (if String.eqb u "" then "" else "," ++! field "clientIdentity" ++! jsonString u) ++! "}" ++! v =
    String c w) as Hhead.
  { intros u v. destruct (String.eqb u ""); rewrite ?append_assoc, ?append_nil, append_cons;
      eexists _, _; (split; [|reflexivity]); reflexivity. }
  destruct (Hhead a s) as (c & w & Hc & Ec), (Hhead b t) as (d & w' & Hd & Ed).
  rewrite Ec, Ed in E. apply jsonInt_unique in E as [-> E]; [|done..].
  rewrite <- Ec, <- Ed in E. by apply identity_unique in E as [-> ->].
Qed.

Lemma marshalVersion_prefixFree :
  prefixFree (λ v, validUTF8 (rvClientIdentity v) = true) marshalVersion.
Proof.
  intros x y s t Hx Hy E. unfold marshalVersion in E. rewrite !append_assoc in E. drop_literal E.
  do 4 (apply jsonInt_comma in E as [? E]; drop_literal E).
  apply jsonBool_prefixFree in E as [? E]; [|done..]. drop_literal E.
  apply session_unique in E as (? & ? & E); [|done..].
  destruct x, y; simpl in *. by subst.
Qed.

#[local] Opaque marshalVersion.

Lemma marshalRecord_prefixFree : prefixFree (λ r, validRecord r = true) marshalRecord.
Proof.
  unfold validRecord. intros x y s t Hx Hy E. zbool. unfold marshalRecord in E.
  rewrite !append_assoc in E. drop_literal E.
  apply jsonString_prefixFree in E as [? E]; [|done..]. drop_literal E.
  apply jsonString_prefixFree in E as [? E]; [|done..]. drop_literal E.
  apply jsonBytes_prefixFree in E as [? E]; [|done..]. drop_literal E.
  apply marshalVersion_prefixFree in E as [? E]; [|done..]. apply append_drop in E.
  destruct x, y; simpl in *. by subst.
Qed.

Lemma concatRecords_inj rs rs' :
  forallb validRecord rs = true → forallb validRecord rs' = true →
  concatRecords rs = concatRecords rs' → rs = rs'.
Proof.
  revert rs'. induction rs as [|r rs IH]; intros [|r' rs']; cbn [forallb concatRecords];
    intros Hr Hr' E; [done|..].
  - destruct (marshalRecord_head r') as [w Ew]. by rewrite Ew, append_cons in E.
  - destruct (marshalRecord_head r) as [w Ew]. by rewrite Ew, append_cons in E.
  - zbool. apply marshalRecord_prefixFree in E as [-> E]; [|done..]. f_equal. by apply IH.
Qed.

(** The decoder returns UTF-8 only. *)
Lemma readAllRecords_valid ls acc rs :
  readAllRecords ls acc = Ok rs → forallb validRecord acc = true → forallb validRecord rs = true.
Proof.
  revert acc. induction ls as [|l ls IH]; intros acc; simpl; [by intros [= ->]|].
  destruct l as [h|r|e]; simpl; [| |done]; intros E Ha; apply (IH _ E); rewrite forallb_app, Ha; [done|].
  simpl. by rewrite utf8Record_valid.
Qed.

(** * Results *)

Section Checksum.
Context (sha256hex : string → string).

(** Two different texts with one digest. *)
Definition collision (m m' : string) : Prop := m ≠ m' ∧ sha256hex m = sha256hex m'.

(** C32: The checksum binds the records.  Let an export have returned a header,
    and let the records after it be replaced by anything at all: an import of
    the result that writes a single key, or finishes, read exactly the records
    the export scanned, field by field and in order, unless the two lists are
    a collision of SHA-256.  The encodings are concatenated without
    separators, yet nothing of a record can move into its neighbour.  Keys and
    identities that were scanned are UTF-8: Oxia's protocol carries no other
    strings; the JSON decoder returns no others. *)
Theorem checksum_binds_records addr nss at_ te h inc rest ti out :
  runs (Export (checksumRecords sha256hex) addr nss at_) te (Ok h) →
  runs (Import (checksumRecords sha256hex) inc (LHeader h :: rest)) ti out →
  puts ti ≠ [] ∨ out.2 = None →
  forallb validRecord (scanned te) = true →
  ∃ rs, readAllRecords rest [] = Ok rs ∧
    (rs = scanned te ∨ collision (concatRecords rs) (concatRecords (scanned te))).
Proof.
  intros He Hi Hne Hv. apply Export_written in He as (_ & _ & _ & Hc).
  destruct (Import_cases (checksumRecords sha256hex) inc (LHeader h :: rest))
    as [[e E]|(h' & rs & (rest' & Hh & Hrs & _ & Hk) & _)].
  { rewrite E in Hi. destruct Hi as [-> ->]. by destruct Hne. }
  unfold ReadHeader in Hh. simpl in Hh. destruct (_ =? _) in Hh; simplify_eq/=.
  exists rs. split; [done|]. rewrite Hc in Hk. pose proof (readAllRecords_valid _ [] _ Hrs eq_refl).
  destruct (decide (concatRecords rs = concatRecords (scanned te))) as [E|Hn].
  - left. by apply concatRecords_inj.
  - right. by split.
Qed.

End Checksum.

Import ManifestDemo.

(** With a digest that has no collisions at all. *)
Definition noHash (s : string) : string := s.
Definition codecExport := exec demoServe (Export (checksumRecords noHash) "oxia:6648" [] 0) tt.
Definition codecHeader : ManifestHeader :=
  match codecExport.1.1 with Ok h => h | Err _ => zeroHeader end.
Definition codecRest : list line := LRecord <$> scanned codecExport.2.
Definition codecImport := exec demoServe (Import (checksumRecords noHash) true (LHeader codecHeader :: codecRest)) tt.

Lemma checksum_binds_records_witness :
  length (puts codecImport.2) = 4%nat ∧
  ∃ rs, readAllRecords codecRest [] = Ok rs ∧
    (rs = scanned codecExport.2 ∨ collision noHash (concatRecords rs) (concatRecords (scanned codecExport.2))).
Proof.
  split; [by vm_compute|].
  apply (checksum_binds_records noHash "oxia:6648" [] 0 codecExport.2 codecHeader true codecRest
           codecImport.2 codecImport.1.1).
  - replace (Ok codecHeader) with codecExport.1.1 by (vm_compute; reflexivity).
    exact (exec_runs demoServe (Export (checksumRecords noHash) "oxia:6648" [] 0) tt).
  - exact (exec_runs demoServe (Import (checksumRecords noHash) true (LHeader codecHeader :: codecRest)) tt).
  - right. by vm_compute.
  - by vm_compute.
Defined.

(** A record whose key is not UTF-8 is read back as another one, and the
    checksum notices: such a backup is never restored. *)
Definition notUTF8 : ManifestRecord := mkManifestRecord "default" (String "255" "") "v" zeroVersion.

Example replaced_key_differs : validRecord notUTF8 = false ∧
  decodeRecord (LRecord notUTF8) = Ok (mkManifestRecord "default" replacement "v" zeroVersion) ∧
  marshalRecord (utf8Record notUTF8) ≠ marshalRecord notUTF8.
Proof. by vm_compute. Qed.

End RecordCodec.
