(* ===== verification/Restore.v ===== *)
(** The Restore controller (internal/controller/backup/restore_controller.go
    and restore_job.go): the cookie-lineage gate, then a one-shot replay
    driven from the observed state of the import Job.

    As in the Backup controller, a handler returns the object with its status
    mutated beside its result.  The decoder of the import Job's termination
    message is a parameter. *)

From S2P Require Import Prelude Effects Kube ObjectStore BackupTypes Manifest.
Open Scope Z_scope.
Open Scope go_scope.

(** * The resource *)

Definition CookieLineagePolicyEnforce : string := "enforce".
Definition CookieLineagePolicyOverride : string := "override".
Definition RestorePhasePending : string := "Pending".
Definition RestorePhaseRunning : string := "Running".
Definition RestorePhaseCompleted : string := "Completed".
Definition RestorePhaseFailed : string := "Failed".
Definition CookieLineageCheckResultPassed : string := "Passed".
Definition CookieLineageCheckResultMismatch : string := "Mismatch".
Definition CookieLineageCheckResultUnknown : string := "Unknown".

Record RestoreSource := mkRestoreSource { rsDestination : BackupDestination; rsArtifactURI : string }.

Record RestoreSpec := mkRestoreSpec {
  Source : RestoreSource;
  TargetClusterRef : string;
  SkipEphemeral : option bool;
  CookieLineagePolicy : string
}.

Record CookieLineageCheck := mkCheck { clResult : string; clDetail : string }.

Record RestoreStatus := mkRestoreStatus {
  reStatusPhase : string;
  reKeysRestored : Z;
  reCheck : CookieLineageCheck;
  reObservedGeneration : Z;
  reConditions : list Condition
}.

Record Restore := mkRestore {
  reName : string;
  reNamespace : string;
  reUID : string;
  reGeneration : Z;
  reSpec : RestoreSpec;
  reStatus : RestoreStatus
}.

#[export] Instance CookieLineageCheck_eq_dec : EqDecision CookieLineageCheck.
Proof. solve_decision. Defined.
#[export] Instance RestoreStatus_eq_dec : EqDecision RestoreStatus.
Proof. solve_decision. Defined.

Definition reKey (r : Restore) : NamespacedName := mkNN (reNamespace r) (reName r).

Definition skipEphemeralEnabled (spec : RestoreSpec) : bool := default true (SkipEphemeral spec).

Definition cookieLineagePolicy (spec : RestoreSpec) : string :=
  if String.eqb (CookieLineagePolicy spec) "" then CookieLineagePolicyEnforce
  else CookieLineagePolicy spec.

Module RestoreCtl.

Definition conditionTypeImportSucceeded : string := "ImportSucceeded".
Definition reasonPending : string := "Pending".
Definition reasonRunning : string := "Running".
Definition reasonCompleted : string := "Completed".
Definition reasonClusterNotFound : string := "ClusterNotFound".
Definition reasonOperatorImage : string := "OperatorImageNotConfigured".
Definition reasonImportJobFailed : string := "ImportJobFailed".
Definition reasonImportResultUnreadable : string := "ImportResultUnreadable".
Definition reasonArtifactNotFound : string := "ArtifactNotFound".
Definition reasonManifestUnreadable : string := "ManifestUnreadable".
Definition reasonCookieLineageMismatch : string := "CookieLineageMismatch".
Definition importPollInterval : Z := 15 * Second.
Definition importStuckGracePeriod : Z := 5 * Minute.

(** * The import Job *)

Definition restoreComponentName : string := "restore-import".
Definition importContainerName : string := "restore-import".
Definition ImportCommandName : string := "backup-import".
Definition importJobBackoffLimit : Z := 3.
Definition importJobActiveDeadlineSeconds : Z := 3600.
Definition oxiaFlagName : string := "--oxia".

Definition restoreJobName (restoreName : string) : string := restoreName ++! "-import".

Definition buildImportJob (r : Restore) (clusterName srcKey image : string) : JobObject :=
  let labels := Labels (reName r) restoreComponentName in
  let dest := rsDestination (Source (reSpec r)) in
  let args := [ImportCommandName; oxiaFlagName; oxiaExportAddress clusterName;
               "--src-driver"; dDriver dest; "--src-key"; srcKey;
               "--result-path"; terminationMessagePath] in
  let args := appendFlagIfSet args "--src-bucket" (dBucket dest) in
  let args := appendFlagIfSet args "--src-region" (dRegion dest) in
  let args := appendFlagIfSet args "--src-endpoint" (dEndpoint dest) in
  let args := appendFlagIfSet args "--src-prefix" (dPrefix dest) in
  let args := if skipEphemeralEnabled (reSpec r) then args else args ++ ["--include-ephemeral"] in
  mkJobObject (restoreJobName (reName r)) (reNamespace r) labels (reUID r)
    importJobBackoffLimit importJobActiveDeadlineSeconds importContainerName image
    [managerBinary] args (destCredentialEnv dest) terminationMessagePath
    (destCredentialVolumeMounts dest) (destCredentialVolumes dest).

(** * Calls *)

(** The object store's answer to a download: absent, another failure, or the
    content as a stream of manifest lines. *)
Inductive DownloadReply :=
| Missing (e : goerr)
| DownloadFailed (e : goerr)
| Content (ls : list line).

Inductive call :=
| GetRestore (nn : NamespacedName)
| GetCluster (nn : NamespacedName)
| GetSecret (nn : NamespacedName)
| GetJob (nn : NamespacedName)
| SetOwner (ownerUID : string)
| CreateJob (job : JobObject)
| ListPods (ns : string) (selector : gmap string string)
| StatusPatch (base updated : Restore)
| Oxia (address : string) (c : Manifest.call)
| NewStore (cfg : Config)
| Download (cfg : Config) (key : string)
| Now
| Eventf (r : Restore) (ty : EventType) (reason note : string).

Definition ans (c : call) : Type :=
  match c with
  | GetRestore _ => res Restore
  | GetCluster _ => res string
  | GetSecret _ => res (gmap string string)
  | GetJob _ => res Job
  | SetOwner _ => res unit
  | CreateJob _ => res unit
  | ListPods _ _ => res (list Pod)
  | StatusPatch _ _ => res unit
  | Oxia _ c => Manifest.ans c
  | NewStore _ => res unit
  | Download _ _ => DownloadReply
  | Now => Z
  | Eventf _ _ _ _ => unit
  end.

Section Reconciler.
Context `{AM : !ApiMeta} (operatorImage : string) (parseImportResult : string → res ImportResult).

Abbreviation M := (prog ans (Restore * res Result)).

(** * Status *)

Definition withStatus (f : RestoreStatus → RestoreStatus) (r : Restore) : Restore :=
  mkRestore (reName r) (reNamespace r) (reUID r) (reGeneration r) (reSpec r) (f (reStatus r)).

Definition setPhase (phase : string) (r : Restore) : Restore :=
  withStatus (λ s, mkRestoreStatus phase (reKeysRestored s) (reCheck s) (reObservedGeneration s)
    (reConditions s)) r.

Definition setCheck (chk : CookieLineageCheck) (r : Restore) : Restore :=
  withStatus (λ s, mkRestoreStatus (reStatusPhase s) (reKeysRestored s) chk
    (reObservedGeneration s) (reConditions s)) r.

Definition setImportCondition (st : ConditionStatus) (reason msg : string) (r : Restore) : Restore :=
  withStatus (λ s, mkRestoreStatus (reStatusPhase s) (reKeysRestored s) (reCheck s)
    (reObservedGeneration s)
    (setCond (reConditions s)
       (newCondition conditionTypeImportSucceeded st (reGeneration r) reason msg))) r.

Definition setInProgress (phase reason message : string) (r : Restore) : Restore :=
  setImportCondition ConditionFalse reason message (setPhase phase r).

Definition fail (r : Restore) (reason message : string) : prog ans Restore :=
  let r := setImportCondition ConditionFalse reason message (setPhase RestorePhaseFailed r) in
  (let! _ := perform ans (Eventf r EventTypeWarning reason message) in Ret r)%prog.

Definition reportStuck (r : Restore) (reason message : string) : prog ans Restore :=
  let changed :=
    match FindStatusCondition (reConditions (reStatus r)) conditionTypeImportSucceeded with
    | None => true
    | Some prior => negb (String.eqb (cReason prior) reason)
    end in
  let r := setInProgress RestorePhasePending reason message r in
  if changed then
    (let! _ := perform ans (Eventf r EventTypeWarning reason message) in Ret r)%prog
  else Ret r.

(** * The cookie-lineage gate *)

Record lineageDecision := mkLineage { ldCheck : CookieLineageCheck; ldHalt : bool; ldReason : string }.

Definition pass (detail : string) : lineageDecision :=
  mkLineage (mkCheck CookieLineageCheckResultPassed detail) false "".

Definition gateOnPolicy (r : Restore) (result detail : string) : lineageDecision :=
  if String.eqb (cookieLineagePolicy (reSpec r)) CookieLineagePolicyOverride then
    mkLineage (mkCheck result detail) false ""
  else mkLineage (mkCheck result detail) true reasonCookieLineageMismatch.

(** The classes of error the caller tells apart. *)
Inductive HeaderRead :=
| HeaderOk (h : ManifestHeader)
| HeaderNotExist (e : goerr)
| HeaderUndecodable (e : goerr)
| HeaderError (e : goerr).

Definition applySourceCredentials (cfg : Config) (driver : string) (data : gmap string string) : Config :=
  let get k := default "" (data !! k) in
  if String.eqb driver DriverAWSS3 then
    mkConfig (Driver cfg) (Bucket cfg) (Region cfg) (Endpoint cfg) (Prefix cfg)
      (get envAWSAccessKeyID) (get envAWSSecretAccessKey) (AzureAccount cfg) (AzureAccessKey cfg)
      (GCSCredentialsJSON cfg)
  else if String.eqb driver DriverAzureBlob then
    mkConfig (Driver cfg) (Bucket cfg) (Region cfg) (Endpoint cfg) (Prefix cfg)
      (AWSAccessKeyID cfg) (AWSSecretAccessKey cfg) (get envAzureStorageAccount)
      (get envAzureStorageAccessKey) (GCSCredentialsJSON cfg)
  else if String.eqb driver DriverGCS then
    mkConfig (Driver cfg) (Bucket cfg) (Region cfg) (Endpoint cfg) (Prefix cfg)
      (AWSAccessKeyID cfg) (AWSSecretAccessKey cfg) (AzureAccount cfg) (AzureAccessKey cfg)
      (get gcsKeySecretKey)
  else cfg.

(** The source configuration with the credentials of the referenced Secret. *)
Definition sourceConfig (r : Restore) : prog ans (res Config) :=
  let dest := rsDestination (Source (reSpec r)) in
  let cfg := destConfig dest in
  match dCredentialsSecretRef dest with
  | None => Ret (Ok cfg)
  | Some name =>
      (try! ["getting source credentials secret " ++! quote name] data :=
         perform ans (GetSecret (mkNN (reNamespace r) name)) in
       Ret (Ok (applySourceCredentials cfg (dDriver dest) data)))%prog
  end.

Definition readManifestHeader (r : Restore) (key : string) : prog ans HeaderRead :=
  (let! cfg := sourceConfig r in
   match cfg with
   | Err e => Ret (HeaderError e)
   | Ok cfg =>
       let! store := perform ans (NewStore cfg) in
       match store with
       | Err e => Ret (HeaderError (Errorf "constructing object store for source.destination" e))
       | Ok _ =>
           let! reply := perform ans (Download cfg key) in
           Ret (match reply with
                | Missing e => HeaderNotExist e
                | DownloadFailed e => HeaderError e
                | Content ls =>
                    match ReadManifestHeader ls with
                    | Err e => HeaderUndecodable
                        (ErrPlain ("manifest header could not be decoded: " ++! error_text e))
                    | Ok h => HeaderOk h
                    end
                end)
       end
   end)%prog.

Definition oxiaAt (address : string) {A} (p : prog Manifest.ans A) : prog ans A :=
  hoist (λ c, perform ans (Oxia address c)) p.

Definition checkCookieLineage (r : Restore) (clusterName srcKey : string) :
    prog ans (res lineageDecision) :=
  (let! target := oxiaAt (oxiaExportAddress clusterName) ReadTargetInstanceID in
   match target with
   | Err e => Ret (Err (Errorf "reading target Oxia instanceId" e))
   | Ok None => Ret (Ok (pass "target Oxia has no existing BookKeeper instanceId (fresh cluster); the backup's captured lineage will be adopted by the import"))
   | Ok (Some targetInstanceID) =>
       let! header := readManifestHeader r srcKey in
       Ret (match header with
            | HeaderNotExist _ =>
                Ok (mkLineage (mkCheck CookieLineageCheckResultUnknown
                      ("backup artifact " ++! quote (rsArtifactURI (Source (reSpec r))) ++! " was not found"))
                      true reasonArtifactNotFound)
            | HeaderUndecodable e =>
                Ok (mkLineage (mkCheck CookieLineageCheckResultUnknown
                      ("backup manifest could not be read: " ++! error_text e))
                      true reasonManifestUnreadable)
            | HeaderError e => Err e
            | HeaderOk h =>
                let captured := mhCapturedInstanceID h in
                if String.eqb captured "" then
                  Ok (gateOnPolicy r CookieLineageCheckResultUnknown
                        ("target instanceId is " ++! quote targetInstanceID ++!
                         " but the backup manifest has no captured instanceId (its bookkeeper namespace wasn't captured, or predates cluster init); lineage cannot be verified"))
                else if String.eqb captured targetInstanceID then
                  Ok (pass ("target instanceId " ++! quote targetInstanceID ++!
                            " matches the backup's captured instanceId"))
                else
                  Ok (gateOnPolicy r CookieLineageCheckResultMismatch
                        ("target instanceId " ++! quote targetInstanceID ++!
                         " does not match the backup's captured instanceId " ++! quote captured))
            end)
   end)%prog.

(** * The Job's pods *)

Definition importPodWedge (pod : Pod) : option podStuckInfo :=
  wedgeOf importContainerName "source.destination.credentialsSecretRef"
    "source destination volume/secret" (podCreationTimestamp pod) (podContainerStatuses pod).

Definition listJobPods (r : Restore) : prog ans (res (list Pod)) :=
  perform ans (ListPods (reNamespace r) (SelectorLabels (reName r) restoreComponentName)).

Definition podStuck (r : Restore) (job : Job) : prog ans (res podStuckInfo) :=
  (try! ["listing import job pods"] pods := listJobPods r in
   Ret (Ok (firstHard importPodWedge (jobUID job) notStuck pods)))%prog.

Definition readImportResult (r : Restore) (job : Job) : prog ans (res (option ImportResult)) :=
  (try! ["listing import job pods to read result"] pods := listJobPods r in
   Ret (Ok (match terminationMessage importContainerName (jobUID job) pods with
            | None => None
            | Some msg =>
                match parseImportResult msg with
                | Err _ => None
                | Ok x => Some x
                end
            end)))%prog.

Definition handleStuck (r : Restore) (jobName : string) (info : podStuckInfo) :
    prog ans (Restore * Result) :=
  (let! now := perform ans Now in
   let elapsed := Sub now (since info) in
   let message := "import job " ++! quote jobName ++! " " ++! stuckMessage info in
   if hard info && (elapsed >=? importStuckGracePeriod) then
     let! r := fail r (stuckReason info) message in Ret (r, emptyResult)
   else if hard info then
     let! r := reportStuck r (stuckReason info) message in Ret (r, mkResult importPollInterval)
   else if elapsed >=? importStuckGracePeriod then
     let! r := fail r reasonPodStartTimeout message in Ret (r, emptyResult)
   else
     Ret (setInProgress RestorePhasePending reasonPending
            ("import job " ++! quote jobName ++! " pod is starting") r,
          mkResult importPollInterval))%prog.

(** * Progress *)

Definition createImportJob (r : Restore) (clusterName srcKey : string) : M :=
  let job := buildImportJob r clusterName srcKey operatorImage in
  (let! own := perform ans (SetOwner (reUID r)) in
   match own with
   | Err e => Ret (r, Err (Errorf "setting owner reference on import job" e))
   | Ok _ =>
       let! created := perform ans (CreateJob job) in
       match created with
       | Err e => Ret (r, Err (Errorf "creating import job" e))
       | Ok _ =>
           Ret (setInProgress RestorePhasePending reasonPending
                  ("import job " ++! quote (joName job) ++! " created") r,
                Ok (mkResult importPollInterval))
       end
   end)%prog.

Definition recordRestored (n : Z) (r : Restore) : Restore :=
  withStatus (λ s, mkRestoreStatus RestorePhaseCompleted n (reCheck s) (reObservedGeneration s)
    (reConditions s)) r.

Definition completeFromJob (r : Restore) (job : Job) : M :=
  (let! read := readImportResult r job in
   match read with
   | Err e => Ret (r, Err e)
   | Ok None =>
       let! r := fail r reasonImportResultUnreadable
         ("import job " ++! quote (jobName job) ++! " reported success but no readable result was found in its pod termination message; the restore's effect cannot be verified") in
       Ret (r, Ok emptyResult)
   | Ok (Some x) =>
       let message := "restored " ++! %d (irKeysRestored x) ++! " Oxia key(s) from " ++!
                      rsArtifactURI (Source (reSpec r)) in
       let r := setImportCondition ConditionTrue reasonCompleted message
                  (recordRestored (irKeysRestored x) r) in
       let! _ := perform ans (Eventf r EventTypeNormal reasonCompleted
         (message ++! " (capturedInstanceId=" ++! quote (irCapturedInstanceID x) ++! ")")) in
       Ret (r, Ok emptyResult)
   end)%prog.

Definition reconcileImportJob (r : Restore) (clusterName srcKey : string) : M :=
  let name := restoreJobName (reName r) in
  (let! got := perform ans (GetJob (mkNN (reNamespace r) name)) in
   match got with
   | Err e =>
       if IsNotFound e then createImportJob r clusterName srcKey
       else Ret (r, Err (Errorf ("getting import job " ++! quote name) e))
   | Ok job =>
       if jobSucceeded job then completeFromJob r job
       else if jobFailedPermanently job then
         let! r := fail r reasonImportJobFailed ("import job " ++! quote name ++! " failed") in
         Ret (r, Ok emptyResult)
       else
         let! info := podStuck r job in
         match info with
         | Err e => Ret (r, Err e)
         | Ok info =>
             if stuck info then
               let! x := handleStuck r name info in Ret (x.1, Ok x.2)
             else if jobActive job >? 0 then
               Ret (setInProgress RestorePhaseRunning reasonRunning
                      ("import job " ++! quote name ++! " is running") r,
                    Ok (mkResult importPollInterval))
             else
               Ret (setInProgress RestorePhasePending reasonPending
                      ("import job " ++! quote name ++! " is starting") r,
                    Ok (mkResult importPollInterval))
         end
   end)%prog.

(** The gate is skipped once a result is recorded. *)
Definition gate (r : Restore) (clusterName srcKey : string) : M :=
  if negb (String.eqb (clResult (reCheck (reStatus r))) "") then
    reconcileImportJob r clusterName srcKey
  else
    (let! decision := checkCookieLineage r clusterName srcKey in
     match decision with
     | Err e => Ret (r, Err e)
     | Ok d =>
         let r := setCheck (ldCheck d) r in
         if ldHalt d then
           let! r := fail r (ldReason d) (clDetail (ldCheck d)) in Ret (r, Ok emptyResult)
         else
           let! _ :=
             if negb (String.eqb (clResult (ldCheck d)) CookieLineageCheckResultPassed) then
               perform ans (Eventf r EventTypeWarning reasonCookieLineageMismatch
                 ("cookie lineage check result=" ++! clResult (ldCheck d) ++!
                  " (cookieLineagePolicy=override, proceeding anyway): " ++! clDetail (ldCheck d)))
             else Ret tt in
           reconcileImportJob r clusterName srcKey
     end)%prog.

Definition advance (r : Restore) : M :=
  if String.eqb operatorImage "" then
    (let! r := fail r reasonOperatorImage
       "operator image is not configured; set the OPERATOR_IMAGE env on the controller-manager" in
     Ret (r, Ok emptyResult))%prog
  else
    let clusterKey := mkNN (reNamespace r) (TargetClusterRef (reSpec r)) in
    (let! cluster := perform ans (GetCluster clusterKey) in
     match cluster with
     | Err e =>
         if IsNotFound e then
           let! r := fail r reasonClusterNotFound
             ("target PulsarCluster " ++! quote (nnName clusterKey) ++! " not found in namespace " ++!
              quote (nnNamespace clusterKey)) in
           Ret (r, Ok emptyResult)
         else Ret (r, Err (Errorf ("getting target PulsarCluster " ++! quote (nnName clusterKey)) e))
     | Ok clusterName =>
         match KeyFromURI (destConfig (rsDestination (Source (reSpec r)))) (rsArtifactURI (Source (reSpec r))) with
         | Err e =>
             let! r := fail r reasonArtifactNotFound
               ("cannot resolve source.artifactURI " ++! quote (rsArtifactURI (Source (reSpec r))) ++!
                " against source.destination: " ++! error_text e) in
             Ret (r, Ok emptyResult)
         | Ok srcKey => gate r clusterName srcKey
         end
     end)%prog.

Definition restoreStatusEqual (a b : RestoreStatus) : bool := bool_decide (a = b).

Definition patchStatus (base updated : Restore) : prog ans (res unit) :=
  if restoreStatusEqual (reStatus base) (reStatus updated) then Ret (Ok tt)
  else perform ans (StatusPatch base updated).

Definition terminalPhase (phase : string) : bool :=
  String.eqb phase RestorePhaseCompleted || String.eqb phase RestorePhaseFailed.

Definition observeGeneration (r : Restore) : Restore :=
  withStatus (λ s, mkRestoreStatus (reStatusPhase s) (reKeysRestored s) (reCheck s)
    (reGeneration r) (reConditions s)) r.

Definition Reconcile (req : NamespacedName) : prog ans (res Result) :=
  (let! got := perform ans (GetRestore req) in
   match got with
   | Err e => Ret (ignore_not_found e)
   | Ok base =>
       if terminalPhase (reStatusPhase (reStatus base)) then Ret (Ok emptyResult)
       else
         let! out := advance (observeGeneration base) in
         let! patched := patchStatus base out.1 in
         Ret (match out.2, patched with
              | Err e, _ => Err e
              | Ok x, Ok _ => Ok x
              | Ok _, Err e => Err e
              end)
   end)%prog.

End Reconciler.
End RestoreCtl.
