(* ===== verification/RestoreProps.v ===== *)
(** Safety of the Restore controller: no import Job without lineage.

    A [history] is what any number of reconciles of any Restores did, in
    order, each possibly cut short by a crash after any call.  The only
    assumption on the answers is that the phase and the recorded lineage
    check of a fetched Restore are what this controller last wrote there. *)

From S2P Require Import Prelude Effects Kube ObjectStore BackupTypes Manifest Restore.
Import RestoreCtl.
Open Scope Z_scope.
Open Scope go_scope.

Abbreviation hist := (list (Effects.event RestoreCtl.ans)).

Definition recorded : Type := string * CookieLineageCheck.

Definition record (s : NamespacedName → recorded) (e : Effects.event ans) : NamespacedName → recorded :=
  match e with
  | Ev c x =>
      match c return ans c → NamespacedName → recorded with
      | StatusPatch _ upd => λ x k,
          if decide (res_is_ok x = true ∧ k = reKey upd)
          then (reStatusPhase (reStatus upd), reCheck (reStatus upd)) else s k
      | _ => λ _, s
      end x
  end.

Definition store (h : hist) : NamespacedName → recorded := foldl record (λ _, ("", mkCheck "" "")) h.

Definition rely (h : hist) (e : Effects.event ans) : Prop :=
  match e with
  | Ev c x =>
      match c return ans c → Prop with
      | GetRestore nn => λ x,
          match x with
          | Ok r => reKey r = nn ∧ (reStatusPhase (reStatus r), reCheck (reStatus r)) = store h nn
          | Err _ => True
          end
      | _ => λ _, True
      end x
  end.

(** * Lineage evidence *)

Definition evScan (cl : string) (rs : list ScanResult) : Effects.event ans :=
  Ev (Oxia (oxiaExportAddress cl) (RangeScanAll BookkeeperNamespace)) rs.

(** A scan of the target's bookkeeper namespace that did not fail before it
    came to an instanceId, or to the end of the namespace. *)
Definition found (rs : list ScanResult) (id : option string) : Prop :=
  match id with
  | None => ∃ ss, rs = Ok <$> ss ∧ Forall (λ s, isBookKeeperInstanceIDKey (scKey s) = false) ss
  | Some id =>
      ∃ ss s rest, rs = (Ok <$> ss) ++ Ok s :: rest ∧
        Forall (λ s, isBookKeeperInstanceIDKey (scKey s) = false) ss ∧
        isBookKeeperInstanceIDKey (scKey s) = true ∧ scValue s = id
  end.

Definition targetHas (h : hist) (cl : string) (id : option string) : Prop :=
  ∃ rs, evScan cl rs ∈ h ∧ found rs id.

(** The store the Restore names, with the credentials of the Secret it names. *)
Definition sourceStore (h : hist) (r : Restore) (cfg : Config) : Prop :=
  let dest := rsDestination (Source (reSpec r)) in
  match dCredentialsSecretRef dest with
  | None => cfg = destConfig dest
  | Some name =>
      ∃ data, Ev (GetSecret (mkNN (reNamespace r) name)) (Ok data) ∈ h ∧
        cfg = applySourceCredentials (destConfig dest) (dDriver dest) data
  end.

(** The artifact the Restore names, in the store it names, captured [id]. *)
Definition artifactHas (h : hist) (r : Restore) (id : string) : Prop :=
  ∃ cfg key ls hd,
    sourceStore h r cfg ∧ Ev (NewStore cfg) (Ok tt) ∈ h ∧
    KeyFromURI (destConfig (rsDestination (Source (reSpec r)))) (rsArtifactURI (Source (reSpec r)))
      = Ok key ∧
    Ev (Download cfg key) (Content ls) ∈ h ∧ ReadManifestHeader ls = Ok hd ∧ mhCapturedInstanceID hd = id.

(** The target has no lineage yet, or it is the backup's. *)
Definition lineageMatches (h : hist) (r : Restore) (cl : string) : Prop :=
  targetHas h cl None ∨ ∃ id, id ≠ "" ∧ targetHas h cl (Some id) ∧ artifactHas h r id.

(** The lineage of the target was read, and it matches or need not. *)
Definition lineageChecked (h : hist) (r : Restore) (cl : string) : Prop :=
  lineageMatches h r cl ∨
  cookieLineagePolicy (reSpec r) = CookieLineagePolicyOverride ∧ ∃ id, targetHas h cl (Some id).

Definition lineageOK (h : hist) (k : NamespacedName) : Prop :=
  ∃ r cl, Ev (GetRestore k) (Ok r) ∈ h ∧ reKey r = k ∧
    Ev (GetCluster (mkNN (reNamespace r) (TargetClusterRef (reSpec r)))) (Ok cl) ∈ h ∧
    lineageChecked h r cl.

(** The status may record a lineage result on a Restore that goes on only
    with evidence for it. *)
Definition claimable (h : hist) (r : Restore) : Prop :=
  clResult (reCheck (reStatus r)) ≠ "" →
  terminalPhase (reStatusPhase (reStatus r)) = true ∨ lineageOK h (reKey r).

Definition permitted (h : hist) (c : call) : Prop :=
  match c with
  | CreateJob job => ∃ k, joName job = restoreJobName (nnName k) ∧ joNamespace job = nnNamespace k ∧
      lineageOK h k
  | StatusPatch _ upd => claimable h upd
  | _ => True
  end.

Lemma targetHas_mono h h' cl id : h ⊆ h' → targetHas h cl id → targetHas h' cl id.
Proof. intros Hs (rs & ? & ?). exists rs. auto. Qed.

Lemma sourceStore_mono h h' r cfg : h ⊆ h' → sourceStore h r cfg → sourceStore h' r cfg.
Proof. unfold sourceStore. destruct (dCredentialsSecretRef _); naive_solver. Qed.

Lemma artifactHas_mono h h' r id : h ⊆ h' → artifactHas h r id → artifactHas h' r id.
Proof.
  intros Hs (cfg & key & ls & hd & Hc & ?). exists cfg, key, ls, hd.
  split; [by eapply sourceStore_mono|]. naive_solver.
Qed.

Lemma lineageChecked_mono h h' r cl : h ⊆ h' → lineageChecked h r cl → lineageChecked h' r cl.
Proof.
  unfold lineageChecked, lineageMatches.
  naive_solver eauto using targetHas_mono, artifactHas_mono.
Qed.

Lemma lineageOK_mono h h' k : h ⊆ h' → lineageOK h k → lineageOK h' k.
Proof.
  intros Hs (r & cl & ? & ? & ? & Hl). exists r, cl. split_and!; auto.
  by eapply lineageChecked_mono.
Qed.

Definition inv (h : hist) : Prop :=
  ∀ k, clResult (store h k).2 ≠ "" → terminalPhase (store h k).1 = true ∨ lineageOK h k.

Lemma restore_store_snoc h e : store (h ++ [e]) = record (store h) e.
Proof. unfold store. by rewrite foldl_app. Qed.

Lemma restore_inv_snoc h e : inv h → permitted h (ev_call e) → inv (h ++ [e]).
Proof.
  intros Hi Hp k. rewrite restore_store_snoc. intros Hs.
  assert (∀ X, X ∨ lineageOK h k → X ∨ lineageOK (h ++ [e]) k) as Hold.
  { intros X [?|?]; [by left|right]. eapply lineageOK_mono; [|done]. set_solver. }
  destruct e as [[] x]; simpl in *; try (by apply Hold, Hi).
  case_decide as Hd; [|by apply Hold, Hi]. destruct Hd as [_ ->]. apply Hold, Hp, Hs.
Qed.

Lemma restore_inv_guaranteed h t : inv h → guaranteed permitted h t → inv (h ++ t).
Proof.
  revert h. induction t as [|e t IH]; intros h Hi Hg; [by rewrite app_nil_r|].
  rewrite cons_middle, assoc by apply _. apply IH.
  - apply restore_inv_snoc; [done|]. specialize (Hg [] e t eq_refl). by rewrite app_nil_r in Hg.
  - intros t1 e' t2 ->. specialize (Hg (e :: t1) e' t2 eq_refl). by rewrite <- (assoc_L (++)).
Qed.

(** * The handlers *)

Section Handlers.
Context `{AM : !ApiMeta} (operatorImage : string) (parseImportResult : string → res ImportResult).

Abbreviation WP p Q h := (wp permitted rely p Q h).

Definition harmless (c : call) : Prop :=
  match c with CreateJob _ | StatusPatch _ _ => False | _ => True end.

Lemma restore_wp_harmless {A} (p : prog ans A) (Q : A → hist → Prop) h :
  only harmless p → (∀ a es, Q a (h ++ es)) → WP p Q h.
Proof.
  revert h. induction p as [a|c k IH]; intros h; simpl.
  - intros _ HQ. specialize (HQ a []). by rewrite app_nil_r in HQ.
  - intros [Hc Hk] HQ. split; [by destruct c|]. intros x _. apply IH; [done|].
    intros a es. rewrite <- (assoc_L (++)). apply HQ.
Qed.

(** What a handler leaves of the object it was given. *)
Definition settles (r : Restore) (out : Restore * res Result) (h : hist) : Prop :=
  reKey out.1 = reKey r ∧ claimable h out.1.

Lemma wp_fail_settles r r0 reason msg res0 h :
  reKey r = reKey r0 →
  WP (bind (fail r reason msg) (λ r', Ret (r', Ok res0))) (settles r0) h.
Proof.
  intros Hk. simpl. split; [done|]. intros [] _. split; [done|]. intros _. by left.
Qed.

(** ** After the gate *)

Section Licensed.
Context (r : Restore) (h0 : hist).
Context (Hok : lineageOK h0 (reKey r)).

(** Anything that only changes phase, conditions and counters settles. *)
Lemma settles_licensed r' x h :
  h0 ⊆ h → reKey r' = reKey r → settles r (r', x) h.
Proof.
  intros Hs Hk. split; [done|]. intros _. right. simpl. rewrite Hk. by eapply lineageOK_mono.
Qed.

Lemma restore_wp_reportStuck r1 reason msg (Q : Restore → hist → Prop) h :
  (∀ es, Q (setInProgress RestorePhasePending reason msg r1) (h ++ es)) →
  WP (reportStuck r1 reason msg) Q h.
Proof.
  intros HQ. pose proof (HQ []) as HQ0. rewrite app_nil_r in HQ0. unfold reportStuck.
  destruct (FindStatusCondition _ _) as [prior|]; [destruct (negb _)|]; simpl; try done;
    (split; [done|]); intros [] _; apply HQ.
Qed.

Lemma settles_handleStuck name info h :
  h0 ⊆ h → WP (bind (handleStuck r name info) (λ x, Ret (x.1, Ok x.2))) (settles r) h.
Proof.
  intros Hs. apply wp_bind. unfold handleStuck. cbn -[fail reportStuck]. split; [done|]. intros now _.
  destruct (hard info && _).
  { apply wp_bind. simpl. split; [done|]. intros [] _. apply settles_licensed; [set_solver|done]. }
  destruct (hard info).
  { apply wp_bind, restore_wp_reportStuck. intros es. simpl. apply settles_licensed; [set_solver|done]. }
  destruct (_ >=? _).
  - apply wp_bind. simpl. split; [done|]. intros [] _. apply settles_licensed; [set_solver|done].
  - simpl. apply settles_licensed; [set_solver|done].
Qed.

Lemma settles_reconcileImportJob cl key h :
  h0 ⊆ h → WP (reconcileImportJob operatorImage parseImportResult r cl key) (settles r) h.
Proof.
  intros Hs. unfold reconcileImportJob. split; [done|].
  intros [job|e] _; cbn -[completeFromJob createImportJob handleStuck fail].
  2:{ destruct (IsNotFound e); simpl; [|by apply settles_licensed; [set_solver|done]].
      split; [done|]. intros [[]|e'] _; [|by apply settles_licensed; [set_solver|done]].
      split; [exists (reKey r); split_and!; [done|done|eapply lineageOK_mono, Hok; set_solver]|].
      intros [[]|e'] _; by apply settles_licensed; [set_solver|]. }
  destruct (jobSucceeded job).
  { unfold completeFromJob, readImportResult, listJobPods. cbn -[fail]. split; [done|].
    intros [pods|e] _; cbn -[fail]; [|by apply settles_licensed; [set_solver|done]].
    destruct (terminationMessage _ _ _) as [msg|]; [destruct (parseImportResult msg)|];
      cbn; (split; [done|]); intros [] _; by apply settles_licensed; [set_solver|]. }
  destruct (jobFailedPermanently job).
  { cbn. split; [done|]. intros [] _. by apply settles_licensed; [set_solver|]. }
  unfold podStuck, listJobPods. cbn -[handleStuck]. split; [done|].
  intros [pods|e] _; cbn -[handleStuck]; [|by apply settles_licensed; [set_solver|done]].
  destruct (stuck _); [apply settles_handleStuck; set_solver|].
  destruct (_ >? _); cbn; by apply settles_licensed; [set_solver|].
Qed.
End Licensed.

(** ** The gate *)

Lemma found_cons s rs id :
  isBookKeeperInstanceIDKey (scKey s) = false → found rs id → found (Ok s :: rs) id.
Proof.
  intros Hk. destruct id as [id|].
  - intros (ss & s' & rest & -> & Hss & ?). exists (s :: ss), s', rest. split; [done|]. auto.
  - intros (ss & -> & Hss). exists (s :: ss). auto.
Qed.

Lemma wp_findInstanceID addr rs (Q : res (option string) → hist → Prop) h :
  (∀ o es, (∀ x, o = Ok x → found rs x) → Q o (h ++ es)) →
  WP (oxiaAt addr (findInstanceID rs)) Q h.
Proof.
  revert h. induction rs as [|x rs IH]; intros h HQ; simpl.
  { specialize (HQ (Ok None) []). rewrite app_nil_r in HQ. apply HQ. intros ? [= <-]. by exists []. }
  split; [done|]. intros [e|] _; simpl; [by apply HQ|].
  destruct x as [s|e]; [|by apply HQ].
  destruct (isBookKeeperInstanceIDKey (scKey s)) eqn:Ek; simpl.
  - apply HQ. intros ? [= <-]. by exists [], s, rs.
  - apply IH. intros o es Ho. rewrite <- (assoc_L (++)). apply HQ. intros x Hx.
    by apply found_cons, Ho.
Qed.

Lemma wp_ReadTargetInstanceID cl (Q : res (option string) → hist → Prop) h :
  (∀ o es, (∀ x, o = Ok x → targetHas (h ++ es) cl x) → Q o (h ++ es)) →
  WP (oxiaAt (oxiaExportAddress cl) ReadTargetInstanceID) Q h.
Proof.
  intros HQ. unfold ReadTargetInstanceID, connect. simpl. split; [done|].
  intros [[]|e] _; simpl; [|by apply HQ]. split; [done|]. intros rs _. rewrite <- (assoc_L (++)).
  apply wp_findInstanceID. intros o es Ho. rewrite <- (assoc_L (++)). apply HQ.
  intros x Hx. exists rs. split; [set_solver|by apply Ho].
Qed.

Lemma wp_readManifestHeader r key (Q : HeaderRead → hist → Prop) h :
  KeyFromURI (destConfig (rsDestination (Source (reSpec r)))) (rsArtifactURI (Source (reSpec r))) = Ok key →
  (∀ o es, (∀ hd, o = HeaderOk hd → artifactHas (h ++ es) r (mhCapturedInstanceID hd)) → Q o (h ++ es)) →
  WP (readManifestHeader r key) Q h.
Proof.
  intros Hkey HQ. unfold readManifestHeader, sourceConfig.
  assert (∀ cfg es, sourceStore (h ++ es) r cfg → WP (bind (perform ans (NewStore cfg)) (λ store,
    match store with
    | Err e => Ret (HeaderError (Errorf "constructing object store for source.destination" e))
    | Ok _ => bind (perform ans (Download cfg key)) (λ reply,
        Ret (match reply with
             | Missing e => HeaderNotExist e
             | DownloadFailed e => HeaderError e
             | Content ls => match ReadManifestHeader ls with
                 | Err e => HeaderUndecodable
                     (ErrPlain ("manifest header could not be decoded: " ++! error_text e))
                 | Ok h => HeaderOk h
                 end
             end))
    end)) Q (h ++ es)) as Hrest.
  { intros cfg es Hcfg. simpl. split; [done|]. intros [[]|e] _; simpl; rewrite <- ?(assoc_L (++));
      [|by apply HQ]. split; [done|]. intros reply _. rewrite <- !(assoc_L (++)). apply HQ.
    intros hd. destruct reply as [e|e|ls]; [done..|].
    destruct (ReadManifestHeader ls) as [hd'|e] eqn:E; [|done]. intros [= ->].
    exists cfg, key, ls, hd. split; [eapply sourceStore_mono; [|exact Hcfg]; set_solver|].
    split; [set_solver|]. split; [done|]. split; [set_solver|done]. }
  unfold sourceStore in Hrest. destruct (dCredentialsSecretRef _) as [name|].
  - simpl. split; [done|]. intros [data|e] _; [|by apply HQ]. apply Hrest. exists data. set_solver.
  - specialize (Hrest (destConfig (rsDestination (Source (reSpec r)))) []). rewrite app_nil_r in Hrest.
    by apply Hrest.
Qed.

Lemma wp_checkCookieLineage r cl key (Q : res lineageDecision → hist → Prop) h :
  KeyFromURI (destConfig (rsDestination (Source (reSpec r)))) (rsArtifactURI (Source (reSpec r))) = Ok key →
  (∀ o es, (∀ d, o = Ok d → ldHalt d = false → lineageChecked (h ++ es) r cl) → Q o (h ++ es)) →
  WP (checkCookieLineage r cl key) Q h.
Proof.
  intros Hkey HQ. unfold checkCookieLineage. apply wp_bind, wp_ReadTargetInstanceID.
  intros o es Ho. destruct o as [[id|]|e]; simpl.
  - apply wp_bind, wp_readManifestHeader; [done|]. intros o es' Hh. rewrite <- (assoc_L (++)) in *.
    simpl. apply HQ. intros d Hd Hhalt.
    assert (targetHas (h ++ es ++ es') cl (Some id)) as Hid
      by (eapply targetHas_mono; [|exact (Ho _ eq_refl)]; set_solver).
    destruct o as [hd|e|e|e]; [|by simplify_eq/=..|done].
    specialize (Hh _ eq_refl).
    assert (∀ res0 det, ldHalt (gateOnPolicy r res0 det) = false →
      lineageChecked (h ++ es ++ es') r cl) as Hgate.
    { intros res0 det. unfold gateOnPolicy. destruct (String.eqb_spec (cookieLineagePolicy (reSpec r))
        CookieLineagePolicyOverride); [|done]. right. eauto. }
    destruct (String.eqb_spec (mhCapturedInstanceID hd) ""); [simplify_eq/=; by eapply Hgate|].
    destruct (String.eqb_spec (mhCapturedInstanceID hd) id) as [<-|];
      [|simplify_eq/=; by eapply Hgate].
    left. right. eauto.
  - apply HQ. intros d [= <-] _. left. left. exact (Ho _ eq_refl).
  - by apply HQ.
Qed.

Lemma settles_gate r r0 cl key h :
  reKey r = reKey r0 → reSpec r = reSpec r0 → reNamespace r = reNamespace r0 →
  KeyFromURI (destConfig (rsDestination (Source (reSpec r)))) (rsArtifactURI (Source (reSpec r))) = Ok key →
  Ev (GetRestore (reKey r0)) (Ok r0) ∈ h →
  Ev (GetCluster (mkNN (reNamespace r0) (TargetClusterRef (reSpec r0)))) (Ok cl) ∈ h →
  claimable h r → terminalPhase (reStatusPhase (reStatus r)) = false →
  WP (gate operatorImage parseImportResult r cl key) (settles r) h.
Proof.
  intros Hk Hsp Hns Hkey Hr Hc Hcl Hterm. unfold gate.
  destruct (String.eqb_spec (clResult (reCheck (reStatus r))) "") as [Ee|Ee]; cbn [negb].
  2:{ apply settles_reconcileImportJob with h; [|done]. destruct (Hcl Ee) as [?|?]; [congruence|done]. }
  apply wp_bind, wp_checkCookieLineage; [done|]. intros o es Ho.
  destruct o as [d|e]; cbn; [|by split; [|intros ?]]. 
  destruct (ldHalt d) eqn:Eh.
  { cbn. split; [done|]. intros [] _. split; [done|]. intros _. by left. }
  assert (lineageOK (h ++ es) (reKey (setCheck (ldCheck d) r))) as Hl.
  { change (reKey (setCheck (ldCheck d) r)) with (reKey r). rewrite Hk.
    exists r0, cl. split_and!; [set_solver|done|set_solver|].
    specialize (Ho _ eq_refl Eh).
    unfold lineageChecked, lineageMatches, artifactHas, sourceStore in *. by rewrite <- Hsp, <- Hns. }
  assert (∀ es', WP (reconcileImportJob operatorImage parseImportResult (setCheck (ldCheck d) r) cl key)
    (settles r) ((h ++ es) ++ es')) as Hrest.
  { intros es'. eapply wp_mono, (settles_reconcileImportJob _ _ Hl); [|set_solver]. done. }
  destruct (String.eqb_spec (clResult (ldCheck d)) CookieLineageCheckResultPassed); cbn [negb bind].
  - specialize (Hrest []). by rewrite app_nil_r in Hrest.
  - split; [done|]. intros [] _. apply Hrest.
Qed.

Lemma settles_advance r r0 h :
  reKey r = reKey r0 → reSpec r = reSpec r0 → reNamespace r = reNamespace r0 →
  Ev (GetRestore (reKey r0)) (Ok r0) ∈ h →
  claimable h r → terminalPhase (reStatusPhase (reStatus r)) = false →
  WP (advance operatorImage parseImportResult r) (settles r) h.
Proof.
  intros Hk Hsp Hns Hr Hcl Hterm. unfold advance.
  assert (∀ es, settles r (r, Ok emptyResult) (h ++ es)) as Hself.
  { intros es. split; [done|]. intros Hne. destruct (Hcl Hne); [by left|right].
    eapply lineageOK_mono; [|done]. set_solver. }
  destruct (String.eqb operatorImage ""); [by apply wp_fail_settles|].
  split; [done|]. intros [cl|e] _; cbn -[gate fail].
  2:{ destruct (IsNotFound e); [by apply wp_fail_settles|apply Hself]. }
  destruct (KeyFromURI _ _) as [key|e] eqn:Ekey; [|by apply wp_fail_settles].
  apply settles_gate with r0; try done; [set_solver| |].
  - rewrite <- Hsp, <- Hns. set_solver.
  - intros Hne. destruct (Hcl Hne); [by left|right]. eapply lineageOK_mono; [|done]. set_solver.
Qed.

Lemma restore_ok_Reconcile req h :
  inv h → WP (Reconcile operatorImage parseImportResult req) (λ _ _, True) h.
Proof.
  intros Hi. unfold Reconcile. split; [done|]. intros [base|e] Hrel; [|done].
  simpl in Hrel. destruct Hrel as [Hk Hst]. cbn -[advance patchStatus observeGeneration].
  destruct (terminalPhase (reStatusPhase (reStatus base))) eqn:Et; [done|].
  apply wp_bind. eapply wp_mono; [|apply settles_advance with base; try done].
  - intros [upd out] h' _ [_ Hcl]. apply wp_bind. unfold patchStatus.
    destruct (restoreStatusEqual _ _); [by destruct out|]. split; [done|].
    intros [[]|e] _; by destruct out.
  - rewrite <- Hk. set_solver.
  - intros Hne. right. change (reKey (observeGeneration base)) with (reKey base). rewrite Hk.
    change (reCheck (reStatus (observeGeneration base))) with (reCheck (reStatus base)) in Hne.
    specialize (Hi req). rewrite <- Hst in Hi. destruct (Hi Hne) as [?|?]; [simpl in *; congruence|].
    eapply lineageOK_mono; [|done]. set_solver.
Qed.

(** * Histories *)

Inductive history : hist → Prop :=
| history_start : history []
| history_reconcile h req t :
    history h → part (Reconcile operatorImage parseImportResult req) t → relies rely h t →
    history (h ++ t).

Lemma restore_history_permitted h : history h → inv h ∧ guaranteed permitted [] h.
Proof.
  induction 1 as [|h req t _ [Hi Hg] Hp Hr]; [split; [by intros k|by intros []]|].
  pose proof (wp_part _ _ _ _ _ _ (restore_ok_Reconcile req h Hi) Hp Hr) as Ht.
  split; [by apply restore_inv_guaranteed|by apply guaranteed_app].
Qed.

(** C10: No import without lineage.  Whenever any history of reconciles,
    crashes included, creates an import Job, the Restore it belongs to was
    fetched before, its target cluster was resolved, and a scan of the target's
    bookkeeper namespace either came to its end without an error and without an
    instanceId (a fresh cluster), or came without an error to a first
    instanceId.  That one equals the non-empty instanceId in the manifest read
    from the artifact the Restore names, in the store it names and with the
    credentials of the Secret it names; or the Restore's policy is [override]. *)
Theorem import_job_only_with_lineage h1 job x h2 :
  history (h1 ++ Ev (CreateJob job) x :: h2) →
  ∃ k, joName job = restoreJobName (nnName k) ∧ joNamespace job = nnNamespace k ∧ lineageOK h1 k.
Proof.
  intros [_ Hg]%restore_history_permitted. exact (Hg h1 (Ev (CreateJob job) x) h2 eq_refl).
Qed.

End Handlers.

(** * A concrete restore *)

Module RestoreDemo.

Definition demoDest : BackupDestination :=
  mkDestination DriverAWSS3 "backups" "us-east-1" "" "prod" None.

Definition demoRestore : Restore :=
  mkRestore "r1" "ns" "uid-r1" 1
    (mkRestoreSpec (mkRestoreSource demoDest "s3://backups/prod/b1.manifest") "pulsar" None "")
    (mkRestoreStatus "" 0 (mkCheck "" "") 0 []).

Definition demoHeader : ManifestHeader :=
  mkManifestHeader 1 "oxia:6648" DefaultNamespaces "id-1" [] 0 "" 0.

(** The target already has the lineage of the backup. *)
Definition serve (c : call) (s : unit) : ans c * unit :=
  (match c return ans c with
   | GetRestore _ => Ok demoRestore
   | GetCluster _ => Ok "pulsar"
   | GetSecret _ => Err (ErrNotFound "secret")
   | GetJob _ => Err (ErrNotFound "job")
   | SetOwner _ => Ok tt
   | CreateJob _ => Ok tt
   | ListPods _ _ => Ok []
   | StatusPatch _ _ => Ok tt
   | Oxia _ c =>
       match c return Manifest.ans c with
       | NewClient _ => Ok tt
       | RangeScanAll _ => [Ok (mkScanned "/ledgers/INSTANCEID" "id-1" zeroVersion)]
       | Put _ _ _ => Ok tt
       | CtxErr => None
       | WriteLine _ => Ok tt
       end
   | NewStore _ => Ok tt
   | Download _ _ => Content [LHeader demoHeader]
   | Now => 0
   | Eventf _ _ _ _ => tt
   end, s).

Definition noResult (_ : string) : res ImportResult := Err (ErrPlain "no result").

Definition demoProg := @Reconcile refApiMeta "operator:1" noResult (mkNN "ns" "r1").
Definition demoTrace : hist := (exec serve demoProg tt).2.
Definition demoJob : JobObject := buildImportJob demoRestore "pulsar" "b1.manifest" "operator:1".

Lemma restore_demo_history : @history refApiMeta "operator:1" noResult demoTrace.
Proof.
  apply (history_reconcile _ _ [] (mkNN "ns" "r1") demoTrace); [constructor| |].
  - exact (runs_part _ _ _ (exec_runs serve demoProg tt)).
  - vm_compute. repeat split.
Qed.

Lemma restore_demo_split :
  demoTrace = take 9 demoTrace ++ Ev (CreateJob demoJob) (Ok tt) :: drop 10 demoTrace.
Proof. vm_compute. reflexivity. Qed.

Lemma import_job_only_with_lineage_witness :
  ∃ k, joName demoJob = restoreJobName (nnName k) ∧ lineageOK (take 9 demoTrace) k.
Proof.
  destruct (@import_job_only_with_lineage refApiMeta "operator:1" noResult (take 9 demoTrace) demoJob
    (Ok tt) (drop 10 demoTrace)) as (k & H1 & _ & H2).
  - rewrite <- restore_demo_split. exact restore_demo_history.
  - by exists k.
Defined.

End RestoreDemo.
