(* ===== verification/BackupCLI.v ===== *)
(** The backup-export and backup-import subcommands of the manager
    (internal/backup: cli.go, upload.go, download.go, and the dispatch in
    cmd/main.go): flags, streams, the object store and the result file around
    the engine of Manifest.v. *)

From S2P Require Import Prelude Effects GoFlag ObjectStore ObjectTransfer BackupTypes BackupCtl Manifest Restore.
Open Scope Z_scope.
Open Scope go_scope.

Module BackupCLI.
Import BackupCtl(ExportResult, mkExportResult, ExportCommandName) RestoreCtl(ImportCommandName).

(** * Calls *)

(** [Engine] is Oxia and the lines written to a file or to stdout.  A file or
    the standard input is read as a stream of manifest lines. *)
Inductive call :=
| Engine (c : Manifest.call)
| Transfer (c : ObjectTransfer.call (content := list line))
| Stderr (text : string)
| Stdout (text : string)
| Create (path : string)
| Open (path : string)
| Stdin
| WriteFile (path data : string).

Definition ans (c : call) : Type :=
  match c with
  | Engine c => Manifest.ans c
  | Transfer c => ObjectTransfer.ans c
  | Open _ => res (list line)
  | Stdin => list line
  | _ => res unit
  end.

Abbreviation event := (Effects.event ans).

(** encoding/json: the result objects, and the bytes of an encoded line. *)
Class ManifestJSON := {
  MarshalExportResult : ExportResult → res string;
  MarshalImportResult : ImportResult → res string;
  encodedSize : line → Z
}.

Definition eol : string := String "010" EmptyString.
Definition stdioPath : string := "-".
Definition defaultResultPath : string := "/dev/termination-log".

(** * Flags *)

Fixpoint Split (s : string) (sep : Ascii.ascii) : list string :=
  match s with
  | EmptyString => [""]
  | String c s' =>
      if Ascii.eqb c sep then "" :: Split s' sep
      else match Split s' sep with w :: ws => String c w :: ws | [] => [String c ""] end
  end.

(** [strings.TrimSpace], on the white space of ASCII. *)
Definition isSpace (c : Ascii.ascii) : bool :=
  bool_decide (c ∈ [" "; "009"; "010"; "011"; "012"; "013"]%char).

Fixpoint trimLeft (s : string) : string :=
  match s with
  | String c s' => if isSpace c then trimLeft s' else s
  | EmptyString => ""
  end.

Fixpoint trimRight (s : string) : string :=
  match s with
  | EmptyString => ""
  | String c s' =>
      let t := trimRight s' in
      if isSpace c && String.eqb t "" then "" else String c t
  end.

Definition TrimSpace (s : string) : string := trimRight (trimLeft s).

Definition splitNamespaces (s : string) : list string :=
  filter (λ ns, ns ≠ "") (TrimSpace <$> Split s ",").

Fixpoint joinWith (sep : string) (ws : list string) : string :=
  match ws with
  | [] => ""
  | [w] => w
  | w :: ws' => w ++! sep ++! joinWith sep ws'
  end.

Record ExportFlags := mkExportFlags {
  efOxiaAddress : string;
  efOutPath : string;
  efNamespaces : list string;
  efDest : Config;
  efDestKey : string;
  efResultPath : string
}.

Definition exportFlagSet : list Flag := [
  mkFlag "oxia" "" false;
  mkFlag "out" stdioPath false;
  mkFlag "namespaces" (joinWith "," DefaultNamespaces) false;
  mkFlag "dest-driver" "" false;
  mkFlag "dest-bucket" "" false;
  mkFlag "dest-region" "" false;
  mkFlag "dest-endpoint" "" false;
  mkFlag "dest-prefix" "" false;
  mkFlag "dest-key" "" false;
  mkFlag "result-path" defaultResultPath false].

Definition exportFlagsOf (vals : values) : res ExportFlags :=
  let get := Get exportFlagSet vals in
  if String.eqb (get "oxia") "" then Err (ErrPlain (ExportCommandName ++! ": --oxia is required"))
  else if negb (String.eqb (get "dest-driver") "") && String.eqb (get "dest-key") "" then
    Err (ErrPlain (ExportCommandName ++! ": --dest-key is required when --dest-driver is set"))
  else
    Ok (mkExportFlags (get "oxia") (get "out") (splitNamespaces (get "namespaces"))
          (location (get "dest-driver") (get "dest-bucket") (get "dest-region")
             (get "dest-endpoint") (get "dest-prefix"))
          (get "dest-key") (get "result-path")).

Definition parseExportFlags (args : list string) : res ExportFlags :=
  match Parse exportFlagSet args ∅ with
  | Err e => Err e
  | Ok (vals, _) => exportFlagsOf vals
  end.

Record ImportFlags := mkImportFlags {
  ifOxiaAddress : string;
  ifInPath : string;
  ifSrc : Config;
  ifSrcKey : string;
  ifIncludeEphemeral : bool;
  ifResultPath : string
}.

Definition importFlagSet : list Flag := [
  mkFlag "oxia" "" false;
  mkFlag "in" stdioPath false;
  mkFlag "src-driver" "" false;
  mkFlag "src-bucket" "" false;
  mkFlag "src-region" "" false;
  mkFlag "src-endpoint" "" false;
  mkFlag "src-prefix" "" false;
  mkFlag "src-key" "" false;
  mkFlag "include-ephemeral" "false" true;
  mkFlag "result-path" defaultResultPath false].

Definition importFlagsOf (vals : values) : res ImportFlags :=
  let get := Get importFlagSet vals in
  if String.eqb (get "oxia") "" then Err (ErrPlain (ImportCommandName ++! ": --oxia is required"))
  else if negb (String.eqb (get "src-driver") "") && String.eqb (get "src-key") "" then
    Err (ErrPlain (ImportCommandName ++! ": --src-key is required when --src-driver is set"))
  else
    Ok (mkImportFlags (get "oxia") (get "in")
          (location (get "src-driver") (get "src-bucket") (get "src-region")
             (get "src-endpoint") (get "src-prefix"))
          (get "src-key") (String.eqb (get "include-ephemeral") "true") (get "result-path")).

Definition parseImportFlags (args : list string) : res ImportFlags :=
  match Parse importFlagSet args ∅ with
  | Err e => Err e
  | Ok (vals, _) => importFlagsOf vals
  end.

(** * Running the engine *)

(** The engine's lines go to a buffer in memory, which never fails, or out. *)
Fixpoint writing {A} (buffered : bool) (p : prog Manifest.ans A) (buf : list line) :
    prog ans (A * list line) :=
  match p with
  | Ret a => Ret (a, buf)
  | Vis c k =>
      match c return (Manifest.ans c → prog Manifest.ans A) → prog ans (A * list line) with
      | WriteLine l => λ k,
          if buffered then writing buffered (k (Ok tt)) (buf ++ [l])
          else Vis (Engine (WriteLine l)) (λ x, writing buffered (k x) buf)
      | NewClient ns => λ k, Vis (Engine (NewClient ns)) (λ x, writing buffered (k x) buf)
      | RangeScanAll ns => λ k, Vis (Engine (RangeScanAll ns)) (λ x, writing buffered (k x) buf)
      | Put ns key v => λ k, Vis (Engine (Put ns key v)) (λ x, writing buffered (k x) buf)
      | CtxErr => λ k, Vis (Engine CtxErr) (λ x, writing buffered (k x) buf)
      end k
  end.

Section Commands.
Context `{MJ : !ManifestJSON} (digest : list ManifestRecord → string).

(** The header, and what was buffered. *)
Definition RunExport (buffered : bool) (flags : ExportFlags) (capturedAt : Z) :
    prog ans (res ManifestHeader * list line) :=
  (let! out := writing buffered
     (Export digest (efOxiaAddress flags) (efNamespaces flags) capturedAt) [] in
   match out with
   | (Err e, buf) => Ret (Err e, buf)
   | (Ok header, buf) =>
       let! logged := perform ans (Stderr
         (ExportCommandName ++! ": captured " ++! %d (mhRecordCount header) ++!
          " record(s) across namespaces [" ++! joinWith " " (mhNamespaces header) ++!
          "] (capturedInstanceId=" ++! quote (mhCapturedInstanceID header) ++! ")" ++! eol)) in
       match logged with
       | Err e => Ret (Err (Errorf (ExportCommandName ++! ": write summary") e), buf)
       | Ok _ => Ret (Ok header, buf)
       end
   end)%prog.

(** The bytes of the buffered manifest. *)
Definition manifestLen (ls : list line) : Z := foldr (λ l n, encodedSize l + n) 0 ls.

Definition writeExportResult (resultPath : string) (result : ExportResult) : prog ans (res unit) :=
  match MarshalExportResult result with
  | Err e => Ret (Err (Errorf "marshal export result" e))
  | Ok data =>
      (try! ["write export result to " ++! quote resultPath] _ :=
         perform ans (WriteFile resultPath data) in
       try! ["echo export result"] _ := perform ans (Stdout (data ++! eol)) in
       Ret (Ok tt))%prog
  end.

Definition transfer {A} (p : prog ObjectTransfer.ans A) : prog ans A :=
  embed Transfer (λ _ x, x) p.

Definition runExportToObjectStore (flags : ExportFlags) (capturedAt : Z) : prog ans (res unit) :=
  (let! out := RunExport true flags capturedAt in
   match out with
   | (Err e, _) => Ret (Err e)
   | (Ok header, manifest) =>
       try! [ExportCommandName] store := transfer (ObjectTransfer.New (efDest flags)) in
       try! [ExportCommandName ++! ": upload manifest"] _ :=
         transfer (ObjectTransfer.Upload store (efDestKey flags) manifest) in
       let result := mkExportResult (ObjectTransfer.storeURI store (efDestKey flags))
         (mhRecordCount header) (mhCapturedInstanceID header) (manifestLen manifest) in
       try! [ExportCommandName] _ := writeExportResult (efResultPath flags) result in
       Ret (Ok tt)
   end)%prog.

Definition RunExportCommand (args : list string) (capturedAt : Z) : prog ans (res unit) :=
  match parseExportFlags args with
  | Err e => Ret (Err e)
  | Ok flags =>
      if negb (String.eqb (Driver (efDest flags)) "") then runExportToObjectStore flags capturedAt
      else
        (let! created :=
           if negb (String.eqb (efOutPath flags) stdioPath) then perform ans (Create (efOutPath flags))
           else Ret (Ok tt) in
         match created with
         | Err e => Ret (Err (Errorf (ExportCommandName ++! ": open output file " ++!
                                      quote (efOutPath flags)) e))
         | Ok _ =>
             let! out := RunExport false flags capturedAt in
             Ret (match out.1 with Ok _ => Ok tt | Err e => Err e end)
         end)%prog
  end.

Definition RunImport (flags : ImportFlags) (ls : list line) : prog ans (res ImportResult) :=
  (let! out := embed Engine (λ _ x, x) (Import digest (ifIncludeEphemeral flags) ls) in
   match out with
   | (_, Some e) => Ret (Err e)
   | (result, None) =>
       try! [ImportCommandName ++! ": write summary"] _ := perform ans (Stderr
         (ImportCommandName ++! ": wrote " ++! %d (irKeysRestored result) ++! " key(s), skipped " ++!
          %d (irKeysSkippedEphemeral result) ++! " ephemeral key(s) (capturedInstanceId=" ++!
          quote (irCapturedInstanceID result) ++! ")" ++! eol)) in
       Ret (Ok result)
   end)%prog.

Definition writeImportResult (resultPath : string) (result : ImportResult) : prog ans (res unit) :=
  match MarshalImportResult result with
  | Err e => Ret (Err (Errorf "marshal import result" e))
  | Ok data =>
      (try! ["write import result to " ++! quote resultPath] _ :=
         perform ans (WriteFile resultPath data) in
       try! ["echo import result"] _ := perform ans (Stdout (data ++! eol)) in
       Ret (Ok tt))%prog
  end.

Definition runImportFromObjectStore (flags : ImportFlags) : prog ans (res unit) :=
  (try! [ImportCommandName] store := transfer (ObjectTransfer.New (ifSrc flags)) in
   let! rc := transfer (ObjectTransfer.Download store (ifSrcKey flags)) in
   match rc with
   | inr e => Ret (Err (Errorf (ImportCommandName ++! ": download manifest")
                          (ObjectTransfer.downloadError e)))
   | inl ls =>
       try! result := RunImport flags ls in
       try! [ImportCommandName] _ := writeImportResult (ifResultPath flags) result in
       Ret (Ok tt)
   end)%prog.

Definition RunImportCommand (args : list string) : prog ans (res unit) :=
  match parseImportFlags args with
  | Err e => Ret (Err e)
  | Ok flags =>
      if negb (String.eqb (Driver (ifSrc flags)) "") then runImportFromObjectStore flags
      else
        (let! opened :=
           if negb (String.eqb (ifInPath flags) stdioPath) then perform ans (Open (ifInPath flags))
           else let! ls := perform ans Stdin in Ret (Ok ls) in
         match opened with
         | Err e => Ret (Err (Errorf (ImportCommandName ++! ": open input file " ++!
                                      quote (ifInPath flags)) e))
         | Ok ls =>
             let! result := RunImport flags ls in
             Ret (match result with Ok _ => Ok tt | Err e => Err e end)
         end)%prog
  end.

(** The exit code the Job's container ends with; [None] falls through to the
    manager. *)
Definition runBackupSubcommand (name : string) (args : list string) (now : Z) : prog ans (option Z) :=
  let finish (r : res unit) : prog ans (option Z) :=
    match r with
    | Err e => (let! _ := perform ans (Stderr (error_text e ++! eol)) in Ret (Some 1))%prog
    | Ok _ => Ret (Some 0)
    end in
  if String.eqb name ExportCommandName then (let! r := RunExportCommand args now in finish r)%prog
  else if String.eqb name ImportCommandName then (let! r := RunImportCommand args in finish r)%prog
  else Ret None.

End Commands.

(** * The flags of the Jobs *)

(** The subcommand's arguments of a Job's container: after the binary's name
    comes the subcommand, then its flags. *)
Definition subcommand (job : JobObject) : string * list string :=
  match joArgs job with name :: args => (name, args) | [] => ("", []) end.

(** A flag the controllers leave out when it is empty reads back as empty. *)
Definition setOpt (name v : string) (vals : values) : values :=
  if String.eqb v "" then vals else <[name := v]> vals.

Lemma Parse_opt fs flag name rest vals v :
  classify flag = FlagArg name None → Lookup fs name = Some (mkFlag name "" false) →
  Parse fs (appendFlagIfSet [] flag v ++ rest) vals = Parse fs rest (setOpt name v vals).
Proof.
  intros Hc Hl. unfold appendFlagIfSet, setOpt. destruct (String.eqb v ""); [done|].
  by apply (Parse_value _ _ _ _ _ _ _ _ Hc Hl).
Qed.

Lemma append_opt args flag v : appendFlagIfSet args flag v = args ++ appendFlagIfSet [] flag v.
Proof. unfold appendFlagIfSet. destruct (String.eqb v ""); [by rewrite app_nil_r|done]. Qed.

Lemma Get_insert fs name vals v : Get fs (<[name := v]> vals) name = v.
Proof. unfold Get. by rewrite lookup_insert_eq. Qed.

Lemma Get_insert_ne fs name name' vals v :
  name ≠ name' → Get fs (<[name' := v]> vals) name = Get fs vals name.
Proof. intros H. unfold Get. by rewrite lookup_insert_ne. Qed.

Lemma Get_setOpt fs name vals v : Get fs vals name = "" → Get fs (setOpt name v vals) name = v.
Proof.
  intros H. unfold setOpt. destruct (String.eqb_spec v "") as [->|_]; [done|]. apply Get_insert.
Qed.

Lemma Get_setOpt_ne fs name name' vals v :
  name ≠ name' → Get fs (setOpt name' v vals) name = Get fs vals name.
Proof. intros H. unfold setOpt. destruct (String.eqb v ""); [done|]. by apply Get_insert_ne. Qed.

(** Read every flag off the values that were set. *)
Ltac get_step :=
  first [ rewrite Get_insert | rewrite Get_insert_ne by done | rewrite Get_setOpt_ne by done
        | rewrite Get_setOpt by (repeat get_step; reflexivity) ].
Ltac get_flags := repeat get_step.

Lemma append_not_empty (s t : string) : t ≠ "" → String.eqb (s ++! t) "" = false.
Proof. destruct s; [|done]. by intros ?%String.eqb_neq. Qed.

Lemma export_subcommand b clusterName image :
  let dest := Destination (bSpec b) in
  subcommand (BackupCtl.buildExportJob b clusterName image) = (ExportCommandName,
    ["--oxia"; oxiaExportAddress clusterName; "--dest-driver"; dDriver dest;
     "--dest-key"; BackupCtl.manifestObjectKey b; "--result-path"; terminationMessagePath] ++
    appendFlagIfSet [] "--dest-bucket" (dBucket dest) ++
    appendFlagIfSet [] "--dest-region" (dRegion dest) ++
    appendFlagIfSet [] "--dest-endpoint" (dEndpoint dest) ++
    appendFlagIfSet [] "--dest-prefix" (dPrefix dest) ++ []).
Proof.
  unfold subcommand, BackupCtl.buildExportJob. cbn [joArgs].
  rewrite (append_opt _ "--dest-prefix"), (append_opt _ "--dest-endpoint"),
    (append_opt _ "--dest-region"), (append_opt _ "--dest-bucket"), <- !(assoc_L (++)).
  by rewrite app_nil_r.
Qed.

Lemma manifestObjectKey_set b : BackupCtl.manifestObjectKey b ≠ "".
Proof. apply String.eqb_neq. by apply append_not_empty. Qed.

Lemma export_args b clusterName image :
  parseExportFlags (subcommand (BackupCtl.buildExportJob b clusterName image)).2 =
    Ok (mkExportFlags (oxiaExportAddress clusterName) stdioPath DefaultNamespaces
          (destConfig (Destination (bSpec b))) (BackupCtl.manifestObjectKey b)
          terminationMessagePath).
Proof.
  rewrite export_subcommand. unfold parseExportFlags. cbn [snd app].
  do 4 (erewrite Parse_value by reflexivity). do 4 (erewrite Parse_opt by reflexivity).
  cbn [Parse]. unfold exportFlagsOf. get_flags. unfold oxiaExportAddress at 1.
  rewrite append_not_empty by done.
  by rewrite (proj2 (String.eqb_neq _ _) (manifestObjectKey_set b)), andb_false_r.
Qed.

Lemma import_subcommand r clusterName srcKey image :
  let dest := rsDestination (Source (reSpec r)) in
  subcommand (RestoreCtl.buildImportJob r clusterName srcKey image) = (ImportCommandName,
    ["--oxia"; oxiaExportAddress clusterName; "--src-driver"; dDriver dest;
     "--src-key"; srcKey; "--result-path"; terminationMessagePath] ++
    appendFlagIfSet [] "--src-bucket" (dBucket dest) ++
    appendFlagIfSet [] "--src-region" (dRegion dest) ++
    appendFlagIfSet [] "--src-endpoint" (dEndpoint dest) ++
    appendFlagIfSet [] "--src-prefix" (dPrefix dest) ++
    (if skipEphemeralEnabled (reSpec r) then [] else ["--include-ephemeral"])).
Proof.
  unfold subcommand, RestoreCtl.buildImportJob. cbn [joArgs].
  rewrite (append_opt _ "--src-prefix"), (append_opt _ "--src-endpoint"),
    (append_opt _ "--src-region"), (append_opt _ "--src-bucket"), <- !(assoc_L (++)).
  by destruct (skipEphemeralEnabled _); rewrite ?app_nil_r, <- ?(assoc_L (++)).
Qed.

Lemma import_args r clusterName srcKey image :
  srcKey ≠ "" →
  parseImportFlags (subcommand (RestoreCtl.buildImportJob r clusterName srcKey image)).2 =
    Ok (mkImportFlags (oxiaExportAddress clusterName) stdioPath
          (destConfig (rsDestination (Source (reSpec r)))) srcKey
          (negb (skipEphemeralEnabled (reSpec r))) terminationMessagePath).
Proof.
  intros Hk%String.eqb_neq. rewrite import_subcommand. unfold parseImportFlags. cbn [snd app].
  do 4 (erewrite Parse_value by reflexivity). do 4 (erewrite Parse_opt by reflexivity).
  destruct (skipEphemeralEnabled _); [|erewrite Parse_bool by reflexivity]; cbn [Parse];
    unfold importFlagsOf; get_flags; unfold oxiaExportAddress at 1;
    by rewrite append_not_empty, Hk, andb_false_r by done.
Qed.

(** C36: The Jobs run what their resources ask for.  Whatever the strings in the
    specs are, the flags the tool reads out of the arguments the controllers
    rendered are: for the export, the cluster's Oxia address, every default
    namespace, exactly the destination of the Backup and its object key; for
    the import, the target's Oxia address, exactly the source of the Restore,
    the object key the controller resolved, and the ephemeral records as the
    spec says.  Both write their result where the controllers read it. *)
Theorem job_flags b r clusterName srcKey image :
  srcKey ≠ "" →
  let ejob := BackupCtl.buildExportJob b clusterName image in
  let ijob := RestoreCtl.buildImportJob r clusterName srcKey image in
  (subcommand ejob).1 = ExportCommandName ∧
  parseExportFlags (subcommand ejob).2 =
    Ok (mkExportFlags (oxiaExportAddress clusterName) stdioPath DefaultNamespaces
          (destConfig (Destination (bSpec b))) (BackupCtl.manifestObjectKey b)
          (joTerminationMessagePath ejob)) ∧
  (subcommand ijob).1 = ImportCommandName ∧
  parseImportFlags (subcommand ijob).2 =
    Ok (mkImportFlags (oxiaExportAddress clusterName) stdioPath
          (destConfig (rsDestination (Source (reSpec r)))) srcKey
          (negb (skipEphemeralEnabled (reSpec r))) (joTerminationMessagePath ijob)).
Proof.
  intros Hk ejob ijob. split_and!.
  - unfold ejob. by rewrite export_subcommand.
  - apply export_args.
  - unfold ijob. by rewrite import_subcommand.
  - by apply import_args.
Qed.

End BackupCLI.
