(* ===== verification/BackupChain.v ===== *)
(** From a Backup to a Restore: the export Job's tool writes the artifact, the
    import Job's tool replays it.  The controllers' Jobs, the command line, the
    object store and the engine are put together. *)

From S2P Require Import Prelude Effects GoFlag ObjectStore ObjectTransfer BackupTypes BackupCtl Manifest Restore BackupCLI.
Open Scope Z_scope.
Open Scope go_scope.

Module BackupChain.
Import BackupCtl(ExportResult, erArtifactURI, ExportCommandName) BackupCLI.

(** * The parts of a trace *)

Definition engineEvent (e : event) : option (Effects.event Manifest.ans) :=
  match e with
  | Ev c x =>
      match c return ans c → option (Effects.event Manifest.ans) with
      | Engine c => λ x, Some (Ev c x)
      | _ => λ _, None
      end x
  end.

Definition transferEvent (e : event) : option (Effects.event (ObjectTransfer.ans (content := list line))) :=
  match e with
  | Ev c x =>
      match c return ans c → option (Effects.event (ObjectTransfer.ans (content := list line))) with
      | Transfer c => λ x, Some (Ev c x)
      | _ => λ _, None
      end x
  end.

(** What a command did to Oxia, what to object stores, and which files it
    wrote. *)
Definition engineOf (t : list event) := omap engineEvent t.
Definition transferOf (t : list event) := omap transferEvent t.
Definition filesOf (t : list event) : list (string * string) :=
  omap (λ e, match ev_call e with WriteFile path data => Some (path, data) | _ => None end) t.

Lemma engineOf_app t1 t2 : engineOf (t1 ++ t2) = engineOf t1 ++ engineOf t2.
Proof. apply omap_app. Qed.
Lemma transferOf_app t1 t2 : transferOf (t1 ++ t2) = transferOf t1 ++ transferOf t2.
Proof. apply omap_app. Qed.
Lemma filesOf_app t1 t2 : filesOf (t1 ++ t2) = filesOf t1 ++ filesOf t2.
Proof. apply omap_app. Qed.

Lemma runs_transfer {A} (p : prog ObjectTransfer.ans A) t a :
  runs (transfer p) t a →
  runs p (transferOf t) a ∧ engineOf t = [] ∧ filesOf t = [].
Proof.
  intros H. unfold transfer in H.
  apply (runs_embed Transfer (λ _ x, x) (λ _ x, x) (λ _ _, eq_refl)) in H as (t1 & Hr & ->).
  match goal with |- runs p ?u a ∧ _ => assert (u = t1) as -> end.
  { clear Hr. induction t1 as [|[c x] t1 IH]; [done|]. exact (f_equal (cons (Ev c x)) IH). }
  split_and!; [done|..]; clear Hr; by induction t1 as [|[c x] t1 IH].
Qed.

Lemma runs_engine {A} (p : prog Manifest.ans A) t a :
  runs (embed Engine (λ _ x, x) p) t a →
  runs p (engineOf t) a ∧ transferOf t = [] ∧ filesOf t = [].
Proof.
  intros H.
  apply (runs_embed Engine (λ _ x, x) (λ _ x, x) (λ _ _, eq_refl)) in H as (t1 & Hr & ->).
  match goal with |- runs p ?u a ∧ _ => assert (u = t1) as -> end.
  { clear Hr. induction t1 as [|[c x] t1 IH]; [done|]. exact (f_equal (cons (Ev c x)) IH). }
  split_and!; [done|..]; clear Hr; by induction t1 as [|[c x] t1 IH].
Qed.

(** A buffered run is a run of the engine whose lines were all accepted. *)
Lemma runs_writing {A} (p : prog Manifest.ans A) buf t a buf' :
  runs (writing true p buf) t (a, buf') →
  transferOf t = [] ∧ filesOf t = [] ∧
  ∃ t1, runs p t1 a ∧ buf' = buf ++ written t1 ∧ scanned t1 = scanned (engineOf t).
Proof.
  revert buf t. induction p as [b|c k IH]; intros buf t; simpl.
  { intros [-> [= -> ->]]. split_and!; [done..|]. exists []. by rewrite app_nil_r. }
  assert (∀ x t', runs (writing true (k x) buf) t' (a, buf') →
    transferOf t' = [] ∧ filesOf t' = [] ∧
    ∃ t1, runs (Vis c k) (Ev c x :: t1) a ∧ buf' = buf ++ written t1 ∧
      scanned t1 = scanned (engineOf t')) as Hstep.
  { intros x t' (Htr & Hf & t1 & Hr & Hb & Hs)%IH. split_and!; [done..|]. exists t1. simpl. eauto 10. }
  destruct c as [ns|ns|ns key v| |l].
  1-4: simpl; intros (x & t' & -> & (Htr & Hf & t1 & Hr & Hb & Hs)%Hstep); split_and!; [done..|];
    eexists; split_and!; [exact Hr|done|]; simpl; by rewrite Hs.
  clear Hstep. simpl. intros (Htr & Hf & t1 & Hr & Hb & Hs)%IH. split_and!; [done..|].
  exists (Ev (WriteLine l) (Ok tt) :: t1). split_and!; [simpl; eauto| |done].
  by rewrite Hb, <- (assoc_L (++)).
Qed.

Section Chain.
Context `{MJ : !ManifestJSON} (digest : list ManifestRecord → string).

(** * The export tool *)

Lemma runs_RunExport flags at_ t h ls :
  runs (RunExport digest true flags at_) t (Ok h, ls) →
  transferOf t = [] ∧ filesOf t = [] ∧
  ∃ t1, runs (Export digest (efOxiaAddress flags) (efNamespaces flags) at_) t1 (Ok h) ∧
    ls = written t1 ∧ scanned t1 = scanned (engineOf t).
Proof.
  unfold RunExport. intros (t1 & t2 & [r buf] & -> & Hw & H)%runs_bind.
  destruct r as [h'|e]; [|by destruct H]. apply runs_writing in Hw as (Htr & Hf & t3 & Hr & Hb & Hs).
  destruct H as (x & t' & -> & H). destruct x as [[]|e]; destruct H as [-> H]; [|done].
  injection H as -> ->. rewrite transferOf_app, filesOf_app, engineOf_app, Htr, Hf. simpl.
  split_and!; [done..|]. exists t3. by rewrite app_nil_r.
Qed.

Lemma runs_writeExportResult path result t :
  runs (writeExportResult path result) t (Ok tt) →
  transferOf t = [] ∧ engineOf t = [] ∧
  ∃ data, MarshalExportResult result = Ok data ∧ filesOf t = [(path, data)].
Proof.
  unfold writeExportResult. destruct (MarshalExportResult result) as [data|e]; [|by intros [_ ?]].
  intros (x & t1 & -> & H). destruct x; [|by destruct H].
  destruct H as (y & t2 & -> & H). destruct y; [|by destruct H]. destruct H as [-> _].
  split_and!; [done..|]. by exists data.
Qed.

(** A successful export stored one object: the manifest of what it scanned,
    at the place its result names. *)
Lemma runs_exportToStore flags at_ t :
  runs (runExportToObjectStore digest flags at_) t (Ok tt) →
  ∃ h t1 data,
    runs (Export digest (efOxiaAddress flags) (efNamespaces flags) at_) t1 (Ok h) ∧
    scanned t1 = scanned (engineOf t) ∧
    ObjectTransfer.storedBy (transferOf t) =
      [(ObjectTransfer.locate (efDest flags) (efDestKey flags), written t1)] ∧
    MarshalExportResult (BackupCtl.mkExportResult (URI (efDest flags) (efDestKey flags))
      (mhRecordCount h) (mhCapturedInstanceID h) (manifestLen (written t1))) = Ok data ∧
    filesOf t = [(efResultPath flags, data)].
Proof.
  unfold runExportToObjectStore. intros (t1 & t2 & [r ls] & -> & He & H)%runs_bind.
  destruct r as [h|e]; [|by destruct H].
  apply runs_RunExport in He as (Htr & Hf & tx & Hx & -> & Hs).
  apply runs_bind in H as (t3 & t4 & [s|e] & -> & Hn & H); [|by destruct H].
  apply runs_bind in H as (t5 & t6 & [[]|e] & -> & Hu & H); [|by destruct H].
  apply runs_bind in H as (t7 & t8 & [[]|e] & -> & Hw & H); [|by destruct H].
  destruct H as [-> _].
  apply runs_transfer in Hn as (Hn & Hn2 & Hn3), Hu as (Hu & Hu2 & Hu3).
  apply ObjectTransfer.runs_New in Hn as (Hc & Hn4 & _ & Hd).
  eapply ObjectTransfer.runs_Upload in Hu as (Hu4 & _); [|exact Hc|exact Hd].
  apply runs_writeExportResult in Hw as (Hw1 & Hw2 & data & Hm & Hw3).
  exists h, tx, data. unfold ObjectTransfer.storeURI in Hm. rewrite Hc in Hm.
  rewrite !transferOf_app, !engineOf_app, !filesOf_app, !ObjectTransfer.storedBy_app.
  rewrite Htr, Hf, Hn2, Hn3, Hn4, Hu2, Hu3, Hu4, Hw1, Hw2, Hw3. simpl. rewrite !app_nil_r.
  by split_and!.
Qed.

(** * The import tool *)

Lemma runs_RunImport flags ls t result :
  runs (RunImport digest flags ls) t (Ok result) →
  transferOf t = [] ∧ filesOf t = [] ∧
  runs (Import digest (ifIncludeEphemeral flags) ls) (engineOf t) (result, None).
Proof.
  unfold RunImport. intros (t1 & t2 & [r err] & -> & Hi & H)%runs_bind.
  destruct err as [e|]; [by destruct H|]. apply runs_engine in Hi as (Hi & Htr & Hf).
  destruct H as (x & t' & -> & H). destruct x; destruct H as [-> H]; [|done]. injection H as ->.
  rewrite transferOf_app, filesOf_app, engineOf_app, Htr, Hf. simpl. by rewrite app_nil_r.
Qed.

Lemma runs_writeImportResult path result t :
  runs (writeImportResult path result) t (Ok tt) →
  transferOf t = [] ∧ engineOf t = [] ∧
  ∃ data, MarshalImportResult result = Ok data ∧ filesOf t = [(path, data)].
Proof.
  unfold writeImportResult. destruct (MarshalImportResult result) as [data|e]; [|by intros [_ ?]].
  intros (x & t1 & -> & H). destruct x; [|by destruct H].
  destruct H as (y & t2 & -> & H). destruct y; [|by destruct H]. destruct H as [-> _].
  split_and!; [done..|]. by exists data.
Qed.

(** A successful import opened one object and replayed its content. *)
Lemma runs_importFromStore flags t :
  runs (runImportFromObjectStore digest flags) t (Ok tt) →
  ∃ ls result data,
    ObjectTransfer.fetchedBy (transferOf t) =
      [(ObjectTransfer.locate (ifSrc flags) (ifSrcKey flags), ObjectTransfer.Fetch ls)] ∧
    runs (Import digest (ifIncludeEphemeral flags) ls) (engineOf t) (result, None) ∧
    MarshalImportResult result = Ok data ∧ filesOf t = [(ifResultPath flags, data)].
Proof.
  unfold runImportFromObjectStore. intros H.
  apply runs_bind in H as (t1 & t2 & [s|e] & -> & Hn & H); [|by destruct H].
  apply runs_bind in H as (t3 & t4 & [ls|e] & -> & Hd & H); [|by destruct H].
  apply runs_bind in H as (t5 & t6 & [result|e] & -> & Hi & H); [|by destruct H].
  apply runs_bind in H as (t7 & t8 & [[]|e] & -> & Hw & H); [|by destruct H]. destruct H as [-> _].
  apply runs_transfer in Hn as (Hn & Hn2 & Hn3), Hd as (Hd & Hd2 & Hd3).
  apply ObjectTransfer.runs_New in Hn as (Hc & _ & Hn4 & Hof).
  eapply ObjectTransfer.runs_Download in Hd as (_ & f & what & Hd4 & Ho); [|exact Hc|exact Hof].
  apply runs_RunImport in Hi as (Hi1 & Hi2 & Hi).
  apply runs_writeImportResult in Hw as (Hw1 & Hw2 & data & Hm & Hw3).
  exists ls, result, data.
  rewrite !transferOf_app, !engineOf_app, !filesOf_app, !ObjectTransfer.fetchedBy_app.
  rewrite Hn2, Hn3, Hn4, Hd2, Hd3, Hd4, Hi1, Hi2, Hw1, Hw2, Hw3. simpl. rewrite !app_nil_r.
  destruct f as [| |c]; simplify_eq/=. by split_and!.
Qed.

(** * From artifact to cluster *)

(** C11: A Restore replays the Backup it names.  Let the tool of a Backup's
    export Job and the tool of a Restore's import Job both succeed, where the
    Restore has the Backup's destination and the artifact URI of the result
    the export wrote to its termination message, and the import Job the object
    key the controller recovers from that URI.  Let further the destination and
    key be such that a URI leads back to its key, the result decode from its
    encoding, the object store return what was stored, and the scanned strings
    be UTF-8.  Then the import puts into the target, in order, exactly the
    records the export scanned without the ephemeral ones - or with them, if
    the spec says not to skip them - and the termination message it writes
    counts them. *)
Theorem restore_replays_backup (parse : string → res ExportResult)
    b r cl cl' image image' at_ srcKey te ti :
  let ejob := BackupCtl.buildExportJob b cl image in
  let ijob := RestoreCtl.buildImportJob r cl' srcKey image' in
  let cfg := destConfig (rsDestination (Source (reSpec r))) in
  destConfig (Destination (bSpec b)) = cfg →
  invertible cfg (BackupCtl.manifestObjectKey b) →
  (∀ res data, MarshalExportResult res = Ok data → parse data = Ok res) →
  runs (RunExportCommand digest (subcommand ejob).2 at_) te (Ok tt) →
  (∀ data, (joTerminationMessagePath ejob, data) ∈ filesOf te →
     ∃ res, parse data = Ok res ∧ rsArtifactURI (Source (reSpec r)) = erArtifactURI res) →
  KeyFromURI cfg (rsArtifactURI (Source (reSpec r))) = Ok srcKey →
  runs (RunImportCommand digest (subcommand ijob).2) ti (Ok tt) →
  (∀ loc ls got, (loc, ls) ∈ ObjectTransfer.storedBy (transferOf te) →
     (loc, got) ∈ ObjectTransfer.fetchedBy (transferOf ti) → got = ObjectTransfer.Fetch ls) →
  forallb validRecord (scanned (engineOf te)) = true →
  let replay := if skipEphemeralEnabled (reSpec r)
                then filter (λ rec, rvEphemeral (mrVersion rec) = false) (scanned (engineOf te))
                else scanned (engineOf te) in
  puts (engineOf ti) = triple <$> replay ∧
  ∃ result data, MarshalImportResult result = Ok data ∧
    filesOf ti = [(joTerminationMessagePath ijob, data)] ∧
    irKeysRestored result = Z.of_nat (length replay) ∧
    irKeysRestored result + irKeysSkippedEphemeral result = Z.of_nat (length (scanned (engineOf te))).
Proof.
  intros ejob ijob cfg Hdest Hinv Hjson He Huri Hkey Hi Hstore Hutf8.
  unfold RunExportCommand in He. unfold ejob in He, Huri. rewrite export_args in He.
  cbn [efDest] in He. rewrite Hdest, (invertible_driver _ _ Hinv) in He. cbn [negb] in He.
  apply runs_exportToStore in He as (h & t1 & data & Hx & Hsc & Hst & Hm & Hf).
  cbn [efDest efDestKey efResultPath] in *.
  destruct (Huri data) as (res & Hp & Eu); [rewrite Hf; by apply list_elem_of_singleton|].
  rewrite (Hjson _ _ Hm) in Hp. injection Hp as <-. cbn [erArtifactURI] in Eu.
  rewrite Eu, KeyFromURI_URI in Hkey by done. injection Hkey as <-.
  unfold RunImportCommand in Hi. unfold ijob in Hi |- *. rewrite import_args in Hi by apply manifestObjectKey_set.
  cbn [ifSrc] in Hi. fold cfg in Hi. rewrite (invertible_driver _ _ Hinv) in Hi. cbn [negb] in Hi.
  apply runs_importFromStore in Hi as (ls & result & data' & Hfe & Hr & Hm' & Hf').
  cbn [ifSrc ifSrcKey ifResultPath ifIncludeEphemeral] in *. fold cfg in Hfe.
  assert (ls = written t1) as ->.
  { specialize (Hstore (ObjectTransfer.locate cfg (BackupCtl.manifestObjectKey b)) (written t1) (ObjectTransfer.Fetch ls)).
    rewrite Hst, Hfe in Hstore. injection Hstore as ->; [done|by apply list_elem_of_singleton..]. }
  rewrite <- Hsc in *. pose proof (Export_written _ _ _ _ _ _ Hx) as (_ & _ & Hn & _).
  eapply replay_exported in Hr as (Hput & Hcount & Htotal & _); [|exact Hx|exact Hutf8|done].
  rewrite replayed_all in Hput, Hcount. destruct (skipEphemeralEnabled _); (split; [done|]);
    exists result, data'; (split_and!; [done..|by rewrite <- Hn]).
Qed.

End Chain.

(** * A backup and its restore *)

Module BackupChainDemo.
Import ManifestDemo(demoDigest, demoServe).

Definition dest : BackupDestination := mkDestination DriverAWSS3 "backups" "us-east-1" "" "prod" None.

Definition demoBackup : Backup :=
  mkBackup "b1" "ns" "uid-b" None 0 1 ∅ ∅
    (mkBackupSpec "pulsar" (mkComponents None None None) dest "" None) emptyBackupStatus.

Definition demoRestore : Restore :=
  mkRestore "r1" "ns" "uid-r" 1
    (mkRestoreSpec (mkRestoreSource dest "s3://backups/prod/b1.manifest") "pulsar" (Some false) "")
    (mkRestoreStatus "" 0 (mkCheck "" "") 0 []).

#[export] Instance ExportResult_eq_dec : EqDecision ExportResult.
Proof. solve_decision. Defined.

(** The one result of the demo is written as the text "result". *)
Definition demoResult : ExportResult :=
  BackupCtl.mkExportResult "s3://backups/prod/b1.manifest" 4 "id-1" 5.

Definition demoJSON : ManifestJSON := {|
  MarshalExportResult r := if decide (r = demoResult) then Ok "result" else Err (ErrPlain "json");
  MarshalImportResult _ := Ok "imported";
  encodedSize _ := 1
|}.

Definition demoParse (data : string) : res ExportResult :=
  if String.eqb data "result" then Ok demoResult else Err (ErrPlain "json").

(** One bucket, holding at most one object. *)
Definition serve (c : call) (s : option (list line)) : ans c * option (list line) :=
  match c return ans c * option (list line) with
  | Engine c => ((demoServe c tt).1, s)
  | Transfer c =>
      match c return ObjectTransfer.ans c * option (list line) with
      | ObjectTransfer.PutObject _ _ _ body => (Ok tt, Some body)
      | ObjectTransfer.GetObject _ _ _ =>
          (match s with Some ls => ObjectTransfer.Fetch ls
           | None => ObjectTransfer.NoSuch (ErrPlain "NoSuchKey") end, s)
      | ObjectTransfer.GCSNewReader _ _ | ObjectTransfer.AzureDownloadStream _ _
      | ObjectTransfer.OpenFile _ => (ObjectTransfer.NoSuch (ErrPlain "none"), s)
      | ObjectTransfer.Getenv _ => ("", s)
      | _ => (Ok tt, s)
      end
  | Open _ => (Err (ErrPlain "none"), s)
  | Stdin => ([], s)
  | _ => (Ok tt, s)
  end.

Definition exportRun := exec serve
  (@RunExportCommand demoJSON demoDigest
     (subcommand (BackupCtl.buildExportJob demoBackup "pulsar" "operator:1")).2 0) None.
Definition importRun := exec serve
  (@RunImportCommand demoJSON demoDigest
     (subcommand (RestoreCtl.buildImportJob demoRestore "pulsar" "b1.manifest" "operator:1")).2)
  exportRun.1.2.

Lemma demo_stored :
  ∃ ls, ObjectTransfer.storedBy (transferOf exportRun.2) =
    [(DriverAWSS3, "backups", "prod/b1.manifest", ls)] ∧
  ObjectTransfer.fetchedBy (transferOf importRun.2) =
    [(DriverAWSS3, "backups", "prod/b1.manifest", ObjectTransfer.Fetch ls)].
Proof. eexists. split; vm_compute; reflexivity. Qed.

Lemma demo_invertible : invertible (destConfig dest) "b1.manifest".
Proof.
  exists ["prod"], ["b1.manifest"]. repeat apply conj.
  - reflexivity.
  - reflexivity.
  - discriminate.
  - compute_done.
  - compute_done.
  - left. split; [apply list_elem_of_here|]. compute_done.
Qed.

Lemma demo_exported :
  runs (@RunExportCommand demoJSON demoDigest
     (subcommand (BackupCtl.buildExportJob demoBackup "pulsar" "operator:1")).2 0) exportRun.2 (Ok tt).
Proof.
  assert (exportRun.1.1 = Ok tt) as <- by (vm_compute; reflexivity).
  unfold exportRun. apply exec_runs.
Qed.

Lemma demo_imported :
  runs (@RunImportCommand demoJSON demoDigest
     (subcommand (RestoreCtl.buildImportJob demoRestore "pulsar" "b1.manifest" "operator:1")).2)
    importRun.2 (Ok tt).
Proof.
  assert (importRun.1.1 = Ok tt) as <- by (vm_compute; reflexivity).
  unfold importRun. apply exec_runs.
Qed.

Lemma demo_files : filesOf exportRun.2 = [("/dev/termination-log", "result")].
Proof. vm_compute. reflexivity. Qed.

Lemma restore_replays_backup_witness :
  puts (engineOf importRun.2) =
    [("default", "/admin/tenant", "t"); ("default", "/loadbalance/b0", "lock");
     ("bookkeeper", "/ledgers/INSTANCEID", "id-1"); ("bookkeeper", "/ledgers/cookies/bk-0", "cookie")].
Proof.
  destruct (@restore_replays_backup demoJSON demoDigest demoParse demoBackup demoRestore
    "pulsar" "pulsar" "operator:1" "operator:1" 0 "b1.manifest" exportRun.2 importRun.2
    eq_refl demo_invertible) as (Hp & _).
  - intros res data. cbn [MarshalExportResult demoJSON]. case_decide as E; [|discriminate].
    intros [= <-]. by rewrite E.
  - exact demo_exported.
  - intros data Hd. exists demoResult. rewrite demo_files in Hd.
    apply list_elem_of_singleton in Hd. injection Hd as ->. split; reflexivity.
  - vm_compute. reflexivity.
  - exact demo_imported.
  - destruct demo_stored as (ls & Hs & Hf). rewrite Hs, Hf.
    intros loc ls' got H1%list_elem_of_singleton H2%list_elem_of_singleton.
    injection H1 as -> ->. by injection H2 as ->.
  - vm_compute. reflexivity.
  - rewrite Hp. vm_compute. reflexivity.
Defined.

Lemma job_flags_witness :
  parseImportFlags (subcommand (RestoreCtl.buildImportJob demoRestore "pulsar" "b1.manifest" "operator:1")).2 =
    Ok (mkImportFlags "pulsar-oxia-oxia:6648" "-"
          (location DriverAWSS3 "backups" "us-east-1" "" "prod") "b1.manifest" true "/dev/termination-log").
Proof.
  destruct (job_flags demoBackup demoRestore "pulsar" "b1.manifest" "operator:1") as (_ & _ & _ & H); [done|].
  rewrite H. vm_compute. reflexivity.
Defined.

End BackupChainDemo.

End BackupChain.
