(* ===== verification/Cron.v ===== *)
(** Which cron tick is due (internal/controller/backup/backupschedule_cron.go).

    [cron.Schedule] of github.com/robfig/cron is library code outside the
    repository: it is the interface [Schedule], whose only law is the
    documented one, that [Next] returns a later time or the zero time.
    Times are nanoseconds since the epoch, durations are 64-bit. *)

From S2P Require Import Prelude GoFloat.
Open Scope Z_scope.
Open Scope go_scope.

(** * Package time *)

(** [d.Round(m)]: to the nearest multiple, halves away from zero, saturating. *)
Definition Round (d m : Z) : Z :=
  if m <=? 0 then d
  else
    let r := Z.rem d m in
    if d <? 0 then
      let r := - r in
      if r + r <? m then d + r
      else let d1 := wrap64 (wrap64 (d - m) + r) in if d1 <? d then d1 else min_int64
    else if r + r <? m then d - r
    else let d1 := wrap64 (wrap64 (d + m) - r) in if d1 >? d then d1 else max_int64.

(** [t.Unix()]. *)
Definition Unix (t : Z) : Z := t / Second.

(** The proleptic Gregorian date of a day number counted from 1970-01-01. *)
Definition civil (days : Z) : Z * Z * Z :=
  let z := days + 719468 in
  let era := z / 146097 in
  let doe := z - era * 146097 in
  let yoe := (doe - doe / 1460 + doe / 36524 - doe / 146096) / 365 in
  let doy := doe - (365 * yoe + yoe / 4 - yoe / 100) in
  let mp := (5 * doy + 2) / 153 in
  let d := doy - (153 * mp + 2) / 5 + 1 in
  let m := if mp <? 10 then mp + 3 else mp - 9 in
  ((yoe + era * 400 + (if m <=? 2 then 1 else 0)), m, d).

Fixpoint zeros (n : nat) : string :=
  match n with O => "" | S n' => String "0" (zeros n') end.

(** A non-negative number in at least [w] decimal digits. *)
Definition padded (w : nat) (z : Z) : string :=
  let s := pretty z in zeros (w - String.length s) ++! s.

(** [t.UTC().Format(time.RFC3339)]. *)
Definition RFC3339 (t : Z) : string :=
  let s := Unix t in
  let '(y, m, d) := civil (s / 86400) in
  let tod := s mod 86400 in
  padded 4 y ++! "-" ++! padded 2 m ++! "-" ++! padded 2 d ++! "T" ++!
  padded 2 (tod / 3600) ++! ":" ++! padded 2 (tod / 60 mod 60) ++! ":" ++!
  padded 2 (tod mod 60) ++! "Z".

Example RFC3339_epoch : RFC3339 0 = "1970-01-01T00:00:00Z".
Proof. reflexivity. Qed.
Example RFC3339_leap : RFC3339 (1709210096 * Second + 7) = "2024-02-29T12:34:56Z".
Proof. vm_compute. reflexivity. Qed.

(** * Schedules *)

Record Schedule := mkSchedule {
  Next : Z → Z;
  Next_later : ∀ t, Next t = zeroTime ∨ t < Next t
}.

(** * The walk to the last tick *)

Section Walk.
Context (sched : Schedule) (now : Z).

(** [!t.IsZero() && !t.After(now)] *)
Definition pending (t : Z) : bool := negb (IsZero t) && negb (After t now).

Definition walkSize (t : Z) : nat := if IsZero t then 0%nat else Z.to_nat (now - t + 1).

Definition walkLt (u t : Z) : Prop := (walkSize u < walkSize t)%nat.

Lemma walkLt_wf : well_founded walkLt.
Proof. apply well_founded_ltof. Qed.

Lemma pending_spec t : pending t = true ↔ t ≠ zeroTime ∧ t <= now.
Proof.
  unfold pending, IsZero, After. rewrite andb_true_iff, !negb_true_iff, Z.eqb_neq, Z.ltb_ge. done.
Qed.

Lemma pending_decreases t : pending t = true → walkLt (Next sched t) t.
Proof.
  intros [Hz Hn]%pending_spec. unfold walkLt, walkSize, IsZero.
  rewrite (proj2 (Z.eqb_neq _ _) Hz).
  destruct (Next_later sched t) as [->|H]; [rewrite Z.eqb_refl; lia|].
  destruct (Z.eqb_spec (Next sched t) zeroTime); lia.
Qed.

(** The loop [for t := ...; !t.IsZero() && !t.After(now); t = sched.Next(t)
    { mostRecent = t }]. *)
Fixpoint walk_acc (t mostRecent : Z) (acc : Acc walkLt t) {struct acc} : Z :=
  match sumbool_of_bool (pending t) with
  | left H => walk_acc (Next sched t) t (Acc_inv acc (pending_decreases t H))
  | right _ => mostRecent
  end.

Definition walk (t mostRecent : Z) : Z := walk_acc t mostRecent (wf_guard 32 walkLt_wf t).

Lemma walk_acc_irrel t m a1 a2 : walk_acc t m a1 = walk_acc t m a2.
Proof.
  revert m a1 a2. induction (walkLt_wf t) as [t _ IH]; intros m [a1] [a2]; simpl.
  destruct (sumbool_of_bool _) as [H|]; [|done]. by apply IH, pending_decreases.
Qed.

Lemma walk_eq t m : walk t m = if pending t then walk (Next sched t) t else m.
Proof.
  unfold walk. generalize (wf_guard 32 walkLt_wf t).
  generalize (wf_guard 32 walkLt_wf (Next sched t)). intros a' [a]. simpl.
  destruct (sumbool_of_bool _) as [H|H]; [rewrite (walk_acc_irrel _ _ _ a')|]; by rewrite H.
Qed.

Lemma walk_ind (P : Z → Z → Z → Prop) :
  (∀ t m, pending t = false → P t m m) →
  (∀ t m, pending t = true → P (Next sched t) t (walk (Next sched t) t) →
     P t m (walk (Next sched t) t)) →
  ∀ t m, P t m (walk t m).
Proof.
  intros H0 H1 t. induction (walkLt_wf t) as [t _ IH]; intros m. rewrite walk_eq.
  destruct (pending t) eqn:E; [|by apply H0]. apply H1; [done|].
  apply IH. by apply pending_decreases.
Qed.

(** What the loop leaves behind: a time it visited, after which nothing is
    due any more; or, when it did not run, the initial value. *)
Lemma walk_result t m :
  (pending t = false ∧ walk t m = m) ∨
  (pending t = true ∧ t <= walk t m <= now ∧ walk t m ≠ zeroTime ∧
   (walk t m = t ∨ ∃ u, t <= u ∧ walk t m = Next sched u) ∧
   pending (Next sched (walk t m)) = false).
Proof.
  apply (walk_ind (λ t m w, (pending t = false ∧ w = m) ∨
    (pending t = true ∧ t <= w <= now ∧ w ≠ zeroTime ∧
     (w = t ∨ ∃ u, t <= u ∧ w = Next sched u) ∧ pending (Next sched w) = false)));
    clear t m; intros t m Hp; [by left|]. intros IH. right.
  pose proof Hp as [Hz Hn]%pending_spec. split; [done|].
  destruct IH as [[Hp' ->]|(Hp' & [Hl Hu] & Hwz & Hw & Hdone)].
  { repeat split; try done. by left. }
  pose proof Hp' as [Hz' Hn']%pending_spec.
  destruct (Next_later sched t) as [|Hlater]; [done|].
  repeat split; try done; [lia|]. right.
  destruct Hw as [->|(u & Hu' & ->)]; [exists t|exists u]; split; (lia || done).
Qed.

End Walk.

(** * The due tick *)

Definition maxMissedSchedules : Z := 100.

Definition scheduleNeverFires (sched : Schedule) (reference : Z) : bool :=
  IsZero (Next sched reference).

(** The whole seconds of a duration, [int64(d.Seconds())]. *)
Definition wholeSeconds (d : Z) : Z := to_int (Seconds d).

(** [(due, ok, tooMany)], with [None] for the results whose [ok] is false. *)
Definition mostRecentDueTime (sched : Schedule) (earliest now : Z) : option (Z * bool) :=
  if negb (Before earliest now) then None
  else
    let t1 := Next sched earliest in
    if IsZero t1 || Before now t1 then None
    else
      let t2 := Next sched t1 in
      if IsZero t2 || Before now t2 then Some (t1, false)
      else
        let interval := wholeSeconds (Round (Sub t2 t1) Second) in
        if interval <? 1 then Some (t1, false)
        else
          let elapsed := wholeSeconds (Sub now t1) in
          let missed := wrap64 (Z.quot elapsed interval + 1) in
          let tooMany := missed >? maxMissedSchedules in
          let potentialEarliest :=
            earliest + seconds (wrap64 (wrap64 (missed - 1) * interval)) in
          Some (walk sched now (Next sched potentialEarliest) t1, tooMany).

Definition scheduledBackupName (scheduleName : string) (tick : Z) : string :=
  scheduleName ++! "-" ++! %d (Unix tick).

(** * What the due tick is *)

(** Truncating [d.Seconds()] gives the whole seconds of [d]: the conversion
    goes through a [float64], which is exact for a whole number of seconds
    ([to_int_Seconds_whole]) and, below that, as long as the seconds leave
    room in the mantissa for the nanoseconds. *)
Definition exactSeconds (d : Z) : Prop := wholeSeconds d = d / Second.

(** Evenly spaced ticks from [a] on: cron expressions such as an hourly or a
    daily one, and [@every]. *)
Definition periodic (sched : Schedule) (p a : Z) : Prop :=
  ∀ t, a <= t → t < Next sched t ∧ Next sched (t + p) = Next sched t + p ∧
    Next sched (Next sched t) = Next sched t + p.

Lemma periodic_shift sched p a t k :
  periodic sched p a → 0 <= p → a <= t → 0 <= k →
  Next sched (t + k * p) = Next sched t + k * p.
Proof.
  intros Hp Hp0 Ht. revert k. apply natlike_ind; [by rewrite Z.mul_0_l, !Z.add_0_r|].
  intros k Hk IH. rewrite Z.mul_succ_l, Z.add_assoc.
  destruct (Hp (t + k * p)) as (_ & -> & _); [nia|]. rewrite IH. lia.
Qed.

Lemma Round_multiple s : 0 < s → Round (s * Second) Second = s * Second.
Proof.
  intros Hs. unfold Round. rewrite Z.rem_mul by done. simpl.
  rewrite (proj2 (Z.ltb_ge _ _)) by (unfold Second; lia). lia.
Qed.

(** Counting whole periods by whole seconds loses nothing. *)
Lemma missed_whole d s :
  0 <= d → 0 < s → Z.quot (d / Second) s = d / (s * Second).
Proof.
  intros Hd Hs. rewrite Z.quot_div_nonneg by (try apply Z.div_pos; done).
  rewrite Z.div_div by done. f_equal. lia.
Qed.

(** The last tick of an evenly spaced schedule. *)
Lemma last_tick sched p earliest now :
  0 < p → periodic sched p earliest →
  let t1 := Next sched earliest in
  let k := (now - t1) / p in
  t1 <= now →
  0 <= k ∧ earliest < t1 + k * p <= now ∧ now < t1 + k * p + p ∧
  Next sched (t1 + k * p) = t1 + k * p + p.
Proof.
  intros Hp0 Hp t1 k Hd.
  pose proof (Z.div_mod (now - t1) p ltac:(lia)) as Hdm. fold k in Hdm.
  pose proof (Z.mod_pos_bound (now - t1) p ltac:(lia)).
  assert (0 <= k) by (apply Z.div_pos; lia).
  destruct (Hp earliest) as (Hlt & _ & _); [lia|]. fold t1 in Hlt.
  destruct (Hp (earliest + k * p)) as (_ & _ & Hstep); [nia|].
  rewrite (periodic_shift _ _ earliest) in Hstep by (done || lia). fold t1 in Hstep.
  repeat split; (nia || done).
Qed.

(** The arithmetic jump lands on the last tick at or before [now]. *)
Lemma jump_exact sched p earliest now :
  0 < p → zeroTime < earliest → periodic sched p earliest →
  let t1 := Next sched earliest in
  let k := (now - t1) / p in
  t1 <= now → walk sched now (Next sched (earliest + k * p)) t1 = t1 + k * p.
Proof.
  intros Hp0 Hz Hp t1 k Hd.
  destruct (last_tick sched p earliest now Hp0 Hp Hd) as (Hk & [Hl Hu] & Hn & Hstep).
  fold t1 k in Hk, Hl, Hu, Hn, Hstep.
  rewrite (periodic_shift _ _ earliest) by (done || lia). fold t1.
  rewrite walk_eq, (proj2 (pending_spec _ _)) by lia.
  rewrite Hstep, walk_eq. destruct (pending now _) eqn:E; [|done].
  apply pending_spec in E. lia.
Qed.

(** A tick, when one is reported, is an activation time of the schedule that
    has come due; and after it nothing is due any more, unless the jump
    overshot and the first missed tick is reported instead. *)
Lemma mostRecentDueTime_some sched earliest now due tooMany :
  mostRecentDueTime sched earliest now = Some (due, tooMany) →
  earliest < now ∧ due <= now ∧ due ≠ zeroTime ∧ (∃ u, due = Next sched u) ∧
  (due = Next sched earliest ∨ pending now (Next sched due) = false).
Proof.
  unfold mostRecentDueTime. intros H.
  destruct (Before earliest now) eqn:Hb; simpl in H; [|done]. unfold Before in Hb. zbool.
  destruct (_ || _) eqn:H1 in H; [done|]. unfold IsZero, Before in H1. zbool.
  assert (due = Next sched earliest ∨ ∃ u, due = walk sched now (Next sched u) (Next sched earliest))
    as [->|[u ->]].
  { destruct (_ || _) eqn:H2 in H; [simplify_eq; by left|].
    destruct (_ <? 1) in H; simplify_eq; eauto. }
  { repeat split; eauto. }
  destruct (walk_result sched now (Next sched u) (Next sched earliest))
    as [[_ ->]|(Hp & [_ Hle] & Hz & Hw & Hd)]; [repeat split; eauto|].
  repeat split; eauto. destruct Hw as [->|(v & _ & ->)]; eauto.
Qed.

(** No tick is reported exactly when none has come due. *)
Lemma mostRecentDueTime_none sched earliest now :
  mostRecentDueTime sched earliest now = None ↔
  now <= earliest ∨ pending now (Next sched earliest) = false.
Proof.
  unfold mostRecentDueTime, pending, Before, After.
  destruct (Z.ltb_spec earliest now); simpl; [|naive_solver lia].
  destruct (IsZero (Next sched earliest)) eqn:E1; simpl; [naive_solver|].
  destruct (Z.ltb_spec now (Next sched earliest)); simpl; [naive_solver|].
  destruct (_ || _); [naive_solver lia|]. destruct (_ <? 1); naive_solver lia.
Qed.

(** C31: The O(1) jump agrees with the walk over every missed tick.  For a
    schedule with evenly spaced ticks, nothing is reported before the first
    tick is due; from then on the report is the last tick at or before [now]
    (the next one is in the future), however long the outage, and the
    too-many-missed flag says exactly whether more than a hundred ticks have
    come due. *)
Theorem mostRecentDueTime_periodic sched s earliest now :
  0 < s → zeroTime < earliest → in64 (now - earliest) →
  periodic sched (s * Second) earliest → exactSeconds (now - Next sched earliest) →
  let t1 := Next sched earliest in
  let k := (now - t1) / (s * Second) in
  let due := t1 + k * (s * Second) in
  mostRecentDueTime sched earliest now =
    (if t1 <=? now then Some (due, maxMissedSchedules <? k + 1) else None) ∧
  (t1 <= now → earliest < due <= now ∧ now < Next sched due).
Proof.
  intros Hs Hz H64 Hp Hex t1 k due. set (p := s * Second) in *.
  assert (Hp0 : 0 < p) by (unfold p, Second; lia).
  split; [|intros Hd; destruct (last_tick sched p earliest now Hp0 Hp Hd) as (_ & ? & ? & Hn);
           unfold due; fold t1 k in Hn; by rewrite Hn].
  destruct (Hp earliest) as (Hlt & _ & Ht2); [lia|]. fold t1 in Hlt, Ht2, Hex.
  destruct (Z.leb_spec t1 now) as [Hd|Hd].
  2:{ apply mostRecentDueTime_none. right. fold t1.
      destruct (pending now t1) eqn:E; [|done]. apply pending_spec in E. lia. }
  destruct (last_tick sched p earliest now Hp0 Hp Hd) as (Hk & [_ Hu] & Hn & _).
  fold t1 k in Hk, Hu, Hn. unfold due.
  unfold mostRecentDueTime, Before, IsZero, in64 in *. fold t1. rewrite Ht2.
  rewrite (proj2 (Z.ltb_lt earliest now)), (proj2 (Z.eqb_neq t1 _)),
    (proj2 (Z.eqb_neq (t1 + p) _)), (proj2 (Z.ltb_ge now t1)) by lia. simpl.
  destruct (Z.ltb_spec now (t1 + p)) as [H1|H1].
  { assert (k = 0) as -> by nia. by rewrite Z.mul_0_l, Z.add_0_r. }
  rewrite !Sub_small by (unfold in64; lia).
  replace (t1 + p - t1) with p by lia.
  assert (wholeSeconds (Round p Second) = s) as ->.
  { unfold p. rewrite Round_multiple by done.
    apply to_int_Seconds_whole. unfold p, Second in *. lia. }
  rewrite (proj2 (Z.ltb_ge s 1)) by lia. rewrite Hex, missed_whole by lia. fold p k.
  assert (k * s * Second = k * p) as Hks by (unfold p; lia).
  assert (k <= k * s) by nia. set (ks := k * s) in *.
  assert (ks * 1000000000 < 2 ^ 63) by (unfold Second in Hks; lia).
  rewrite (wrap64_id (k + 1)) by (unfold in64; lia).
  replace (k + 1 - 1) with k by lia. rewrite (wrap64_id k) by (unfold in64; lia).
  fold ks. unfold seconds. rewrite (wrap64_id ks) by (unfold in64; lia).
  rewrite Hks, wrap64_id by (unfold in64; lia).
  pose proof (jump_exact sched p earliest now Hp0 Hz Hp Hd) as Hj. fold t1 k in Hj.
  by rewrite Hj, Z.gtb_ltb.
Qed.

(** Ticks of different schedules, or different ticks of one, never share a
    Backup name (ticks are not before 1970). *)
Lemma parse_digits_dash (r u : string) acc : parse_digits (r ++! String "-" u) acc = None.
Proof.
  revert acc. induction r as [|c r IH]; intros acc; [done|].
  change (String c r ++! String "-" u) with (String c (r ++! String "-" u)). simpl.
  destruct (digit_value c); [apply IH|done].
Qed.

Lemma last_dash (s s' d d' : string) :
  is_Some (parse_digits d 0) → is_Some (parse_digits d' 0) →
  s ++! String "-" d = s' ++! String "-" d' → s = s' ∧ d = d'.
Proof.
  intros Hd Hd'. revert s'.
  induction s as [|c s IH]; intros [|c' s'] E;
    repeat match type of E with
    | context [String.append (String ?c ?s) ?t] =>
        change (String.append (String c s) t) with (String c (String.append s t)) in E
    | context [String.append EmptyString ?t] => change (String.append EmptyString t) with t in E
    end; simplify_eq/=; [done| | |].
  - rewrite parse_digits_dash in Hd. by destruct Hd.
  - rewrite parse_digits_dash in Hd'. by destruct Hd'.
  - by match goal with H : _ = _ |- _ => apply IH in H as [-> ->] end.
Qed.

Lemma pretty_nonneg z : 0 <= z → parse_digits (pretty z) 0 = Some z.
Proof.
  intros Hz. destruct z as [|p|p]; [done| |lia]. exact (parse_pretty_N (N.pos p)).
Qed.

Lemma scheduledBackupName_inj n n' t t' :
  0 <= t → 0 <= t' → scheduledBackupName n t = scheduledBackupName n' t' →
  n = n' ∧ Unix t = Unix t'.
Proof.
  intros Ht Ht' E.
  assert (∀ u, 0 <= u → 0 <= Unix u) as HU by (intros; by apply Z.div_pos).
  apply last_dash in E as [-> E]; [|rewrite pretty_nonneg by auto; eauto..].
  split; [done|]. apply (f_equal (λ s, parse_digits s 0)) in E.
  rewrite !pretty_nonneg in E by auto. congruence.
Qed.

(** * Concrete schedules *)

Module CronDemo.

Definition Hour : Z := 60 * Minute.
Definition Day : Z := 24 * Hour.

(** The first grid point after [t]. *)
Lemma grid_later p t : 0 < p → t < (t / p + 1) * p.
Proof.
  intros. pose proof (Z.div_mod t p ltac:(lia)). pose proof (Z.mod_pos_bound t p ltac:(lia)). nia.
Qed.

(** Hourly, on the hour. *)
Definition hourly : Schedule :=
  mkSchedule (λ t, (t / Hour + 1) * Hour) (λ t, or_intror (grid_later Hour t eq_refl)).

(** At 09:00 and at 10:00 every day: [0 9,10 * * *]. *)
Definition nineAndTen (t : Z) : Z :=
  let day := t / Day * Day in
  if t <? day + 9 * Hour then day + 9 * Hour
  else if t <? day + 10 * Hour then day + 10 * Hour
  else day + Day + 9 * Hour.

Lemma nineAndTen_later t : nineAndTen t = zeroTime ∨ t < nineAndTen t.
Proof.
  right. unfold nineAndTen. pose proof (Z.mod_pos_bound t Day ltac:(done)).
  pose proof (Z.div_mod t Day ltac:(done)).
  destruct (Z.ltb_spec t (t / Day * Day + 9 * Hour)); [done|].
  destruct (Z.ltb_spec t (t / Day * Day + 10 * Hour)); [done|].
  unfold Day, Hour, Minute, Second in *. lia.
Qed.

Definition morning : Schedule := mkSchedule nineAndTen nineAndTen_later.

Lemma hourly_periodic a : periodic hourly (3600 * Second) a.
Proof.
  intros t _. change (3600 * Second) with Hour. unfold hourly. simpl. repeat split.
  - by apply grid_later.
  - replace (t + Hour) with (t + 1 * Hour) by lia. rewrite Z.div_add by done. lia.
  - rewrite Z.div_mul by done. lia.
Qed.

(** A schedule last served at 00:00 and looked at again a week later, at
    half past and some nanoseconds. *)
Lemma mostRecentDueTime_periodic_witness :
  mostRecentDueTime hourly Day (8 * Day + 30 * Minute + 123456789) = Some (8 * Day, true).
Proof.
  destruct (mostRecentDueTime_periodic hourly 3600 Day (8 * Day + 30 * Minute + 123456789))
    as [H _]; [done|done|vm_compute; split; congruence|apply hourly_periodic|vm_compute; reflexivity|].
  rewrite H. vm_compute. reflexivity.
Defined.

(** Unevenly spaced ticks can be missed.  With ticks at 09:00 and 10:00,
    a schedule created at 08:30 and first looked at 23:00 reports the 09:00
    tick, although the tick of 10:00 is due as well: the interval between the
    first two ticks is extrapolated beyond the last one. *)
Theorem mostRecentDueTime_irregular :
  mostRecentDueTime morning (Day + 8 * Hour + 30 * Minute) (Day + 23 * Hour) =
    Some (Day + 9 * Hour, false) ∧
  Next morning (Day + 9 * Hour) = Day + 10 * Hour ∧ Day + 10 * Hour <= Day + 23 * Hour.
Proof. vm_compute. split; [|split]; congruence. Qed.

(** The float conversion: after 2^24 seconds (194 days) a fraction of
    0.999999999 s rounds up to the next second. *)
Example seconds_round_up :
  wholeSeconds (2 ^ 24 * Second + 999999999) = 2 ^ 24 + 1.
Proof. vm_compute. reflexivity. Qed.

End CronDemo.
