(* ===== verification/ScheduleCtl.v ===== *)
(** The BackupSchedule controller
    (internal/controller/backup/backupschedule_controller.go and
    backupschedule_backup.go): it stamps out one Backup for the cron tick that
    is due and deletes Backups beyond the retention policy.

    Library code enters through three parameters: the cron parser
    ([cron.ParseStandard]), [slices.SortFunc] (which is not stable: the order
    of equal elements is unspecified) and the iteration order of a Go map
    (which is random). *)

From S2P Require Import Prelude Effects GoFloat Kube ObjectStore BackupTypes Cron.
Open Scope Z_scope.
Open Scope go_scope.

(** * Resources *)

Record BackupRetentionPolicy := mkRetention {
  SuccessfulBackupsHistoryLimit : option Z;
  MaxAge : option Z
}.

Record BackupScheduleSpec := mkScheduleSpec {
  sSchedule : string;
  Suspend : option bool;
  BackupTemplate : BackupSpec;
  Retention : BackupRetentionPolicy
}.

Record ObjectReference := mkRef {
  refAPIVersion : string;
  refKind : string;
  refNamespace : string;
  refName : string;
  refUID : string
}.

Record BackupScheduleStatus := mkScheduleStatus {
  LastScheduleTime : option Z;
  LastSuccessfulTime : option Z;
  Active : list ObjectReference;
  sObservedGeneration : Z;
  sConditions : list Condition
}.

#[export] Instance ObjectReference_eq_dec : EqDecision ObjectReference.
Proof. solve_decision. Defined.
#[export] Instance BackupScheduleStatus_eq_dec : EqDecision BackupScheduleStatus.
Proof. solve_decision. Defined.

Record BackupSchedule := mkBackupSchedule {
  sName : string;
  sNamespace : string;
  sUID : string;
  sCreationTimestamp : Z;
  sGeneration : Z;
  sSpec : BackupScheduleSpec;
  sStatus : BackupScheduleStatus
}.

Definition scheduleSuspended (spec : BackupScheduleSpec) : bool := default false (Suspend spec).

Definition successfulBackupsHistoryLimit (retention : BackupRetentionPolicy) : Z :=
  default defaultSuccessfulBackupsHistoryLimit (SuccessfulBackupsHistoryLimit retention).

(** * Library code *)

(** [slices.SortFunc]: the same elements, in ascending order of [cmp], for a
    [cmp] that is a total preorder. *)
Class SortFuncs := {
  SortFunc : ∀ {A}, (A → A → Z) → list A → list A;
  SortFunc_perm : ∀ {A} (cmp : A → A → Z) l, SortFunc cmp l ≡ₚ l;
  SortFunc_sorted : ∀ {A} (cmp : A → A → Z) l,
    (∀ x y z, cmp x y <= 0 → cmp y z <= 0 → cmp x z <= 0) →
    (∀ x y, cmp x y <= 0 ∨ cmp y x <= 0) →
    StronglySorted (λ x y, cmp x y <= 0) (SortFunc cmp l)
}.

(** [for _, v := range m]: every entry once, in some order. *)
Class RangeMap := {
  rangeMap : ∀ {A}, gmap string A → list A;
  rangeMap_perm : ∀ {A} (m : gmap string A), rangeMap m ≡ₚ (map_to_list m).*2
}.

(** [t.Compare(u)]. *)
Definition Compare (t u : Z) : Z := if t <? u then -1 else if u <? t then 1 else 0.

Lemma Compare_le t u : Compare t u <= 0 ↔ t <= u.
Proof.
  unfold Compare. destruct (Z.ltb_spec t u); [lia|]. destruct (Z.ltb_spec u t); lia.
Qed.

Module ScheduleCtl.

Definition conditionTypeScheduleValid : string := "ScheduleValid".
Definition reasonValid : string := "Valid".
Definition reasonInvalidSchedule : string := "InvalidSchedule".
Definition reasonScheduleNeverFires : string := "ScheduleNeverFires".
Definition reasonBackupCreated : string := "BackupCreated".
Definition reasonTooManyMissedSchedules : string := "TooManyMissedSchedules".
Definition backupScheduleComponentName : string := "backup-schedule".
Definition annotationScheduledTime : string := "backup.pulsaroperator.io/scheduled-time".
Definition backupAPIVersion : string := "backup.pulsaroperator.io/v1alpha1".

(** * Calls *)

Inductive call :=
| GetSchedule (nn : NamespacedName)
| ListBackups (ns : string) (selector : gmap string string)
| DeleteBackup (b : Backup)
| SetOwner (ownerUID : string)
| CreateBackup (b : Backup)
| StatusPatch (base updated : BackupSchedule)
| Now
| Eventf (s : BackupSchedule) (ty : EventType) (reason note : string).

Definition ans (c : call) : Type :=
  match c with
  | GetSchedule _ => res BackupSchedule
  | ListBackups _ _ => res (list Backup)
  | DeleteBackup _ => res unit
  | SetOwner _ => res unit
  | CreateBackup _ => res unit
  | StatusPatch _ _ => res unit
  | Now => Z
  | Eventf _ _ _ _ => unit
  end.

(** * Status *)

Definition withStatus (f : BackupScheduleStatus → BackupScheduleStatus) (s : BackupSchedule) :
    BackupSchedule :=
  mkBackupSchedule (sName s) (sNamespace s) (sUID s) (sCreationTimestamp s) (sGeneration s)
    (sSpec s) (f (sStatus s)).

Definition setLastScheduleTime (t : Z) : BackupSchedule → BackupSchedule :=
  withStatus (λ st, mkScheduleStatus (Some t) (LastSuccessfulTime st) (Active st)
    (sObservedGeneration st) (sConditions st)).

Definition observeGeneration (s : BackupSchedule) : BackupSchedule :=
  withStatus (λ st, mkScheduleStatus (LastScheduleTime st) (LastSuccessfulTime st) (Active st)
    (sGeneration s) (sConditions st)) s.

Definition earliestScheduleTime (s : BackupSchedule) : Z :=
  default (sCreationTimestamp s) (LastScheduleTime (sStatus s)).

(** * Children *)

Definition buildBackupFromTemplate (s : BackupSchedule) (tick : Z) : Backup :=
  mkBackup (scheduledBackupName (sName s) tick) (sNamespace s) "" None zeroTime 0
    (Labels (sName s) backupScheduleComponentName)
    {[ annotationScheduledTime := RFC3339 tick ]}
    (BackupTemplate (sSpec s)) emptyBackupStatus.

(** [controllerutil.SetControllerReference], when it succeeds. *)
Definition ownedBy (uid : string) (b : Backup) : Backup :=
  mkBackup (bName b) (bNamespace b) (bUID b) (Some uid) (bCreationTimestamp b)
    (bGeneration b) (bLabels b) (bAnnotations b) (bSpec b) (bStatus b).

Definition listChildren (s : BackupSchedule) : prog ans (res (list Backup)) :=
  (try! ["listing child backups"] items :=
     perform ans (ListBackups (sNamespace s)
       (SelectorLabels (sName s) backupScheduleComponentName)) in
   Ret (Ok (filter (λ b, bController b = Some (sUID s)) items)))%prog.

Definition backupTerminal (b : Backup) : bool :=
  String.eqb (bsPhase (bStatus b)) BackupPhaseCompleted ||
  String.eqb (bsPhase (bStatus b)) BackupPhaseFailed.

Definition backupCompletionTime (b : Backup) : Z :=
  default (bCreationTimestamp b) (bsCompletionTime (bStatus b)).

Definition isCompleted (b : Backup) : bool := String.eqb (bsPhase (bStatus b)) BackupPhaseCompleted.

Definition childRef (b : Backup) : ObjectReference :=
  mkRef backupAPIVersion "Backup" (bNamespace b) (bName b) (bUID b).

(** The loop of updateChildStatus: the references of the children in flight
    and the newest success so far. *)
Fixpoint scanChildren (children : list Backup) (active : list ObjectReference)
    (newestSuccess : option Backup) : list ObjectReference * option Backup :=
  match children with
  | [] => (active, newestSuccess)
  | child :: children' =>
      let active := if negb (backupTerminal child) then active ++ [childRef child] else active in
      let newer :=
        match newestSuccess with
        | None => true
        | Some b => After (backupCompletionTime child) (backupCompletionTime b)
        end in
      scanChildren children' active
        (if isCompleted child && newer then Some child else newestSuccess)
  end.

Definition updateChildStatus (children : list Backup) (s : BackupSchedule) : BackupSchedule :=
  let '(active, newestSuccess) := scanChildren children [] None in
  withStatus (λ st, mkScheduleStatus (LastScheduleTime st)
    (match newestSuccess with
     | Some b => Some (backupCompletionTime b)
     | None => LastSuccessfulTime st
     end) active (sObservedGeneration st) (sConditions st)) s.

(** * Retention *)

Definition expired (maxAge : option Z) (now : Z) (b : Backup) : bool :=
  match maxAge with
  | None => false
  | Some d => Sub now (backupCompletionTime b) >? d
  end.

(** The first loop of reconcileRetention. *)
Fixpoint collect (maxAge : option Z) (now : Z) (children completed : list Backup)
    (toDelete : gmap string Backup) : list Backup * gmap string Backup :=
  match children with
  | [] => (completed, toDelete)
  | child :: children' =>
      if negb (backupTerminal child) then collect maxAge now children' completed toDelete
      else
        let completed := if isCompleted child then completed ++ [child] else completed in
        let toDelete :=
          if expired maxAge now child then <[bUID child := child]> toDelete else toDelete in
        collect maxAge now children' completed toDelete
  end.

Definition newestFirst (a b : Backup) : Z :=
  Compare (backupCompletionTime b) (backupCompletionTime a).

Definition markAll (l : list Backup) (toDelete : gmap string Backup) : gmap string Backup :=
  foldl (λ m b, <[bUID b := b]> m) toDelete l.

Fixpoint deleteAll (bs : list Backup) : prog ans (res unit) :=
  match bs with
  | [] => Ret (Ok tt)
  | b :: bs' =>
      (let! r := perform ans (DeleteBackup b) in
       match r with
       | Err e =>
           if IsNotFound e then deleteAll bs'
           else Ret (Err (Errorf ("deleting backup " ++! quote (bName b) ++! " for retention") e))
       | Ok _ => deleteAll bs'
       end)%prog
  end.

Definition historyLimit (s : BackupSchedule) : Z :=
  Z.max (successfulBackupsHistoryLimit (Retention (sSpec s))) 0.

(** Shortest positive time until a terminal child expires, 0 for none. *)
Fixpoint soonestExpiry (maxAge now soonest : Z) (children : list Backup) : Z :=
  match children with
  | [] => soonest
  | child :: children' =>
      if negb (backupTerminal child) then soonestExpiry maxAge now soonest children'
      else
        let untilExpiry := Sub (backupCompletionTime child + maxAge) now in
        if untilExpiry <=? 0 then soonestExpiry maxAge now soonest children'
        else
          soonestExpiry maxAge now
            (if (soonest =? 0) || (untilExpiry <? soonest) then untilExpiry else soonest) children'
  end.

Definition retentionRequeueAfter (s : BackupSchedule) (children : list Backup) : prog ans Z :=
  match MaxAge (Retention (sSpec s)) with
  | None => Ret 0
  | Some maxAge =>
      (let! now := perform ans Now in Ret (soonestExpiry maxAge now 0 children))%prog
  end.

Definition retentionResult (s : BackupSchedule) (children : list Backup) : prog ans Result :=
  (let! d := retentionRequeueAfter s children in Ret (mkResult d))%prog.

Definition minRequeueAfter (a b : Z) : Z :=
  if a <=? 0 then b else if b <=? 0 then a else Z.min a b.

Section Reconciler.
Context `{AM : !ApiMeta, SF : !SortFuncs, RM : !RangeMap}
  (ParseStandard : string → res Schedule).

(** The Backups the policy gives up, in no particular order. *)
Definition surplus (s : BackupSchedule) (now : Z) (children : list Backup) : gmap string Backup :=
  let limit := historyLimit s in
  let '(completed, toDelete) := collect (MaxAge (Retention (sSpec s))) now children [] ∅ in
  let completed := SortFunc newestFirst completed in
  markAll (drop (Z.to_nat (Z.min (Z.of_nat (length completed)) limit)) completed) toDelete.

Definition reconcileRetention (s : BackupSchedule) (children : list Backup) : prog ans (res unit) :=
  (let! now := perform ans Now in deleteAll (rangeMap (surplus s now children)))%prog.

(** * The schedule condition *)

Definition setValidCondition (st : ConditionStatus) (reason msg : string) (s : BackupSchedule) :
    BackupSchedule :=
  withStatus (λ t, mkScheduleStatus (LastScheduleTime t) (LastSuccessfulTime t) (Active t)
    (sObservedGeneration t)
    (setCond (sConditions t)
       (newCondition conditionTypeScheduleValid st (sGeneration s) reason msg))) s.

Definition setScheduleInvalid (s : BackupSchedule) (reason message : string) :
    prog ans BackupSchedule :=
  let changed :=
    match FindStatusCondition (sConditions (sStatus s)) conditionTypeScheduleValid with
    | None => true
    | Some prior =>
        negb (bool_decide (cStatus prior = ConditionFalse)) || negb (String.eqb (cReason prior) reason)
    end in
  let s := setValidCondition ConditionFalse reason message s in
  if changed then
    (let! _ := perform ans (Eventf s EventTypeWarning reason message) in Ret s)%prog
  else Ret s.

Definition setValidSchedule : BackupSchedule → BackupSchedule :=
  setValidCondition ConditionTrue reasonValid "schedule is a valid cron expression".

(** * Stamping *)

Definition parseSchedule (expr : string) : res Schedule :=
  match ParseStandard expr with
  | Err e => Err (Errorf ("invalid schedule " ++! quote expr) e)
  | Ok sched => Ok sched
  end.

Definition ensureBackupForTick (s : BackupSchedule) (tick : Z) : prog ans (res unit) :=
  let backup := buildBackupFromTemplate s tick in
  (try! ["setting owner reference on scheduled backup"] _ := perform ans (SetOwner (sUID s)) in
   let! created := perform ans (CreateBackup (ownedBy (sUID s) backup)) in
   match created with
   | Ok _ =>
       let! _ := perform ans (Eventf s EventTypeNormal reasonBackupCreated
         ("created Backup " ++! quote (bName backup) ++! " for schedule tick " ++! RFC3339 tick)) in
       Ret (Ok tt)
   | Err e =>
       if IsAlreadyExists e then Ret (Ok tt)
       else Ret (Err (Errorf ("creating scheduled backup " ++! quote (bName backup)) e))
   end)%prog.

(** The stamping half of reconcileDueBackup. *)
Definition stampDue (s : BackupSchedule) (sched : Schedule) (now : Z) :
    prog ans (BackupSchedule * res unit) :=
  match mostRecentDueTime sched (earliestScheduleTime s) now with
  | None => Ret (s, Ok tt)
  | Some (due, tooMany) =>
      (let! _ :=
         (if tooMany : bool then
            perform ans (Eventf s EventTypeWarning reasonTooManyMissedSchedules
              ("too many missed schedule times for " ++! quote (sSchedule (sSpec s)) ++! " since " ++!
               RFC3339 (earliestScheduleTime s) ++!
               "; skipping the backlog and stamping only the most recent tick (" ++!
               RFC3339 due ++! ")"))
          else Ret tt) in
       let! r := ensureBackupForTick s due in
       match r with
       | Err e => Ret (s, Err e)
       | Ok _ => Ret (setLastScheduleTime due s, Ok tt)
       end)%prog
  end.

Definition reconcileDueBackup (s : BackupSchedule) (sched : Schedule) (children : list Backup) :
    prog ans (BackupSchedule * res Result) :=
  (let! now := perform ans Now in
   let! out := stampDue s sched now in
   match out.2 with
   | Err e => Ret (out.1, Err e)
   | Ok _ =>
       let! d := retentionRequeueAfter out.1 children in
       Ret (out.1, Ok (mkResult (minRequeueAfter (Sub (Next sched now) now) d)))
   end)%prog.

(** * The reconcile loop *)

(** [advance] once the schedule parses and retention has run. *)
Definition advanceParsed (s : BackupSchedule) (sched : Schedule) (children : list Backup) :
    prog ans (BackupSchedule * res Result) :=
  (let! now := perform ans Now in
   if scheduleNeverFires sched now then
     let! s := setScheduleInvalid s reasonScheduleNeverFires
       ("schedule " ++! quote (sSchedule (sSpec s)) ++!
        " is valid cron syntax but matches no calendar date (e.g. February 31); it will never fire") in
     let! r := retentionResult s children in Ret (s, Ok r)
   else
     let s := setValidSchedule s in
     if scheduleSuspended (sSpec s) then
       let! r := retentionResult s children in Ret (s, Ok r)
     else reconcileDueBackup s sched children)%prog.

Definition advance (s : BackupSchedule) : prog ans (BackupSchedule * res Result) :=
  (let! listed := listChildren s in
   match listed with
   | Err e => Ret (s, Err e)
   | Ok children =>
       let s := updateChildStatus children s in
       let! pruned := reconcileRetention s children in
       match pruned with
       | Err e => Ret (s, Err e)
       | Ok _ =>
           match parseSchedule (sSchedule (sSpec s)) with
           | Err e =>
               let! s := setScheduleInvalid s reasonInvalidSchedule (error_text e) in
               let! r := retentionResult s children in Ret (s, Ok r)
           | Ok sched => advanceParsed s sched children
           end
       end
   end)%prog.

Definition patchStatus (base updated : BackupSchedule) : prog ans (res unit) :=
  if bool_decide (sStatus base = sStatus updated) then Ret (Ok tt)
  else perform ans (StatusPatch base updated).

Definition Reconcile (req : NamespacedName) : prog ans (res Result) :=
  (let! got := perform ans (GetSchedule req) in
   match got with
   | Err e => Ret (ignore_not_found e)
   | Ok base =>
       let! out := advance (observeGeneration base) in
       let! patched := patchStatus base out.1 in
       Ret (match out.2, patched with
            | Err e, _ => Err e
            | Ok r, Ok _ => Ok r
            | Ok _, Err e => Err e
            end)
   end)%prog.

End Reconciler.
End ScheduleCtl.
