(* ===== verification/ScheduleProps.v ===== *)
(** Properties of the BackupSchedule controller: what retention deletes and
    keeps, when it wakes up again, and which Backup a reconcile stamps. *)

From S2P Require Import Prelude Effects GoFloat Kube ObjectStore BackupTypes Cron ScheduleCtl.
Import ScheduleCtl.
Open Scope Z_scope.
Open Scope go_scope.

(** * Status of the children *)

Lemma isCompleted_terminal b : isCompleted b = true → backupTerminal b = true.
Proof. unfold isCompleted, backupTerminal. by intros ->. Qed.

Definition inFlight (b : Backup) : Prop := backupTerminal b = false.
#[export] Instance inFlight_dec b : Decision (inFlight b) := decide (backupTerminal b = false).

(** [b] completed last among [l]. *)
Definition newestSuccess (l : list Backup) (b : Backup) : Prop :=
  b ∈ l ∧ isCompleted b = true ∧
  ∀ c, c ∈ l → isCompleted c = true → backupCompletionTime c <= backupCompletionTime b.

Lemma scanChildren_active children act n :
  (scanChildren children act n).1 = act ++ (childRef <$> filter inFlight children).
Proof.
  revert act n. induction children as [|c l IH]; intros act n; simpl; [by rewrite app_nil_r|].
  rewrite IH. unfold inFlight. destruct (backupTerminal c) eqn:E; simpl.
  - by rewrite filter_cons_False by congruence.
  - rewrite filter_cons_True by done. by rewrite <- (assoc_L (++)).
Qed.

Lemma scanChildren_newest children act n pre :
  (match n with
   | Some b => newestSuccess pre b
   | None => ∀ c, c ∈ pre → isCompleted c = false
   end) →
  match (scanChildren children act n).2 with
  | Some b => newestSuccess (pre ++ children) b
  | None => ∀ c, c ∈ pre ++ children → isCompleted c = false
  end.
Proof.
  revert act n pre. induction children as [|c l IH]; intros act n pre Hn; simpl.
  { by rewrite app_nil_r. }
  replace (pre ++ c :: l) with ((pre ++ [c]) ++ l) by (by rewrite <- (assoc_L (++))). apply IH. unfold newestSuccess in *.
  destruct (isCompleted c) eqn:Ec; simpl;
    [destruct n as [b|]; [unfold After; destruct (Z.ltb_spec (backupCompletionTime b) (backupCompletionTime c))|]
    |destruct n as [b|]];
    repeat setoid_rewrite elem_of_app; repeat setoid_rewrite list_elem_of_singleton.
  - destruct Hn as (? & ? & Hmax). repeat split; auto.
    intros d [Hd| ->] Hc; [|done]. specialize (Hmax d Hd Hc). lia.
  - destruct Hn as (? & ? & Hmax). repeat split; auto. intros d [Hd| ->] Hc; auto.
  - repeat split; auto. intros d [Hd| ->] Hc; [|done]. by rewrite Hn in Hc.
  - destruct Hn as (? & ? & Hmax). repeat split; auto. intros d [Hd| ->] Hc; auto. congruence.
  - intros d [Hd| ->]; auto.
Qed.

(** The status is recomputed from the children: [active] lists exactly
    those still in flight, in order, and [lastSuccessfulTime] is the latest
    completion among the Completed ones, left alone when there is none. *)
Theorem updateChildStatus_spec children s :
  let st := sStatus (updateChildStatus children s) in
  Active st = childRef <$> filter inFlight children ∧
  ((∃ b, newestSuccess children b ∧ LastSuccessfulTime st = Some (backupCompletionTime b)) ∨
   ((∀ c, c ∈ children → isCompleted c = false) ∧
    LastSuccessfulTime st = LastSuccessfulTime (sStatus s))) ∧
  LastScheduleTime st = LastScheduleTime (sStatus s).
Proof.
  pose proof (scanChildren_active children [] None) as Ha.
  assert (∀ c : Backup, c ∈ [] → isCompleted c = false) as Hnil
    by (intros c Hc; by apply elem_of_nil in Hc).
  pose proof (scanChildren_newest children [] None [] Hnil) as Hn.
  unfold updateChildStatus. destruct (scanChildren children [] None) as [act n]. simpl in *.
  split; [done|]. split; [|done]. destruct n; eauto.
Qed.

(** * Retention *)

Definition deletions (t : list (event ans)) : list Backup :=
  omap (λ e, match ev_call e with DeleteBackup b => Some b | _ => None end) t.

Definition completedOf (children : list Backup) : list Backup :=
  filter (λ b, isCompleted b = true) children.

Definition expiredOf (maxAge : option Z) (now : Z) (children : list Backup) : list Backup :=
  filter (λ b, backupTerminal b = true ∧ expired maxAge now b = true) children.

Lemma collect_spec maxAge now children completed m :
  collect maxAge now children completed m =
    (completed ++ completedOf children, markAll (expiredOf maxAge now children) m).
Proof.
  revert completed m. unfold completedOf, expiredOf.
  induction children as [|c l IH]; intros completed m; cbn [collect]; [by rewrite app_nil_r|].
  destruct (backupTerminal c) eqn:Et; cbn [negb].
  - rewrite IH. f_equal.
    + destruct (isCompleted c) eqn:Ec; [rewrite filter_cons_True by done|by rewrite filter_cons_False by congruence].
      by rewrite <- (assoc_L (++)).
    + destruct (expired _ _ _) eqn:Ee; [by rewrite filter_cons_True|].
      rewrite filter_cons_False by naive_solver congruence. done.
  - rewrite IH, !filter_cons_False; [done|naive_solver congruence|].
    intros H%isCompleted_terminal. congruence.
Qed.

(** Every entry is a child filed under its own UID. *)
Definition keyed (children : list Backup) (m : gmap string Backup) : Prop :=
  ∀ u b, m !! u = Some b → bUID b = u ∧ b ∈ children.

Lemma uid_unique children b c :
  NoDup (bUID <$> children) → b ∈ children → c ∈ children → bUID b = bUID c → b = c.
Proof.
  intros Hnd [i Hi]%list_elem_of_lookup [j Hj]%list_elem_of_lookup E.
  assert (i = j) as ->; [|congruence].
  eapply NoDup_lookup; [done| |]; rewrite list_lookup_fmap; [by rewrite Hi|by rewrite Hj, E].
Qed.

Lemma markAll_spec children l m :
  NoDup (bUID <$> children) → l ⊆ children → keyed children m →
  keyed children (markAll l m) ∧
  ∀ b, b ∈ children → (markAll l m !! bUID b = Some b ↔ b ∈ l ∨ m !! bUID b = Some b).
Proof.
  intros Hnd. revert m. induction l as [|c l IH]; intros m Hl Hm; simpl.
  { split; [done|]. intros b _. rewrite elem_of_nil. tauto. }
  assert (c ∈ children) as Hc by set_solver.
  destruct (IH (<[bUID c := c]> m)) as [Hk Hiff]; [set_solver| |].
  { intros u b. rewrite lookup_insert_Some. intros [[<- <-]|[_ ?]]; [done|by apply Hm]. }
  split; [done|]. intros b Hb. rewrite (Hiff b Hb), elem_of_cons, lookup_insert_Some.
  split; [intros [?|[[_ ->]|[_ ?]]]; auto|].
  intros [[->|?]|?]; [by right; left|by left|right].
  destruct (decide (bUID c = bUID b)) as [E|]; [|by right].
  left. split; [done|]. by apply (uid_unique children).
Qed.

Lemma newestFirst_le a b : newestFirst a b <= 0 ↔ backupCompletionTime b <= backupCompletionTime a.
Proof. apply Compare_le. Qed.

Section Retention.
Context `{SF : !SortFuncs, RM : !RangeMap}.

(** The Completed Backups the history limit keeps. *)
Definition kept (s : BackupSchedule) (children : list Backup) : list Backup :=
  take (Z.to_nat (historyLimit s)) (SortFunc newestFirst (completedOf children)).

Definition doomed (s : BackupSchedule) (now : Z) (children : list Backup) (b : Backup) : Prop :=
  backupTerminal b = true ∧
  (expired (MaxAge (Retention (sSpec s))) now b = true ∨
   (isCompleted b = true ∧ b ∉ kept s children)).

Lemma drop_kept s children b :
  NoDup children →
  let l := SortFunc newestFirst (completedOf children) in
  b ∈ drop (Z.to_nat (Z.min (Z.of_nat (length l)) (historyLimit s))) l ↔
  b ∈ children ∧ isCompleted b = true ∧ b ∉ kept s children.
Proof.
  intros Hnd l. unfold kept. fold l.
  assert (0 <= historyLimit s) by (unfold historyLimit; lia).
  assert (NoDup l) as Hl.
  { unfold l. rewrite SortFunc_perm. by apply NoDup_filter. }
  assert (b ∈ l ↔ b ∈ children ∧ isCompleted b = true) as Hin.
  { unfold l. rewrite SortFunc_perm. unfold completedOf. rewrite list_elem_of_filter. tauto. }
  replace (drop _ l) with (drop (Z.to_nat (historyLimit s)) l).
  2:{ destruct (Z.min_spec (Z.of_nat (length l)) (historyLimit s)) as [[? ->]|[? ->]]; [|done].
      rewrite !drop_ge by lia. done. }
  rewrite assoc by apply _. rewrite <- Hin. set (n := Z.to_nat _). clearbody n.
  rewrite <- (take_drop n l) in Hl. apply NoDup_app in Hl as (_ & Hdisj & _).
  rewrite <- (take_drop n l) at 2. rewrite elem_of_app. naive_solver.
Qed.

Lemma surplus_spec s now children b :
  NoDup (bUID <$> children) →
  b ∈ rangeMap (surplus s now children) ↔ b ∈ children ∧ doomed s now children b.
Proof.
  intros Hnd. pose proof (NoDup_fmap_1 _ _ Hnd) as Hnd'.
  unfold surplus. rewrite collect_spec. simpl.
  set (l := SortFunc newestFirst (completedOf children)).
  set (exp := expiredOf _ now children).
  assert (keyed children (markAll exp ∅) ∧
    ∀ b, b ∈ children → (markAll exp ∅ !! bUID b = Some b ↔ b ∈ exp ∨ (∅ : gmap string Backup) !! bUID b = Some b))
    as [Hk1 Hi1].
  { apply markAll_spec; [done| |]; [|intros ? ?; by rewrite lookup_empty].
    intros c. unfold exp, expiredOf. rewrite list_elem_of_filter. tauto. }
  destruct (markAll_spec children (drop (Z.to_nat (Z.min (Z.of_nat (length l)) (historyLimit s))) l)
    (markAll exp ∅) Hnd) as [Hk2 Hi2]; [|done|].
  { intros c Hc. by apply (proj1 (drop_kept s children c Hnd')) in Hc as [? _]. }
  rewrite rangeMap_perm, list_elem_of_fmap.
  assert (∀ m, keyed children m →
    (∃ y : string * Backup, b = y.2 ∧ y ∈ map_to_list m) ↔ b ∈ children ∧ m !! bUID b = Some b) as ->.
  { intros m Hm. split.
    - intros ([u c] & -> & Hc%elem_of_map_to_list). simpl in *. by destruct (Hm _ _ Hc) as [<- ?].
    - intros [_ ?]. exists (bUID b, b). split; [done|]. by apply elem_of_map_to_list. }
  2: done.
  pose proof (drop_kept s children b Hnd') as Hdk. cbv zeta in Hdk. fold l in Hdk.
  split; intros [Hb H]; (split; [done|]).
  - apply Hi2 in H; [|done]. rewrite Hdk, (Hi1 b Hb), lookup_empty in H.
    unfold exp, expiredOf in H. rewrite list_elem_of_filter in H. unfold doomed.
    destruct H as [(_ & Hc & Hkept)|[[[? ?] _]|]]; [|by auto|done].
    split; [by apply isCompleted_terminal|by auto].
  - apply Hi2; [done|]. rewrite Hdk, (Hi1 b Hb).
    unfold exp, expiredOf. rewrite list_elem_of_filter. unfold doomed in H. naive_solver.
Qed.

Definition isDeletion (e : event ans) : Prop := ∃ b x, e = Ev (DeleteBackup b) x.

Definition deletionReply (e : event ans) : res unit :=
  match e with
  | Ev c x => match c return ans c → res unit with DeleteBackup _ => λ x, x | _ => λ _, Ok tt end x
  end.

Lemma deleteAll_run l t r :
  runs (deleteAll l) t r →
  deletions t `prefix_of` l ∧ Forall isDeletion t ∧
  (r = Ok tt → deletions t = l ∧
     ∀ b x, Ev (DeleteBackup b) x ∈ t → ∀ e, x = Err e → IsNotFound e = true).
Proof.
  revert t. induction l as [|b l IH]; intros t; simpl.
  { intros [-> ->]. split_and!; [done|done|]. intros _. split; [done|]. intros b x H. by apply elem_of_nil in H. }
  intros ([[]|e] & t' & -> & H); simpl; [|destruct (IsNotFound e) eqn:En; simpl in H].
  1,2: apply IH in H as (Hp & Hf & Hr); split; [by apply prefix_cons|]; split;
       [constructor; [by eexists _, _|done]|]; intros Hok; destruct (Hr Hok) as [-> Hx];
       (split; [done|]); intros b' x' [E|Hin]%elem_of_cons; [|by eauto];
       apply (f_equal deletionReply) in E; simpl in E; intros e' ->; congruence.
  destruct H as [-> ->]. split; [|split; [|done]]; [apply prefix_cons, prefix_nil|].
  constructor; [by eexists _, _|done].
Qed.

Lemma expired_iff maxAge now b :
  expired maxAge now b = true ↔ ∃ d, maxAge = Some d ∧ d < Sub now (backupCompletionTime b).
Proof.
  unfold expired. destruct maxAge as [d|]; [|naive_solver]. rewrite Z.gtb_lt. naive_solver.
Qed.

(** C15: Retention deletes exactly what the policy gives up.  The clock is read
    first, then nothing but terminal children are deleted: those that, at the
    time read, are older than [maxAge], and the Completed ones beyond the
    history limit, where the limit keeps the newest ones.  When the pass
    succeeds every such child has been deleted, or was found to be gone. *)
Theorem retention_policy s children t r :
  NoDup (bUID <$> children) →
  runs (reconcileRetention s children) t r →
  ∃ now t' keep,
    t = Ev Now now :: t' ∧ Forall isDeletion t' ∧
    keep ⊆+ completedOf children ∧
    Z.of_nat (length keep) = Z.min (historyLimit s) (Z.of_nat (length (completedOf children))) ∧
    (∀ k b, k ∈ keep → b ∈ completedOf children → b ∉ keep →
       backupCompletionTime b <= backupCompletionTime k) ∧
    let tooOld b := ∃ d, MaxAge (Retention (sSpec s)) = Some d ∧ d < Sub now (backupCompletionTime b) in
    let givenUp b := backupTerminal b = true ∧ (tooOld b ∨ (isCompleted b = true ∧ b ∉ keep)) in
    (∀ b, b ∈ deletions t → b ∈ children ∧ givenUp b) ∧
    (r = Ok tt → ∀ b, b ∈ children → givenUp b →
       ∃ x, Ev (DeleteBackup b) x ∈ t ∧ ∀ e, x = Err e → IsNotFound e = true).
Proof.
  intros Hnd (now & t' & -> & Hr). apply deleteAll_run in Hr as (Hp & Hf & Hok).
  exists now, t', (kept s children).
  set (l := SortFunc newestFirst (completedOf children)).
  assert (l ≡ₚ completedOf children) as Hperm by apply SortFunc_perm.
  assert (0 <= historyLimit s) by (unfold historyLimit; lia).
  split; [done|]. split; [done|]. split.
  { unfold kept. fold l. rewrite <- Hperm. apply sublist_submseteq, sublist_take. }
  split; [unfold kept; fold l; rewrite length_take, <- Hperm; lia|]. split.
  { intros k b Hk Hb Hnk. rewrite <- Hperm in Hb. unfold kept in *. fold l in Hk, Hnk.
    assert (StronglySorted (λ x y, newestFirst x y <= 0) l) as Hs.
    { apply SortFunc_sorted; [intros ? ? ?|intros ? ?]; rewrite !newestFirst_le; lia. }
    apply newestFirst_le.
    rewrite <- (take_drop (Z.to_nat (historyLimit s)) l) in Hs, Hb.
    apply elem_of_app in Hb as [|Hb]; [done|].
    by eapply (StronglySorted_app_1_elem_of _ _ _ k b Hs). }
  assert (∀ b, b ∈ rangeMap (surplus s now children) ↔ b ∈ children ∧ doomed s now children b) as Hsur
    by (intros b; by apply surplus_spec).
  unfold doomed in Hsur. setoid_rewrite expired_iff in Hsur. split.
  - intros b Hb. apply Hsur. by eapply elem_of_prefix.
  - intros Hr b Hb Hg. destruct (Hok Hr) as [Hd Hx].
    assert (b ∈ deletions t') as ([q x] & Hq & Hin)%list_elem_of_omap by (rewrite Hd; by apply Hsur).
    destruct q; try done. simpl in Hin. injection Hin as ->. exists x.
    split; [by right|]. by apply (Hx b x).
Qed.

End Retention.

(** * Waking up for retention *)

Definition expiresIn (maxAge now : Z) (b : Backup) : Z := Sub (backupCompletionTime b + maxAge) now.

Lemma soonestExpiry_spec maxAge now soonest children :
  0 <= soonest →
  let d := soonestExpiry maxAge now soonest children in
  0 <= d ∧ (0 < soonest → 0 < d <= soonest) ∧
  (∀ b, b ∈ children → backupTerminal b = true → 0 < expiresIn maxAge now b →
     0 < d <= expiresIn maxAge now b) ∧
  (0 < d → d = soonest ∨ ∃ b, b ∈ children ∧ backupTerminal b = true ∧ d = expiresIn maxAge now b).
Proof.
  revert soonest. induction children as [|c l IH]; intros soonest Hs; simpl.
  { split_and!; auto; [lia|]. intros b Hb. by apply elem_of_nil in Hb. }
  setoid_rewrite elem_of_cons. fold (expiresIn maxAge now c).
  destruct (backupTerminal c) eqn:Et; simpl.
  2:{ destruct (IH soonest Hs) as (? & ? & H3 & H4). split_and!; auto.
      - intros b [->|Hb]; [congruence|eauto].
      - intros Hd. destruct (H4 Hd) as [|(b & ? & ? & ?)]; [by left|]. right. exists b. auto. }
  destruct (Z.leb_spec (expiresIn maxAge now c) 0).
  { destruct (IH soonest Hs) as (? & ? & H3 & H4). split_and!; auto.
    - intros b [->|Hb]; [lia|eauto].
    - intros Hd. destruct (H4 Hd) as [|(b & ? & ? & ?)]; [by left|]. right. exists b. auto. }
  set (s' := if _ : bool then _ else _).
  assert (0 < s' <= expiresIn maxAge now c ∧ (0 < soonest → s' <= soonest) ∧
          (s' = soonest ∨ s' = expiresIn maxAge now c)) as (? & ? & Hor).
  { unfold s'. destruct (Z.eqb_spec soonest 0); simpl; [lia|].
    destruct (Z.ltb_spec (expiresIn maxAge now c) soonest); lia. }
  destruct (IH s') as (? & Hle & H3 & H4); [lia|]. specialize (Hle ltac:(lia)).
  split_and!; try lia; auto.
  - intros b [->|Hb]; [lia|eauto].
  - intros Hd. destruct (H4 Hd) as [E|(b & ? & ? & ?)]; [|right; exists b; auto].
    rewrite E. destruct Hor as [->| ->]; [by left|]. right. exists c. auto.
Qed.

(** Retention wakes up on time.  With a [maxAge] set, the requeue is
    never later than the moment the next terminal child reaches its maximal
    age, and a requeue is only asked for when some child's age asks for it. *)
Theorem retention_requeue s children maxAge t d :
  MaxAge (Retention (sSpec s)) = Some maxAge →
  runs (retentionRequeueAfter s children) t d →
  ∃ now, t = [Ev Now now] ∧ 0 <= d ∧
    (∀ b, b ∈ children → backupTerminal b = true → now < backupCompletionTime b + maxAge →
       0 < d ∧ now + d <= backupCompletionTime b + maxAge) ∧
    (0 < d → ∃ b, b ∈ children ∧ backupTerminal b = true ∧
       d = Sub (backupCompletionTime b + maxAge) now).
Proof.
  intros Hm. unfold retentionRequeueAfter. rewrite Hm.
  intros (now & t' & -> & -> & ->). exists now.
  destruct (soonestExpiry_spec maxAge now 0 children) as (H0 & _ & H3 & H4); [done|].
  split_and!; [done|done| |].
  - intros b Hb Ht Hlt.
    assert (0 < expiresIn maxAge now b <= backupCompletionTime b + maxAge - now)
      by (unfold expiresIn, Sub, min_int64, max_int64; lia).
    destruct (H3 b Hb Ht); lia.
  - intros Hd. destruct (H4 Hd) as [|?]; [lia|done].
Qed.

(** The one instant in between.  A terminal child whose age is exactly
    [maxAge] is neither deleted (its age is not greater) nor scheduled for
    (the time left is not positive): it stays until something else triggers
    a reconcile. *)
Theorem retention_boundary_gap maxAge now b :
  in64 maxAge → backupCompletionTime b + maxAge = now →
  expired (Some maxAge) now b = false ∧ soonestExpiry maxAge now 0 [b] = 0.
Proof.
  intros H64 <-. unfold expired, in64 in *. split.
  - rewrite Sub_small by (unfold in64; lia). rewrite Z.gtb_ltb. apply Z.ltb_ge. lia.
  - simpl. rewrite Sub_small by (unfold in64; lia). rewrite Z.sub_diag.
    by destruct (backupTerminal b).
Qed.

(** * Stamping *)

Definition creations (t : list (event ans)) : list Backup :=
  omap (λ e, match ev_call e with CreateBackup b => Some b | _ => None end) t.

Lemma creations_app t t' : creations (t ++ t') = creations t ++ creations t'.
Proof. apply omap_app. Qed.

(** Calls that neither create a Backup nor write the status. *)
Definition quiet (c : call) : Prop :=
  match c with CreateBackup _ | StatusPatch _ _ => False | _ => True end.

(** The same object but for the parts of the status that stamping does not
    read. *)
Definition same (base s : BackupSchedule) : Prop :=
  withStatus (λ _, sStatus base) s = base ∧
  LastScheduleTime (sStatus s) = LastScheduleTime (sStatus base).

Lemma same_reads base s : same base s →
  sUID s = sUID base ∧ sSpec s = sSpec base ∧ earliestScheduleTime s = earliestScheduleTime base ∧
  ∀ due, buildBackupFromTemplate s due = buildBackupFromTemplate base due.
Proof.
  intros [E H]. unfold earliestScheduleTime. rewrite H. destruct base, s. unfold withStatus in E.
  simpl in *. injection E as -> -> -> -> -> ->. by split_and!.
Qed.

Lemma same_updateChildStatus base s children :
  same base s → same base (updateChildStatus children s).
Proof. intros [E H]. unfold updateChildStatus. by destruct (scanChildren _ _ _). Qed.

Section Stamping.
Context `{AM : !ApiMeta, SF : !SortFuncs, RM : !RangeMap}
  (ParseStandard : string → res Schedule) (req : NamespacedName).

Abbreviation hist := (list (event ans)).

(** The tick is due for the schedule as it was fetched, at a time the clock
    showed. *)
Definition isDue (h : hist) (base : BackupSchedule) (due : Z) : Prop :=
  ∃ sched now tooMany, parseSchedule ParseStandard (sSchedule (sSpec base)) = Ok sched ∧
    Ev Now now ∈ h ∧
    mostRecentDueTime sched (earliestScheduleTime base) now = Some (due, tooMany).

(** The Backup of the tick exists: it was created, or was there already. *)
Definition stamped (h : hist) (base : BackupSchedule) (due : Z) : Prop :=
  ∃ x : res unit,
    Ev (CreateBackup (ownedBy (sUID base) (buildBackupFromTemplate base due))) x ∈ h ∧
    match x with Ok _ => True | Err e => IsAlreadyExists e = true end.

Definition allowed (h : hist) (c : call) : Prop :=
  match c with
  | CreateBackup b =>
      creations h = [] ∧ ∃ base due, Ev (GetSchedule req) (Ok base) ∈ h ∧
        scheduleSuspended (sSpec base) = false ∧ isDue h base due ∧
        b = ownedBy (sUID base) (buildBackupFromTemplate base due)
  | StatusPatch base s =>
      Ev (GetSchedule req) (Ok base) ∈ h ∧ sSpec s = sSpec base ∧
      (LastScheduleTime (sStatus s) = LastScheduleTime (sStatus base) ∨
       ∃ due, LastScheduleTime (sStatus s) = Some due ∧ isDue h base due ∧ stamped h base due)
  | _ => True
  end.

Abbreviation ok p Q h := (wp allowed (λ _ _, True) p Q h).

(** What a handler knows before it stamps, and what it hands to the patch. *)
Definition fresh (base : BackupSchedule) (h : hist) : Prop :=
  Ev (GetSchedule req) (Ok base) ∈ h ∧ creations h = [].

Definition patchable (base s : BackupSchedule) (h : hist) : Prop := allowed h (StatusPatch base s).

Lemma fresh_quiet base h c x : fresh base h → quiet c → fresh base (h ++ [Ev c x]).
Proof.
  intros [Hg Hc] Hq. split; [set_solver|]. rewrite creations_app, Hc. by destruct c.
Qed.

Lemma patchable_quiet base s h e : patchable base s h → patchable base s (h ++ [e]).
Proof.
  intros (Hg & Hs & Hl). split_and!; [set_solver|done|].
  destruct Hl as [?|(due & ? & (sched & now & tm & ? & ? & ?) & x & ? & ?)]; [by left|right].
  exists due. split_and!; [done|exists sched, now, tm|exists x]; set_solver.
Qed.

Lemma same_patchable base s h : fresh base h → same base s → patchable base s h.
Proof.
  intros [Hg _] Hs. destruct (same_reads _ _ Hs) as (_ & ? & _ & _).
  split_and!; [done|done|left; apply Hs].
Qed.

(** A quiet program keeps what is known. *)
Lemma ok_quiet {A} (p : prog ans A) (P : hist → Prop) h :
  (∀ h c x, quiet c → P h → P (h ++ [Ev c x])) →
  only quiet p → P h → ok p (λ _, P) h.
Proof.
  intros HP. revert h. induction p as [a|c k IH]; intros h; simpl; [done|].
  intros [Hc Hk] Hh. split; [by destruct c|]. intros x _. apply IH; eauto.
Qed.

Lemma ok_fresh {A} (p : prog ans A) base h :
  only quiet p → fresh base h → ok p (λ _, fresh base) h.
Proof. intros Hq. apply ok_quiet; [|done]. intros. by apply fresh_quiet. Qed.

Lemma ok_patchable {A} (p : prog ans A) base s h :
  only quiet p → patchable base s h → ok p (λ _, patchable base s) h.
Proof. intros Hq. apply ok_quiet; [|done]. intros. by apply patchable_quiet. Qed.

Lemma retentionRequeueAfter_quiet s children : only quiet (retentionRequeueAfter s children).
Proof. unfold retentionRequeueAfter. destruct (MaxAge _); simpl; auto. Qed.

Lemma deleteAll_quiet l : only quiet (deleteAll l).
Proof.
  induction l as [|b l IH]; simpl; [done|]. split; [done|]. intros []; [done|]. by destruct (IsNotFound e).
Qed.

Lemma retentionResult_ok base s children h :
  patchable base s h →
  ok (let! r := retentionResult s children in Ret (s, Ok r))%prog (λ o, patchable base o.1) h.
Proof.
  intros Hp. unfold retentionResult. apply wp_bind, wp_bind.
  eapply wp_mono, ok_patchable, Hp; [|apply retentionRequeueAfter_quiet]. done.
Qed.

Lemma setScheduleInvalid_ok base s reason msg h :
  fresh base h → same base s →
  ok (setScheduleInvalid s reason msg) (λ s', patchable base s') h.
Proof.
  intros Hf Hs. unfold setScheduleInvalid.
  assert (patchable base (setValidCondition ConditionFalse reason msg s) h) as Hp.
  { by apply same_patchable. }
  destruct (FindStatusCondition _ _); [destruct (_ || _)|]; simpl; try done.
  all: split; [done|]; intros ? _; by apply patchable_quiet.
Qed.

Lemma ensureBackupForTick_ok base s due h :
  fresh base h → same base s → scheduleSuspended (sSpec base) = false → isDue h base due →
  ok (ensureBackupForTick s due)
    (λ r h', fresh base h ∧ patchable base s h' ∧
       (r = Ok tt → patchable base (setLastScheduleTime due s) h')) h.
Proof.
  intros Hf Hs Hsus (sched & now & tm & Hparse & Hnow & Hmr).
  pose proof (same_patchable _ _ _ Hf Hs) as Hp.
  destruct (same_reads _ _ Hs) as (HU & HS & _ & HB). pose proof Hf as [Hg Hc].
  unfold ensureBackupForTick. rewrite HU, HB. simpl. split; [done|]. intros [u|e] _; simpl.
  2:{ split_and!; [done|by apply patchable_quiet|done]. }
  set (h1 := h ++ _). assert (fresh base h1) as Hf1 by by apply fresh_quiet.
  assert (isDue h1 base due) as Hdue.
  { exists sched, now, tm. split_and!; [done|set_solver|done]. }
  split.
  { split; [apply Hf1|]. exists base, due. split_and!; [apply Hf1|done|done|done]. }
  intros x _. set (h2 := h1 ++ _).
  assert (isDue h2 base due) as Hdue2.
  { exists sched, now, tm. split_and!; [done|set_solver|done]. }
  assert (match x with Ok _ => True | Err e => IsAlreadyExists e = true end →
          patchable base (setLastScheduleTime due s) h2) as Hset.
  { intros Hx. split_and!; [set_solver|done|]. right. exists due. split_and!; [done|done|].
    exists x. split; [set_solver|done]. }
  assert (patchable base s h2) as Hp2 by by do 2 apply patchable_quiet.
  destruct x as [[]|e]; simpl.
  - split; [done|]. intros ? _. split_and!; [done|by apply patchable_quiet|].
    intros _. apply patchable_quiet. auto.
  - destruct (IsAlreadyExists e) eqn:E; simpl; split_and!; auto. done.
Qed.

Lemma stampDue_ok base s sched now h :
  fresh base h → same base s → scheduleSuspended (sSpec base) = false →
  parseSchedule ParseStandard (sSchedule (sSpec base)) = Ok sched → Ev Now now ∈ h →
  ok (stampDue s sched now) (λ o, patchable base o.1) h.
Proof.
  intros Hf Hs Hsus Hparse Hnow. unfold stampDue.
  destruct (same_reads _ _ Hs) as (_ & _ & -> & _).
  destruct (mostRecentDueTime _ _ _) as [[due tm]|] eqn:E; [|by apply same_patchable].
  apply wp_bind. apply wp_mono with (Q := λ _ h', fresh base h' ∧ Ev Now now ∈ h').
  - intros _ h' _ [Hf' Hn']. apply wp_bind. eapply wp_mono; [|eapply ensureBackupForTick_ok; eauto].
    + intros [[]|e] h'' _ (_ & Hp & Hr); simpl; auto.
    + by exists sched, now, tm.
  - destruct tm; simpl; [|done]. split; [done|]. intros x _.
    split; [by apply fresh_quiet|set_solver].
Qed.

Lemma reconcileDueBackup_ok base s sched children h :
  fresh base h → same base s → scheduleSuspended (sSpec base) = false →
  parseSchedule ParseStandard (sSchedule (sSpec base)) = Ok sched →
  ok (reconcileDueBackup s sched children) (λ o, patchable base o.1) h.
Proof.
  intros Hf Hs Hsus Hparse. unfold reconcileDueBackup. simpl. split; [done|]. intros now _.
  apply wp_bind. eapply wp_mono; [|eapply stampDue_ok; eauto].
  - intros [s' [u|e]] h' _ Hp; simpl in *; [|done]. apply wp_bind.
    eapply wp_mono, ok_patchable, Hp; [|apply retentionRequeueAfter_quiet]. done.
  - by apply fresh_quiet.
  - set_solver.
Qed.

Lemma advance_ok base s h :
  fresh base h → same base s →
  ok (advance ParseStandard s) (λ o, patchable base o.1) h.
Proof.
  intros Hf Hs. unfold advance. simpl. split; [done|]. intros [items|e] _; simpl.
  2:{ by apply patchable_quiet, same_patchable. }
  set (children := filter _ items).
  pose proof (same_updateChildStatus _ _ children Hs) as Hs'.
  split; [done|]. intros now _. apply wp_bind.
  eapply wp_mono; [|apply (ok_fresh _ base); [apply deleteAll_quiet|apply fresh_quiet; [by apply fresh_quiet|done]]].
  intros [u|e] h' _ Hf'; simpl; [|by apply same_patchable].
  destruct (same_reads _ _ Hs') as (_ & HS & _ & _). rewrite HS.
  destruct (parseSchedule _ _) as [sched|e] eqn:Hparse.
  - unfold advanceParsed. simpl. split; [done|]. intros n _.
    assert (fresh base (h' ++ [Ev Now n])) as Hf2 by by apply fresh_quiet.
    destruct (scheduleNeverFires _ _).
    + apply wp_bind. eapply wp_mono; [|by apply (setScheduleInvalid_ok base)].
      intros s' h'' _ Hp. by apply retentionResult_ok.
    + destruct (scheduleSuspended _) eqn:Hsus; simpl in Hsus; rewrite HS in Hsus.
      * by apply retentionResult_ok, same_patchable.
      * by apply reconcileDueBackup_ok.
  - apply wp_bind. eapply wp_mono; [|by apply (setScheduleInvalid_ok base)].
    intros s' h'' _ Hp. by apply retentionResult_ok.
Qed.

Lemma Reconcile_ok : ok (Reconcile ParseStandard req) (λ _ _, True) [].
Proof.
  unfold Reconcile. apply wp_bind. cbn [wp perform]. split; [done|].
  intros [base|e] _; cbn [wp]; [|done].
  apply wp_bind. eapply wp_mono; [|apply (advance_ok base); [|by destruct base]].
  - intros [s r] h _ Hp. simpl in *. apply wp_bind. unfold patchStatus.
    destruct (bool_decide _); simpl; [done|]. done.
  - split; [set_solver|done].
Qed.

(** C14: One Backup per due tick, and no tick lost.  In every run of the
    reconciler, interrupted or not, a Backup is created at most once, only
    for a schedule that parses and is not suspended, for the tick that is due
    since the last one served, and under that tick's name; and the status
    only moves [lastScheduleTime] to a due tick whose Backup was created
    before or already existed. *)
Theorem Reconcile_stamps_once t1 c x t2 :
  part (Reconcile ParseStandard req) (t1 ++ Ev c x :: t2) → allowed t1 c.
Proof.
  intros Hp.
  exact (wp_part _ _ _ _ _ _ Reconcile_ok Hp (relies_top _ _) t1 (Ev c x) t2 eq_refl).
Qed.

End Stamping.

(** * Concrete schedules *)

Module ScheduleDemo.

#[local, refine] Instance refSort : SortFuncs :=
  {| SortFunc := λ A cmp, @merge_sort A (λ x y, cmp x y <= 0) (λ x y, decide (cmp x y <= 0)) |}.
Proof.
  - intros B cmp l. apply merge_sort_Permutation.
  - intros B cmp l Htr Htot. apply StronglySorted_merge_sort; [|done].
    intros x y z. apply Htr.
Defined.

#[local, refine] Instance refRange : RangeMap := {| rangeMap := λ A m, (map_to_list m).*2 |}.
Proof. done. Defined.

Definition Hour : Z := 60 * Minute.

Definition demoSpec : BackupSpec :=
  mkBackupSpec "pulsar" (mkComponents None None None)
    (mkDestination DriverAWSS3 "backups" "" "" "" None) "" None.

(** Hourly, keeping the two newest, nothing older than ten hours. *)
Definition demoSchedule : BackupSchedule :=
  mkBackupSchedule "nightly" "ns" "uid-s" (100 * Hour) 1
    (mkScheduleSpec "0 * * * *" None demoSpec (mkRetention (Some 2) (Some (10 * Hour))))
    (mkScheduleStatus None None [] 0 []).

Definition child (uid phase : string) (completed : option Z) : Backup :=
  mkBackup uid "ns" uid (Some "uid-s") 0 1 ∅ ∅ demoSpec
    (mkBackupStatus phase None completed "" 0 0 "" 1 []).

(** One running, three completed, one failed long ago. *)
Definition demoChildren : list Backup :=
  [child "a" BackupPhaseCompleted (Some (101 * Hour)); child "b" BackupPhaseRunning None;
   child "c" BackupPhaseCompleted (Some (103 * Hour)); child "d" BackupPhaseFailed (Some (90 * Hour));
   child "e" BackupPhaseCompleted (Some (102 * Hour))].

Definition parse (s : string) : res Schedule := Ok CronDemo.hourly.

(** A world where the clock shows 104:30 and every call succeeds. *)
Definition serve (c : call) (s : unit) : ans c * unit :=
  (match c return ans c with
   | GetSchedule _ => Ok demoSchedule
   | ListBackups _ _ => Ok demoChildren
   | DeleteBackup _ => Ok tt
   | SetOwner _ => Ok tt
   | CreateBackup _ => Ok tt
   | StatusPatch _ _ => Ok tt
   | Now => 104 * Hour + 30 * Minute
   | Eventf _ _ _ _ => tt
   end, s).

Definition retentionRun := exec serve (reconcileRetention demoSchedule demoChildren) tt.

Definition clock (e : event ans) : Z :=
  match e with Ev c x => match c return ans c → Z with Now => λ z, z | _ => λ _, 0 end x end.

Lemma retention_policy_witness :
  bName <$> deletions retentionRun.2 ≡ₚ ["a"; "d"] ∧
  ∃ now keep, now = 104 * Hour + 30 * Minute ∧ length keep = 2%nat ∧
    ∀ b, b ∈ deletions retentionRun.2 →
      b ∈ demoChildren ∧ backupTerminal b = true ∧
      ((∃ d, Some (10 * Hour) = Some d ∧ d < Sub now (backupCompletionTime b)) ∨
       (isCompleted b = true ∧ b ∉ keep)).
Proof.
  split; [apply (bool_decide_unpack _); vm_compute; exact I|].
  destruct (retention_policy demoSchedule demoChildren retentionRun.2 retentionRun.1.1)
    as (now & t' & keep & Ht & _ & _ & Hlen & _ & Hdel & _).
  - apply (bool_decide_unpack _). vm_compute. exact I.
  - apply exec_runs.
  - exists now, keep. split; [|split; [|exact Hdel]].
    + apply (f_equal (fmap clock)) in Ht. vm_compute in Ht. vm_compute. congruence.
    + change (Z.of_nat (length keep) = 2) in Hlen. lia.
Defined.

Lemma retention_requeue_witness :
  ∃ now, 0 < (101 * Hour + 10 * Hour) - now ∧
    now + soonestExpiry (10 * Hour) now 0 demoChildren <= 101 * Hour + 10 * Hour.
Proof.
  pose (run := exec serve (retentionRequeueAfter demoSchedule demoChildren) tt).
  destruct (retention_requeue demoSchedule demoChildren (10 * Hour) run.2 run.1.1)
    as (now & Ht & _ & H & _); [reflexivity|apply exec_runs|].
  assert (now = 104 * Hour + 30 * Minute) as -> 
    by (apply (f_equal (fmap clock)) in Ht; vm_compute in Ht; vm_compute; congruence).
  exists (104 * Hour + 30 * Minute). split; [done|].
  exact (proj2 (H (child "a" BackupPhaseCompleted (Some (101 * Hour)))
    ltac:(left) eq_refl ltac:(done))).
Defined.

(** The time of the last success goes back when the newest Completed Backup
    has been removed by other means than retention. *)
Example lastSuccessfulTime_can_regress :
  let s := updateChildStatus demoChildren demoSchedule in
  LastSuccessfulTime (sStatus s) = Some (103 * Hour) ∧
  LastSuccessfulTime (sStatus (updateChildStatus (take 2 demoChildren) s)) = Some (101 * Hour).
Proof. done. Qed.

Lemma retention_boundary_gap_witness :
  expired (Some (10 * Hour)) (101 * Hour)
    (child "d" BackupPhaseFailed (Some (91 * Hour))) = false ∧
  soonestExpiry (10 * Hour) (101 * Hour) 0
    [child "d" BackupPhaseFailed (Some (91 * Hour))] = 0.
Proof.
  apply (retention_boundary_gap (10 * Hour) (101 * Hour)
    (child "d" BackupPhaseFailed (Some (91 * Hour)))).
  - vm_compute. split; congruence.
  - reflexivity.
Defined.

Definition demoProg := @Reconcile refApiMeta refSort refRange parse (mkNN "ns" "nightly").
Definition demoTrace := (exec serve demoProg tt).2.
Definition demoBackup : Backup :=
  ownedBy "uid-s" (buildBackupFromTemplate demoSchedule (104 * Hour)).

(** The third from last call creates the Backup of 104:00. *)
Lemma stamp_split :
  demoTrace = take 8 demoTrace ++ Ev (CreateBackup demoBackup) (Ok tt) :: drop 9 demoTrace.
Proof. vm_compute. reflexivity. Qed.

Lemma Reconcile_stamps_once_witness :
  bName demoBackup = "nightly-374400" ∧
  @allowed parse (mkNN "ns" "nightly") (take 8 demoTrace) (CreateBackup demoBackup).
Proof.
  split; [vm_compute; reflexivity|].
  apply (@Reconcile_stamps_once refApiMeta refSort refRange parse (mkNN "ns" "nightly")
    (take 8 demoTrace) (CreateBackup demoBackup) (Ok tt) (drop 9 demoTrace)).
  rewrite <- stamp_split. exact (runs_part _ _ _ (exec_runs serve demoProg tt)).
Defined.

End ScheduleDemo.
