(* ===== verification/Config.v ===== *)
(** Component configuration (internal/config/config.go): layering, the
    properties-file rendering, prefixed environment variables and the config
    checksum.

    [strings.NewReplacer] with single-byte patterns replaces byte by byte.
    SHA-256 is a parameter.  [parseProperties] is the reader the rendered
    files are meant for, after the documentation of java.util.Properties. *)

From S2P Require Import Prelude ObjectStore BackupTypes.
Open Scope go_scope.

(** * Layering *)

(** [maps.Copy(merged, overrides)] after [maps.Copy(merged, base)]. *)
Definition Merge (base overrides : gmap string string) : gmap string string := overrides ∪ base.

Lemma lookup_Merge base overrides k :
  Merge base overrides !! k = match overrides !! k with Some v => Some v | None => base !! k end.
Proof. unfold Merge. rewrite lookup_union. by destruct (overrides !! k), (base !! k). Qed.

(** * Rendering *)

Definition bs : ascii := "092".
Definition nl : ascii := "010".
Definition cr : ascii := "013".
Definition tab : ascii := "009".
Definition ff : ascii := "012".

Definition escaped (c : ascii) : string := String bs (String c EmptyString).

Definition propValueEscaper (c : ascii) : string :=
  if Ascii.eqb c bs then escaped bs
  else if Ascii.eqb c nl then escaped "n"
  else if Ascii.eqb c cr then escaped "r"
  else if Ascii.eqb c tab then escaped "t"
  else String c EmptyString.

Definition propKeyEscaper (c : ascii) : string :=
  if Ascii.eqb c bs then escaped bs
  else if Ascii.eqb c nl then escaped "n"
  else if Ascii.eqb c cr then escaped "r"
  else if Ascii.eqb c tab then escaped "t"
  else if Ascii.eqb c " " then escaped " "
  else if Ascii.eqb c "=" then escaped "="
  else if Ascii.eqb c ":" then escaped ":"
  else String c EmptyString.

(** [replacer.Replace(s)] *)
Fixpoint Replace (replacer : ascii → string) (s : string) : string :=
  match s with
  | EmptyString => EmptyString
  | String c s' => replacer c ++! Replace replacer s'
  end.

Definition sortedKeys (cfg : gmap string string) : list string := sorted_keys cfg.

Definition propertyLine (k v : string) : string :=
  Replace propKeyEscaper k ++! String "=" (Replace propValueEscaper v ++! String nl EmptyString).

Fixpoint renderLines (cfg : gmap string string) (keys : list string) : string :=
  match keys with
  | [] => EmptyString
  | k :: keys' => propertyLine k (default "" (cfg !! k)) ++! renderLines cfg keys'
  end.

Definition RenderProperties (cfg : gmap string string) : string := renderLines cfg (sortedKeys cfg).

Definition EnvPrefix : string := "PULSAR_PREFIX_".

Definition PrefixedEnv (cfg : gmap string string) : list EnvVar :=
  (λ k, EnvValue (EnvPrefix ++! k) (default "" (cfg !! k))) <$> sortedKeys cfg.

(** * The checksum *)

(** [binary.BigEndian.PutUint64]. *)
Definition byteAt (n : N) (shift : N) : ascii := ascii_of_N ((n / 2 ^ shift) `mod` 256)%N.

Definition PutUint64 (n : N) : string :=
  String (byteAt n 56) (String (byteAt n 48) (String (byteAt n 40) (String (byteAt n 32)
    (String (byteAt n 24) (String (byteAt n 16) (String (byteAt n 8) (String (byteAt n 0)
      EmptyString))))))).

(** What is fed to the hash: every part behind its length. *)
Fixpoint framed (parts : list string) : string :=
  match parts with
  | [] => EmptyString
  | p :: parts' => PutUint64 (N.of_nat (String.length p)) ++! (p ++! framed parts')
  end.

(** [sha256hex] is the lower-case hexadecimal SHA-256 digest. *)
Definition Checksum (sha256hex : string → string) (parts : list string) : string :=
  String.substring 0 16 (sha256hex (framed parts)).

(** * The reader of a properties file

    A specification, not code of the operator: what the containers' own
    java.util.Properties does with the file, after its documentation.  A unicode
    escape and a line continued over its end, neither of which a rendered file
    holds, are refused. *)

Definition isSpace (c : ascii) : bool := Ascii.eqb c " " || Ascii.eqb c tab || Ascii.eqb c ff.
Definition isSeparator (c : ascii) : bool := Ascii.eqb c "=" || Ascii.eqb c ":".

Fixpoint skipSpace (s : string) : string :=
  match s with
  | String c s' => if isSpace c then skipSpace s' else s
  | EmptyString => s
  end.

(** The character an escape stands for; unicode escapes are not read. *)
Definition unescape (c : ascii) : option ascii :=
  if Ascii.eqb c "n" then Some nl
  else if Ascii.eqb c "r" then Some cr
  else if Ascii.eqb c "t" then Some tab
  else if Ascii.eqb c "f" then Some ff
  else if Ascii.eqb c "u" then None
  else Some c.

(** The key, up to the first separator or space that is not escaped, and the
    rest of the line. *)
Fixpoint readKey (s : string) : option (string * string) :=
  match s with
  | EmptyString => Some (EmptyString, EmptyString)
  | String c s' =>
      if Ascii.eqb c bs then
        match s' with
        | EmptyString => None
        | String d s'' => e ← unescape d; '(k, r) ← readKey s''; Some (String e k, r)
        end
      else if isSeparator c || isSpace c then Some (EmptyString, s)
      else '(k, r) ← readKey s'; Some (String c k, r)
  end.

Fixpoint readValue (s : string) : option string :=
  match s with
  | EmptyString => Some EmptyString
  | String c s' =>
      if Ascii.eqb c bs then
        match s' with
        | EmptyString => None
        | String d s'' => e ← unescape d; v ← readValue s''; Some (String e v)
        end
      else v ← readValue s'; Some (String c v)
  end.

Definition skipSeparator (s : string) : string :=
  match skipSpace s with
  | String c s' => if isSeparator c then skipSpace s' else String c s'
  | EmptyString => EmptyString
  end.

(** A natural line: nothing for a blank one or a comment. *)
Definition readLine (line : string) : option (option (string * string)) :=
  match skipSpace line with
  | EmptyString => Some None
  | String c _ as s =>
      if Ascii.eqb c "#" || Ascii.eqb c "!" then Some None
      else '(k, r) ← readKey s; v ← readValue (skipSeparator r); Some (Some (k, v))
  end.

(** The natural lines of a file. *)
Fixpoint naturalLines (s : string) : list string :=
  match s with
  | EmptyString => [EmptyString]
  | String c s' =>
      if Ascii.eqb c nl || Ascii.eqb c cr then EmptyString :: naturalLines s'
      else
        match naturalLines s' with
        | l :: ls => String c l :: ls
        | [] => [String c EmptyString]
        end
  end.

Fixpoint readLines (ls : list string) (m : gmap string string) : option (gmap string string) :=
  match ls with
  | [] => Some m
  | l :: ls' =>
      kv ← readLine l;
      readLines ls' (match kv with Some (k, v) => <[k := v]> m | None => m end)
  end.

Definition parseProperties (s : string) : option (gmap string string) := readLines (naturalLines s) ∅.

(** * Rendering and reading back *)

Fixpoint allChars (P : ascii → bool) (s : string) : bool :=
  match s with EmptyString => true | String c s' => P c && allChars P s' end.

Definition firstChar (P : ascii → bool) (s : string) : bool :=
  match s with EmptyString => true | String c _ => P c end.

(** What the format cannot carry: a key that looks like a comment or holds a
    form feed, a value that begins with a blank. *)
Definition keyReadable (k : string) : bool :=
  allChars (λ c, negb (Ascii.eqb c ff)) k &&
  firstChar (λ c, negb (Ascii.eqb c "#" || Ascii.eqb c "!")) k.

Definition valueReadable (v : string) : bool :=
  firstChar (λ c, negb (Ascii.eqb c " " || Ascii.eqb c ff)) v.

Definition isBreak (c : ascii) : bool := Ascii.eqb c nl || Ascii.eqb c cr.

Ltac chars :=
  repeat match goal with
  | |- context [Ascii.eqb ?c ?d] => is_var c; destruct (Ascii.eqb_spec c d) as [->|]
  | H : context [Ascii.eqb ?c ?d] |- _ => is_var c; destruct (Ascii.eqb_spec c d) as [->|]
  end.

Lemma allChars_app P (s t : string) : allChars P (s ++! t) = allChars P s && allChars P t.
Proof.
  induction s as [|c s IH]; [by rewrite append_nil|]. rewrite append_cons. simpl.
  by rewrite IH, andb_assoc.
Qed.

Lemma Replace_unbroken replacer s :
  (∀ c, allChars (λ d, negb (isBreak d)) (replacer c) = true) →
  allChars (λ d, negb (isBreak d)) (Replace replacer s) = true.
Proof.
  intros H. induction s as [|c s IH]; simpl; [done|]. by rewrite allChars_app, H, IH.
Qed.

Lemma keyEscaper_unbroken c : allChars (λ d, negb (isBreak d)) (propKeyEscaper c) = true.
Proof. unfold propKeyEscaper. chars; try done. unfold isBreak; simpl. by chars. Qed.

Lemma valueEscaper_unbroken c : allChars (λ d, negb (isBreak d)) (propValueEscaper c) = true.
Proof. unfold propValueEscaper. chars; try done. unfold isBreak; simpl. by chars. Qed.

Lemma naturalLines_line (l rest : string) :
  allChars (λ d, negb (isBreak d)) l = true →
  naturalLines (l ++! String nl rest) = l :: naturalLines rest.
Proof.
  induction l as [|c l IH]; simpl; [done|].
  unfold isBreak at 1.
  destruct (Ascii.eqb c nl || Ascii.eqb c cr) eqn:E; simpl; [done|].
  intros H. by rewrite IH.
Qed.

(** An escaped character is read back as itself. *)
Lemma readKey_escaped c (s : string) :
  Ascii.eqb c ff = false →
  readKey (propKeyEscaper c ++! s) = ('(k, r) ← readKey s; Some (String c k, r)).
Proof.
  intros Hff. unfold propKeyEscaper, escaped. chars; try done;
    repeat rewrite ?append_cons, ?append_nil; simpl;
    unfold isSeparator, isSpace; chars; try done; by destruct (readKey s) as [[]|].
Qed.

Lemma readKey_render (k r : string) :
  allChars (λ c, negb (Ascii.eqb c ff)) k = true →
  readKey (Replace propKeyEscaper k ++! String "=" r) = Some (k, String "=" r).
Proof.
  induction k as [|c k IH]; simpl; [done|]. intros [Hc%negb_true_iff Hk]%andb_true_iff.
  rewrite app_assoc_str, readKey_escaped by done. by rewrite IH.
Qed.

Lemma readValue_escaped c (s : string) :
  readValue (propValueEscaper c ++! s) = (v ← readValue s; Some (String c v)).
Proof.
  unfold propValueEscaper, escaped. chars; try done;
    repeat rewrite ?append_cons, ?append_nil; simpl; chars; try done; by destruct (readValue s).
Qed.

Lemma readValue_render v : readValue (Replace propValueEscaper v) = Some v.
Proof.
  induction v as [|c v IH]; simpl; [done|]. by rewrite readValue_escaped, IH.
Qed.

Lemma skipSpace_stop s : firstChar (λ c, negb (isSpace c)) s = true → skipSpace s = s.
Proof. destruct s as [|c s]; simpl; [done|]. by destruct (isSpace c). Qed.

(** What the reader leaves of a value: blanks at its start are skipped. *)
Fixpoint stripValue (v : string) : string :=
  match v with
  | String c v' => if Ascii.eqb c " " || Ascii.eqb c ff then stripValue v' else v
  | EmptyString => v
  end.

Lemma valueReadable_strip v : stripValue v = v ↔ valueReadable v = true.
Proof.
  destruct v as [|c v]; [done|]. unfold valueReadable. simpl.
  destruct (Ascii.eqb c " " || Ascii.eqb c ff); simpl; [|done]. split; [|done]. intros E.
  assert (∀ w, (String.length (stripValue w) ≤ String.length w)%nat) as Hl.
  { intros w. induction w as [|d w IH]; simpl; [done|]. destruct (_ || _); simpl; lia. }
  specialize (Hl v). rewrite E in Hl. simpl in Hl. lia.
Qed.

Lemma skipSpace_value v :
  skipSpace (Replace propValueEscaper v) = Replace propValueEscaper (stripValue v).
Proof.
  induction v as [|c v IH]; simpl; [done|].
  destruct (Ascii.eqb c " " || Ascii.eqb c ff) eqn:E.
  - rewrite <- IH. apply orb_true_iff in E as [->%Ascii.eqb_eq| ->%Ascii.eqb_eq];
      done.
  - apply skipSpace_stop. simpl. apply orb_false_iff in E as [E1 E2].
    unfold propValueEscaper, escaped, isSpace. chars; simpl in *; try done;
      repeat rewrite ?append_cons; simpl; by chars.
Qed.

Lemma readLine_render k v :
  keyReadable k = true →
  readLine (Replace propKeyEscaper k ++! String "=" (Replace propValueEscaper v)) =
    Some (Some (k, stripValue v)).
Proof.
  intros [Hff Hc]%andb_true_iff. unfold readLine.
  set (line := _ ++! _).
  assert (skipSpace line = line ∧ firstChar (λ c, negb (Ascii.eqb c "#" || Ascii.eqb c "!")) line = true
    ∧ line ≠ EmptyString) as (-> & Hcom & Hne).
  { subst line. destruct k as [|c k]; [done|]. simpl in Hff, Hc |- *.
    unfold propKeyEscaper, escaped, isSpace. chars; simpl in *; try done;
      repeat rewrite ?append_cons; simpl; unfold isSpace; chars; done. }
  destruct line as [|c line'] eqn:E; [done|]. simpl in Hcom. apply negb_true_iff in Hcom. rewrite Hcom.
  rewrite <- E. subst line. rewrite readKey_render by done. simpl.
  unfold skipSeparator. simpl. rewrite skipSpace_value. by rewrite readValue_render.
Qed.

(** Whatever a key holds, what is read ends before a form feed. *)
Lemma readKey_any k r :
  ∃ k' r', readKey (Replace propKeyEscaper k ++! String "=" r) = Some (k', r') ∧
    allChars (λ c, negb (Ascii.eqb c ff)) k' = true ∧
    ∀ c k0, k = String c k0 → Ascii.eqb c ff = false → ∃ k1, k' = String c k1.
Proof.
  induction k as [|c k (k' & r' & E & Hk & _)].
  { exists EmptyString, (String "=" r). by split_and!. }
  cbn [Replace]. rewrite app_assoc_str. destruct (Ascii.eqb c ff) eqn:Hc.
  - apply Ascii.eqb_eq in Hc as ->. cbn. eexists _, _. split; [done|]. split; [done|].
    intros c k0 [= <- _]. done.
  - rewrite readKey_escaped by done. rewrite E. exists (String c k'), r'. split; [done|].
    split; [simpl; by rewrite Hc|]. intros c' k0 [= <- _] _. by exists k'.
Qed.

Lemma readLine_key k r k' v' :
  readLine (Replace propKeyEscaper k ++! String "=" r) = Some (Some (k', v')) → keyReadable k' = true.
Proof.
  induction k as [|c k IH].
  { unfold readLine. simpl. destruct (readValue (skipSeparator (String "=" r))) as [v|]; [|done]. by intros [= <- _]. }
  destruct (Ascii.eqb c ff) eqn:Hc.
  { apply Ascii.eqb_eq in Hc as ->. exact IH. }
  destruct (readKey_any (String c k) r) as (k1 & r1 & E & Hk1 & Hfirst).
  destruct (Hfirst c k eq_refl Hc) as [k2 ->]. clear Hfirst IH. unfold readLine.
  destruct (Ascii.eqb c "#" || Ascii.eqb c "!") eqn:Hcom.
  { apply orb_true_iff in Hcom as [->%Ascii.eqb_eq| ->%Ascii.eqb_eq]; done. }
  set (line := _ ++! _) in *.
  assert (skipSpace line = line ∧ firstChar (λ c, negb (Ascii.eqb c "#" || Ascii.eqb c "!")) line = true
    ∧ line ≠ EmptyString) as (-> & Hh & Hne).
  { subst line. simpl. apply orb_false_iff in Hcom as [? ?].
    unfold propKeyEscaper, escaped, isSpace. chars; simpl in *; try done;
      repeat rewrite ?append_cons; simpl; unfold isSpace; chars; done. }
  destruct line as [|d line'] eqn:El; [done|]. simpl in Hh. apply negb_true_iff in Hh. rewrite Hh, E.
  cbn. destruct (readValue _); [|done]. intros [= <- <-]. unfold keyReadable.
  rewrite Hk1. cbn [firstChar]. by rewrite Hcom.
Qed.

Definition keysReadable (cfg : gmap string string) : Prop := map_Forall (λ k _, keyReadable k = true) cfg.

Definition readableConfig (cfg : gmap string string) : Prop :=
  map_Forall (λ k v, keyReadable k = true ∧ valueReadable v = true) cfg.

Lemma naturalLines_render cfg k keys :
  naturalLines (renderLines cfg (k :: keys)) =
    (Replace propKeyEscaper k ++! String "=" (Replace propValueEscaper (default "" (cfg !! k)))) ::
      naturalLines (renderLines cfg keys).
Proof.
  cbn [renderLines]. unfold propertyLine. rewrite app_assoc_str, append_cons, app_assoc_str, append_cons, append_nil.
  set (v := default _ _).
  replace (Replace propKeyEscaper k ++! String "=" (Replace propValueEscaper v ++! String nl _))
    with ((Replace propKeyEscaper k ++! String "=" (Replace propValueEscaper v)) ++!
          String nl (renderLines cfg keys)) by (by rewrite app_assoc_str, append_cons).
  apply naturalLines_line. rewrite allChars_app. simpl.
  by rewrite !Replace_unbroken by (apply keyEscaper_unbroken || apply valueEscaper_unbroken).
Qed.

Lemma readLines_render cfg keys m :
  keysReadable cfg → Forall (λ k, is_Some (cfg !! k)) keys →
  readLines (naturalLines (renderLines cfg keys)) m =
    Some (foldl (λ m k, <[k := default "" ((stripValue <$> cfg) !! k)]> m) m keys).
Proof.
  intros Hr. revert m. induction keys as [|k keys IH]; intros m Hk; [done|].
  apply Forall_cons in Hk as [[v Hv] Hk]. rewrite naturalLines_render. cbn [readLines].
  rewrite Hv. cbn [default]. rewrite readLine_render by by apply (Hr _ _ Hv).
  cbn [mbind option_bind]. rewrite IH by done. cbn [foldl]. by rewrite lookup_fmap, Hv.
Qed.

(** Only readable keys come out of a rendered file. *)
Lemma readLines_keys cfg keys m m' k :
  readLines (naturalLines (renderLines cfg keys)) m = Some m' → is_Some (m' !! k) →
  is_Some (m !! k) ∨ keyReadable k = true.
Proof.
  revert m. induction keys as [|k0 keys IH]; intros m.
  { intros [= <-]. auto. }
  rewrite naturalLines_render. cbn [readLines].
  destruct (readLine _) as [[[k1 v1]|]|] eqn:E; [|apply IH|done]. cbn [mbind option_bind].
  intros H Hm. destruct (IH _ H Hm) as [Hs|]; [|auto]. destruct (decide (k = k1)) as [->|Hne].
  - right. by eapply readLine_key.
  - left. by rewrite lookup_insert_ne in Hs.
Qed.

Lemma foldl_insert_keys (cfg m : gmap string string) keys k :
  foldl (λ m k, <[k := default "" (cfg !! k)]> m) m keys !! k =
    if decide (k ∈ keys) then Some (default "" (cfg !! k)) else m !! k.
Proof.
  revert m. induction keys as [|k' keys IH]; intros m; cbn [foldl].
  { by rewrite decide_False by (intros H; by apply elem_of_nil in H). }
  rewrite IH. destruct (decide (k ∈ keys)) as [Hin|Hin].
  - by rewrite decide_True by set_solver.
  - destruct (decide (k = k')) as [->|Hne].
    + rewrite lookup_insert_eq. by rewrite decide_True by set_solver.
    + rewrite lookup_insert_ne by done. by rewrite decide_False by set_solver.
Qed.

Lemma parse_render cfg :
  keysReadable cfg → parseProperties (RenderProperties cfg) = Some (stripValue <$> cfg).
Proof.
  intros Hr. unfold parseProperties, RenderProperties. rewrite readLines_render; [|done|].
  - f_equal. apply map_eq. intros k. rewrite foldl_insert_keys, lookup_empty.
    unfold sortedKeys. destruct (decide _) as [Hin|Hin]; rewrite elem_of_sorted_keys in Hin; rewrite lookup_fmap.
    + by destruct Hin as [v ->].
    + by destruct (cfg !! k) eqn:E; [destruct Hin|].
  - apply Forall_forall. intros k. unfold sortedKeys. by rewrite elem_of_sorted_keys.
Qed.

(** C39: A rendered configuration reads back as itself exactly when it is
    readable: no key begins with a hash or an exclamation mark (it would read
    as a comment) or holds a form feed, and no value begins with a space or a
    form feed.  Whatever other newlines, tabs, backslashes, separators or blanks
    the keys and values hold, the properties file yields the same map; and a
    configuration that is not readable never comes back.  The reader follows
    the documentation of java.util.Properties. *)
Theorem RenderProperties_roundtrip cfg :
  parseProperties (RenderProperties cfg) = Some cfg ↔ readableConfig cfg.
Proof.
  split.
  - intros H. assert (keysReadable cfg) as Hk.
    { intros k v Hv. destruct (readLines_keys _ _ _ _ k H) as [[x Hx]|]; [by eexists| |done].
      by rewrite lookup_empty in Hx. }
    rewrite parse_render in H by done. injection H as H. intros k v Hv. split; [by eapply Hk|].
    apply valueReadable_strip. apply (f_equal (lookup k)) in H. rewrite lookup_fmap, Hv in H. by injection H.
  - intros Hr. rewrite parse_render by (intros k v Hv; by apply (Hr k v Hv)). f_equal. apply map_eq. intros k.
    rewrite lookup_fmap. destruct (cfg !! k) as [v|] eqn:E; [|done]. simpl. f_equal.
    by apply valueReadable_strip, (Hr k v E).
Qed.

(** * The checksum's framing *)

Lemma byteAt_inj n m s :
  byteAt n s = byteAt m s → ((n / 2 ^ s) `mod` 256 = (m / 2 ^ s) `mod` 256)%N.
Proof.
  unfold byteAt. intros H%(f_equal N_of_ascii).
  rewrite !N_ascii_embedding in H; [done| |]; by apply N.mod_lt.
Qed.

(** Eight bytes determine a number below 2^64. *)
Lemma bytes_step (n m s : N) :
  ((n / 2 ^ s) `mod` 256 = (m / 2 ^ s) `mod` 256)%N →
  (n / 2 ^ (s + 8) = m / 2 ^ (s + 8))%N → (n / 2 ^ s = m / 2 ^ s)%N.
Proof.
  intros H1 H2. rewrite N.pow_add_r, <- !N.Div0.div_div in H2. change (2 ^ 8)%N with 256%N in H2.
  pose proof (N.div_mod (n / 2 ^ s) 256 ltac:(done)).
  pose proof (N.div_mod (m / 2 ^ s) 256 ltac:(done)). lia.
Qed.

Lemma PutUint64_inj n m : (n < 2 ^ 64)%N → (m < 2 ^ 64)%N → PutUint64 n = PutUint64 m → n = m.
Proof.
  intros Hn Hm E. unfold PutUint64 in E. injection E as E0 E1 E2 E3 E4 E5 E6 E7.
  apply byteAt_inj in E0, E1, E2, E3, E4, E5, E6, E7.
  assert (n / 2 ^ 64 = m / 2 ^ 64)%N as E by (by rewrite !N.div_small).
  apply (bytes_step n m 56) in E; [|done]. apply (bytes_step n m 48) in E; [|done].
  apply (bytes_step n m 40) in E; [|done]. apply (bytes_step n m 32) in E; [|done].
  apply (bytes_step n m 24) in E; [|done]. apply (bytes_step n m 16) in E; [|done].
  apply (bytes_step n m 8) in E; [|done]. apply (bytes_step n m 0) in E; [|done].
  by rewrite !N.div_1_r in E.
Qed.

Lemma append_inj_length (s s' t t' : string) :
  String.length s = String.length s' → s ++! t = s' ++! t' → s = s' ∧ t = t'.
Proof.
  revert s'. induction s as [|c s IH]; intros [|c' s'] Hl E; simpl in *; try done.
  injection E as -> E. apply IH in E as [-> ->]; [done|lia].
Qed.

Definition fits64 (p : string) : Prop := (N.of_nat (String.length p) < 2 ^ 64)%N.

Lemma framed_inj ps qs : Forall fits64 ps → Forall fits64 qs → framed ps = framed qs → ps = qs.
Proof.
  revert qs. induction ps as [|p ps IH]; intros [|q qs] Hp Hq E; try done.
  apply Forall_cons in Hp as [Hp Hps], Hq as [Hq Hqs].
  cbn [framed] in E. apply append_inj_length in E as [El E]; [|done].
  apply PutUint64_inj in El; [|done|done].
  apply append_inj_length in E as [-> E]; [|lia]. f_equal. by apply IH.
Qed.

(** The checksum only ever confuses what SHA-256 confuses: two part lists
    with the same checksum are equal, or their framings are different inputs
    whose digests agree on the first 16 hex digits.  In particular content
    never shifts unnoticed from one part into the next. *)
Theorem Checksum_collision sha256hex ps qs :
  Forall fits64 ps → Forall fits64 qs → Checksum sha256hex ps = Checksum sha256hex qs →
  ps = qs ∨ (framed ps ≠ framed qs ∧
    String.substring 0 16 (sha256hex (framed ps)) = String.substring 0 16 (sha256hex (framed qs))).
Proof.
  intros Hp Hq H. destruct (decide (framed ps = framed qs)) as [E|E]; [left|by right].
  by apply framed_inj.
Qed.

(** * Examples *)

Module ConfigDemo.

Definition cfg : gmap string string :=
  {[ "managedLedgerDefaultEnsembleSize" := "3"; "a=b: c" := String bs (String nl "x=y") ]}.

Lemma RenderProperties_roundtrip_witness :
  parseProperties (RenderProperties cfg) = Some cfg.
Proof.
  apply RenderProperties_roundtrip. unfold readableConfig. apply (bool_decide_unpack _).
  vm_compute. exact I.
Defined.

(** A key that begins with a hash sign is rendered unescaped, so it reads back as a
    comment: the setting is lost. *)
Example comment_key_lost :
  parseProperties (RenderProperties {[ "#k" := "v" ]}) = Some ∅.
Proof. vm_compute. reflexivity. Qed.

Lemma Checksum_collision_witness :
  framed ["ab"; "c"] ≠ framed ["a"; "bc"] ∧ Checksum (λ _, "0123456789abcdef00") ["ab"; "c"] = "0123456789abcdef".
Proof.
  destruct (Checksum_collision (λ _, "0123456789abcdef00") ["ab"; "c"] ["a"; "bc"])
    as [|[H _]]; [repeat constructor..|reflexivity|done|].
  split; [exact H|reflexivity].
Defined.

End ConfigDemo.
