(* ===== verification/Rollout.v ===== *)
(** The ordered rollout of a PulsarCluster's child resources
    (internal/controller/cluster/pulsarcluster_upgrade.go) and the readiness
    aggregation of pulsarcluster_controller.go.

    A child is any of the operator's component resources: its spec is a type
    parameter, and the closures the callers pass ([desiredSpec], [liveSpec],
    [setSpec], [onExisting]) are the fields of an [OrderedChild].  JSON
    encoding and SHA-256 are parameters. *)

From S2P Require Import Prelude Effects Kube ObjectStore BackupTypes Config.
Open Scope Z_scope.
Open Scope go_scope.

Module Rollout.

Definition specHashAnnotation : string := "pulsaroperator.io/spec-hash".
Definition appliedSpecHashAnnotation : string := "pulsaroperator.io/applied-spec-hash".
Definition conditionTypeUpgrading : string := "Upgrading".
Definition reasonUpgradeSettled : string := "Settled".
Definition rolloutRequeueInterval : Z := 15 * Second.

(** * Tiers *)

Inductive tierName :=
| tierOxia | tierBookKeeper | tierAutoRecovery | tierBroker | tierProxy | tierFunctionsWorker.

Definition tierString (t : tierName) : string :=
  match t with
  | tierOxia => "oxia"
  | tierBookKeeper => "bookkeeper"
  | tierAutoRecovery => "autorecovery"
  | tierBroker => "broker"
  | tierProxy => "proxy"
  | tierFunctionsWorker => "functionsworker"
  end.

Definition upgradeReason (t : tierName) : string :=
  match t with
  | tierOxia => "RollingOutOxia"
  | tierBookKeeper => "RollingOutBookKeeper"
  | tierAutoRecovery => "RollingOutAutoRecovery"
  | tierBroker => "RollingOutBroker"
  | tierProxy => "RollingOutProxy"
  | tierFunctionsWorker => "RollingOutFunctionsWorker"
  end.

Record tierOutcome := mkOutcome { settled : bool; applied : bool; deferred : bool }.

Definition noOutcome : tierOutcome := mkOutcome false false false.

Definition rolling (o : tierOutcome) : bool := applied o || deferred o.

Definition setSpecHashAnnotation (annotations : gmap string string) (key hash : string) :
    gmap string string :=
  <[key := hash]> annotations.

Inductive childAction := childNoop | childApplyRoll | childDeferRoll | childDriftCorrect.

Definition orderedChildDecision
    (storedDesiredHash desiredHash storedAppliedHash actualHash : string) (upstreamSettled : bool) :
    childAction :=
  if negb (String.eqb storedDesiredHash desiredHash) then
    if upstreamSettled then childApplyRoll else childDeferRoll
  else if negb (String.eqb actualHash storedAppliedHash) then childDriftCorrect
  else childNoop.

Definition tierSettled (ready deferred : bool) : bool := ready && negb deferred.

(** * Children *)

Record Child (Spec : Type) := mkChild {
  chKey : NamespacedName;
  chOwner : option string;
  chGeneration : Z;
  chAnnotations : gmap string string;
  chSpec : Spec;
  chConditions : list Condition
}.
#[global] Arguments mkChild {Spec}.
#[global] Arguments chKey {Spec}.
#[global] Arguments chOwner {Spec}.
#[global] Arguments chGeneration {Spec}.
#[global] Arguments chAnnotations {Spec}.
#[global] Arguments chSpec {Spec}.
#[global] Arguments chConditions {Spec}.

Definition with_Spec {Spec} (s : Spec) (c : Child Spec) : Child Spec :=
  mkChild (chKey c) (chOwner c) (chGeneration c) (chAnnotations c) s (chConditions c).
Definition with_Annotations {Spec} (a : gmap string string) (c : Child Spec) : Child Spec :=
  mkChild (chKey c) (chOwner c) (chGeneration c) a (chSpec c) (chConditions c).
Definition with_Owner {Spec} (uid : string) (c : Child Spec) : Child Spec :=
  mkChild (chKey c) (Some uid) (chGeneration c) (chAnnotations c) (chSpec c) (chConditions c).

(** [annotations[key]] *)
Definition annotation {Spec} (c : Child Spec) (key : string) : string :=
  default "" (chAnnotations c !! key).

(** What the callers pass: the desired spec as it is hashed, the live spec as
    it is hashed, and the spec to write, which may fold in the live spec of an
    existing child ([onExisting] followed by [setSpec]). *)
Record OrderedChild (Spec H : Type) := mkOrdered {
  desiredSpec : H;
  liveSpec : Spec → H;
  setSpec : option Spec → Spec
}.
#[global] Arguments mkOrdered {Spec H}.
#[global] Arguments desiredSpec {Spec H}.
#[global] Arguments liveSpec {Spec H}.
#[global] Arguments setSpec {Spec H}.

(** [Create] and [Update] answer with the object as the API server stored it,
    which the client decodes into the child. *)
Inductive call {Spec : Type} :=
| GetChild (nn : NamespacedName)
| SetOwner (ownerUID : string)
| CreateChild (c : Child Spec)
| UpdateChild (c : Child Spec).
#[global] Arguments call : clear implicits.

Definition ans {Spec} (c : call Spec) : Type :=
  match c with
  | GetChild _ => res (Child Spec)
  | SetOwner _ => res unit
  | CreateChild _ => res (Child Spec)
  | UpdateChild _ => res (Child Spec)
  end.

Section OrderedRollout.
Context {Spec H : Type} (zeroSpec : Spec)
  (Marshal : H → res string) (sha256hex : string → string).

Abbreviation M A := (prog (@ans Spec) A).

Definition specHash (spec : H) : res string :=
  match Marshal spec with
  | Err e => Err (Errorf "marshaling spec" e)
  | Ok encoded => Ok (Checksum sha256hex [encoded])
  end.

Definition writeOrderedChild (clusterUID : string) (child : Child Spec) (desiredHash : string)
    (oc : OrderedChild Spec H) (live : option Spec) (create : bool) : M (res (Child Spec)) :=
  let child := with_Spec (setSpec oc live) child in
  let child :=
    with_Annotations (setSpecHashAnnotation (chAnnotations child) specHashAnnotation desiredHash) child in
  (try! ["setting owner reference"] _ := perform ans (SetOwner clusterUID) in
   let child := with_Owner clusterUID child in
   try! child :=
     (if create then try! ["creating child"] c := perform ans (CreateChild child) in Ret (Ok c)
      else try! ["updating child"] c := perform ans (UpdateChild child) in Ret (Ok c)) in
   match specHash (liveSpec oc (chSpec child)) with
   | Err e => Ret (Err e)
   | Ok appliedHash =>
       try! ["stamping applied-spec hash"] child :=
         perform ans (UpdateChild (with_Annotations
           (setSpecHashAnnotation (chAnnotations child) appliedSpecHashAnnotation appliedHash) child)) in
       Ret (Ok child)
   end)%prog.

(** The child is returned beside the outcome: the caller reads its status and
    generation. *)
Definition applyOrderedChild (clusterUID : string) (key : NamespacedName)
    (oc : OrderedChild Spec H) (upstreamSettled : bool) : M (res (Child Spec * tierOutcome)) :=
  (let! got := perform ans (GetChild key) in
   match got with
   | Err e =>
       if IsNotFound e then
         match specHash (desiredSpec oc) with
         | Err e => Ret (Err e)
         | Ok desiredHash =>
             try! child := writeOrderedChild clusterUID (mkChild key None 0 ∅ zeroSpec [])
                             desiredHash oc None true in
             Ret (Ok (child, noOutcome))
         end
       else Ret (Err (Errorf "getting child" e))
   | Ok child =>
       match specHash (desiredSpec oc), specHash (liveSpec oc (chSpec child)) with
       | Err e, _ => Ret (Err e)
       | _, Err e => Ret (Err e)
       | Ok desiredHash, Ok actualHash =>
           match orderedChildDecision (annotation child specHashAnnotation) desiredHash
                   (annotation child appliedSpecHashAnnotation) actualHash upstreamSettled with
           | childApplyRoll =>
               try! child := writeOrderedChild clusterUID child desiredHash oc
                               (Some (chSpec child)) false in
               Ret (Ok (child, mkOutcome false true false))
           | childDeferRoll => Ret (Ok (child, mkOutcome false false true))
           | childDriftCorrect =>
               try! child := writeOrderedChild clusterUID child desiredHash oc
                               (Some (chSpec child)) false in
               Ret (Ok (child, noOutcome))
           | childNoop => Ret (Ok (child, noOutcome))
           end
       end
   end)%prog.

End OrderedRollout.

(** * Autoscaled tiers *)

(** What the rollout needs of a spec whose replica count an autoscaler may
    own. *)
Class Scaled (Spec : Type) := {
  specReplicas : Spec → option Z;
  withReplicas : option Z → Spec → Spec;
  replicas_with : ∀ r s, specReplicas (withReplicas r s) = r;
  with_with : ∀ r r' s, withReplicas r (withReplicas r' s) = withReplicas r s
}.

(** The closures of reconcileBroker and reconcileBookKeeper: with the
    autoscaler on, replicas are hidden from both hashes and taken over from the
    live child. *)
Definition scaledOrdered `{Scaled Spec} (autoscalerEnabled : bool) (desired : Spec) :
    OrderedChild Spec Spec :=
  if autoscalerEnabled then
    mkOrdered (withReplicas None desired) (withReplicas None)
      (λ live, match live with
               | Some l => withReplicas (specReplicas l) desired
               | None => desired
               end)
  else mkOrdered desired (λ s, s) (λ _, desired).

(** * Reporting *)

Record tierState := mkTierState { tier : tierName; tsPresent : bool; outcome : tierOutcome }.

Definition tierRolling (s : tierState) : bool := tsPresent s && rolling (outcome s).

Fixpoint rollingBottleneck (states : list tierState) : option tierState :=
  match states with
  | [] => None
  | s :: states' => if tierRolling s then Some s else rollingBottleneck states'
  end.

Definition rollingOutCondition (generation : Z) (states : list tierState) : Condition :=
  match rollingBottleneck states with
  | Some s =>
      newCondition conditionTypeUpgrading ConditionTrue generation (upgradeReason (tier s))
        ("rolling out the " ++! tierString (tier s) ++! " tier before downstream tiers")
  | None =>
      newCondition conditionTypeUpgrading ConditionFalse generation reasonUpgradeSettled
        "no tier has a spec roll in flight"
  end.

(** (reason, action, note) *)
Definition rolloutEvent (t : tierName) (applied : bool) : string * string * string :=
  if applied then
    ("RolloutStarted", "StartRollout",
     "rolling out updated spec to the " ++! tierString t ++! " tier")
  else
    ("RolloutDeferred", "DeferRollout",
     tierString t ++! " tier update deferred until upstream tiers settle").

Definition rolloutBottleneckChanged (prior : option Condition) (next : Condition) : bool :=
  match prior with
  | None => true
  | Some p => negb (bool_decide (cStatus p = cStatus next)) || negb (String.eqb (cReason p) (cReason next))
  end.

(** The events recordRolloutEvents emits, in order. *)
Definition recordRolloutEvents (prior : option Condition) (next : Condition)
    (states : list tierState) : list (string * string * string) :=
  ((λ s, rolloutEvent (tier s) true) <$> filter (λ s, applied (outcome s) = true) states) ++
  if negb (bool_decide (cStatus next = ConditionTrue)) || negb (rolloutBottleneckChanged prior next)
  then []
  else
    match rollingBottleneck states with
    | Some s => if deferred (outcome s) then [rolloutEvent (tier s) false] else []
    | None => []
    end.

(** ** Readiness *)

Definition conditionTypeReady : string := "Ready".
Definition reasonAllComponentsReady : string := "AllComponentsReady".
Definition reasonComponentNotReady : string := "ComponentNotReady".
Definition reasonComponentStatusMissing : string := "ComponentStatusMissing".
Definition reasonComponentProgressing : string := "ComponentProgressing".
Definition reasonNoComponentsConfigured : string := "NoComponentsConfigured".
Definition phaseReady : string := "Ready".
Definition phaseNotReady : string := "NotReady".

Record componentReport := mkReport {
  rName : string;
  present : bool;
  ready : bool;
  rReason : string;
  rMessage : string
}.

Definition reportFromConditions `{AM : !ApiMeta} (name : string) (generation : Z)
    (conditions : list Condition) : componentReport :=
  match FindStatusCondition conditions conditionTypeReady with
  | None =>
      mkReport name true false reasonComponentStatusMissing
        ("child " ++! name ++! " has not reported a Ready condition yet")
  | Some cond =>
      if negb (cObservedGeneration cond =? 0) && (cObservedGeneration cond <? generation) then
        mkReport name true false reasonComponentProgressing
          ("child " ++! name ++! " Ready condition is stale (observed generation " ++!
           %d (cObservedGeneration cond) ++! " < " ++! %d generation ++! ")")
      else
        mkReport name true (bool_decide (cStatus cond = ConditionTrue)) (cReason cond) (cMessage cond)
  end.

Definition componentPhase (r : componentReport) : string :=
  if negb (present r) then "" else if ready r then phaseReady else phaseNotReady.

Definition notReadyPart (r : componentReport) : string :=
  rName r ++! " (" ++! (if String.eqb (rReason r) "" then "not Ready" else rReason r) ++! ")".

(** [strings.Join(parts, sep)] *)
Fixpoint joinWith (sep : string) (parts : list string) : string :=
  match parts with
  | [] => ""
  | [p] => p
  | p :: parts' => p ++! sep ++! joinWith sep parts'
  end.

Definition aggregateReadyCondition (generation : Z) (reports : list componentReport) : Condition :=
  let configured := filter (λ r, present r = true) reports in
  let notReady := filter (λ r, ready r = false) configured in
  if (length configured =? 0)%nat then
    newCondition conditionTypeReady ConditionFalse generation reasonNoComponentsConfigured
      "no PulsarCluster components are configured"
  else if (length notReady =? 0)%nat then
    newCondition conditionTypeReady ConditionTrue generation reasonAllComponentsReady
      "all configured components are Ready"
  else
    newCondition conditionTypeReady ConditionFalse generation reasonComponentNotReady
      ("components not Ready: " ++! joinWith ", " (notReadyPart <$> notReady)).

End Rollout.
