(* ===== verification/RolloutProps.v ===== *)
(** Properties of the ordered rollout: against an API server that applies
    defaults to what it stores, a pass converges, a settled child is not
    written again, an interrupted pass is completed by the next one, and the
    bookie autoscaler keeps its replica count. *)

From S2P Require Import Prelude Effects Kube BookKeeper ObjectStore BackupTypes Config Rollout.
Import Rollout.
Open Scope Z_scope.
Open Scope go_scope.

(** * One tier against the gate *)

Definition writes {Spec} (t : list (event (@ans Spec))) : list (Child Spec) :=
  omap (λ e, match ev_call e with CreateChild c | UpdateChild c => Some c | _ => None end) t.

Section Gate.
Context {Spec H : Type} (zeroSpec : Spec) (Marshal : H → res string) (sha256hex : string → string).

Abbreviation apply_ := (applyOrderedChild zeroSpec Marshal sha256hex).

Definition writesChild (c : call Spec) : Prop :=
  match c with CreateChild _ | UpdateChild _ => True | _ => False end.

(** What licenses a write: the child did not exist, or its desired spec is
    unchanged, or every upstream tier has settled. *)
Definition gateOpen (key : NamespacedName) (oc : OrderedChild Spec H) (up : bool)
    (h : list (event (@ans Spec))) : Prop :=
  (∃ e, Ev (GetChild key) (Err e) ∈ h ∧ IsNotFound e = true) ∨
  (∃ child, Ev (GetChild key) (Ok child) ∈ h ∧
     (up = true ∨ specHash Marshal sha256hex (desiredSpec oc) = Ok (annotation child specHashAnnotation))).

Lemma gateOpen_snoc key oc up h e : gateOpen key oc up h → gateOpen key oc up (h ++ [e]).
Proof.
  unfold gateOpen. setoid_rewrite elem_of_app. naive_solver.
Qed.

Lemma orderedChildDecision_writes sd d sa a up :
  match orderedChildDecision sd d sa a up with
  | childApplyRoll => up = true
  | childDriftCorrect => sd = d
  | _ => True
  end.
Proof.
  unfold orderedChildDecision.
  destruct (String.eqb_spec sd d); simpl; [by destruct (String.eqb a sa)|by destruct up].
Qed.

Lemma applyOrderedChild_ok uid key oc up :
  wp (λ h c, writesChild c → gateOpen key oc up h) (λ _ _, True)
    (apply_ uid key oc up) (λ _ _, True) [].
Proof.
  assert (∀ A (p : prog (@ans Spec) A) h, gateOpen key oc up h →
    wp (λ h c, writesChild c → gateOpen key oc up h) (λ _ _, True) p (λ _ _, True) h) as Hany.
  { intros A p h Hh. eapply wp_mono, (wp_inv _ _ (gateOpen key oc up)); auto using gateOpen_snoc. }
  unfold applyOrderedChild. apply wp_bind. cbn [wp perform]. split; [done|].
  intros [child|e] _; cbn [wp].
  - destruct (specHash _ _ (desiredSpec oc)) as [dh|] eqn:Ed; [|done].
    destruct (specHash _ _ (liveSpec oc (chSpec child))) as [ah|] eqn:Ea; [|done].
    pose proof (orderedChildDecision_writes (annotation child specHashAnnotation) dh
      (annotation child appliedSpecHashAnnotation) ah up) as Hd.
    destruct (orderedChildDecision _ _ _ _ _); try done;
      apply Hany; right; exists child; (split; [set_solver|]); subst; auto.
  - destruct (IsNotFound e) eqn:E; [|done]. destruct (specHash _ _ _); [|done].
    apply Hany. left. exists e. split; [set_solver|done].
Qed.

(** C9: Nothing is rolled out of order.  In every run of a tier's pass,
    interrupted or not, a child is written only if it did not exist yet, or
    its desired spec has not changed since it was stamped (drift correction),
    or all upstream tiers have settled. *)
Theorem roll_only_when_settled uid key oc up t1 c x t2 :
  part (apply_ uid key oc up) (t1 ++ Ev c x :: t2) → writesChild c → gateOpen key oc up t1.
Proof.
  intros Hp. exact (wp_part _ _ _ _ _ _ (applyOrderedChild_ok uid key oc up) Hp (relies_top _ _)
    t1 (Ev c x) t2 eq_refl).
Qed.

(** ** What a pass that succeeds has seen *)

(** The child the API server answered with. *)
Definition answered (e : event (@ans Spec)) : option (Child Spec) :=
  match e with
  | Ev c x =>
      match c return ans c → option (Child Spec) with
      | SetOwner _ => λ _, None
      | _ => λ r, match r with Ok ch => Some ch | Err _ => None end
      end x
  end.

Definition lastAnswer (h : list (event (@ans Spec))) : option (Child Spec) := last (omap answered h).

(** A write of the spec: [setSpec] of the live spec, under the stamp of the
    desired one. *)
Definition specWrite (key : NamespacedName) (oc : OrderedChild Spec H) (h : list (event (@ans Spec)))
    (q : call Spec) : Prop :=
  match q with
  | CreateChild ch =>
      chKey ch = key ∧ chSpec ch = setSpec oc None ∧
      specHash Marshal sha256hex (desiredSpec oc) = Ok (annotation ch specHashAnnotation)
  | UpdateChild ch =>
      ∃ live, Ev (GetChild key) (Ok live) ∈ h ∧ chSpec ch = setSpec oc (Some (chSpec live)) ∧
        specHash Marshal sha256hex (desiredSpec oc) = Ok (annotation ch specHashAnnotation)
  | _ => False
  end.

(** A write of the drift baseline: the object the API server has just stored
    for a write of the spec, but for the annotation. *)
Definition baselineWrite (key : NamespacedName) (oc : OrderedChild Spec H) (h : list (event (@ans Spec)))
    (q : call Spec) : Prop :=
  ∃ h0 e stored hash, h = h0 ++ [e] ∧ answered e = Some stored ∧ specWrite key oc h0 (ev_call e) ∧
    specHash Marshal sha256hex (liveSpec oc (chSpec stored)) = Ok hash ∧
    q = UpdateChild (with_Annotations
          (setSpecHashAnnotation (chAnnotations stored) appliedSpecHashAnnotation hash) stored).

Definition carries (key : NamespacedName) (oc : OrderedChild Spec H) (h : list (event (@ans Spec)))
    (q : call Spec) : Prop := specWrite key oc h q ∨ baselineWrite key oc h q.

Lemma carries_prefix key oc h0 h q : carries key oc h q → carries key oc (h0 ++ h) q.
Proof.
  assert (∀ h1 q1, specWrite key oc h1 q1 → specWrite key oc (h0 ++ h1) q1) as Hs.
  { intros h1 q1. destruct q1; simpl; try done. setoid_rewrite elem_of_app. naive_solver. }
  intros [H1|(h1 & e & st & hash & -> & Ha & Hw & Hq)]; [by left; apply Hs|]. right.
  exists (h0 ++ h1), e, st, hash. split; [by rewrite (assoc_L (++))|]. auto.
Qed.

Lemma write_carries uid key child dh oc live (create : bool) h :
  specHash Marshal sha256hex (desiredSpec oc) = Ok dh →
  (if create then chKey child = key ∧ live = None
   else ∃ l, Ev (GetChild key) (Ok l) ∈ h ∧ live = Some (chSpec l)) →
  wp (λ h c, writesChild c → carries key oc h c) (λ _ _, True)
    (writeOrderedChild Marshal sha256hex uid child dh oc live create) (λ _ _, True) h.
Proof.
  intros Hd Hl. unfold writeOrderedChild, bind_wrap, bind_ok.
  set (child1 := with_Owner uid _).
  assert (annotation child1 specHashAnnotation = dh) as Ha
    by (unfold annotation, child1, setSpecHashAnnotation; cbn; by rewrite lookup_insert_eq).
  rewrite <- Ha in Hd. cbn [bind perform wp]. split; [done|]. intros [[]|e] _; [|done].
  set (h1 := h ++ _).
  assert (specWrite key oc h1 (if create then CreateChild child1 else UpdateChild child1)) as Hw.
  { destruct create; [destruct Hl as [Hk ->]; done|]. destruct Hl as (l & Hin & ->).
    exists l. split; [set_solver|done]. }
  clearbody child1.
  destruct create; cbn [bind perform wp]; (split; [by left|]);
    intros [ch|e] _; try done; cbn [bind wp];
    (destruct (specHash _ _ (liveSpec oc (chSpec ch))) as [ah|e] eqn:Eh; [|done]); cbn [bind perform wp];
    (split; [intros _; right; eexists h1, _, ch, ah; by split_and!|]); by intros [ch'|e] _.
Qed.

Lemma apply_carries uid key oc up :
  wp (λ h c, writesChild c → carries key oc h c) (λ _ _, True)
    (apply_ uid key oc up) (λ _ _, True) [].
Proof.
  unfold applyOrderedChild. apply wp_bind. cbn [wp perform]. split; [done|].
  intros [child|e] _; cbn [wp].
  - destruct (specHash _ _ (desiredSpec oc)) as [dh|] eqn:Ed; [|done].
    destruct (specHash _ _ (liveSpec oc (chSpec child))) as [ah|]; [|done].
    destruct (orderedChildDecision _ _ _ _ _); try done;
      (apply wp_bind_ok; eapply wp_mono; [|apply (write_carries _ key); [exact Ed|]]; [by intros []|]);
      exists child; (split; [set_solver|done]).
  - destruct (IsNotFound e); [|done]. destruct (specHash _ _ _) as [dh|] eqn:Ed; [|done].
    apply wp_bind_ok. eapply wp_mono; [|by apply (write_carries _ key)]. by intros [].
Qed.

(** The desired spec is on the child: it was read with the stamp of the
    desired spec, or written with it. *)
Definition stampedIn (oc : OrderedChild Spec H) (h : list (event (@ans Spec))) : Prop :=
  ∃ child, specHash Marshal sha256hex (desiredSpec oc) = Ok (annotation child specHashAnnotation) ∧
    ((∃ k, Ev (GetChild k) (Ok child) ∈ h) ∨
     (∃ x, Ev (CreateChild child) (Ok x) ∈ h) ∨ (∃ x, Ev (UpdateChild child) (Ok x) ∈ h)).

Lemma stampedIn_app oc h l : stampedIn oc h → stampedIn oc (h ++ l).
Proof. unfold stampedIn. setoid_rewrite elem_of_app. naive_solver. Qed.

Lemma lastAnswer_snoc h e ch : answered e = Some ch → lastAnswer (h ++ [e]) = Some ch.
Proof. unfold lastAnswer. intros E. rewrite omap_app. simpl. by rewrite E, last_snoc. Qed.

Lemma write_outcome uid child dh oc live create h :
  specHash Marshal sha256hex (desiredSpec oc) = Ok dh →
  wp (λ _ _, True) (λ _ _, True) (writeOrderedChild Marshal sha256hex uid child dh oc live create)
    (λ r h', match r with Ok ch => lastAnswer h' = Some ch ∧ stampedIn oc h' | Err _ => True end) h.
Proof.
  intros Hd. unfold writeOrderedChild, bind_wrap, bind_ok.
  set (child1 := with_Owner uid _).
  assert (annotation child1 specHashAnnotation = dh) as Ha
    by (unfold annotation, child1, setSpecHashAnnotation; cbn; by rewrite lookup_insert_eq).
  rewrite <- Ha in Hd. cbn [bind perform wp]. split; [done|]. intros [[]|e] _; [|done].
  destruct create; cbn [bind perform wp]; (split; [done|]);
    intros [ch|e] _; try done; cbn [bind wp];
    (destruct (specHash _ _ (liveSpec oc (chSpec ch))) as [ah|e]; [|done]); cbn [bind perform wp];
    (split; [done|]); intros [ch'|e] _; try done; cbn [wp]; (split; [by apply lastAnswer_snoc|]);
    exists child1; (split; [done|]); right; [left|right]; exists ch; set_solver.
Qed.

Lemma apply_outcome uid key oc up :
  wp (λ _ _, True) (λ _ _, True) (apply_ uid key oc up)
    (λ r h, match r with
            | Ok (ch, o) => lastAnswer h = Some ch ∧ (deferred o = false → stampedIn oc h)
            | Err _ => True
            end) [].
Proof.
  unfold applyOrderedChild. apply wp_bind. cbn [wp perform]. split; [done|].
  intros [child|e] _; cbn [wp].
  - destruct (specHash _ _ (desiredSpec oc)) as [dh|] eqn:Ed; [|done].
    destruct (specHash _ _ (liveSpec oc (chSpec child))) as [ah|] eqn:Ea; [|done].
    assert (∀ o, wp (λ _ _, True) (λ _ _, True)
      (bind_ok (writeOrderedChild Marshal sha256hex uid child dh oc (Some (chSpec child)) false)
         (λ c, Ret (Ok (c, o))))
      (λ r h, match r with
            | Ok (ch, o) => lastAnswer h = Some ch ∧ (deferred o = false → stampedIn oc h)
            | Err _ => True end) ([] ++ [Ev (GetChild key) (Ok child)])) as Hw.
    { intros o. apply wp_bind_ok. eapply wp_mono, write_outcome, Ed.
      intros [c|e] h' _; [|done]. simpl. tauto. }
    destruct (orderedChildDecision _ _ _ _ _) eqn:E; try apply Hw; cbn [wp].
    + split; [done|]. intros _. exists child. split; [|left; exists key; set_solver].
      revert E. unfold orderedChildDecision.
      destruct (String.eqb_spec (annotation child specHashAnnotation) dh); simpl; [by subst|].
      by destruct up.
    + by split.
  - destruct (IsNotFound e) eqn:E; [|done]. destruct (specHash _ _ _) as [dh|] eqn:Ed; [|done].
    apply wp_bind_ok. eapply wp_mono, write_outcome, Ed.
    intros [c|e'] h' _; [|done]. simpl. tauto.
Qed.

End Gate.

(** * Against an API server *)

Section World.
Context {Spec H : Type} `{!EqDecision Spec}
  (zeroSpec : Spec) (Marshal : H → res string) (sha256hex : string → string)
  (defaulting : Spec → Spec) (uid : string) (key : NamespacedName).

(** The stored child: defaulting on every write, a new generation when the
    spec changes, the status left alone by writes to the spec. *)
Definition store (c : Child Spec) (old : option (Child Spec)) : Child Spec :=
  let spec := defaulting (chSpec c) in
  match old with
  | None => mkChild (chKey c) (chOwner c) 1 (chAnnotations c) spec []
  | Some o =>
      mkChild (chKey c) (chOwner c)
        (if decide (spec = chSpec o) then chGeneration o else chGeneration o + 1)
        (chAnnotations c) spec (chConditions o)
  end.

Definition serve (c : call Spec) (w : option (Child Spec)) : ans c * option (Child Spec) :=
  match c return ans c * option (Child Spec) with
  | GetChild _ => (match w with Some o => Ok o | None => Err (ErrNotFound "child") end, w)
  | SetOwner _ => (Ok tt, w)
  | CreateChild c =>
      match w with
      | Some _ => (Err (ErrAlreadyExists "child"), w)
      | None => (Ok (store c None), Some (store c None))
      end
  | UpdateChild c =>
      match w with
      | Some o => (Ok (store c (Some o)), Some (store c (Some o)))
      | None => (Err (ErrNotFound "child"), w)
      end
  end.

Abbreviation pass oc up w := (exec serve (applyOrderedChild zeroSpec Marshal sha256hex uid key oc up) w).

(** Every spec can be encoded, and defaulting twice is defaulting once. *)
Context (hash : H → string)
  (Hhash : ∀ x, specHash Marshal sha256hex x = Ok (hash x))
  (Hidem : ∀ s, defaulting (defaulting s) = defaulting s).

(** The child as a write leaves it. *)
Definition stampedWith (oc : OrderedChild Spec H) (spec : Spec) (c : Child Spec) : Prop :=
  chSpec c = defaulting spec ∧
  annotation c specHashAnnotation = hash (desiredSpec oc) ∧
  annotation c appliedSpecHashAnnotation = hash (liveSpec oc (chSpec c)).

Definition decisionFor (oc : OrderedChild Spec H) (up : bool) (c : Child Spec) : childAction :=
  orderedChildDecision (annotation c specHashAnnotation) (hash (desiredSpec oc))
    (annotation c appliedSpecHashAnnotation) (hash (liveSpec oc (chSpec c))) up.

Lemma decision_stamped oc up spec c : stampedWith oc spec c → decisionFor oc up c = childNoop.
Proof.
  intros (_ & E1 & E2). unfold decisionFor, orderedChildDecision.
  by rewrite E1, E2, !String.eqb_refl.
Qed.

Lemma annotation_keys : specHashAnnotation ≠ appliedSpecHashAnnotation.
Proof. done. Qed.

(** A write from any state succeeds and leaves the child stamped. *)
Lemma write_exec oc w child live create :
  create = bool_decide (w = None) →
  ∃ c t, exec serve (writeOrderedChild Marshal sha256hex uid child (hash (desiredSpec oc)) oc live create) w
           = (Ok c, Some c, t) ∧ stampedWith oc (setSpec oc live) c.
Proof.
  intros ->. unfold writeOrderedChild. destruct w as [o|]; simpl; rewrite Hhash; simpl;
    eexists _, _; (split; [reflexivity|]); unfold stampedWith, annotation, setSpecHashAnnotation; simpl;
    rewrite Hidem, lookup_insert_ne, !lookup_insert_eq by (by apply not_eq_sym, annotation_keys); done.
Qed.

(** A pass, by the decision it takes. *)
Lemma pass_exec oc up w :
  ∃ c o t, pass oc up w = (Ok (c, o), Some c, t) ∧
    match w with
    | None => o = noOutcome ∧ stampedWith oc (setSpec oc None) c
    | Some l =>
        match decisionFor oc up l with
        | childNoop => o = noOutcome ∧ c = l ∧ t = [Ev (GetChild key) (Ok l)]
        | childDeferRoll => deferred o = true ∧ c = l
        | childApplyRoll => applied o = true ∧ stampedWith oc (setSpec oc (Some (chSpec l))) c
        | childDriftCorrect => o = noOutcome ∧ stampedWith oc (setSpec oc (Some (chSpec l))) c
        end
    end.
Proof.
  unfold applyOrderedChild, decisionFor. destruct w as [l|]; cbn [bind perform exec serve].
  - rewrite !Hhash. destruct (orderedChildDecision _ _ _ _ _); cbn [exec]; eauto 10;
      unfold bind_ok; rewrite exec_bind;
      destruct (write_exec oc (Some l) l (Some (chSpec l)) false) as (c & t & -> & Hs); simpl; eauto 10.
  - simpl. rewrite !Hhash. unfold bind_ok. rewrite exec_bind.
    destruct (write_exec oc None (mkChild key None 0 ∅ zeroSpec []) None true) as (c & t & -> & Hs);
      simpl; eauto 10.
Qed.

(** C28: The steady state is write-free.  After any pass that did not defer,
    whatever defaults the API server filled in, the next pass only reads: it
    reports nothing applied and nothing deferred, and leaves the child as it
    is. *)
Theorem steady_state_write_free oc up w c o w' t :
  pass oc up w = (Ok (c, o), w', t) → deferred o = false →
  ∀ up', pass oc up' w' = (Ok (c, noOutcome), Some c, [Ev (GetChild key) (Ok c)]).
Proof.
  intros E Hd up'. destruct (pass_exec oc up w) as (c1 & o1 & t1 & E1 & Hw).
  rewrite E1 in E. injection E as -> -> <- ->.
  destruct (pass_exec oc up' (Some c)) as (c2 & o2 & t2 & E2 & Hw2). rewrite E2.
  assert (decisionFor oc up' c = childNoop) as Hn.
  { destruct w as [l|]; [|by destruct Hw as [_ Hst]; eapply decision_stamped].
    destruct (decisionFor oc up l) eqn:Ed.
    - destruct Hw as (_ & -> & _). revert Ed. unfold decisionFor, orderedChildDecision.
      destruct (negb _); [by destruct up|]. by destruct (negb _).
    - by destruct Hw as [_ Hst]; eapply decision_stamped.
    - destruct Hw; congruence.
    - by destruct Hw as [_ Hst]; eapply decision_stamped. }
  rewrite Hn in Hw2. by destruct Hw2 as (-> & -> & ->).
Qed.

(** The next pass completes the roll to [spec]. *)
Definition completes (oc : OrderedChild Spec H) (spec : Spec) (w : option (Child Spec)) : Prop :=
  ∃ c o t, pass oc true w = (Ok (c, o), Some c, t) ∧ chSpec c = defaulting spec.

Lemma completes_pending oc l :
  annotation l specHashAnnotation ≠ hash (desiredSpec oc) →
  completes oc (setSpec oc (Some (chSpec l))) (Some l).
Proof.
  intros Hpend. destruct (pass_exec oc true (Some l)) as (c & o & t & E & Hw).
  exists c, o, t. split; [done|]. unfold decisionFor, orderedChildDecision in Hw.
  rewrite (proj2 (String.eqb_neq _ _) Hpend) in Hw. by destruct Hw as [_ [? _]].
Qed.

(** Once the spec is in place, whatever the drift baseline says. *)
Lemma completes_written oc spec c :
  defaulting (setSpec oc (Some (defaulting spec))) = defaulting spec →
  chSpec c = defaulting spec → annotation c specHashAnnotation = hash (desiredSpec oc) →
  completes oc spec (Some c).
Proof.
  intros Hst Hspec Hann. destruct (pass_exec oc true (Some c)) as (c' & o & t & E & Hw).
  exists c', o, t. split; [done|]. unfold decisionFor, orderedChildDecision in Hw.
  rewrite Hann, String.eqb_refl in Hw. simpl in Hw.
  destruct (negb _); [|by destruct Hw as (_ & -> & _)].
  destruct Hw as [_ [-> _]]. by rewrite Hspec.
Qed.

Lemma completes_always oc l :
  (∀ s, defaulting (setSpec oc (Some (defaulting (setSpec oc (Some s))))) =
        defaulting (setSpec oc (Some s))) →
  annotation l specHashAnnotation ≠ hash (desiredSpec oc) →
  always serve (completes oc (setSpec oc (Some (chSpec l))))
    (applyOrderedChild zeroSpec Marshal sha256hex uid key oc true) (Some l).
Proof.
  intros Hstable Hpend. pose proof (completes_pending oc l Hpend) as H0.
  unfold applyOrderedChild. cbn [bind perform always serve]. split; [done|].
  cbn [fst snd]. rewrite !Hhash. unfold orderedChildDecision.
  rewrite (proj2 (String.eqb_neq _ _) Hpend). cbn [negb].
  unfold writeOrderedChild, bind_ok, bind_wrap. cbn. split; [done|].
  split; [done|]. rewrite Hhash. cbn. split.
  { apply completes_written; [apply Hstable|done|].
    unfold annotation, setSpecHashAnnotation. simpl. by rewrite lookup_insert_eq. }
  split; [|done].
  apply completes_written; [apply Hstable|simpl; apply Hidem|].
  unfold annotation, setSpecHashAnnotation. simpl.
  rewrite lookup_insert_ne by (by apply not_eq_sym, annotation_keys). by rewrite lookup_insert_eq.
Qed.

(** C16: An interrupted roll is completed.  Let a roll be pending and its pass
    stop after any of its calls, between the two writes included: the next
    pass succeeds and leaves the child with exactly the spec an uninterrupted
    roll would have left. *)
Theorem interrupted_roll_converges oc l t w1 :
  (∀ s, defaulting (setSpec oc (Some (defaulting (setSpec oc (Some s))))) =
        defaulting (setSpec oc (Some s))) →
  annotation l specHashAnnotation ≠ hash (desiredSpec oc) →
  part (applyOrderedChild zeroSpec Marshal sha256hex uid key oc true) t → served serve (Some l) t w1 →
  ∃ c o t2, pass oc true w1 = (Ok (c, o), Some c, t2) ∧
    chSpec c = defaulting (setSpec oc (Some (chSpec l))).
Proof.
  intros Hstable Hpend Hp Hs.
  exact (always_part _ _ _ _ _ _ (completes_always oc l Hstable Hpend) Hp Hs).
Qed.

End World.

(** * The autoscaler's replica count *)

Section Autoscaled.
Context {Spec : Type}.
Context `{!EqDecision Spec, !Scaled Spec} (zeroSpec : Spec) (Marshal : Spec → res string) (sha256hex : string → string)
  (defaulting : Spec → Spec) (uid : string) (key : NamespacedName).

Abbreviation scaledPass desired up :=
  (applyOrderedChild zeroSpec Marshal sha256hex uid key (scaledOrdered true desired) up).

Definition replicasAre (n : Z) (w : option (Child Spec)) : Prop :=
  ∃ c, w = Some c ∧ specReplicas (chSpec c) = Some n.

Context (Hkeep : ∀ s n, specReplicas s = Some n → specReplicas (defaulting s) = Some n).

Lemma replicasAre_store n c o :
  specReplicas (chSpec c) = Some n → replicasAre n (Some (store defaulting c o)).
Proof. intros Hr. eexists. split; [done|]. destruct o; simpl; by apply Hkeep. Qed.

Lemma write_keeps_replicas desired child dh l n o :
  specReplicas l = Some n → replicasAre n (Some o) →
  always (serve defaulting) (replicasAre n)
    (writeOrderedChild Marshal sha256hex uid child dh (scaledOrdered true desired) (Some l) false) (Some o).
Proof.
  intros Hl Ho. unfold scaledOrdered, writeOrderedChild, bind_ok, bind_wrap. cbn -[store]. split; [done|]. split; [done|].
  set (c1 := store defaulting _ _).
  assert (replicasAre n (Some c1)) as H1.
  { apply replicasAre_store. simpl. by rewrite replicas_with. }
  destruct (specHash _ _ _) as [ah|e]; cbn -[store]; (split; [done|]); [|done]. split; [|done].
  apply replicasAre_store. simpl. destruct H1 as (? & [= <-] & H1). exact H1.
Qed.

(** The umbrella never takes back what an autoscaler set.  With the
    autoscaler of a tier enabled, no pass over the tier's child - a roll, a
    drift correction, deferred or not, interrupted after any call - changes
    the replica count the child has. *)
Theorem autoscaled_replicas_kept desired up l n t w :
  specReplicas (chSpec l) = Some n →
  part (scaledPass desired up) t → served (serve defaulting) (Some l) t w → replicasAre n w.
Proof.
  intros Hn Hp Hs. refine (always_part _ _ _ _ _ _ _ Hp Hs).
  assert (replicasAre n (Some l)) as Hl by by exists l.
  unfold applyOrderedChild. cbn [bind perform always serve]. split; [done|]. cbn [fst snd].
  destruct (specHash _ _ (desiredSpec _)) as [dh|]; [|done].
  destruct (specHash _ _ (liveSpec _ _)) as [ah|]; [|done].
  destruct (orderedChildDecision _ _ _ _ _); try done;
    (apply always_bind; [by apply write_keeps_replicas|]);
    match goal with |- context [exec ?s ?p ?w] =>
      assert (always s (replicasAre n) p w) as He%always_end by by apply write_keeps_replicas end;
    by destruct (exec _ _ _) as [[[c|e] w'] t'].
Qed.

End Autoscaled.

(** * Readiness *)

(** A cluster is Ready exactly when it has components and each of them is:
    the aggregated condition is True iff some component is present and every
    present one reports Ready. *)
Theorem aggregateReady_iff generation reports :
  cStatus (aggregateReadyCondition generation reports) = ConditionTrue ↔
  (∃ r, r ∈ reports ∧ present r = true) ∧ (∀ r, r ∈ reports → present r = true → ready r = true).
Proof.
  unfold aggregateReadyCondition.
  set (configured := filter _ reports).
  assert (∀ r, r ∈ configured ↔ r ∈ reports ∧ present r = true) as Hc.
  { intros r. unfold configured. rewrite list_elem_of_filter. tauto. }
  destruct (length configured =? 0)%nat eqn:E0.
  { apply Nat.eqb_eq, length_zero_iff_nil in E0. split; [done|]. intros [(r & Hr) _].
    apply Hc in Hr. rewrite E0 in Hr. by apply elem_of_nil in Hr. }
  destruct (length (filter _ configured) =? 0)%nat eqn:E1.
  - apply Nat.eqb_eq, length_zero_iff_nil in E1. split; [intros _|done]. split.
    + destruct configured as [|r l]; [done|]. exists r. apply Hc. left.
    + intros r Hr Hp. destruct (ready r) eqn:Er; [done|].
      assert (r ∈ filter (λ r, ready r = false) configured) as Hin.
      { apply list_elem_of_filter. split; [done|]. by apply Hc. }
      rewrite E1 in Hin. by apply elem_of_nil in Hin.
  - split; [done|]. intros [_ Hall]. apply Nat.eqb_neq in E1. destruct E1.
    apply length_zero_iff_nil. destruct (filter _ configured) as [|r l] eqn:E; [done|].
    assert (r ∈ filter (λ r, ready r = false) configured) as Hin by (rewrite E; left).
    apply list_elem_of_filter in Hin as [Hr [Hin Hp]%Hc].
    rewrite Hall in Hr by done. done.
Qed.

(** A stale Ready condition does not count: a child that is reported ready has
    a True Ready condition that is not older than its generation. *)
Lemma report_ready_fresh `{AM : !ApiMeta} name generation conds :
  ready (reportFromConditions name generation conds) = true →
  ∃ c, FindStatusCondition conds conditionTypeReady = Some c ∧ cStatus c = ConditionTrue ∧
    (cObservedGeneration c = 0 ∨ generation <= cObservedGeneration c).
Proof.
  unfold reportFromConditions. destruct (FindStatusCondition _ _) as [c|]; [|done].
  destruct (_ && _) eqn:E; simpl; [done|]. intros Hs%bool_decide_eq_true.
  exists c. split_and!; [done|done|]. zbool. destruct E; zbool; lia.
Qed.

(** * A concrete child *)

Module RolloutDemo.

#[export, refine] Instance core_Scaled : Scaled BookKeeperSpec :=
  {| specReplicas := Replicas; withReplicas r s := mkBKSpec r (Ensemble s) (Autoscaler s) |}.
Proof. all: done. Defined.

Definition autoscaler : BookKeeperAutoscalerSpec :=
  mkBKAutoscaler true None None None None None None None None None None.

(** The API server fills in the default replica count. *)
Definition defaults (s : BookKeeperSpec) : BookKeeperSpec :=
  withReplicas (Some (resolveReplicas s)) s.

Definition encode (s : BookKeeperSpec) : res string :=
  Ok (match Replicas s with Some n => pretty n | None => "-" end ++!
      match Ensemble s with Some e => "e" ++! pretty (default 0 (EnsembleSize e)) | None => "" end ++!
      match Autoscaler s with Some _ => "a" | None => "" end).

Definition digest (s : string) : string := String.substring 8 (String.length s) s.

Definition key : NamespacedName := mkNN "ns" "pulsar-bookkeeper".
Definition zeroSpec : BookKeeperSpec := mkBKSpec None None None.
Definition oldSpec : BookKeeperSpec := mkBKSpec (Some 3) None (Some autoscaler).
Definition newSpec : BookKeeperSpec := mkBKSpec (Some 3) (Some (mkEnsemble (Some 5) None None)) (Some autoscaler).

(** Stamped for the old spec, scaled to seven since. *)
Definition live : Child BookKeeperSpec :=
  mkChild key (Some "uid") 4
    {[ specHashAnnotation := "-a"; appliedSpecHashAnnotation := "-a" ]}
    (withReplicas (Some 7) oldSpec) [].

Definition prg up := applyOrderedChild zeroSpec encode digest "uid" key (scaledOrdered true newSpec) up.
Definition run up w := exec (serve defaults) (prg up) w.
Definition trace := (run true (Some live)).2.
Definition hash (s : BookKeeperSpec) : string :=
  match specHash encode digest s with Ok h => h | Err _ => "" end.

(** Four calls: read, own, write the spec, stamp the baseline. *)
Definition written : Child BookKeeperSpec :=
  mkChild key (Some "uid") 4
    {[ specHashAnnotation := "-e5a"; appliedSpecHashAnnotation := "-a" ]}
    (withReplicas (Some 7) newSpec) [].
Definition stored1 : Child BookKeeperSpec :=
  mkChild key (Some "uid") 5 (chAnnotations written) (chSpec written) [].

Lemma trace_split :
  trace = take 2 trace ++ Ev (UpdateChild written) (Ok stored1) :: drop 3 trace.
Proof. vm_compute. reflexivity. Qed.

Lemma trace_part : part (prg true) trace.
Proof. exact (runs_part _ _ _ (exec_runs (serve defaults) (prg true) (Some live))). Qed.

Lemma roll_only_when_settled_witness :
  gateOpen encode digest key (scaledOrdered true newSpec) true (take 2 trace).
Proof.
  apply (roll_only_when_settled zeroSpec encode digest "uid" key (scaledOrdered true newSpec) true
    (take 2 trace) (UpdateChild written) (Ok stored1) (drop 3 trace)); [|exact I].
  rewrite <- trace_split. exact trace_part.
Defined.

Lemma steady_state_write_free_witness :
  ∃ c, run false (run true None).1.2 = (Ok (c, noOutcome), Some c, [Ev (GetChild key) (Ok c)]).
Proof.
  eexists.
  apply (steady_state_write_free zeroSpec encode digest defaults "uid" key hash
    ltac:(reflexivity) ltac:(intros [[] ? ?]; reflexivity)
    (scaledOrdered true newSpec) true None _ noOutcome _ (run true None).2).
  - vm_compute. reflexivity.
  - reflexivity.
Defined.

(** Interrupted between the two writes. *)
Lemma interrupted_roll_converges_witness :
  ∃ c o t, run true (Some stored1) = (Ok (c, o), Some c, t) ∧
    chSpec c = withReplicas (Some 7) newSpec.
Proof.
  change (withReplicas (Some 7) newSpec) with
    (defaults (setSpec (scaledOrdered true newSpec) (Some (chSpec live)))).
  apply (interrupted_roll_converges zeroSpec encode digest defaults "uid" key hash
    ltac:(reflexivity) ltac:(intros [[] ? ?]; reflexivity)
    (scaledOrdered true newSpec) live (take 3 trace) (Some stored1)).
  - intros [[] ? ?]; reflexivity.
  - vm_compute. congruence.
  - apply (part_prefix _ _ (drop 3 trace)). rewrite take_drop. exact trace_part.
  - vm_compute. repeat split.
Defined.

Lemma autoscaled_replicas_kept_witness : replicasAre 7 (run true (Some live)).1.2.
Proof.
  apply (autoscaled_replicas_kept zeroSpec encode digest defaults "uid" key
    ltac:(intros [] n; simpl; by intros ->) newSpec true live 7 trace).
  - reflexivity.
  - exact trace_part.
  - exact (exec_served (serve defaults) (prg true) (Some live)).
Defined.

End RolloutDemo.
