(* ===== verification/Workload.v ===== *)
(** The Kubernetes objects the component controllers render, the builders
    they share (internal/builder: affinity.go, checksum.go, configmap.go,
    service.go, poddisruptionbudget.go), the readiness of a rollout
    (controller/cluster/readiness.go), and the calls these controllers make.

    [controllerutil.CreateOrUpdate] is library code: a call that names the
    object, its controller owner and the closure that fills it in from the
    live object (the zero object when there is none).  A closure's own
    [SetControllerReference] is part of the call, and so is its failure. *)

From S2P Require Import Prelude Effects Kube BackupTypes Config Rollout.
Open Scope Z_scope.
Open Scope go_scope.

Module Workload.

(** * Objects *)

Inductive IntOrString := FromInt32 (n : Z) | FromString (s : string).

#[export] Instance IntOrString_eq_dec : EqDecision IntOrString.
Proof. solve_decision. Defined.

Record ResourceRequirements := mkResources { rqLimits : gmap string Z; rqRequests : gmap string Z }.

#[export] Instance ResourceRequirements_eq_dec : EqDecision ResourceRequirements.
Proof. solve_decision. Defined.

Inductive VolumeSource :=
| ConfigMapSource (name : string)
| SecretSource (name : string) (items : list (string * string))
| ClaimSource (claim : string).

#[export] Instance VolumeSource_eq_dec : EqDecision VolumeSource.
Proof. solve_decision. Defined.

Record Volume := mkVolume { vName : string; vSource : VolumeSource }.

#[export] Instance Volume_eq_dec : EqDecision Volume.
Proof. solve_decision. Defined.

Record VolumeMount := mkMount {
  vmName : string;
  vmMountPath : string;
  vmSubPath : string;
  vmReadOnly : bool
}.

#[export] Instance VolumeMount_eq_dec : EqDecision VolumeMount.
Proof. solve_decision. Defined.

Inductive ProbeHandler :=
| HTTPGet (path : string) (port : Z)
| TCPSocket (port : Z)
| ExecProbe (command : list string).

(** Zero stands for a field that is not set. *)
Record Probe := mkProbe {
  pbHandler : ProbeHandler;
  pbInitialDelaySeconds : Z;
  pbPeriodSeconds : Z;
  pbTimeoutSeconds : Z;
  pbFailureThreshold : Z
}.

Record ContainerPort := mkCPort { cpName : string; cpPort : Z }.
Record ServicePort := mkSPort { spName : string; spPort : Z; spTargetPort : IntOrString }.

Record Container := mkContainer {
  ctName : string;
  ctImage : string;
  ctCommand : list string;
  ctArgs : list string;
  ctPorts : list ContainerPort;
  ctEnv : list EnvVar;
  ctResources : ResourceRequirements;
  ctVolumeMounts : list VolumeMount;
  ctReadinessProbe : option Probe;
  ctLivenessProbe : option Probe;
  ctStartupProbe : option Probe;
  ctPreStop : list string
}.

Record PodAffinityTerm := mkTerm { patSelector : gmap string string; patTopologyKey : string }.

Record Affinity := mkAffinity {
  antiRequired : list PodAffinityTerm;
  antiPreferred : list (Z * PodAffinityTerm)
}.

Record TopologySpreadConstraint := mkSpread {
  tsMaxSkew : Z;
  tsTopologyKey : string;
  tsWhenUnsatisfiable : string;
  tsSelector : gmap string string
}.

Record PodTemplate := mkTemplate {
  ptLabels : gmap string string;
  ptAnnotations : gmap string string;
  ptServiceAccountName : string;
  ptTerminationGracePeriodSeconds : option Z;
  ptAffinity : option Affinity;
  ptTopologySpread : list TopologySpreadConstraint;
  ptContainers : list Container;
  ptVolumes : list Volume
}.

Definition emptyTemplate : PodTemplate := mkTemplate ∅ ∅ "" None None [] [] [].

(** Sizes are counts of bytes; 0 is [Quantity.IsZero]. *)
Record PersistentVolumeClaim := mkPVC {
  pvcName : string;
  pvcNamespace : string;
  pvcLabels : gmap string string;
  pvcAccessModes : list string;
  pvcStorage : Z;
  pvcStorageClassName : option string
}.

Record WorkloadStatus := mkWStatus {
  wsObservedGeneration : Z;
  wsReplicas : Z;
  wsReadyReplicas : Z;
  wsUpdatedReplicas : Z;
  wsCurrentRevision : string;
  wsUpdateRevision : string;
  (** type and status of the conditions *)
  wsConditions : list (string * ConditionStatus)
}.

(** A StatefulSet or a Deployment; a Deployment leaves the service name, the
    pod management policy and the claim templates empty. *)
Record WorkloadObject := mkWorkload {
  wKey : NamespacedName;
  wOwner : option string;
  wGeneration : Z;
  wResourceVersion : string;
  wLabels : gmap string string;
  wReplicas : option Z;
  wServiceName : string;
  wPodManagementPolicy : string;
  wSelector : option (gmap string string);
  wTemplate : PodTemplate;
  wVolumeClaimTemplates : list PersistentVolumeClaim;
  wStatus : WorkloadStatus
}.

Record ServiceObject := mkService {
  svKey : NamespacedName;
  svOwner : option string;
  svLabels : gmap string string;
  svSelector : gmap string string;
  svPorts : list ServicePort;
  svClusterIP : string;
  svPublishNotReadyAddresses : bool
}.

Record ConfigMapObject := mkConfigMap {
  cmKey : NamespacedName;
  cmOwner : option string;
  cmLabels : gmap string string;
  cmData : gmap string string
}.

Record PDBObject := mkPDB {
  pdbKey : NamespacedName;
  pdbOwner : option string;
  pdbLabels : gmap string string;
  pdbMaxUnavailable : IntOrString;
  pdbSelector : gmap string string
}.

Record PolicyRule := mkRule { prAPIGroups : list string; prResources : list string; prVerbs : list string }.

(** A ServiceAccount, Role or RoleBinding: labels, rules, and the (role,
    subjects' (name, namespace)) it binds. *)
Record RBACObject := mkRBAC {
  rbKey : NamespacedName;
  rbOwner : option string;
  rbLabels : gmap string string;
  rbRules : list PolicyRule;
  rbRoleRef : string;
  rbSubjects : list (string * string)
}.

(** The API server stores objects by kind. *)
Inductive Kind :=
| KConfigMap | KService | KStatefulSet | KDeployment | KPDB | KServiceAccount | KRole | KRoleBinding.

#[export] Instance Kind_eq_dec : EqDecision Kind.
Proof. solve_decision. Defined.

Definition object (k : Kind) : Type :=
  match k with
  | KConfigMap => ConfigMapObject
  | KService => ServiceObject
  | KStatefulSet | KDeployment => WorkloadObject
  | KPDB => PDBObject
  | KServiceAccount | KRole | KRoleBinding => RBACObject
  end.

Definition emptyStatus : WorkloadStatus := mkWStatus 0 0 0 0 "" "" [].

(** [&T{ObjectMeta{Name, Namespace}}] *)
Definition zeroObject (k : Kind) (key : NamespacedName) : object k :=
  match k with
  | KConfigMap => mkConfigMap key None ∅ ∅
  | KService => mkService key None ∅ ∅ [] "" false
  | KStatefulSet | KDeployment =>
      mkWorkload key None 0 "" ∅ None "" "" None emptyTemplate [] emptyStatus
  | KPDB => mkPDB key None ∅ (FromInt32 0) ∅
  | KServiceAccount | KRole | KRoleBinding => mkRBAC key None ∅ [] "" []
  end.

(** The assignments the closures make. *)
Definition set_cm (labels data : gmap string string) (o : ConfigMapObject) : ConfigMapObject :=
  mkConfigMap (cmKey o) (cmOwner o) labels data.
Definition set_pdb (d o : PDBObject) : PDBObject :=
  mkPDB (pdbKey o) (pdbOwner o) (pdbLabels d) (pdbMaxUnavailable d) (pdbSelector d).
(** Headless: ClusterIP and PublishNotReadyAddresses are assigned too. *)
Definition set_headless (d o : ServiceObject) : ServiceObject :=
  mkService (svKey o) (svOwner o) (svLabels d) (svSelector d) (svPorts d) (svClusterIP d)
    (svPublishNotReadyAddresses d).
Definition set_service (d o : ServiceObject) : ServiceObject :=
  mkService (svKey o) (svOwner o) (svLabels d) (svSelector d) (svPorts d) (svClusterIP o)
    (svPublishNotReadyAddresses o).

(** * Component resources *)

Record ComponentStatus := mkStatus {
  stReplicas : Z;
  stReadyReplicas : Z;
  stObservedGeneration : Z;
  stConditions : list Condition
}.

(** [rsController]: kind and name of the controller owner. *)
Record Resource (Spec : Type) := mkResource {
  rsName : string;
  rsNamespace : string;
  rsUID : string;
  rsGeneration : Z;
  rsController : option (string * string);
  rsSpec : Spec;
  rsStatus : ComponentStatus
}.
#[global] Arguments mkResource {Spec}.
#[global] Arguments rsName {Spec}.
#[global] Arguments rsNamespace {Spec}.
#[global] Arguments rsUID {Spec}.
#[global] Arguments rsGeneration {Spec}.
#[global] Arguments rsController {Spec}.
#[global] Arguments rsSpec {Spec}.
#[global] Arguments rsStatus {Spec}.

Definition rsKey {Spec} (r : Resource Spec) : NamespacedName := mkNN (rsNamespace r) (rsName r).

Definition set_rsStatus {Spec} (st : ComponentStatus) (r : Resource Spec) : Resource Spec :=
  mkResource (rsName r) (rsNamespace r) (rsUID r) (rsGeneration r) (rsController r) (rsSpec r) st.

(** * Calls *)

(** [R] is the resource the controller reconciles. *)
Inductive call {R : Type} :=
| GetResource (key : NamespacedName)
| UpdateStatus (r : R)
| CreateOrUpdate (k : Kind) (key : NamespacedName) (owner : string) (mutate : object k → object k)
| GetObject (k : Kind) (key : NamespacedName)
| CreateObject (k : Kind) (owner : string) (o : object k)
| UpdateObject (k : Kind) (owner : string) (o : object k)
| DeleteObject (k : Kind) (key : NamespacedName)
| SetOwner (owner : string)
| GetBrokerConditions (key : NamespacedName)
| Eventf (ty : EventType) (reason action note : string).
#[global] Arguments call : clear implicits.

Definition ans {R} (c : call R) : Type :=
  match c with
  | GetResource _ => res R
  | UpdateStatus _ => res unit
  | CreateOrUpdate k _ _ _ => res (object k)
  | GetObject k _ => res (object k)
  | CreateObject k _ _ => res (object k)
  | UpdateObject k _ _ => res (object k)
  | DeleteObject _ _ => res unit
  | SetOwner _ => res unit
  | GetBrokerConditions _ => res (list Condition)
  | Eventf _ _ _ _ => unit
  end.

Section Calls.
Context {R : Type}.
Abbreviation M A := (prog (@ans R) A).

(** [_, err := controllerutil.CreateOrUpdate(...); return err] *)
Definition createOrUpdate (k : Kind) (key : NamespacedName) (owner : string)
    (mutate : object k → object k) : M (res unit) :=
  (try! _ := perform ans (CreateOrUpdate k key owner mutate) in Ret (Ok tt))%prog.

(** [if err := r.Delete(ctx, o); err != nil && !apierrors.IsNotFound(err)] *)
Definition deleteIgnoringNotFound (k : Kind) (key : NamespacedName) : M (res unit) :=
  (let! r := perform ans (DeleteObject k key) in
   match r with
   | Ok _ => Ret (Ok tt)
   | Err e => if IsNotFound e then Ret (Ok tt) else Ret (Err e)
   end)%prog.

Definition deleteChildIfExists (k : Kind) (key : NamespacedName) : M (res unit) :=
  (let! got := perform ans (GetObject k key) in
   match got with
   | Err e => match IgnoreNotFound e with None => Ret (Ok tt) | Some e' => Ret (Err e') end
   | Ok _ => deleteIgnoringNotFound k key
   end)%prog.

End Calls.

(** * Builders *)

Definition HostnameTopologyKey : string := "kubernetes.io/hostname".
Definition ZoneTopologyKey : string := "topology.kubernetes.io/zone".

Definition PodAntiAffinity (hard : bool) (selector : gmap string string) : Affinity :=
  let term := mkTerm selector HostnameTopologyKey in
  if hard then mkAffinity [term] [] else mkAffinity [] [(100, term)].

Definition ZoneTopologySpreadConstraints (selector : gmap string string) :
    list TopologySpreadConstraint :=
  [mkSpread 1 ZoneTopologyKey "ScheduleAnyway" selector].

(** [(replicas - 1) / 2], truncated, never negative: the smallest value of
    [replicas - 1] is -1. *)
Definition QuorumMaxUnavailable (replicas : Z) : IntOrString :=
  let replicas := if replicas <? 0 then 0 else replicas in
  FromInt32 (Z.quot (replicas - 1) 2).

Definition ConfigChecksumAnnotation : string := "pulsaroperator.io/config-checksum".

Definition WithConfigChecksum (sha256hex : string → string) (annotations : gmap string string)
    (contents : list string) : gmap string string :=
  <[ConfigChecksumAnnotation := Checksum sha256hex contents]> annotations.

Definition BuildConfigMap (name namespace : string) (labels data : gmap string string) : ConfigMapObject :=
  mkConfigMap (mkNN namespace name) None labels data.

Definition PodDisruptionBudget (name namespace : string) (labels selector : gmap string string)
    (maxUnavailable : IntOrString) : PDBObject :=
  mkPDB (mkNN namespace name) None labels maxUnavailable selector.

Definition clusterIPNone : string := "None".

Definition Service (name namespace : string) (labels selector : gmap string string)
    (ports : list ServicePort) : ServiceObject :=
  mkService (mkNN namespace name) None labels selector ports "" false.

Definition HeadlessService (name namespace : string) (labels selector : gmap string string)
    (ports : list ServicePort) : ServiceObject :=
  let svc := Service name namespace labels selector ports in
  mkService (svKey svc) (svOwner svc) (svLabels svc) (svSelector svc) (svPorts svc) clusterIPNone true.

(** * Readiness *)

Definition reasonReplicasReady : string := "ReplicasReady".
Definition reasonScaledToZero : string := "ScaledToZero".
Definition reasonProgressing : string := "Progressing".
Definition reasonAllReady : string := "AllReplicasReady".
Definition reasonNoReplicas : string := "NoReplicasDesired".

Record rolloutStatus := mkRollout {
  roGeneration : Z;
  roObservedGeneration : Z;
  roUpdatedReplicas : Z;
  roReadyReplicas : Z
}.

Definition statefulSetRollout (sts : WorkloadObject) : rolloutStatus :=
  mkRollout (wGeneration sts) (wsObservedGeneration (wStatus sts)) (wsUpdatedReplicas (wStatus sts))
    (wsReadyReplicas (wStatus sts)).

Definition deploymentRollout (deploy : WorkloadObject) : rolloutStatus :=
  mkRollout (wGeneration deploy) (wsObservedGeneration (wStatus deploy))
    (wsUpdatedReplicas (wStatus deploy)) (wsReadyReplicas (wStatus deploy)).

Definition workloadReadyCondition (generation desired : Z) (rollout : rolloutStatus) (noun : string) :
    Condition :=
  let base st reason msg := newCondition Rollout.conditionTypeReady st generation reason msg in
  if desired =? 0 then
    base ConditionTrue reasonScaledToZero (noun ++! " scaled to 0 replicas (not serving)")
  else if (roObservedGeneration rollout =? roGeneration rollout) &&
          (roUpdatedReplicas rollout =? desired) && (roReadyReplicas rollout =? desired) then
    base ConditionTrue reasonReplicasReady
      (%d (roReadyReplicas rollout) ++! "/" ++! %d desired ++! " " ++! noun ++! " replicas ready")
  else
    base ConditionFalse reasonProgressing
      (noun ++! " rollout in progress: " ++! %d (roUpdatedReplicas rollout) ++! "/" ++! %d desired ++!
       " updated, " ++! %d (roReadyReplicas rollout) ++! "/" ++! %d desired ++! " ready").

End Workload.
