(* ===== verification/ClusterTypes.v ===== *)
(** The PulsarCluster resource with its component specs
    (api/cluster/v1alpha1, api/metadata/v1alpha1) and the pure functions that
    derive the children's specs from it: image and storage-class defaults of
    pulsarcluster_controller.go, tiered-storage offload of
    pulsarcluster_offload.go.

    A component spec carries every field of the Go struct that some modelled
    code reads; the broker's and the bookies' specs extend the ones the
    autoscalers work on. *)

From S2P Require Import Prelude Effects Kube BrokerScale BookKeeper BackupTypes Config Rollout Workload.
Open Scope Z_scope.
Open Scope go_scope.

Module Cluster.
Import Rollout Workload.

(** * Component specs *)

#[export] Instance EnvVar_eq_dec : EqDecision EnvVar.
Proof. solve_decision. Defined.
#[export] Instance BrokerAutoscalerSpec_eq_dec : EqDecision BrokerAutoscalerSpec.
Proof. solve_decision. Defined.
#[export] Instance BrokerCore_eq_dec : EqDecision BrokerScale.BrokerSpec.
Proof. solve_decision. Defined.

Record VolumeSpec := mkVolumeSpec { vsStorageClassName : option string; vsSize : Z }.

#[export] Instance VolumeSpec_eq_dec : EqDecision VolumeSpec.
Proof. solve_decision. Defined.

Record AntiAffinityConfig := mkAntiAffinity {
  aaEnabled : option bool;
  aaHost : option bool;
  aaZone : option bool
}.

#[export] Instance AntiAffinityConfig_eq_dec : EqDecision AntiAffinityConfig.
Proof. solve_decision. Defined.

Record PodDisruptionBudgetConfig := mkPdbConfig {
  pdEnabled : option bool;
  pdMaxUnavailable : option IntOrString
}.

#[export] Instance PodDisruptionBudgetConfig_eq_dec : EqDecision PodDisruptionBudgetConfig.
Proof. solve_decision. Defined.

Record BrokerSpec := mkBrokerSpec {
  brCore :> BrokerScale.BrokerSpec;
  brImage : string;
  brEnv : list EnvVar;
  brVolumes : list Volume;
  brVolumeMounts : list VolumeMount;
  brFunctionsWorkerConfig : option (gmap string string);
  brResources : ResourceRequirements;
  brAntiaffinity : option AntiAffinityConfig;
  brPdb : option PodDisruptionBudgetConfig
}.

#[export] Instance BrokerSpec_eq_dec : EqDecision BrokerSpec.
Proof. solve_decision. Defined.

Record BookKeeperVolumes := mkBKVolumes {
  bvJournal : option VolumeSpec;
  bvLedgers : option VolumeSpec;
  bvIndex : option VolumeSpec
}.

#[export] Instance BookKeeperVolumes_eq_dec : EqDecision BookKeeperVolumes.
Proof. solve_decision. Defined.

Record BookKeeperSpec := mkBookKeeperSpec {
  bkCore :> BookKeeper.BookKeeperSpec;
  bkImage : string;
  bkConfig : gmap string string;
  bkVolumes : option BookKeeperVolumes;
  bkPodManagementPolicy : string;
  (** [AutoRackConfig]: enabled, period *)
  bkAutoRackConfig : option (bool * option Z)
}.

#[export] Instance BookKeeperSpec_eq_dec : EqDecision BookKeeperSpec.
Proof. solve_decision. Defined.

(** [Tls]: enabled and secret name. *)
Record ProxyTlsConfig := mkTls { tlsEnabled : bool; tlsSecretName : string }.

#[export] Instance ProxyTlsConfig_eq_dec : EqDecision ProxyTlsConfig.
Proof. solve_decision. Defined.

Record ProxySpec := mkProxySpec {
  pxReplicas : option Z;
  pxImage : string;
  pxConfig : gmap string string;
  pxTls : option ProxyTlsConfig;
  pxResources : ResourceRequirements
}.

#[export] Instance ProxySpec_eq_dec : EqDecision ProxySpec.
Proof. solve_decision. Defined.

Record AutoRecoverySpec := mkAutoRecoverySpec {
  arMode : string;
  arReplicas : option Z;
  arImage : string;
  arConfig : gmap string string
}.

#[export] Instance AutoRecoverySpec_eq_dec : EqDecision AutoRecoverySpec.
Proof. solve_decision. Defined.

Record FunctionsWorkerSpec := mkFunctionsWorkerSpec {
  fwMode : string;
  fwReplicas : option Z;
  fwImage : string;
  fwConfig : gmap string string;
  fwPackageStorage : string;
  fwPackageStorageVolume : option VolumeSpec
}.

#[export] Instance FunctionsWorkerSpec_eq_dec : EqDecision FunctionsWorkerSpec.
Proof. solve_decision. Defined.

Record OxiaCoordinatorSpec := mkOxiaCoordinator {
  ocReplicas : option Z;
  ocImage : string;
  ocResources : ResourceRequirements
}.

#[export] Instance OxiaCoordinatorSpec_eq_dec : EqDecision OxiaCoordinatorSpec.
Proof. solve_decision. Defined.

Record OxiaServerSpec := mkOxiaServer {
  osReplicas : option Z;
  osImage : string;
  osStorageClassName : option string;
  osStorageSize : Z;
  osDbCacheSizeMb : option Z;
  osWalSyncData : option bool
}.

#[export] Instance OxiaServerSpec_eq_dec : EqDecision OxiaServerSpec.
Proof. solve_decision. Defined.

Record OxiaNamespaceSpec := mkOxiaNamespace {
  onName : string;
  onInitialShardCount : option Z;
  onReplicationFactor : option Z
}.

#[export] Instance OxiaNamespaceSpec_eq_dec : EqDecision OxiaNamespaceSpec.
Proof. solve_decision. Defined.

Record OxiaClusterSpec := mkOxiaSpec {
  oxCoordinator : option OxiaCoordinatorSpec;
  oxServer : option OxiaServerSpec;
  oxNamespaces : list OxiaNamespaceSpec;
  oxAllowExtraAuthorities : option bool
}.

#[export] Instance OxiaClusterSpec_eq_dec : EqDecision OxiaClusterSpec.
Proof. solve_decision. Defined.

Record OffloadSpec := mkOffload {
  ofDriver : string;
  ofBucket : string;
  ofRegion : string;
  ofEndpoint : string;
  ofOffloadThresholdBytes : option Z;
  ofCredentialsSecretRef : option string
}.

(** * The cluster *)

Record PulsarClusterSpec := mkClusterSpec {
  pcPulsarVersion : string;
  pcImage : string;
  (** [MetadataStore.Type], when a metadata store is given *)
  pcMetadataStore : option string;
  (** [Global.StorageClassName], when a global spec is given *)
  pcGlobal : option (option string);
  pcBroker : option BrokerSpec;
  pcBookKeeper : option BookKeeperSpec;
  pcProxy : option ProxySpec;
  pcOxia : option OxiaClusterSpec;
  pcAutoRecovery : option AutoRecoverySpec;
  pcFunctionsWorker : option FunctionsWorkerSpec;
  pcOffload : option OffloadSpec
}.

Record PulsarClusterStatus := mkClusterStatus {
  pcObservedGeneration : Z;
  (** the phases of the children, by tier *)
  pcPhase : tierName → string;
  pcConditions : list Condition
}.

Record PulsarCluster := mkCluster {
  pcName : string;
  pcNamespace : string;
  pcUID : string;
  pcGeneration : Z;
  pcSpec : PulsarClusterSpec;
  pcStatus : PulsarClusterStatus
}.

Definition set_pcStatus (st : PulsarClusterStatus) (c : PulsarCluster) : PulsarCluster :=
  mkCluster (pcName c) (pcNamespace c) (pcUID c) (pcGeneration c) (pcSpec c) st.

Definition set_pcConditions (cs : list Condition) (c : PulsarCluster) : PulsarCluster :=
  set_pcStatus (mkClusterStatus (pcObservedGeneration (pcStatus c)) (pcPhase (pcStatus c)) cs) c.

#[export] Instance tierName_eq_dec : EqDecision tierName.
Proof. solve_decision. Defined.

(** [cluster.Status.<Tier>Phase = phase] *)
Definition setPhase (t : tierName) (phase : string) (c : PulsarCluster) : PulsarCluster :=
  set_pcStatus (mkClusterStatus (pcObservedGeneration (pcStatus c))
    (λ t', if decide (t' = t) then phase else pcPhase (pcStatus c) t') (pcConditions (pcStatus c))) c.

Definition defaultImageRepository : string := "apachepulsar/pulsar".
Definition metadataStoreOxia : string := "oxia".

Definition childName (clusterName suffix : string) : string := clusterName ++! "-" ++! suffix.

Definition clusterDefaultImage (spec : PulsarClusterSpec) : string :=
  if negb (String.eqb (pcImage spec) "") then pcImage spec
  else if negb (String.eqb (pcPulsarVersion spec) "") then
    defaultImageRepository ++! ":" ++! pcPulsarVersion spec
  else "".

Definition effectiveImage (componentImage clusterImage : string) : string :=
  if negb (String.eqb componentImage "") then componentImage else clusterImage.

Definition globalStorageClassName (spec : PulsarClusterSpec) : option string :=
  match pcGlobal spec with None => None | Some sc => sc end.

Definition oxiaSelected (spec : PulsarClusterSpec) : bool :=
  match pcMetadataStore spec with
  | None => true
  | Some ty => if String.eqb ty "" then true else String.eqb ty metadataStoreOxia
  end.

(** * Configuration defaults *)

Definition setConfigDefault (cfg : gmap string string) (key value : string) : gmap string string :=
  match cfg !! key with Some _ => cfg | None => <[key := value]> cfg end.

(** * Offload *)

Definition offloadDriverAWSS3 : string := "aws-s3".
Definition offloadDriverGCS : string := "google-cloud-storage".
Definition offloadDriverAzureBlob : string := "azureblob".
Definition offloadDriverFilesystem : string := "filesystem".
Definition confKeyManagedLedgerOffloadDriver : string := "managedLedgerOffloadDriver".
Definition confKeyManagedLedgerOffloadThresholdBytes : string :=
  "managedLedgerOffloadAutoTriggerSizeThresholdBytes".
Definition confKeyS3OffloadBucket : string := "s3ManagedLedgerOffloadBucket".
Definition confKeyS3OffloadRegion : string := "s3ManagedLedgerOffloadRegion".
Definition confKeyS3OffloadServiceEndpoint : string := "s3ManagedLedgerOffloadServiceEndpoint".
Definition confKeyGCSOffloadBucket : string := "gcsManagedLedgerOffloadBucket".
Definition confKeyGCSOffloadRegion : string := "gcsManagedLedgerOffloadRegion".
Definition confKeyGCSOffloadServiceAccountKeyFile : string :=
  "gcsManagedLedgerOffloadServiceAccountKeyFile".
Definition confKeyAzureOffloadBucket : string := "managedLedgerOffloadBucket".
Definition envAWSAccessKeyID : string := "AWS_ACCESS_KEY_ID".
Definition envAWSSecretAccessKey : string := "AWS_SECRET_ACCESS_KEY".
Definition envAzureStorageAccount : string := "AZURE_STORAGE_ACCOUNT".
Definition envAzureStorageAccessKey : string := "AZURE_STORAGE_ACCESS_KEY".
Definition offloadCredentialVolumeName : string := "offload-gcs-credentials".
Definition gcsOffloadKeyDir : string := "/etc/pulsar/offload-gcs".
Definition gcsOffloadKeySecretKey : string := "key.json".
Definition gcsOffloadKeyPath : string := gcsOffloadKeyDir ++! "/" ++! gcsOffloadKeySecretKey.

Definition setConfigDefaultIfSet (cfg : gmap string string) (key value : string) : gmap string string :=
  if String.eqb value "" then cfg else setConfigDefault cfg key value.

Definition withBrokerOffloadDefaults (cfg : gmap string string) (offload : option OffloadSpec) :
    gmap string string :=
  match offload with
  | None => cfg
  | Some o =>
      let cfg := setConfigDefault cfg confKeyManagedLedgerOffloadDriver (ofDriver o) in
      let cfg :=
        if String.eqb (ofDriver o) offloadDriverAWSS3 then
          let cfg := setConfigDefaultIfSet cfg confKeyS3OffloadBucket (ofBucket o) in
          let cfg := setConfigDefaultIfSet cfg confKeyS3OffloadRegion (ofRegion o) in
          setConfigDefaultIfSet cfg confKeyS3OffloadServiceEndpoint (ofEndpoint o)
        else if String.eqb (ofDriver o) offloadDriverGCS then
          let cfg := setConfigDefaultIfSet cfg confKeyGCSOffloadBucket (ofBucket o) in
          let cfg := setConfigDefaultIfSet cfg confKeyGCSOffloadRegion (ofRegion o) in
          match ofCredentialsSecretRef o with
          | Some _ => setConfigDefault cfg confKeyGCSOffloadServiceAccountKeyFile gcsOffloadKeyPath
          | None => cfg
          end
        else if String.eqb (ofDriver o) offloadDriverAzureBlob then
          setConfigDefaultIfSet cfg confKeyAzureOffloadBucket (ofBucket o)
        else cfg in
      match ofOffloadThresholdBytes o with
      | Some n => setConfigDefault cfg confKeyManagedLedgerOffloadThresholdBytes (%d n)
      | None => cfg
      end
  end.

Definition secretEnvVars (secretName : string) (keys : list string) : list EnvVar :=
  (λ key, EnvSecret key secretName key) <$> keys.

Definition offloadCredentialEnv (offload : option OffloadSpec) : list EnvVar :=
  match offload with
  | None => []
  | Some o =>
      match ofCredentialsSecretRef o with
      | None => []
      | Some secret =>
          if String.eqb (ofDriver o) offloadDriverAWSS3 then
            secretEnvVars secret [envAWSAccessKeyID; envAWSSecretAccessKey]
          else if String.eqb (ofDriver o) offloadDriverAzureBlob then
            secretEnvVars secret [envAzureStorageAccount; envAzureStorageAccessKey]
          else []
      end
  end.

Definition gcsKeyFileMounted (offload : option OffloadSpec) : bool :=
  match offload with
  | None => false
  | Some o => String.eqb (ofDriver o) offloadDriverGCS && bool_decide (is_Some (ofCredentialsSecretRef o))
  end.

Definition offloadCredentialVolumes (offload : option OffloadSpec) : list Volume :=
  if negb (gcsKeyFileMounted offload) then []
  else [mkVolume offloadCredentialVolumeName
          (SecretSource (default "" (o ← offload; ofCredentialsSecretRef o))
             [(gcsOffloadKeySecretKey, gcsOffloadKeySecretKey)])].

Definition offloadCredentialVolumeMounts (offload : option OffloadSpec) : list VolumeMount :=
  if negb (gcsKeyFileMounted offload) then []
  else [mkMount offloadCredentialVolumeName gcsOffloadKeyDir "" true].

(** * The functions worker's mode and package storage
    (functionsworker_controller.go, pulsarcluster_functionsworker.go) *)

Definition functionsWorkerModeColocated : string := "colocated".
Definition functionsWorkerModeStandalone : string := "standalone".
Definition packageStorageFileSystem : string := "FileSystemPackagesStorage".
Definition fileSystemPackagesStorageProviderClass : string :=
  "org.apache.pulsar.packages.management.storage.filesystem.FileSystemPackagesStorageProvider".
Definition cfgKeyPulsarFunctionsCluster : string := "pulsarFunctionsCluster".
Definition configValTrue : string := "true".

Definition functionsWorkerMode (spec : FunctionsWorkerSpec) : string :=
  if String.eqb (fwMode spec) "" then functionsWorkerModeColocated else fwMode spec.

Definition isFileSystemPackageStorage (packageStorage : string) : bool :=
  String.eqb packageStorage "" || String.eqb packageStorage packageStorageFileSystem.

Definition functionsWorkerPackageStorageConfig (packageStorage : string) : gmap string string :=
  let cfg : gmap string string := {[ "functionsWorkerEnablePackageManagement" := configValTrue ]} in
  if String.eqb packageStorage "" || String.eqb packageStorage packageStorageFileSystem then
    <["packagesManagementStorageProvider" := fileSystemPackagesStorageProviderClass]> cfg
  else cfg.

End Cluster.
