(* ===== verification/MetadataInit.v ===== *)
(** The cluster's metadata store: where every component is told to find it,
    and the one-time Job that initializes it
    (internal/metadata/url.go and
    internal/controller/cluster/pulsarcluster_metadata.go).

    [controllerutil.CreateOrUpdate] is library code and a single call here. *)

From S2P Require Import Prelude Effects Kube BrokerScale ObjectStore BackupTypes Manifest Config Rollout Workload ClusterTypes.
Import BrokerAutoscaler.
Open Scope Z_scope.
Open Scope go_scope.

Module MetadataInit.
Import Rollout Cluster.

(** * Addresses *)

Definition MetadataStoreURL (serviceName oxiaNamespace : string) : string :=
  "oxia://" ++! serviceName ++! ":" ++! %d ServerPort ++! "/" ++! oxiaNamespace.

Definition BookkeeperMetadataServiceURI (serviceName : string) : string :=
  "metadata-store:" ++! MetadataStoreURL serviceName BookkeeperNamespace.

Definition oxiaPublicServiceName (clusterName : string) : string :=
  PublicServiceName (childName clusterName "oxia").

Definition configKeyMetadataStoreURL : string := "metadataStoreUrl".
Definition configKeyConfigurationMetadataStoreURL : string := "configurationMetadataStoreUrl".
Definition configKeyMetadataServiceURI : string := "metadataServiceUri".
Definition configKeyBookkeeperMetadataServiceURI : string := "bookkeeperMetadataServiceUri".
Definition configKeyClusterName : string := "clusterName".

Definition withBrokerProxyMetadataDefaults (cfg : gmap string string) (clusterName : string) :
    gmap string string :=
  let url := MetadataStoreURL (oxiaPublicServiceName clusterName) DefaultNamespace in
  let cfg := setConfigDefault cfg configKeyMetadataStoreURL url in
  setConfigDefault cfg configKeyConfigurationMetadataStoreURL url.

Definition withClusterNameDefault (cfg : gmap string string) (clusterName : string) :
    gmap string string :=
  setConfigDefault cfg configKeyClusterName clusterName.

Definition withBookKeeperMetadataDefault (cfg : gmap string string) (clusterName : string) :
    gmap string string :=
  setConfigDefault cfg configKeyMetadataServiceURI
    (BookkeeperMetadataServiceURI (oxiaPublicServiceName clusterName)).

Definition withAutoRecoveryMetadataDefault (cfg : gmap string string) (clusterName : string) :
    gmap string string :=
  withBookKeeperMetadataDefault cfg clusterName.

Definition withBrokerBookkeeperMetadataDefault (cfg : gmap string string) (clusterName : string) :
    gmap string string :=
  setConfigDefault cfg configKeyBookkeeperMetadataServiceURI
    (BookkeeperMetadataServiceURI (oxiaPublicServiceName clusterName)).

Definition withFunctionsWorkerMetadataDefault (cfg : gmap string string) (clusterName : string) :
    gmap string string :=
  setConfigDefault cfg configKeyConfigurationMetadataStoreURL
    (MetadataStoreURL (oxiaPublicServiceName clusterName) DefaultNamespace).

(** * The Job *)

Definition conditionTypeMetadataInitialized : string := "MetadataInitialized".
Definition reasonMetadataInitWaitingForOxia : string := "WaitingForOxia".
Definition reasonMetadataInitJobRunning : string := "JobRunning".
Definition reasonMetadataInitJobFailed : string := "JobFailed".
Definition reasonMetadataInitJobSucceeded : string := "JobSucceeded".
Definition reasonMetadataInitImagePullError : string := "InitImagePullError".
Definition metadataInitComponentName : string := "metadata-init".
Definition metadataInitContainerName : string := "initialize-cluster-metadata".
Definition metadataInitBackoffLimit : Z := 6.
Definition metadataInitRetryInterval : Z := 30 * Second.
Definition volumeNameConfig : string := "config".
Definition configMapKey : string := "bookkeeper.conf".
Definition bookieConfMountPath : string := "/pulsar/conf/bookkeeper.conf".

Definition metadataInitJobName (clusterName : string) : string := clusterName ++! "-metadata-init".

(** The two ports of resolveBrokerPorts. *)
Definition brokerBinaryPort (spec : BrokerScale.BrokerSpec) : Z :=
  resolveConfigPort (mergedBrokerConfig spec) confKeyBrokerServicePort defaultBrokerServicePort.

(** (web, broker) *)
Definition metadataInitBrokerServiceURLs (c : PulsarCluster) : string * string :=
  let svc := childName (pcName c) brokerComponent in
  let '(http, binary) :=
    match pcBroker (pcSpec c) with
    | Some spec => (brokerHTTPPort spec, brokerBinaryPort spec)
    | None => (defaultWebServicePort, defaultBrokerServicePort)
    end in
  ("http://" ++! svc ++! ":" ++! %d http, "pulsar://" ++! svc ++! ":" ++! %d binary).

Definition dquoted (s : string) : string :=
  String "034" EmptyString ++! s ++! String "034" EmptyString.
Definition eol : string := String nl EmptyString.
Definition continued : string := " " ++! String bs EmptyString ++! eol.

Definition buildMetadataInitScript (clusterName storeURL webServiceURL brokerServiceURL : string) :
    string :=
  "set -e" ++! eol ++!
  "export BOOKIE_MEM=" ++! dquoted "-Xmx128M" ++! eol ++!
  "export PULSAR_MEM=" ++! dquoted "-Xmx128M" ++! eol ++!
  "if bin/bookkeeper shell whatisinstanceid; then" ++! eol ++!
  "  echo " ++! dquoted "BookKeeper cluster metadata already initialized" ++! eol ++!
  "else" ++! eol ++!
  "  bin/bookkeeper shell initnewcluster" ++! eol ++!
  "fi" ++! eol ++!
  "bin/pulsar initialize-cluster-metadata" ++! continued ++!
  "  --cluster " ++! dquoted clusterName ++! continued ++!
  "  --metadata-store " ++! dquoted storeURL ++! continued ++!
  "  --configuration-store " ++! dquoted storeURL ++! continued ++!
  "  --web-service-url " ++! dquoted webServiceURL ++! continued ++!
  "  --broker-service-url " ++! dquoted brokerServiceURL ++! eol.

Record ConfigMap := mkConfigMap {
  cmKey : NamespacedName;
  cmLabels : gmap string string;
  cmData : gmap string string
}.

Definition buildMetadataInitConfigMap (c : PulsarCluster) : ConfigMap :=
  mkConfigMap (mkNN (pcNamespace c) (metadataInitJobName (pcName c)))
    (Labels (pcName c) metadataInitComponentName)
    {[ configMapKey := RenderProperties (withBookKeeperMetadataDefault ∅ (pcName c)) ]}.

(** One container, restarted on failure, with the ConfigMap of the Job's own
    name mounted. *)
Record InitJob := mkInitJob {
  ijKey : NamespacedName;
  ijLabels : gmap string string;
  ijBackoffLimit : Z;
  ijContainerName : string;
  ijImage : string;
  ijCommand : list string;
  ijArgs : list string;
  (** (volume, mount path, sub path, read-only) and (volume, ConfigMap) *)
  ijMount : string * string * string * bool;
  ijVolume : string * string
}.

Definition buildMetadataInitJob (c : PulsarCluster) : InitJob :=
  let name := metadataInitJobName (pcName c) in
  let storeURL := MetadataStoreURL (oxiaPublicServiceName (pcName c)) DefaultNamespace in
  let '(webServiceURL, brokerServiceURL) := metadataInitBrokerServiceURLs c in
  mkInitJob (mkNN (pcNamespace c) name) (Labels (pcName c) metadataInitComponentName)
    metadataInitBackoffLimit metadataInitContainerName (clusterDefaultImage (pcSpec c))
    ["sh"; "-c"]
    [buildMetadataInitScript (pcName c) storeURL webServiceURL brokerServiceURL]
    (volumeNameConfig, bookieConfMountPath, configMapKey, true) (volumeNameConfig, name).

(** * Calls *)

Inductive call :=
| GetJob (nn : NamespacedName)
| CreateJob (owner : string) (job : InitJob)
| DeleteJob (nn : NamespacedName) (background : bool)
| SetOwner (owner : string)
| CreateOrUpdateConfigMap (owner : string) (cm : ConfigMap)
| DeleteConfigMap (nn : NamespacedName)
| ListPods (ns : string) (selector : gmap string string)
| Now
| Eventf (c : PulsarCluster) (ty : EventType) (reason action note : string).

Definition ans (c : call) : Type :=
  match c with
  | GetJob _ => res Job
  | CreateJob _ _ => res unit
  | DeleteJob _ _ => res unit
  | SetOwner _ => res unit
  | CreateOrUpdateConfigMap _ _ => res unit
  | DeleteConfigMap _ => res unit
  | ListPods _ _ => res (list Pod)
  | Now => Z
  | Eventf _ _ _ _ _ => unit
  end.

(** * The state of the Job *)

Record imagePullStuckInfo := mkPull { ipStuck : bool; ipImage : string; ipReason : string; ipSince : Z }.

Definition notPulling : imagePullStuckInfo := mkPull false "" "" zeroTime.

Fixpoint pullStuckContainer (created : Z) (cs : list ContainerStatus) : option imagePullStuckInfo :=
  match cs with
  | [] => None
  | c :: cs' =>
      if negb (String.eqb (csName c) metadataInitContainerName) then pullStuckContainer created cs'
      else
        match csWaiting c with
        | None => pullStuckContainer created cs'
        | Some reason =>
            if String.eqb reason containerWaitingReasonImagePullBackOff ||
               String.eqb reason containerWaitingReasonErrImagePull
            then Some (mkPull true (csImage c) reason created)
            else pullStuckContainer created cs'
        end
  end.

Fixpoint pullStuckPod (jobUID : string) (pods : list Pod) : imagePullStuckInfo :=
  match pods with
  | [] => notPulling
  | pod :: pods' =>
      if negb (IsControlledBy pod jobUID) then pullStuckPod jobUID pods'
      else
        match pullStuckContainer (podCreationTimestamp pod) (podContainerStatuses pod) with
        | Some info => info
        | None => pullStuckPod jobUID pods'
        end
  end.

Definition metadataInitImagePullStuck (c : PulsarCluster) (job : Job) :
    prog ans (res imagePullStuckInfo) :=
  (try! ["listing cluster-metadata-init pods"] pods :=
     perform ans (ListPods (pcNamespace c) (SelectorLabels (pcName c) metadataInitComponentName)) in
   Ret (Ok (pullStuckPod (jobUID job) pods)))%prog.

(** [jobSucceeded] and [jobFailedPermanently] of a possibly absent Job. *)
Definition succeeded (job : option Job) : bool :=
  match job with None => false | Some j => jobSucceeded j end.
Definition failedPermanently (job : option Job) : bool :=
  match job with None => false | Some j => jobFailedPermanently j end.
Definition nameOf (job : option Job) : string :=
  match job with None => "" | Some j => jobName j end.

Definition metadataInitializedCondition (generation : Z) (oxiaReady : bool) (job : option Job)
    (alreadyInitialized : bool) (imagePull : imagePullStuckInfo) : Condition :=
  let cond st reason msg := newCondition conditionTypeMetadataInitialized st generation reason msg in
  if succeeded job || (alreadyInitialized && bool_decide (job = None)) then
    cond ConditionTrue reasonMetadataInitJobSucceeded "cluster metadata initialized"
  else if failedPermanently job then
    cond ConditionFalse reasonMetadataInitJobFailed
      ("cluster-metadata-init job " ++! nameOf job ++! " failed")
  else if ipStuck imagePull then
    cond ConditionFalse reasonMetadataInitImagePullError
      ("cluster-metadata-init job " ++! nameOf job ++! " cannot pull image " ++!
       quote (ipImage imagePull) ++! ": " ++! ipReason imagePull)
  else if negb oxiaReady then
    cond ConditionFalse reasonMetadataInitWaitingForOxia
      "waiting for the OxiaCluster metadata store to become Ready before initializing cluster metadata"
  else if bool_decide (job = None) then
    cond ConditionFalse reasonMetadataInitJobRunning
      "cluster-metadata-init job has not been created yet"
  else
    cond ConditionFalse reasonMetadataInitJobRunning
      ("cluster-metadata-init job " ++! nameOf job ++! " is running").

(** * Reconciling the Job *)

(** [client.IgnoreNotFound(err) != nil] *)
Definition deleteFailed (r : res unit) : option goerr :=
  match r with Ok _ => None | Err e => IgnoreNotFound e end.

Definition reconcileMetadataInitJob (c : PulsarCluster) (oxiaReady alreadyInitialized : bool) :
    prog ans (res (option Job * imagePullStuckInfo * bool)) :=
  let key := mkNN (pcNamespace c) (metadataInitJobName (pcName c)) in
  (let! got := perform ans (GetJob key) in
   match got with
   | Ok job =>
       if jobFailedPermanently job then
         let! deleted := perform ans (DeleteJob key true) in
         match deleteFailed deleted with
         | Some _ =>
             Ret (match deleted with
                  | Err e => Err (Errorf "deleting failed cluster-metadata-init job" e)
                  | Ok _ => Ok (Some job, notPulling, true)
                  end)
         | None => Ret (Ok (Some job, notPulling, true))
         end
       else
         try! imagePull := metadataInitImagePullStuck c job in
         if negb (ipStuck imagePull) then Ret (Ok (Some job, notPulling, false))
         else
           let! now := perform ans Now in
           if Sub now (ipSince imagePull) >=? metadataInitRetryInterval then
             let! deleted := perform ans (DeleteJob key true) in
             match deleteFailed deleted with
             | Some _ =>
                 Ret (match deleted with
                      | Err e => Err (Errorf "deleting cluster-metadata-init job stuck on image pull" e)
                      | Ok _ => Ok (Some job, imagePull, true)
                      end)
             | None => Ret (Ok (Some job, imagePull, true))
             end
           else Ret (Ok (Some job, imagePull, true))
   | Err e =>
       if negb (IsNotFound e) then Ret (Err (Errorf "getting cluster-metadata-init job" e))
       else if negb oxiaReady then Ret (Ok (None, notPulling, false))
       else if alreadyInitialized then Ret (Ok (None, notPulling, false))
       else
         let desired := buildMetadataInitJob c in
         try! ["setting owner reference on cluster-metadata-init job"] _ :=
           perform ans (SetOwner (pcUID c)) in
         try! ["creating cluster-metadata-init job"] _ := perform ans (CreateJob (pcUID c) desired) in
         Ret (Ok (Some (mkJob (nnName (ijKey desired)) "" [] 0 0), notPulling, false))
   end)%prog.

(** The cluster with its condition updated is returned beside the report and
    the requeue flag. *)
Section Reconciler.
Context `{AM : !ApiMeta}.

(** [apimeta.IsStatusConditionTrue] *)
Definition IsStatusConditionTrue (cs : list Condition) (ty : string) : bool :=
  bool_decide (condStatus cs ty = Some ConditionTrue).

Definition recordMetadataInitImagePullEvent (c : PulsarCluster) (cond : Condition)
    (imagePull : imagePullStuckInfo) : prog ans unit :=
  if negb (ipStuck imagePull) then Ret tt
  else
    match FindStatusCondition (pcConditions (pcStatus c)) conditionTypeMetadataInitialized with
    | Some prior =>
        if String.eqb (cReason prior) reasonMetadataInitImagePullError then Ret tt
        else perform ans (Eventf c EventTypeWarning reasonMetadataInitImagePullError "MetadataInit" (cMessage cond))
    | None => perform ans (Eventf c EventTypeWarning reasonMetadataInitImagePullError "MetadataInit" (cMessage cond))
    end.

(** The selection of another metadata store prunes the Job and its
    ConfigMap. *)
Definition pruneMetadataInit (c : PulsarCluster) : prog ans (res (componentReport * bool)) :=
  let nn := mkNN (pcNamespace c) (metadataInitJobName (pcName c)) in
  (let! d1 := perform ans (DeleteJob nn false) in
   match deleteFailed d1 with
   | Some e => Ret (Err (Errorf (metadataInitComponentName ++! ": pruning") e))
   | None =>
       let! d2 := perform ans (DeleteConfigMap nn) in
       match deleteFailed d2 with
       | Some e => Ret (Err (Errorf (metadataInitComponentName ++! ": pruning configmap") e))
       | None => Ret (Ok (mkReport metadataInitComponentName false false "" "", false))
       end
   end)%prog.

Definition reconcileMetadataInit (c : PulsarCluster) (oxiaReady : bool) :
    prog ans (PulsarCluster * res (componentReport * bool)) :=
  if negb (oxiaSelected (pcSpec c)) then
    (let! r := pruneMetadataInit c in Ret (c, r))%prog
  else
    (let! cm := perform ans (CreateOrUpdateConfigMap (pcUID c) (buildMetadataInitConfigMap c)) in
     match cm with
     | Err e => Ret (c, Err (Errorf metadataInitComponentName e))
     | Ok _ =>
         let alreadyInitialized :=
           IsStatusConditionTrue (pcConditions (pcStatus c)) conditionTypeMetadataInitialized in
         let! out := reconcileMetadataInitJob c oxiaReady alreadyInitialized in
         match out with
         | Err e => Ret (c, Err (Errorf metadataInitComponentName e))
         | Ok (job, imagePull, requeue) =>
             let cond := metadataInitializedCondition (pcGeneration c) oxiaReady job
                           alreadyInitialized imagePull in
             let! _ := recordMetadataInitImagePullEvent c cond imagePull in
             Ret (set_pcConditions (setCond (pcConditions (pcStatus c)) cond) c,
                  Ok (mkReport metadataInitComponentName true
                        (bool_decide (cStatus cond = ConditionTrue)) (cReason cond) (cMessage cond),
                      requeue))
         end
     end)%prog.

End Reconciler.
End MetadataInit.
