(* ===== verification/Umbrella.v ===== *)
(** The PulsarCluster umbrella: its children's specs, the functions-worker
    wiring and Reconcile (pulsarcluster_controller.go,
    pulsarcluster_functionsworker.go), composed from the ordered rollout
    (Rollout), the metadata initialization (MetadataInit) and the readiness
    aggregation.

    The children have six different spec types: the calls on a child carry
    their tier, and [specOf] is the spec type of a tier's child. *)

From S2P Require Import Prelude Effects Kube BrokerScale BookKeeper BackupTypes Config Rollout Workload ClusterTypes MetadataInit.
Open Scope Z_scope.
Open Scope go_scope.

Module Umbrella.
Import BrokerAutoscaler Rollout Workload Cluster MetadataInit.

(** * Children *)

Definition specOf (t : tierName) : Type :=
  match t with
  | tierOxia => OxiaClusterSpec
  | tierBookKeeper => BookKeeperSpec
  | tierAutoRecovery => AutoRecoverySpec
  | tierBroker => BrokerSpec
  | tierProxy => ProxySpec
  | tierFunctionsWorker => FunctionsWorkerSpec
  end.

#[export] Instance specOf_eq_dec (t : tierName) : EqDecision (specOf t).
Proof. destruct t; apply _. Defined.

(** The empty child spec an object of that kind starts with. *)
Definition zeroSpec (t : tierName) : specOf t :=
  match t with
  | tierOxia => mkOxiaSpec None None [] None
  | tierBookKeeper => mkBookKeeperSpec (mkBKSpec None None None) "" ∅ None "" None
  | tierAutoRecovery => mkAutoRecoverySpec "" None "" ∅
  | tierBroker =>
      mkBrokerSpec (BrokerScale.mkBrokerSpec None ∅ "" None) "" [] [] [] None (mkResources ∅ ∅) None None
  | tierProxy => mkProxySpec None "" ∅ None (mkResources ∅ ∅)
  | tierFunctionsWorker => mkFunctionsWorkerSpec "" None "" ∅ "" None
  end.

Definition with_brCore (k : BrokerScale.BrokerSpec) (s : BrokerSpec) : BrokerSpec :=
  mkBrokerSpec k (brImage s) (brEnv s) (brVolumes s) (brVolumeMounts s) (brFunctionsWorkerConfig s)
    (brResources s) (brAntiaffinity s) (brPdb s).
Definition with_brConfig (cfg : gmap string string) (s : BrokerSpec) : BrokerSpec :=
  with_brCore (BrokerScale.mkBrokerSpec (bsReplicas s) cfg (bsLoadBalancer s) (bsAutoscaler s)) s.
Definition with_bkCore (k : BookKeeper.BookKeeperSpec) (s : BookKeeperSpec) : BookKeeperSpec :=
  mkBookKeeperSpec k (bkImage s) (bkConfig s) (bkVolumes s) (bkPodManagementPolicy s) (bkAutoRackConfig s).

#[export, refine] Instance Broker_Scaled : Scaled BrokerSpec := {|
  specReplicas (s : BrokerSpec) := bsReplicas s;
  withReplicas r (s : BrokerSpec) :=
    with_brCore (BrokerScale.mkBrokerSpec r (bsConfig s) (bsLoadBalancer s) (bsAutoscaler s)) s
|}.
Proof. all: done. Defined.

#[export, refine] Instance BookKeeper_Scaled : Scaled BookKeeperSpec := {|
  specReplicas (s : BookKeeperSpec) := Replicas s;
  withReplicas r (s : BookKeeperSpec) := with_bkCore (mkBKSpec r (Ensemble s) (Autoscaler s)) s
|}.
Proof. all: done. Defined.

Definition brokerAutoscalerEnabled (spec : BrokerSpec) : bool :=
  match bsAutoscaler spec with Some a => basEnabled a | None => false end.
Definition bookKeeperAutoscalerEnabled (spec : BookKeeperSpec) : bool :=
  match Autoscaler spec with Some a => Enabled a | None => false end.

Definition brokerHashSpec (spec : BrokerSpec) : BrokerSpec := withReplicas None spec.
Definition brokerLiveHashSpec (spec : BrokerSpec) : BrokerSpec := withReplicas None spec.
Definition bookKeeperHashSpec (spec : BookKeeperSpec) : BookKeeperSpec := withReplicas None spec.
Definition bookKeeperLiveHashSpec (spec : BookKeeperSpec) : BookKeeperSpec := withReplicas None spec.

(** ** Spec builders.  Each is [None] exactly when the sub-spec is absent. *)

Definition buildBrokerSpec (spec : PulsarClusterSpec) : option BrokerSpec :=
  out ← pcBroker spec;
  let image := effectiveImage (brImage out) (clusterDefaultImage spec) in
  let '(env, volumes, mounts) :=
    match pcOffload spec with
    | Some _ =>
        (brEnv out ++ offloadCredentialEnv (pcOffload spec),
         brVolumes out ++ offloadCredentialVolumes (pcOffload spec),
         brVolumeMounts out ++ offloadCredentialVolumeMounts (pcOffload spec))
    | None => (brEnv out, brVolumes out, brVolumeMounts out)
    end in
  Some (mkBrokerSpec (brCore out) image env volumes mounts (brFunctionsWorkerConfig out)
          (brResources out) (brAntiaffinity out) (brPdb out)).

Definition withStorageClass (sc : string) (vol : VolumeSpec) : VolumeSpec :=
  match vsStorageClassName vol with
  | None => mkVolumeSpec (Some sc) (vsSize vol)
  | Some _ => vol
  end.

Definition buildBookKeeperSpec (spec : PulsarClusterSpec) : option BookKeeperSpec :=
  out ← pcBookKeeper spec;
  let image := effectiveImage (bkImage out) (clusterDefaultImage spec) in
  let volumes :=
    match globalStorageClassName spec with
    | None => bkVolumes out
    | Some sc =>
        (λ v, mkBKVolumes (withStorageClass sc <$> bvJournal v) (withStorageClass sc <$> bvLedgers v)
                (withStorageClass sc <$> bvIndex v)) <$> bkVolumes out
    end in
  Some (mkBookKeeperSpec (bkCore out) image (bkConfig out) volumes (bkPodManagementPolicy out)
          (bkAutoRackConfig out)).

Definition buildProxySpec (spec : PulsarClusterSpec) : option ProxySpec :=
  out ← pcProxy spec;
  Some (mkProxySpec (pxReplicas out) (effectiveImage (pxImage out) (clusterDefaultImage spec))
          (pxConfig out) (pxTls out) (pxResources out)).

Definition buildAutoRecoverySpec (spec : PulsarClusterSpec) : option AutoRecoverySpec :=
  out ← pcAutoRecovery spec;
  Some (mkAutoRecoverySpec (arMode out) (arReplicas out)
          (effectiveImage (arImage out) (clusterDefaultImage spec)) (arConfig out)).

Definition buildFunctionsWorkerSpec (spec : PulsarClusterSpec) : option FunctionsWorkerSpec :=
  out ← pcFunctionsWorker spec;
  Some (mkFunctionsWorkerSpec (fwMode out) (fwReplicas out)
          (effectiveImage (fwImage out) (clusterDefaultImage spec)) (fwConfig out)
          (fwPackageStorage out) (fwPackageStorageVolume out)).

Definition buildOxiaSpec (spec : PulsarClusterSpec) : OxiaClusterSpec :=
  let out := default (zeroSpec tierOxia) (pcOxia spec) in
  let server :=
    match oxServer out, globalStorageClassName spec with
    | Some s, Some sc =>
        match osStorageClassName s with
        | None => Some (mkOxiaServer (osReplicas s) (osImage s) (Some sc) (osStorageSize s)
                          (osDbCacheSizeMb s) (osWalSyncData s))
        | Some _ => Some s
        end
    | srv, _ => srv
    end in
  mkOxiaSpec (oxCoordinator out) server (oxNamespaces out) (oxAllowExtraAuthorities out).

(** * Calls *)

Inductive call :=
| GetCluster (nn : NamespacedName)
| UpdateClusterStatus (c : PulsarCluster)
| OnChild (t : tierName) (c : Rollout.call (specOf t))
| DeleteChild (t : tierName) (nn : NamespacedName)
| OnMetadata (c : MetadataInit.call)
| GetPVC (nn : NamespacedName)
| SetPVCOwner (owner : string)
| CreatePVC (owner : string) (pvc : PersistentVolumeClaim)
| Eventf (c : PulsarCluster) (ty : EventType) (reason action note : string).

Definition ans (c : call) : Type :=
  match c with
  | GetCluster _ => res PulsarCluster
  | UpdateClusterStatus _ => res unit
  | OnChild _ c => Rollout.ans c
  | DeleteChild _ _ => res unit
  | OnMetadata c => MetadataInit.ans c
  | GetPVC _ => res PersistentVolumeClaim
  | SetPVCOwner _ => res unit
  | CreatePVC _ _ => res unit
  | Eventf _ _ _ _ _ => unit
  end.

(** The components' programs as programs of the umbrella. *)
Definition onChild (t : tierName) {A} (p : prog (@Rollout.ans (specOf t)) A) : prog ans A :=
  embed (ans1 := @Rollout.ans (specOf t)) (ans2 := ans) (OnChild t) (λ _ x, x) p.
Definition onMetadata {A} (p : prog MetadataInit.ans A) : prog ans A :=
  embed (ans1 := MetadataInit.ans) (ans2 := ans) OnMetadata (λ _ x, x) p.

(** * The colocated functions worker *)

Definition confKeyFunctionsWorkerEnabled : string := "functionsWorkerEnabled".
Definition confKeyEnablePackagesManagement : string := "enablePackagesManagement".
Definition confKeyStoragePath : string := "STORAGE_PATH".
Definition functionsWorkerPackageStorageMountPath : string := "/pulsar/packages-storage".
Definition functionsWorkerPackageStorageVolumeName : string := "functions-package-storage".
Definition functionsWorkerPackageStorageNameSuffix : string := "functions-package-storage".
(** 8Gi *)
Definition defaultFunctionsWorkerPackageStorageSize : Z := 8 * 2 ^ 30.
Definition functionsWorkerComponent : string := "functionsworker".

Definition functionsWorkerPackageStoragePVCName (clusterName : string) : string :=
  childName clusterName functionsWorkerPackageStorageNameSuffix.

Definition withFunctionsWorkerColocatedBrokerDefaults (cfg : gmap string string)
    (fwSpec : FunctionsWorkerSpec) : gmap string string :=
  let cfg := setConfigDefault cfg confKeyFunctionsWorkerEnabled configValTrue in
  let cfg := setConfigDefault cfg confKeyEnablePackagesManagement configValTrue in
  let cfg := map_fold (λ k v cfg, setConfigDefault cfg k v) cfg
               (functionsWorkerPackageStorageConfig (fwPackageStorage fwSpec)) in
  if isFileSystemPackageStorage (fwPackageStorage fwSpec) then
    setConfigDefault cfg confKeyStoragePath functionsWorkerPackageStorageMountPath
  else cfg.

Definition withFunctionsWorkerClusterDefault (cfg : gmap string string) (clusterName : string) :
    gmap string string :=
  setConfigDefault cfg cfgKeyPulsarFunctionsCluster clusterName.

Definition functionsWorkerPackageStorageVolume (pvcName : string) : Volume :=
  mkVolume functionsWorkerPackageStorageVolumeName (ClaimSource pvcName).
Definition functionsWorkerPackageStorageVolumeMount : VolumeMount :=
  mkMount functionsWorkerPackageStorageVolumeName functionsWorkerPackageStorageMountPath "" false.

Definition brokerMaxReplicas (broker : BrokerSpec) : Z :=
  let current := brokerReplicas (bsReplicas broker) in
  match bsAutoscaler broker with
  | Some a =>
      match basMax a with
      | Some m => if basEnabled a && (m >? current) then m else current
      | None => current
      end
  | None => current
  end.

Definition packageStoragePVC (c : PulsarCluster) (fw : FunctionsWorkerSpec) : PersistentVolumeClaim :=
  let '(size, sc) :=
    match fwPackageStorageVolume fw with
    | Some vol =>
        (if negb (vsSize vol =? 0) then vsSize vol else defaultFunctionsWorkerPackageStorageSize,
         vsStorageClassName vol)
    | None => (defaultFunctionsWorkerPackageStorageSize, None)
    end in
  let sc := match sc with Some _ => sc | None => globalStorageClassName (pcSpec c) end in
  mkPVC (functionsWorkerPackageStoragePVCName (pcName c)) (pcNamespace c)
    (Labels (pcName c) functionsWorkerComponent) ["ReadWriteOnce"] size sc.

Definition reconcileFunctionsWorkerPackageStoragePVC (c : PulsarCluster) (fw : FunctionsWorkerSpec) :
    prog ans (res unit) :=
  let name := functionsWorkerPackageStoragePVCName (pcName c) in
  (let! existing := perform ans (GetPVC (mkNN (pcNamespace c) name)) in
   match existing with
   | Ok _ => Ret (Ok tt)
   | Err e =>
       if negb (IsNotFound e) then Ret (Err (Errorf "getting functions worker package storage PVC" e))
       else
         try! ["setting owner reference on functions worker package storage PVC"] _ :=
           perform ans (SetPVCOwner (pcUID c)) in
         try! ["creating functions worker package storage PVC"] _ :=
           perform ans (CreatePVC (pcUID c) (packageStoragePVC c fw)) in
         Ret (Ok tt)
   end)%prog.

Definition singleWriterNote (pvcName : string) : string :=
  "colocated FunctionsWorker's FileSystemPackagesStorage PVC " ++! quote pvcName ++!
  " is provisioned ReadWriteOnce by default; with more than one broker replica, only pods that land on the same node as the bound volume can mount it. Pre-provision a ReadWriteMany PVC named " ++!
  quote pvcName ++!
  " in this namespace before creating the PulsarCluster (the operator only creates this PVC if it does not already exist, and never edits an existing one), or accept that only one broker replica can actually serve function-package uploads/downloads.".

(** What the wiring makes of the broker's spec. *)
Definition wiredBroker (c : PulsarCluster) (fw built : FunctionsWorkerSpec) (broker : BrokerSpec) :
    BrokerSpec :=
  let cfg := withFunctionsWorkerColocatedBrokerDefaults (bsConfig broker) fw in
  let fwConfig := withFunctionsWorkerClusterDefault (fwConfig built) (pcName c) in
  let '(volumes, mounts) :=
    if isFileSystemPackageStorage (fwPackageStorage fw) then
      (brVolumes broker ++
         [functionsWorkerPackageStorageVolume (functionsWorkerPackageStoragePVCName (pcName c))],
       brVolumeMounts broker ++ [functionsWorkerPackageStorageVolumeMount])
    else (brVolumes broker, brVolumeMounts broker) in
  with_brConfig cfg
    (mkBrokerSpec (brCore broker) (brImage broker) (brEnv broker) volumes mounts (Some fwConfig)
       (brResources broker) (brAntiaffinity broker) (brPdb broker)).

Definition wireFunctionsWorkerColocated (c : PulsarCluster) (broker : BrokerSpec) :
    prog ans (res BrokerSpec) :=
  match pcFunctionsWorker (pcSpec c), buildFunctionsWorkerSpec (pcSpec c) with
  | Some fw, Some built =>
      if negb (String.eqb (functionsWorkerMode fw) functionsWorkerModeColocated) then Ret (Ok broker)
      else
        let broker := wiredBroker c fw built broker in
        if negb (isFileSystemPackageStorage (fwPackageStorage fw)) then Ret (Ok broker)
        else
          (try! ["functions worker package storage"] _ := reconcileFunctionsWorkerPackageStoragePVC c fw in
           if brokerMaxReplicas broker >? 1 then
             let! _ := perform ans (Eventf c EventTypeWarning "FunctionsPackageStorageSingleWriter"
                         "PackageStorage"
                         (singleWriterNote (functionsWorkerPackageStoragePVCName (pcName c)))) in
             Ret (Ok broker)
           else Ret (Ok broker))%prog
  | _, _ => Ret (Ok broker)
  end.

(** * The tiers *)

Section Reconciler.
Context `{AM : !ApiMeta} (Marshal : ∀ t, specOf t → res string) (sha256hex : string → string).

Abbreviation M A := (prog ans A).
Abbreviation TierResult := (res (componentReport * tierOutcome)).

Definition childKey (c : PulsarCluster) (t : tierName) : NamespacedName :=
  mkNN (pcNamespace c) (childName (pcName c) (tierString t)).

Definition pruneChild (c : PulsarCluster) (t : tierName) : M TierResult :=
  (let! r := perform ans (DeleteChild t (childKey c t)) in
   match deleteFailed r with
   | Some e => Ret (Err (Errorf (tierString t ++! ": pruning") e))
   | None => Ret (Ok (mkReport (tierString t) false false "" "", mkOutcome true false false))
   end)%prog.

(** The end every reconcileX shares: applyOrderedChild, the report from the
    child's conditions, the settled flag. *)
Definition applyTier (c : PulsarCluster) (t : tierName) (oc : OrderedChild (specOf t) (specOf t))
    (upstreamSettled : bool) : M TierResult :=
  (let! r := onChild t
               (applyOrderedChild (zeroSpec t) (Marshal t) sha256hex (pcUID c) (childKey c t) oc
                  upstreamSettled) in
   match r with
   | Err e => Ret (Err (Errorf (tierString t) e))
   | Ok (child, outcome) =>
       let report := reportFromConditions (tierString t) (chGeneration child) (chConditions child) in
       Ret (Ok (report, mkOutcome (tierSettled (ready report) (deferred outcome))
                          (applied outcome) (deferred outcome)))
   end)%prog.

(** A child whose closures are [child.Spec] and [*desired]. *)
Definition plainOrdered {Spec} (desired : Spec) : OrderedChild Spec Spec :=
  mkOrdered desired (λ s, s) (λ _, desired).

(** ** The desired specs; [None]: the sub-spec was removed. *)

Definition desiredBookKeeper (c : PulsarCluster) : option BookKeeperSpec :=
  out ← buildBookKeeperSpec (pcSpec c);
  Some (mkBookKeeperSpec (bkCore out) (bkImage out)
          (withBookKeeperMetadataDefault (bkConfig out) (pcName c)) (bkVolumes out)
          (bkPodManagementPolicy out) (bkAutoRackConfig out)).

Definition desiredAutoRecovery (c : PulsarCluster) : option AutoRecoverySpec :=
  out ← buildAutoRecoverySpec (pcSpec c);
  Some (mkAutoRecoverySpec (arMode out) (arReplicas out) (arImage out)
          (withAutoRecoveryMetadataDefault (arConfig out) (pcName c))).

(** Before the functions-worker wiring. *)
Definition desiredBroker (c : PulsarCluster) : option BrokerSpec :=
  match buildBrokerSpec (pcSpec c) with
  | None => None
  | Some out =>
      let cfg := withBrokerProxyMetadataDefaults (bsConfig out) (pcName c) in
      let cfg := withBrokerBookkeeperMetadataDefault cfg (pcName c) in
      let cfg := withClusterNameDefault cfg (pcName c) in
      Some (with_brConfig (withBrokerOffloadDefaults cfg (pcOffload (pcSpec c))) out)
  end.

Definition desiredProxy (c : PulsarCluster) : option ProxySpec :=
  out ← buildProxySpec (pcSpec c);
  let cfg := withBrokerProxyMetadataDefaults (pxConfig out) (pcName c) in
  Some (mkProxySpec (pxReplicas out) (pxImage out) (withClusterNameDefault cfg (pcName c)) (pxTls out)
          (pxResources out)).

Definition desiredFunctionsWorker (c : PulsarCluster) : option FunctionsWorkerSpec :=
  out ← buildFunctionsWorkerSpec (pcSpec c);
  let cfg := withFunctionsWorkerMetadataDefault (fwConfig out) (pcName c) in
  Some (mkFunctionsWorkerSpec (fwMode out) (fwReplicas out) (fwImage out)
          (withFunctionsWorkerClusterDefault cfg (pcName c)) (fwPackageStorage out)
          (fwPackageStorageVolume out)).

(** ** The tiers *)

Definition reconcileOxia (c : PulsarCluster) : M TierResult :=
  if negb (oxiaSelected (pcSpec c)) then pruneChild c tierOxia
  else applyTier c tierOxia (plainOrdered (buildOxiaSpec (pcSpec c))) true.

Definition reconcileBookKeeper (c : PulsarCluster) (upstreamSettled : bool) : M TierResult :=
  match desiredBookKeeper c with
  | None => pruneChild c tierBookKeeper
  | Some desired =>
      applyTier c tierBookKeeper
        (scaledOrdered (bookKeeperAutoscalerEnabled desired) desired) upstreamSettled
  end.

Definition reconcileAutoRecovery (c : PulsarCluster) (upstreamSettled : bool) : M TierResult :=
  match desiredAutoRecovery c with
  | None => pruneChild c tierAutoRecovery
  | Some desired => applyTier c tierAutoRecovery (plainOrdered desired) upstreamSettled
  end.

Definition reconcileBroker (c : PulsarCluster) (upstreamSettled : bool) : M TierResult :=
  match desiredBroker c with
  | None => pruneChild c tierBroker
  | Some out =>
      (let! wired := wireFunctionsWorkerColocated c out in
       match wired with
       | Err e => Ret (Err (Errorf "broker" e))
       | Ok desired =>
           applyTier c tierBroker (scaledOrdered (brokerAutoscalerEnabled desired) desired)
             upstreamSettled
       end)%prog
  end.

Definition reconcileProxy (c : PulsarCluster) (upstreamSettled : bool) : M TierResult :=
  match desiredProxy c with
  | None => pruneChild c tierProxy
  | Some desired => applyTier c tierProxy (plainOrdered desired) upstreamSettled
  end.

Definition reconcileFunctionsWorker (c : PulsarCluster) (upstreamSettled : bool) : M TierResult :=
  match desiredFunctionsWorker c with
  | None => pruneChild c tierFunctionsWorker
  | Some desired => applyTier c tierFunctionsWorker (plainOrdered desired) upstreamSettled
  end.

(** * Reconcile *)

Fixpoint emitEvents (c : PulsarCluster) (evs : list (string * string * string)) : M unit :=
  match evs with
  | [] => Ret tt
  | (reason, action, note) :: evs' =>
      (let! _ := perform ans (Eventf c EventTypeNormal reason action note) in emitEvents c evs')%prog
  end.

(** What follows the tiers: status, conditions, events, requeue. *)
Definition finish (c : PulsarCluster) (reports : list componentReport) (states : list tierState)
    (requeueMetadataInit : bool) : M (res Result) :=
  let conds := setCond (pcConditions (pcStatus c)) (aggregateReadyCondition (pcGeneration c) reports) in
  let c := set_pcStatus (mkClusterStatus (pcGeneration c) (pcPhase (pcStatus c)) conds) c in
  let upgrading := rollingOutCondition (pcGeneration c) states in
  let priorUpgrading := FindStatusCondition (pcConditions (pcStatus c)) conditionTypeUpgrading in
  (let! _ := emitEvents c (recordRolloutEvents priorUpgrading upgrading states) in
   let c := set_pcConditions (setCond (pcConditions (pcStatus c)) upgrading) c in
   try! ["updating PulsarCluster status"] _ := perform ans (UpdateClusterStatus c) in
   if requeueMetadataInit then Ret (Ok (mkResult metadataInitRetryInterval))
   else
     match rollingBottleneck states with
     | Some _ => Ret (Ok (mkResult rolloutRequeueInterval))
     | None => Ret (Ok emptyResult)
     end)%prog.

Definition Reconcile (req : NamespacedName) : M (res Result) :=
  (let! got := perform ans (GetCluster req) in
   match got with
   | Err e => Ret (ignore_not_found e)
   | Ok c =>
       try! oxia := reconcileOxia c in
       let c := setPhase tierOxia (componentPhase oxia.1) c in
       let! minit := onMetadata (reconcileMetadataInit c (ready oxia.1)) in
       let c := minit.1 in
       try! meta := Ret minit.2 in
       try! bk := reconcileBookKeeper c (settled oxia.2) in
       let c := setPhase tierBookKeeper (componentPhase bk.1) c in
       try! ar := reconcileAutoRecovery c (settled oxia.2) in
       let c := setPhase tierAutoRecovery (componentPhase ar.1) c in
       try! br := reconcileBroker c (settled oxia.2 && settled bk.2) in
       let c := setPhase tierBroker (componentPhase br.1) c in
       try! px := reconcileProxy c (settled oxia.2 && settled bk.2 && settled br.2) in
       let c := setPhase tierProxy (componentPhase px.1) c in
       try! fw := reconcileFunctionsWorker c
                    (settled oxia.2 && settled bk.2 && settled br.2 && settled px.2) in
       let c := setPhase tierFunctionsWorker (componentPhase fw.1) c in
       finish c [oxia.1; meta.1; bk.1; ar.1; br.1; px.1; fw.1]
         [mkTierState tierOxia (present oxia.1) oxia.2;
          mkTierState tierBookKeeper (present bk.1) bk.2;
          mkTierState tierAutoRecovery (present ar.1) ar.2;
          mkTierState tierBroker (present br.1) br.2;
          mkTierState tierProxy (present px.1) px.2;
          mkTierState tierFunctionsWorker (present fw.1) fw.2]
         meta.2
   end)%prog.

End Reconciler.
End Umbrella.
