(* ===== verification/UmbrellaProps.v ===== *)
(** Properties of the umbrella: changes are rolled out tier by tier over the
    whole of Reconcile, and what a pass observes and writes. *)

From S2P Require Import Prelude Effects Kube BrokerScale BookKeeper BackupTypes Config Rollout RolloutProps Workload ClusterTypes MetadataInit Umbrella.
Import Rollout Workload Cluster MetadataInit Umbrella.
Open Scope Z_scope.
Open Scope go_scope.

(** * The order of the tiers *)

(** What must have settled before a tier's change is rolled out. *)
Definition upstream (t : tierName) : list tierName :=
  match t with
  | tierOxia => []
  | tierBookKeeper | tierAutoRecovery => [tierOxia]
  | tierBroker => [tierOxia; tierBookKeeper]
  | tierProxy => [tierOxia; tierBookKeeper; tierBroker]
  | tierFunctionsWorker => [tierOxia; tierBookKeeper; tierBroker; tierProxy]
  end.

(** The broker's spec with a colocated functions worker wired in. *)
Definition brokerAsWritten (c : PulsarCluster) (out : BrokerSpec) : BrokerSpec :=
  match pcFunctionsWorker (pcSpec c), buildFunctionsWorkerSpec (pcSpec c) with
  | Some fw, Some built =>
      if String.eqb (functionsWorkerMode fw) functionsWorkerModeColocated then wiredBroker c fw built out
      else out
  | _, _ => out
  end.

(** What a tier's child should be; [None] when it should not exist. *)
Definition desiredChild (c : PulsarCluster) (t : tierName) :
    option (OrderedChild (specOf t) (specOf t)) :=
  match t with
  | tierOxia =>
      if oxiaSelected (pcSpec c) then Some (plainOrdered (buildOxiaSpec (pcSpec c))) else None
  | tierBookKeeper =>
      (λ d, scaledOrdered (bookKeeperAutoscalerEnabled d) d) <$> desiredBookKeeper c
  | tierAutoRecovery => plainOrdered <$> desiredAutoRecovery c
  | tierBroker =>
      (λ out, let d := brokerAsWritten c out in scaledOrdered (brokerAutoscalerEnabled d) d)
        <$> desiredBroker c
  | tierProxy => plainOrdered <$> desiredProxy c
  | tierFunctionsWorker => plainOrdered <$> desiredFunctionsWorker c
  end.

(** Generation and conditions of a child the API server answered with. *)
Definition observation (e : event ans) : option (tierName * (Z * list Condition)) :=
  match e with
  | Ev c x =>
      match c return ans c → option (tierName * (Z * list Condition)) with
      | OnChild t q => λ x, (λ ch, (t, (chGeneration ch, chConditions ch))) <$> answered (Ev q x)
      | _ => λ _, None
      end x
  end.

Definition observationOf (t : tierName) (e : event ans) : option (Z * list Condition) :=
  o ← observation e; if decide (o.1 = t) then Some o.2 else None.

Definition lastObserved (t : tierName) (h : list (event ans)) : option (Z * list Condition) :=
  last (omap (observationOf t) h).

(** A pass's events on a tier's child. *)
Definition childEvent (t : tierName) (e : event ans) : option (event (@Rollout.ans (specOf t))) :=
  match e with
  | Ev c x =>
      match c return ans c → option (event (@Rollout.ans (specOf t))) with
      | OnChild u q => λ x,
          match decide (u = t) with
          | left E => Some (eq_rect u (λ v, event (@Rollout.ans (specOf v))) (Ev q x) t E)
          | right _ => None
          end
      | _ => λ _, None
      end x
  end.

Definition eventsOf (t : tierName) (h : list (event ans)) : list (event (@Rollout.ans (specOf t))) :=
  omap (childEvent t) h.

(** Later phases only change the status. *)
Lemma setPhase_status t ph st c : ∃ st', setPhase t ph (set_pcStatus st c) = set_pcStatus st' c.
Proof. by eexists. Qed.

Ltac next_phase :=
  match goal with |- context [setPhase ?t ?ph (set_pcStatus ?st ?c)] =>
    let st' := fresh "st" in let E := fresh in
    destruct (setPhase_status t ph st c) as [st' E]; rewrite E; clear E
  end.

Section Order.
Context `{AM : !ApiMeta} (Marshal : ∀ t, specOf t → res string) (sha256hex : string → string).

Abbreviation hashOf t s := (specHash (Marshal t) sha256hex s).

(** The desired spec of the tier is on its child. *)
Definition stampedAt (t : tierName) (oc : OrderedChild (specOf t) (specOf t)) (h : list (event ans)) :
    Prop :=
  ∃ child, hashOf t (desiredSpec oc) = Ok (annotation child specHashAnnotation) ∧
    ((∃ k, Ev (OnChild t (GetChild k)) (Ok child) ∈ h) ∨
     (∃ x, Ev (OnChild t (CreateChild child)) (Ok x) ∈ h) ∨
     (∃ x, Ev (OnChild t (UpdateChild child)) (Ok x) ∈ h)).

(** A tier has settled in a pass: its child was removed, or carries its
    desired spec and, as last seen in this pass, reports a Ready condition that
    is True and not older than the child. *)
Definition settledIn (c : PulsarCluster) (t : tierName) (h : list (event ans)) : Prop :=
  match desiredChild c t with
  | None => ∃ x, Ev (DeleteChild t (childKey c t)) x ∈ h ∧ deleteFailed x = None
  | Some oc =>
      stampedAt t oc h ∧
      ∃ gen conds ready, lastObserved t h = Some (gen, conds) ∧
        FindStatusCondition conds conditionTypeReady = Some ready ∧ cStatus ready = ConditionTrue ∧
        (cObservedGeneration ready = 0 ∨ gen <= cObservedGeneration ready)
  end.

(** What licenses a write to a tier's child. *)
Definition licensed (c : PulsarCluster) (t : tierName) (h : list (event ans)) : Prop :=
  (∃ e, Ev (OnChild t (GetChild (childKey c t))) (Err e) ∈ h ∧ IsNotFound e = true) ∨
  (∃ oc child, desiredChild c t = Some oc ∧ Ev (OnChild t (GetChild (childKey c t))) (Ok child) ∈ h ∧
     (hashOf t (desiredSpec oc) = Ok (annotation child specHashAnnotation) ∨
      ∀ u, u ∈ upstream t → settledIn c u h)).

(** A write carries what the cluster asks for: [setSpec] of the desired child
    and the live spec this pass read, under the stamp of the desired spec; or,
    to record the drift baseline, what the API server just stored for that. *)
Definition asked (c : PulsarCluster) (t : tierName) (h : list (event ans))
    (q : Rollout.call (specOf t)) : Prop :=
  ∃ oc, desiredChild c t = Some oc ∧
    carries (Marshal t) sha256hex (childKey c t) oc (eventsOf t h) q.

Definition inOrder (req : NamespacedName) (h : list (event ans)) (q : call) : Prop :=
  match q with
  | OnChild t q =>
      writesChild q → ∃ c, Ev (GetCluster req) (Ok c) ∈ h ∧ licensed c t h ∧ asked c t h q
  | _ => True
  end.

(** ** Histories *)

(** The calls a tier's reconcile makes on children are on its own. *)
Definition ofTier (t : tierName) (q : call) : Prop :=
  match q with OnChild t' _ => t' = t | _ => True end.
Definition childless (q : call) : Prop :=
  match q with OnChild _ _ => False | _ => True end.

Lemma omap_cons_eq {A B} (f : A → option B) x l :
  omap f (x :: l) = match f x with Some y => y :: omap f l | None => omap f l end.
Proof. done. Qed.

Lemma childless_ofTier t q : childless q → ofTier t q.
Proof. by destruct q. Qed.

Lemma lastObserved_other t u h l :
  t ≠ u → Forall (λ e, ofTier t (ev_call e)) l → lastObserved u (h ++ l) = lastObserved u h.
Proof.
  intros Hne Hl. unfold lastObserved. rewrite omap_app.
  assert (omap (observationOf u) l = []) as ->; [|by rewrite app_nil_r].
  induction Hl as [|[q x] l Hq Hl IH]; [done|].
  assert (observationOf u (Ev q x) = None) as E; [|by rewrite omap_cons_eq, E].
  destruct q as [| |t' q| | | | | |]; try done. simpl in Hq. subst t'.
  unfold observationOf, observation. destruct (answered (Ev q x)); [|done]. simpl.
  by rewrite decide_False.
Qed.

Lemma stampedAt_app t oc h l : stampedAt t oc h → stampedAt t oc (h ++ l).
Proof. unfold stampedAt. setoid_rewrite elem_of_app. naive_solver. Qed.

Lemma settledIn_other c t u h l :
  t ≠ u → Forall (λ e, ofTier t (ev_call e)) l → settledIn c u h → settledIn c u (h ++ l).
Proof.
  intros Hne Hl. unfold settledIn. destruct (desiredChild c u) as [oc|].
  - intros [Hs Hr]. rewrite (lastObserved_other t) by done. auto using stampedAt_app.
  - setoid_rewrite elem_of_app. naive_solver.
Qed.

Abbreviation embeddedAt t := (embedded (ans1 := @Rollout.ans (specOf t)) (ans2 := ans) (OnChild t) (λ _ x, x)).

Lemma observations_embedded t (h1 : list (event (@Rollout.ans (specOf t)))) :
  omap (observationOf t) (embeddedAt t <$> h1) =
    (λ ch, (chGeneration ch, chConditions ch)) <$> omap answered h1.
Proof.
  induction h1 as [|[q x] h1 IH]; [done|].
  assert (observationOf t (embeddedAt t (Ev q x)) =
    (λ ch, (chGeneration ch, chConditions ch)) <$> answered (Ev q x)) as E.
  { unfold observationOf, observation. simpl. destruct q, x; simpl; try done; by rewrite decide_True. }
  rewrite fmap_cons, !omap_cons_eq, E, IH. by destruct (answered (Ev q x)).
Qed.

Lemma lastObserved_embedded t h h1 ch :
  lastAnswer h1 = Some ch →
  lastObserved t (h ++ (embeddedAt t <$> h1)) = Some (chGeneration ch, chConditions ch).
Proof.
  unfold lastAnswer, lastObserved. rewrite omap_app, observations_embedded.
  intros E. rewrite last_app, fmap_last, E. done.
Qed.

Lemma elem_embedded t e h h1 : e ∈ h1 → embeddedAt t e ∈ h ++ (embeddedAt t <$> h1).
Proof. intros He. apply elem_of_app. right. by apply list_elem_of_fmap_2. Qed.

Lemma eventsOf_embedded t h h1 : eventsOf t (h ++ (embeddedAt t <$> h1)) = eventsOf t h ++ h1.
Proof.
  unfold eventsOf. rewrite omap_app. f_equal. induction h1 as [|[q x] h1 IH]; [done|].
  rewrite fmap_cons, omap_cons_eq, IH. simpl. destruct (decide (t = t)) as [E|]; [|done].
  by rewrite (proof_irrel E eq_refl).
Qed.

Lemma stampedAt_embedded t oc h h1 :
  stampedIn (Marshal t) sha256hex oc h1 → stampedAt t oc (h ++ (embeddedAt t <$> h1)).
Proof.
  intros (child & Hd & Hin). exists child. split; [done|].
  destruct Hin as [[x Hin]|[[x Hin]|[x Hin]]]; [left|right; left|right; right]; exists x;
    exact (elem_embedded t _ h h1 Hin).
Qed.

(** ** One tier *)

Lemma upstream_ne t u : u ∈ upstream t → t ≠ u.
Proof. destruct t; simpl; set_solver. Qed.

Lemma embedded_ofTier t (h1 : list (event (@Rollout.ans (specOf t)))) :
  Forall (λ e, ofTier t (ev_call e)) (embeddedAt t <$> h1).
Proof. apply Forall_fmap, Forall_true. by intros []. Qed.

(** What a tier's reconcile leaves behind. *)
Definition tierPost (c : PulsarCluster) (t : tierName) (h : list (event ans))
    (r : res (componentReport * tierOutcome)) (h' : list (event ans)) : Prop :=
  (∃ l, h' = h ++ l ∧ Forall (λ e, ofTier t (ev_call e)) l) ∧
  match r with Ok (_, o) => settled o = true → settledIn c t h' | Err _ => True end.

Lemma applyTier_order req c st t oc up h :
  desiredChild c t = Some oc → Ev (GetCluster req) (Ok c) ∈ h →
  (up = true → ∀ u, u ∈ upstream t → settledIn c u h) →
  wp (inOrder req) (λ _ _, True) (applyTier Marshal sha256hex (set_pcStatus st c) t oc up)
    (tierPost c t h) h.
Proof.
  intros Hoc Hc Hup. unfold applyTier. apply wp_bind.
  pose proof (wp_and _ _ _ _ _ _ _ (wp_and _ _ _ _ _ _ _
    (applyOrderedChild_ok (zeroSpec t) (Marshal t) sha256hex (pcUID c) (childKey c t) oc up)
    (apply_carries (zeroSpec t) (Marshal t) sha256hex (pcUID c) (childKey c t) oc up))
    (apply_outcome (zeroSpec t) (Marshal t) sha256hex (pcUID c) (childKey c t) oc up)) as Hw.
  apply (wp_embed_nil (ans1 := @Rollout.ans (specOf t)) (ans2 := ans) (OnChild t) (λ _ x, x) (λ _ x, x)
    (λ _ _, eq_refl)).
  eapply wp_weaken, wp_mono, Hw.
  - intros h1 q [[Hgate Hcar] _] Hwr. exists c. split; [set_solver|]. split; cycle 1.
    { exists oc. split; [done|]. rewrite eventsOf_embedded. apply carries_prefix. auto. }
    destruct (Hgate Hwr) as [(e & Hin & He)|(child & Hin & Hch)].
    + left. exists e. split; [exact (elem_embedded t _ h h1 Hin)|done].
    + right. exists oc, child. split; [done|]. split; [exact (elem_embedded t _ h h1 Hin)|].
      destruct Hch as [->|Hd]; [right|by left]. intros u Hu.
      eapply settledIn_other; [by apply upstream_ne|apply embedded_ofTier|by apply Hup].
  - intros r h1 _ [_ Hr]. destruct r as [[child o]|e]; cbn [wp].
    + destruct Hr as [Hlast Hstamp]. split; [eexists; split; [done|apply embedded_ofTier]|].
      simpl. unfold tierSettled. intros [Hready Hdef%negb_true_iff]%andb_true_iff.
      unfold settledIn. rewrite Hoc. split; [by apply stampedAt_embedded, Hstamp|].
      apply report_ready_fresh in Hready as (cond & Hf & Ht & Hg).
      exists (chGeneration child), (chConditions child), cond.
      by rewrite (lastObserved_embedded _ _ _ _ Hlast).
    + split; [eexists; split; [done|apply embedded_ofTier]|done].
Qed.

Lemma pruneChild_order req c st t h :
  desiredChild c t = None →
  wp (inOrder req) (λ _ _, True) (pruneChild (set_pcStatus st c) t) (tierPost c t h) h.
Proof.
  intros Hd. unfold pruneChild. apply wp_bind. cbn [wp perform]. split; [done|]. intros x _.
  assert (∃ l, h ++ [Ev (DeleteChild t (childKey c t)) x] = h ++ l ∧ Forall (λ e, ofTier t (ev_call e)) l)
    as Hl by (eexists; split; [done|]; by constructor).
  destruct (deleteFailed x) as [e|] eqn:E; cbn [wp]; (split; [done|]); [done|]. intros _.
  unfold settledIn. rewrite Hd. exists x. split; [set_solver|done].
Qed.

Lemma pvc_childless c fw : only childless (reconcileFunctionsWorkerPackageStoragePVC c fw).
Proof.
  apply only_bind; [by apply only_perform|]. intros [?|e]; [done|].
  destruct (negb (IsNotFound e)); [done|].
  apply only_bind_wrap; [by apply only_perform|intros _].
  by apply only_bind_wrap; [apply only_perform|].
Qed.

(** The wiring touches no child and yields the wired spec. *)
Lemma wire_childless c out : only childless (wireFunctionsWorkerColocated c out).
Proof.
  unfold wireFunctionsWorkerColocated. break_goal; try done;
    (apply only_bind_wrap; [apply pvc_childless|]); [|done].
  intros _. by apply only_bind; [apply only_perform|].
Qed.

Lemma wire_result (G : list (event ans) → call → Prop) c st out h :
  (∀ h q, childless q → G h q) →
  wp G (λ _ _, True) (wireFunctionsWorkerColocated (set_pcStatus st c) out)
    (λ r h', match r with Ok d => d = brokerAsWritten c out | Err _ => True end) h.
Proof.
  intros HG. unfold wireFunctionsWorkerColocated, brokerAsWritten. cbn [pcSpec set_pcStatus].
  destruct (pcFunctionsWorker _) as [fw|]; [|done].
  destruct (buildFunctionsWorkerSpec _) as [built|]; [|done].
  destruct (String.eqb _ _); [|done]. cbn [negb].
  destruct (isFileSystemPackageStorage _); [|done]. cbn [negb].
  apply wp_bind_wrap. eapply wp_mono; [|eapply wp_only, pvc_childless; apply HG].
  intros [[]|e] h' _ _; [|done]. destruct (_ >? 1); [|done].
  apply wp_bind. cbn [wp perform]. split; [by apply HG|done].
Qed.

(** The broker tier, whose desired spec is computed by an effectful step. *)
Lemma reconcileBroker_order req c st up h :
  Ev (GetCluster req) (Ok c) ∈ h →
  (up = true → ∀ u, u ∈ upstream tierBroker → settledIn c u h) →
  wp (inOrder req) (λ _ _, True) (reconcileBroker Marshal sha256hex (set_pcStatus st c) up)
    (tierPost c tierBroker h) h.
Proof.
  intros Hc Hup. unfold reconcileBroker. change (desiredBroker (set_pcStatus st c)) with (desiredBroker c).
  destruct (desiredBroker c) as [out|] eqn:E;
    [|apply pruneChild_order; unfold desiredChild; by rewrite E].
  apply wp_bind. eapply wp_mono; [|apply (wp_extends _ _ childless); [apply wire_childless|]];
    [|apply wire_result; by intros h' []].
  intros [d|e] h' _ (Hd & l & -> & Hl); cycle 1.
  { split; [|done]. exists l. split; [done|]. eapply Forall_impl; [exact Hl|].
    intros [q x]; apply childless_ofTier. }
  assert (∀ t, Forall (λ e, ofTier t (ev_call e)) l) as Hl'.
  { intros t. eapply Forall_impl; [exact Hl|]. intros [q x]; apply childless_ofTier. }
  subst d. eapply wp_mono; [|apply (applyTier_order req c st tierBroker)].
  - intros r h' _ [(l' & -> & Hl2) Hr]. split; [|done]. exists (l ++ l').
    rewrite (assoc_L (++)). split; [done|]. by apply Forall_app.
  - unfold desiredChild. by rewrite E.
  - set_solver.
  - intros Hu u Hin. eapply (settledIn_other c tierBroker); [by apply upstream_ne|apply Hl'|by apply Hup].
Qed.

Definition reconcileOf (t : tierName) (c : PulsarCluster) (up : bool) :
    prog ans (res (componentReport * tierOutcome)) :=
  match t with
  | tierOxia => reconcileOxia Marshal sha256hex c
  | tierBookKeeper => reconcileBookKeeper Marshal sha256hex c up
  | tierAutoRecovery => reconcileAutoRecovery Marshal sha256hex c up
  | tierBroker => reconcileBroker Marshal sha256hex c up
  | tierProxy => reconcileProxy Marshal sha256hex c up
  | tierFunctionsWorker => reconcileFunctionsWorker Marshal sha256hex c up
  end.

Lemma reconcileOf_plain c st t up :
  t ≠ tierBroker → (t = tierOxia → up = true) →
  reconcileOf t (set_pcStatus st c) up =
    match desiredChild c t with
    | None => pruneChild (set_pcStatus st c) t
    | Some oc => applyTier Marshal sha256hex (set_pcStatus st c) t oc up
    end.
Proof.
  intros Hb Hox. destruct t; simpl; try done.
  - rewrite Hox by done. unfold reconcileOxia. cbn [pcSpec set_pcStatus]. by destruct (oxiaSelected _).
  - unfold reconcileBookKeeper. change (desiredBookKeeper (set_pcStatus st c)) with (desiredBookKeeper c).
    by destruct (desiredBookKeeper c).
  - unfold reconcileAutoRecovery.
    change (desiredAutoRecovery (set_pcStatus st c)) with (desiredAutoRecovery c).
    by destruct (desiredAutoRecovery c).
  - unfold reconcileProxy. change (desiredProxy (set_pcStatus st c)) with (desiredProxy c).
    by destruct (desiredProxy c).
  - unfold reconcileFunctionsWorker.
    change (desiredFunctionsWorker (set_pcStatus st c)) with (desiredFunctionsWorker c).
    by destruct (desiredFunctionsWorker c).
Qed.

Lemma reconcileOf_order req c st t up h :
  Ev (GetCluster req) (Ok c) ∈ h → (t = tierOxia → up = true) →
  (up = true → ∀ u, u ∈ upstream t → settledIn c u h) →
  wp (inOrder req) (λ _ _, True) (reconcileOf t (set_pcStatus st c) up) (tierPost c t h) h.
Proof.
  intros Hc Hox Hup. destruct (decide (t = tierBroker)) as [->|Hb]; [by apply reconcileBroker_order|].
  rewrite reconcileOf_plain by done. destruct (desiredChild c t) eqn:E;
    [by apply applyTier_order|by apply pruneChild_order].
Qed.

(** ** The whole of Reconcile *)

(** What is known about the tiers reconciled so far. *)
Definition facts (req : NamespacedName) (c : PulsarCluster) (outs : list (tierName * tierOutcome))
    (h : list (event ans)) : Prop :=
  Ev (GetCluster req) (Ok c) ∈ h ∧
  ∀ u o, (u, o) ∈ outs → settled o = true → settledIn c u h.

Lemma facts_ext req c outs h l :
  facts req c outs h → Forall (λ e, childless (ev_call e)) l → facts req c outs (h ++ l).
Proof.
  intros [Hc Ho] Hl. split; [set_solver|]. intros u o Hin Hs.
  set (t := match u with tierOxia => tierProxy | _ => tierOxia end).
  apply (settledIn_other c t); [by destruct u| |eauto].
  eapply Forall_impl; [exact Hl|]. intros [q x]; apply childless_ofTier.
Qed.

Lemma tier_step {A} req c t outs (p : prog ans (res (componentReport * tierOutcome)))
    (K : componentReport * tierOutcome → prog ans (res A)) h :
  facts req c outs h → t ∉ outs.*1 →
  wp (inOrder req) (λ _ _, True) p (tierPost c t h) h →
  (∀ rep o h', facts req c ((t, o) :: outs) h' →
     wp (inOrder req) (λ _ _, True) (K (rep, o)) (λ _ _, True) h') →
  wp (inOrder req) (λ _ _, True) (bind_ok p K) (λ _ _, True) h.
Proof.
  intros [Hc Ho] Hnew Hp HK. apply wp_bind_ok. eapply wp_mono, Hp.
  intros [[rep o]|e] h' _ [(l & -> & Hl) Hs]; [|done]. apply HK. split; [set_solver|].
  intros u o' [[= -> ->]|Hin]%elem_of_cons Hso; [by apply Hs|].
  apply (settledIn_other c t); [|done|eauto].
  intros <-. destruct Hnew. apply list_elem_of_fmap. by exists (t, o').
Qed.

(** All upstream flags of a tier were set. *)
Lemma facts_upstream req c outs h t (up : bool) :
  facts req c outs h →
  (up = true → ∀ u, u ∈ upstream t → ∃ o, (u, o) ∈ outs ∧ settled o = true) →
  up = true → ∀ u, u ∈ upstream t → settledIn c u h.
Proof. intros [_ Ho] Hup Hu u Hin. destruct (Hup Hu u Hin) as (o & ? & ?). eauto. Qed.

Lemma reconcileMetadataInit_cluster c ready h :
  wp (λ _ _, True) (λ _ _, True) (reconcileMetadataInit c ready)
    (λ r _, ∃ st, r.1 = set_pcStatus st c) h.
Proof.
  assert (∃ st, c = set_pcStatus st c) as Hself by (exists (pcStatus c); by destruct c).
  unfold reconcileMetadataInit. destruct (negb _).
  { apply wp_bind. eapply wp_mono, (wp_only _ _ (λ _, True)); [by intros|done|].
    unfold pruneMetadataInit. simpl. split; [done|]. intros x.
    destruct (deleteFailed x); simpl; [done|]. split; [done|]. intros y. by destruct (deleteFailed y). }
  apply wp_bind. cbn [wp perform]. split; [done|]. intros [[]|e] _; [|done].
  apply wp_bind. eapply wp_mono, (wp_inv _ _ (λ _, True)); [|done..].
  intros [[[job pull] rq]|e] h' _ _; [|done].
  apply wp_bind. eapply wp_mono, (wp_inv _ _ (λ _, True)); [|done..].
  intros [] h'' _ _. cbn [wp fst]. by eexists.
Qed.

Lemma emitEvents_childless c evs : only childless (emitEvents c evs).
Proof. induction evs as [|[[r a] n] evs IH]; [done|]. by split. Qed.

Lemma finish_order req c reports states rq h :
  wp (inOrder req) (λ _ _, True) (finish c reports states rq) (λ _ _, True) h.
Proof.
  apply (wp_only _ _ childless); [by intros h' []|].
  unfold finish. apply only_bind; [apply emitEvents_childless|]. intros _.
  apply only_bind_wrap; [by apply only_perform|]. intros _.
  destruct rq; [done|]. by destruct (rollingBottleneck _).
Qed.

Ltac flags := repeat match goal with H : _ && _ = true |- _ => apply andb_true_iff in H as [? ?] end.

(** Discharges the premise on the upstream flags. *)
Ltac flags_up :=
  eapply facts_upstream; [eassumption|]; intros ?; flags; cbn [upstream]; apply Forall_forall;
  repeat (apply Forall_cons; split;
    [eexists; split; [repeat (apply elem_of_cons; (left; reflexivity) || right)|eassumption]|]);
  apply Forall_nil; exact I.

Ltac tier_step t Hf :=
  eapply (tier_step _ _ t); [exact Hf|set_solver|eapply (reconcileOf_order _ _ _ t);
    [apply Hf|done|flags_up]|];
  let Hf' := fresh "Hf" in let rep := fresh "rep" in let o := fresh "o" in let h := fresh "h" in
  intros rep o h Hf'; cbn [fst snd].

Lemma Reconcile_order req :
  wp (inOrder req) (λ _ _, True) (Reconcile Marshal sha256hex req) (λ _ _, True) [].
Proof.
  unfold Reconcile. apply wp_bind. cbn [wp perform]. split; [done|]. intros [c|e] _; [|done].
  assert (c = set_pcStatus (pcStatus c) c) as Hself by by destruct c.
  assert (facts req c [] ([] ++ [Ev (GetCluster req) (Ok c)])) as Hf0.
  { split; [set_solver|]. intros u o Hin. by apply elem_of_nil in Hin. }
  rewrite Hself at 1. eapply (tier_step req c tierOxia []); [exact Hf0|apply not_elem_of_nil| |].
  { apply (reconcileOf_order req c (pcStatus c) tierOxia true); [apply Hf0|done|].
    intros _ u Hu. by apply elem_of_nil in Hu. }
  intros oxRep oxOut h1 Hf1. cbn [fst snd].
  apply wp_bind, (wp_embed_nil (ans1 := MetadataInit.ans) (ans2 := ans) OnMetadata (λ _ x, x) (λ _ x, x)
    (λ _ _, eq_refl)).
  eapply wp_weaken; [intros h' q _; exact I|]. set (cx := setPhase tierOxia _ c).
  eapply wp_mono, (reconcileMetadataInit_cluster cx).
  intros [c2 minit] hm _ (st2 & Hc2). cbn [fst snd] in *.
  assert (facts req c [(tierOxia, oxOut)]
    (h1 ++ (embedded (ans1 := MetadataInit.ans) (ans2 := ans) OnMetadata (λ _ x, x) <$> hm))) as Hf2.
  { apply facts_ext; [done|]. apply Forall_fmap, Forall_true. by intros []. }
  destruct minit as [[metaRep rq]|e]; [|done]. cbn [fst snd]. unfold bind_ok at 1. cbn [bind].
  subst c2. change (set_pcStatus st2 cx) with (set_pcStatus st2 c). clear cx.
  tier_step tierBookKeeper Hf2. next_phase.
  tier_step tierAutoRecovery Hf. next_phase.
  tier_step tierBroker Hf3. next_phase.
  tier_step tierProxy Hf4. next_phase.
  tier_step tierFunctionsWorker Hf5. next_phase.
  apply finish_order.
Qed.

(** C5: Changes are rolled out tier by tier.  In every run of the umbrella's
    Reconcile, interrupted or not, whatever the API server answers: when a
    child is created or updated, either it did not exist, or its desired spec
    had not changed since it was stamped (drift correction), or every upstream
    tier had settled in this very pass - its child removed, or carrying its
    desired spec and reporting a Ready condition that is True and current.
    What is written is the spec the cluster asks for (an autoscaled tier's
    replicas taken over from the live child) under its stamp, or, to stamp the
    drift baseline, the object the API server just stored for that write. *)
Theorem rollout_order req t1 tier q x t2 :
  part (Reconcile Marshal sha256hex req) (t1 ++ Ev (OnChild tier q) x :: t2) → writesChild q →
  ∃ c, Ev (GetCluster req) (Ok c) ∈ t1 ∧ licensed c tier t1 ∧ asked c tier t1 q.
Proof.
  intros Hp. exact (wp_part _ _ _ _ _ _ (Reconcile_order req) Hp (relies_top _ _)
    t1 (Ev (OnChild tier q) x) t2 eq_refl).
Qed.

End Order.
