(* ===== verification/UmbrellaLive.v ===== *)
(** The ordered rollout terminates: against an API server that stores what it
    is given (applying defaults), and component controllers that eventually
    bring their children up, five passes of the umbrella roll any change of a
    cluster out, and the passes after that write nothing. *)

From S2P Require Import Prelude Effects Kube BrokerScale BookKeeper BackupTypes Config Rollout RolloutProps Workload ClusterTypes MetadataInit Umbrella UmbrellaProps.
Import Rollout Workload Cluster MetadataInit Umbrella.
Open Scope Z_scope.
Open Scope go_scope.

Lemma exec_Vis {call : Type} {ans : call → Type} {S A} (serve : ∀ c : call, S → ans c * S) (c : call)
    (k : ans c → prog ans A) s :
  exec serve (Vis c k) s =
    let r := exec serve (k (serve c s).1) (serve c s).2 in
    (r.1.1, r.1.2, Ev c (serve c s).1 :: r.2).
Proof.
  cbn. destruct (serve c s) as [x s1]. cbn. destruct (exec serve (k x) s1) as [[a s2] t] eqn:E.
  cbn. reflexivity.
Qed.

(** * A world *)

Record world := mkWorld {
  wCluster : PulsarCluster;
  wChildren : ∀ t, option (Child (specOf t));
  wPVC : option PersistentVolumeClaim
}.

Definition setChild (t : tierName) (x : option (Child (specOf t))) (w : world) : world :=
  mkWorld (wCluster w)
    (λ u, match decide (t = u) with
          | left E => eq_rect t (λ v, option (Child (specOf v))) x u E
          | right _ => wChildren w u
          end) (wPVC w).

Lemma setChild_eq t x w : wChildren (setChild t x w) t = x.
Proof. simpl. destruct (decide (t = t)) as [E|]; [|done]. by rewrite (proof_irrel E eq_refl). Qed.

Lemma setChild_ne t u x w : t ≠ u → wChildren (setChild t x w) u = wChildren w u.
Proof. simpl. intros. by destruct (decide (t = u)). Qed.

(** The metadata store has been initialized: its Job is there and succeeded. *)
Definition initialized (q : MetadataInit.call) : MetadataInit.ans q :=
  match q with
  | GetJob nn => Ok (mkJob (nnName nn) "job-uid" [mkJobCondition JobComplete ConditionTrue] 0 1)
  | CreateJob _ _ => Ok tt
  | DeleteJob _ _ => Ok tt
  | MetadataInit.SetOwner _ => Ok tt
  | CreateOrUpdateConfigMap _ _ => Ok tt
  | DeleteConfigMap _ => Ok tt
  | ListPods _ _ => Ok []
  | Now => 0
  | MetadataInit.Eventf _ _ _ _ _ => tt
  end.

Section World.
Context `{AM : !ApiMeta} `{Heq : ∀ t, EqDecision (specOf t)}
  (Marshal : ∀ t, specOf t → res string) (sha256hex : string → string)
  (defaulting : ∀ t, specOf t → specOf t).

Definition serveWorld (q : call) (w : world) : ans q * world :=
  match q return ans q * world with
  | GetCluster _ => (Ok (wCluster w), w)
  | UpdateClusterStatus c => (Ok tt, mkWorld c (wChildren w) (wPVC w))
  | OnChild t q =>
      let r := RolloutProps.serve (defaulting t) q (wChildren w t) in (r.1, setChild t r.2 w)
  | DeleteChild t _ =>
      (match wChildren w t with Some _ => Ok tt | None => Err (ErrNotFound "child") end,
       setChild t None w)
  | OnMetadata q => (initialized q, w)
  | GetPVC _ => (match wPVC w with Some p => Ok p | None => Err (ErrNotFound "pvc") end, w)
  | SetPVCOwner _ => (Ok tt, w)
  | CreatePVC _ p => (Ok tt, mkWorld (wCluster w) (wChildren w) (Some p))
  | Eventf _ _ _ _ _ => (tt, w)
  end.

(** Every component controller has brought its child up: Ready, at the child's
    generation. *)
Definition bringUp {Spec} (ch : Child Spec) : Child Spec :=
  mkChild (chKey ch) (chOwner ch) (chGeneration ch) (chAnnotations ch) (chSpec ch)
    (setCond (chConditions ch)
       (newCondition conditionTypeReady ConditionTrue (chGeneration ch) "Ready" "")).

Definition settleAll (w : world) : world :=
  mkWorld (wCluster w) (λ t, bringUp <$> wChildren w t) (wPVC w).

Abbreviation pass req w := (exec serveWorld (Reconcile Marshal sha256hex req) w).

(** The components settle, then the umbrella reconciles. *)
Definition round (req : NamespacedName) (w : world) : world := (pass req (settleAll w)).1.2.

(** ** Executing a tier *)

Lemma exec_embed_child {A} t (p : prog (@Rollout.ans (specOf t)) A) w :
  let R := exec serveWorld (onChild t p) w in
  let S := exec (RolloutProps.serve (defaulting t)) p (wChildren w t) in
  R.1.1 = S.1.1 ∧ R.2 = (embedded (ans2 := ans) (OnChild t) (λ _ x, x) <$> S.2) ∧
  wChildren R.1.2 t = S.1.2 ∧ (∀ u, t ≠ u → wChildren R.1.2 u = wChildren w u) ∧
  wCluster R.1.2 = wCluster w.
Proof.
  revert w. induction p as [a|q k IH]; intros w; [done|].
  pose proof (IH (RolloutProps.serve (defaulting t) q (wChildren w t)).1
    (setChild t (RolloutProps.serve (defaulting t) q (wChildren w t)).2 w)) as IH'.
  rewrite setChild_eq in IH'.
  change (onChild t (Vis q k)) with (Vis (ans := ans) (OnChild t q) (λ x, onChild t (k x))).
  cbn zeta. rewrite !exec_Vis. cbn [serveWorld fst snd].
  destruct IH' as (E1 & E2 & E3 & E4 & E5). cbn [fst snd]. split_and!; try done.
  - by rewrite E2.
  - intros u Hu. by rewrite E4, setChild_ne.
Qed.

(** Every spec can be encoded, and defaulting twice is defaulting once. *)
Context (hash : ∀ t, specOf t → string)
  (Hhash : ∀ t x, specHash (Marshal t) sha256hex x = Ok (hash t x))
  (Hidem : ∀ t s, defaulting t (defaulting t s) = defaulting t s).

(** A tier with nothing left to do. *)
Definition clean (c : PulsarCluster) (t : tierName) (w : world) : Prop :=
  match desiredChild c t with
  | None => wChildren w t = None
  | Some oc => ∃ ch, wChildren w t = Some ch ∧ ∀ up, decisionFor (hash t) oc up ch = childNoop
  end.

(** A tier whose child reports ready. *)
Definition isUp (t : tierName) (w : world) : Prop :=
  ∀ ch, wChildren w t = Some ch →
    ready (reportFromConditions (tierString t) (chGeneration ch) (chConditions ch)) = true.

Definition quiet (e : event ans) : Prop :=
  match ev_call e with OnChild _ q => ¬ writesChild q | _ => True end.

(** A child with the spec the cluster asks for, given the one before it. *)
Definition wanted (c : PulsarCluster) (t : tierName) (old : option (Child (specOf t)))
    (ch : Child (specOf t)) : Prop :=
  ∃ oc, desiredChild c t = Some oc ∧ chSpec ch = defaulting t (setSpec oc (chSpec <$> old)).

(** A tier's child is left alone, or it is as the cluster asks for it and
    nothing is left to do. *)
Definition moves (c : PulsarCluster) (t : tierName) (w w' : world) : Prop :=
  wChildren w' t = wChildren w t ∨
  clean c t w' ∧ ∀ ch, wChildren w' t = Some ch → wanted c t (wChildren w t) ch.

(** What a tier's reconcile does to the world. *)
Definition tierDone (c : PulsarCluster) (t : tierName) (up : bool) (w : world)
    (R : res (componentReport * tierOutcome) * world * list (event ans)) : Prop :=
  ∃ rep o, R.1.1 = Ok (rep, o) ∧
    (∀ u, t ≠ u → wChildren R.1.2 u = wChildren w u) ∧ wCluster R.1.2 = wCluster w ∧
    (up = true → clean c t R.1.2) ∧
    moves c t w R.1.2 ∧
    (clean c t w → wChildren R.1.2 t = wChildren w t ∧ rolling o = false ∧ Forall quiet R.2 ∧
       (isUp t w → settled o = true)).

Lemma noop_any_up t (oc : OrderedChild (specOf t) (specOf t)) ch up :
  decisionFor (hash t) oc up ch = childNoop → ∀ up', decisionFor (hash t) oc up' ch = childNoop.
Proof.
  unfold decisionFor, orderedChildDecision. destruct (negb _); [by destruct up|].
  by destruct (negb _).
Qed.

Lemma applyTier_done c st t oc up w :
  desiredChild c t = Some oc →
  tierDone c t up w (exec serveWorld (applyTier Marshal sha256hex (set_pcStatus st c) t oc up) w).
Proof.
  intros Hoc. unfold applyTier. rewrite exec_bind.
  set (p := applyOrderedChild _ _ _ _ _ _ _).
  pose proof (exec_embed_child t p w) as H. cbn zeta in H.
  destruct (exec serveWorld (onChild t p) w) as [[r w1] tr]. cbn [fst snd] in H.
  destruct (pass_exec (zeroSpec t) (Marshal t) sha256hex (defaulting t) (pcUID c) (childKey c t)
    (hash t) (Hhash t) (Hidem t) oc up (wChildren w t)) as (ch & o & tr1 & E & Hcase).
  change (exec _ p _) with (exec (RolloutProps.serve (defaulting t))
    (applyOrderedChild (zeroSpec t) (Marshal t) sha256hex (pcUID c) (childKey c t) oc up)
    (wChildren w t)) in H. rewrite E in H. cbn [fst snd] in H.
  destruct H as (-> & -> & Ht & Hne & Hcl). cbn [exec].
  eexists _, _. cbn [fst snd]. split; [done|]. split; [done|]. split; [done|].
  assert (∀ spec, stampedWith (defaulting t) (hash t) oc spec ch → clean c t w1) as Hst.
  { intros spec Hs. unfold clean. rewrite Hoc. exists ch. split; [done|]. intros up'.
    by eapply decision_stamped. }
  split.
  - intros ->. destruct (wChildren w t) as [l|] eqn:El; [|destruct Hcase as [_ Hs]; eauto].
    destruct (decisionFor (hash t) oc true l) eqn:Ed.
    + destruct Hcase as (_ & -> & _). unfold clean. rewrite Hoc. exists l. split; [done|].
      by apply noop_any_up with true.
    + destruct Hcase as [_ Hs]; eauto.
    + revert Ed. unfold decisionFor, orderedChildDecision.
      destruct (negb _); [done|]. by destruct (negb _).
    + destruct Hcase as [_ Hs]; eauto.
  - split.
    { assert (stampedWith (defaulting t) (hash t) oc (setSpec oc (chSpec <$> wChildren w t)) ch →
        moves c t w w1) as Hmv.
      { intros Hs. right. split; [by eapply Hst|]. intros ch'. rewrite Ht. intros [= <-].
        exists oc. split; [done|]. exact (proj1 Hs). }
      destruct (wChildren w t) as [l|] eqn:El; [|by apply Hmv, (proj2 Hcase)].
      destruct (decisionFor (hash t) oc up l); [|by apply Hmv, (proj2 Hcase)| |by apply Hmv, (proj2 Hcase)];
        [destruct Hcase as (_ & -> & _)|destruct Hcase as (_ & ->)]; left; congruence. }
    unfold clean. rewrite Hoc. intros (l & El & Hn). rewrite El, Hn in Hcase.
    destruct Hcase as (-> & -> & ->). split; [congruence|]. split; [done|]. split.
    { constructor; [|constructor]. intros []. }
    intros Hup. unfold tierSettled. simpl. rewrite (Hup _ El). done.
Qed.

Lemma pruneChild_done c st t up w :
  desiredChild c t = None →
  tierDone c t up w (exec serveWorld (pruneChild (set_pcStatus st c) t) w).
Proof.
  intros Hd. unfold pruneChild. rewrite exec_bind. cbn [exec perform serveWorld].
  assert (clean c t (setChild t None w)) as Hc by (unfold clean; rewrite Hd; apply setChild_eq).
  destruct (wChildren w t) as [l|] eqn:El; cbn; eexists _, _; cbn [fst snd]; (split; [done|]);
    (split; [intros u Hu; by apply setChild_ne|]); (split; [done|]); (split; [done|]);
    (split; [right; split; [done|]; intros ch; by rewrite setChild_eq|]);
    unfold clean; rewrite Hd, El; try done.
  intros _. rewrite setChild_eq. split; [done|]. split; [done|]. split; [|done]. by repeat constructor.
Qed.

(** The functions-worker wiring leaves the children alone. *)
Lemma wire_done c st out w :
  let R := exec serveWorld (wireFunctionsWorkerColocated (set_pcStatus st c) out) w in
  R.1.1 = Ok (brokerAsWritten c out) ∧ wChildren R.1.2 = wChildren w ∧ wCluster R.1.2 = wCluster w ∧
  Forall quiet R.2.
Proof.
  cbn zeta. assert (∀ tr, Forall (λ e : event ans, childless (ev_call e)) tr → Forall quiet tr) as Hq.
  { intros tr Ht. eapply Forall_impl; [exact Ht|]. intros [q x]. by destruct q. }
  pose proof (only_runs _ _ _ _ (wire_childless (set_pcStatus st c) out)
    (exec_runs serveWorld _ w)) as Htr%Hq.
  split_and!; [| | |exact Htr]; clear Htr Hq;
    unfold wireFunctionsWorkerColocated, brokerAsWritten; cbn [pcSpec set_pcStatus];
    (destruct (pcFunctionsWorker _) as [fw|]; [|done]);
    (destruct (buildFunctionsWorkerSpec _) as [built|]; [|done]);
    (destruct (String.eqb _ _); [|done]); cbn [negb];
    (destruct (isFileSystemPackageStorage _); [|done]); cbn [negb];
    unfold reconcileFunctionsWorkerPackageStoragePVC, bind_wrap; cbn [bind perform exec serveWorld];
    destruct (wPVC w); cbn [bind perform exec serveWorld IsNotFound negb];
    destruct (_ >? 1); done.
Qed.

Lemma reconcileOf_done c st t up w :
  (t = tierOxia → up = true) →
  tierDone c t up w
    (exec serveWorld (reconcileOf Marshal sha256hex t (set_pcStatus st c) up) w).
Proof.
  intros Hox.
  destruct (decide (t = tierBroker)) as [->|Hb].
  - unfold reconcileOf, reconcileBroker.
    change (desiredBroker (set_pcStatus st c)) with (desiredBroker c).
    destruct (desiredBroker c) as [out|] eqn:E;
      [|apply pruneChild_done; unfold desiredChild; by rewrite E].
    rewrite exec_bind. pose proof (wire_done c st out w) as H. cbn zeta in H.
    destruct (exec serveWorld (wireFunctionsWorkerColocated _ _) w) as [[r w1] tr1].
    cbn [fst snd] in H. destruct H as (-> & Hch & Hcl & Hq).
    pose proof (applyTier_done c st tierBroker
      (let d := brokerAsWritten c out in scaledOrdered (brokerAutoscalerEnabled d) d) up w1
      ltac:(unfold desiredChild; by rewrite E)) as Hd. cbn zeta in Hd.
    destruct (exec serveWorld (applyTier _ _ _ _ _ _) w1) as [[r2 w2] tr2].
    destruct Hd as (rep & o & Hr & Hne & Hcl2 & Hup & Hwant & Hclean). cbn [fst snd] in *.
    exists rep, o. cbn [fst snd]. split; [done|]. rewrite <- Hcl, <- Hcl2, <- Hch.
    split; [done|]. split; [done|]. split; [done|]. split; [unfold moves in *; by rewrite Hch in Hwant|].
    intros Hc. unfold clean, isUp in *. rewrite <- Hch in *. specialize (Hclean Hc) as (H1 & H2 & H3 & H4).
    split; [done|]. split; [done|]. split; [by apply Forall_app|done].
  - rewrite reconcileOf_plain by done.
    destruct (desiredChild c t) eqn:E; [by apply applyTier_done|by apply pruneChild_done].
Qed.

(** ** Executing a pass *)

Section Pass.
Context (c : PulsarCluster) (w0 : world).

Definition idle : Prop := ∀ t, clean c t w0.
Definition openFor (t : tierName) : Prop := ∀ u, u ∈ upstream t → clean c u w0 ∧ isUp u w0.

(** The world in the middle of a pass that began in [w0], with the outcomes of
    the tiers reconciled so far and the trace. *)
Record midway (outs : list (tierName * tierOutcome)) (w : world) (tr : list (event ans)) : Prop := {
  mid_cluster : ∃ st, wCluster w = set_pcStatus st c;
  mid_todo : ∀ t, t ∉ outs.*1 → wChildren w t = wChildren w0 t;
  mid_done : ∀ t o, (t, o) ∈ outs →
    (clean c t w0 → wChildren w t = wChildren w0 t ∧ rolling o = false ∧
       (isUp t w0 → settled o = true)) ∧
    (openFor t → clean c t w);
  mid_spec : ∀ t, moves c t w0 w;
  mid_quiet : idle → Forall quiet tr
}.

(** A postcondition on the result, the world and the whole trace. *)
Definition leads {A} (Post : A → world → list (event ans) → Prop) (p : prog ans A) (w : world)
    (tr : list (event ans)) : Prop :=
  let R := exec serveWorld p w in Post R.1.1 R.1.2 (tr ++ R.2).

Lemma clean_same t w w' : wChildren w t = wChildren w' t → clean c t w ↔ clean c t w'.
Proof. unfold clean. by intros ->. Qed.

Lemma leads_tier {B} (Post : res B → world → list (event ans) → Prop) st t up outs w tr
    (K : componentReport * tierOutcome → prog ans (res B)) :
  midway outs w tr → t ∉ outs.*1 → (t = tierOxia → up = true) → (openFor t → up = true) →
  (∀ rep o w' tr', midway ((t, o) :: outs) w' tr' → leads Post (K (rep, o)) w' tr') →
  leads Post (bind_ok (reconcileOf Marshal sha256hex t (set_pcStatus st c) up) K) w tr.
Proof.
  intros [Hcl Htodo Hdone Hspec Hq] Hnew Hox Hopen HK. unfold leads, bind_ok. cbn zeta. rewrite exec_bind.
  destruct (reconcileOf_done c st t up w Hox) as (rep & o & Hr & Hne & Hcl' & Hup & Hwant & Hcln).
  destruct (exec serveWorld (reconcileOf _ _ _ _ _) w) as [[r w1] tr1]. cbn [fst snd] in *. subst r.
  pose proof (Htodo t Hnew) as Ht.
  assert (midway ((t, o) :: outs) w1 (tr ++ tr1)) as Hm.
  { split.
    - by rewrite Hcl'.
    - intros u Hu. rewrite fmap_cons in Hu. apply not_elem_of_cons in Hu as [? ?].
      rewrite Hne by done. by apply Htodo.
    - intros u o' [[= -> ->]|Hin]%elem_of_cons.
      + split; [|by intros ?%Hopen; apply Hup]. intros Hc.
        apply (clean_same _ _ _ Ht) in Hc. destruct (Hcln Hc) as (-> & Hro & _ & Hs).
        split; [done|]. split; [done|]. intros Hu. apply Hs. unfold isUp. by rewrite Ht.
      + assert (t ≠ u) as Htu.
        { intros <-. destruct Hnew. apply list_elem_of_fmap. by exists (t, o'). }
        destruct (Hdone u o' Hin) as [H1 H2]. rewrite (Hne u Htu), (clean_same u w1 w) by (by apply Hne).
        split; [|done]. intros Hc. by apply H1.
    - intros u. specialize (Hspec u). unfold moves in *. destruct (decide (t = u)) as [<-|Hu].
      + rewrite <- Ht. exact Hwant.
      + rewrite (clean_same u w1 w) by (by apply Hne). by rewrite Hne.
    - intros Hi. apply Forall_app. split; [by apply Hq|]. apply Hcln, (clean_same _ _ _ Ht), Hi. }
  specialize (HK rep o w1 _ Hm). unfold leads in HK. cbn zeta in HK.
  destruct (exec serveWorld (K (rep, o)) w1) as [[r2 w2] tr2]. cbn [fst snd] in *.
  by rewrite (assoc_L (++)).
Qed.

(** The metadata Job has succeeded: the pass goes on. *)
Lemma leads_metadata {B} (Post : B → world → list (event ans) → Prop) st rdy outs w tr
    (K : PulsarCluster * res (componentReport * bool) → prog ans B) :
  midway outs w tr →
  (∀ st' rep w' tr', midway outs w' tr' → leads Post (K (set_pcStatus st' c, Ok (rep, false))) w' tr') →
  leads Post (bind (onMetadata (reconcileMetadataInit (set_pcStatus st c) rdy)) K) w tr.
Proof.
  intros Hm HK. unfold leads. cbn zeta. rewrite exec_bind.
  assert (∃ st' rep tr', exec serveWorld (onMetadata (reconcileMetadataInit (set_pcStatus st c) rdy)) w =
    ((set_pcStatus st' c, Ok (rep, false)), w, tr') ∧ Forall quiet tr') as (st' & rep & tr' & -> & Hq).
  { unfold reconcileMetadataInit. cbn [pcSpec set_pcStatus].
    destruct (negb _); cbn; eexists _, _, _; (split; [reflexivity|]); by repeat constructor. }
  specialize (HK st' rep w (tr ++ tr')). unfold leads in HK. cbn zeta in HK.
  destruct (exec serveWorld (K _) w) as [[r2 w2] tr2]. cbn [fst snd] in *.
  rewrite (assoc_L (++)). apply HK. destruct Hm as [? ? ? ? Hq0]. split; [done..|].
  intros Hi. apply Forall_app. auto.
Qed.

Lemma emit_done cl evs w :
  ∃ tr, exec serveWorld (emitEvents cl evs) w = (tt, w, tr) ∧ Forall quiet tr.
Proof.
  induction evs as [|[[r a] n] evs (tr & E & Hq)]; [by exists []|].
  cbn [emitEvents bind perform exec serveWorld]. rewrite E. eexists. split; [done|]. by constructor.
Qed.

(** What a pass achieves. *)
Definition passDone (r : res Result) (w : world) (tr : list (event ans)) : Prop :=
  res_is_ok r = true ∧ (∃ st, wCluster w = set_pcStatus st c) ∧ (∀ t, openFor t → clean c t w) ∧
  (∀ t, moves c t w0 w ∧ (clean c t w0 → wChildren w t = wChildren w0 t)) ∧
  (idle → (∀ t, wChildren w t = wChildren w0 t) ∧ Forall quiet tr ∧ r = Ok emptyResult).

Lemma no_bottleneck states :
  (∀ s, s ∈ states → rolling (outcome s) = false) → rollingBottleneck states = None.
Proof.
  induction states as [|s states IH]; intros H; [done|]. simpl. unfold tierRolling.
  rewrite H, andb_false_r by left. apply IH. intros s' Hs. apply H. by right.
Qed.

Lemma leads_finish st reports states outs w tr :
  midway outs w tr → (∀ t, t ∈ outs.*1) → (∀ s, s ∈ states → (tier s, outcome s) ∈ outs) →
  leads passDone (finish (set_pcStatus st c) reports states false) w tr.
Proof.
  intros [Hcl Htodo Hdone Hspec Hq] Hall Hstates. unfold leads, finish. cbn zeta. rewrite exec_bind.
  match goal with |- context [emitEvents ?cl ?evs] => destruct (emit_done cl evs w) as (tr1 & -> & Hq1) end.
  unfold bind_wrap. cbn [bind perform exec serveWorld].
  assert (∀ t, ∃ o, (t, o) ∈ outs) as Hout.
  { intros t. pose proof (Hall t) as ([t' o] & -> & Hin)%list_elem_of_fmap. by exists o. }
  assert (∀ w2, wChildren w2 = wChildren w → ∀ t, openFor t → clean c t w2) as Hopen.
  { intros w2 E t Ht. destruct (Hout t) as [o Ho]. apply (clean_same t w2 w); [by rewrite E|].
    by apply (Hdone t o). }
  assert (idle → rollingBottleneck states = None) as Hbot.
  { intros Hi. apply no_bottleneck. intros s Hs. by apply (Hdone _ _ (Hstates s Hs)). }
  assert (idle → ∀ t, wChildren w t = wChildren w0 t) as Hsame.
  { intros Hi t. destruct (Hout t) as [o Ho]. by apply (Hdone t o). }
  assert (∀ t, moves c t w0 w ∧ (clean c t w0 → wChildren w t = wChildren w0 t)) as Hmv.
  { intros t. destruct (Hout t) as [o Ho]. split; [done|]. apply (Hdone t o Ho). }
  destruct (rollingBottleneck states); cbn [exec fst snd]; (split; [done|]);
    (split; [by eexists|]); (split; [by apply Hopen|]); (split; [exact Hmv|]); intros Hi; specialize (Hbot Hi); try done.
  split; [by apply Hsame|]. split; [|done].
  apply Forall_app. split; [by apply Hq|]. apply Forall_app. split; [done|]. by repeat constructor.
Qed.

Ltac all_tiers := let t := fresh in intros t; destruct t; set_solver.

Ltac open_flag Hm :=
  let H := fresh in intros H;
  repeat (apply andb_true_iff; split);
  match goal with |- settled ?o = true =>
    match type of Hm with midway ?outs _ _ =>
      match outs with context [(?t, o)] =>
        apply (mid_done _ _ _ Hm t o); [set_solver|apply (H t)|apply (H t)]; set_solver
      end end end.

Lemma Reconcile_done req :
  (∃ st, wCluster w0 = set_pcStatus st c) →
  let R := pass req w0 in passDone R.1.1 R.1.2 R.2.
Proof.
  intros [st0 Hc]. cbn zeta. unfold Reconcile. rewrite exec_bind. cbn [perform exec serveWorld].
  rewrite Hc. match goal with |- context [exec serveWorld ?p w0] =>
    enough (leads passDone p w0 [Ev (GetCluster req) (Ok (set_pcStatus st0 c))]) as H
      by (unfold leads in H; by destruct (exec serveWorld p w0) as [[? ?] ?]) end.
  assert (midway [] w0 [Ev (GetCluster req) (Ok (set_pcStatus st0 c))]) as Hm0.
  { split; [by eexists|done| |by left|by repeat constructor]. intros t o Hin. by apply elem_of_nil in Hin. }
  apply (leads_tier _ st0 tierOxia true []); [done|apply not_elem_of_nil|done|done|].
  intros oxRep oxOut w1 tr1 Hm1. cbn [fst snd].
  destruct (setPhase_status tierOxia (componentPhase oxRep) st0 c) as [st1 ->].
  apply (leads_metadata _ _ _ _ _ _ _ Hm1). intros st2 metaRep w2 tr2 Hm2. cbn [fst snd].
  unfold bind_ok at 1. cbn [bind].
  eapply (leads_tier _ st2 tierBookKeeper); [done|set_solver|done|open_flag Hm2|].
  intros bkRep bkOut w3 tr3 Hm3. cbn [fst snd]. next_phase.
  eapply (leads_tier _ _ tierAutoRecovery); [done|set_solver|done|open_flag Hm3|].
  intros arRep arOut w4 tr4 Hm4. cbn [fst snd]. next_phase.
  eapply (leads_tier _ _ tierBroker); [done|set_solver|done|open_flag Hm4|].
  intros brRep brOut w5 tr5 Hm5. cbn [fst snd]. next_phase.
  eapply (leads_tier _ _ tierProxy); [done|set_solver|done|open_flag Hm5|].
  intros pxRep pxOut w6 tr6 Hm6. cbn [fst snd]. next_phase.
  eapply (leads_tier _ _ tierFunctionsWorker); [done|set_solver|done|open_flag Hm6|].
  intros fwRep fwOut w7 tr7 Hm7. cbn [fst snd]. next_phase.
  eapply leads_finish; [exact Hm7|all_tiers|].
  intros s. set_unfold. intros Hs. destruct_or! Hs; subst; simpl; set_solver.
Qed.

End Pass.
(** ** Rounds *)

Definition withConditions {Spec} (cs : list Condition) (ch : Child Spec) : Child Spec :=
  mkChild (chKey ch) (chOwner ch) (chGeneration ch) (chAnnotations ch) (chSpec ch) cs.

(** The same children in another state of health. *)
Definition withHealth (health : tierName → list Condition) (w : world) : world :=
  mkWorld (wCluster w)
    (λ t, withConditions (health t) <$> wChildren w t) (wPVC w).

Lemma clean_health c t health w : clean c t (withHealth health w) ↔ clean c t w.
Proof.
  unfold clean. destruct (desiredChild c t) as [oc|]; simpl; destruct (wChildren w t) as [ch|]; simpl;
    try done; split; intros (ch' & [= <-] & H); eexists; split; done || exact H.
Qed.

Lemma settle_isUp t w : isUp t (settleAll w).
Proof.
  intros ch Hch. simpl in Hch. apply fmap_Some in Hch as (ch0 & _ & ->).
  unfold reportFromConditions, bringUp. cbn [chGeneration chConditions].
  destruct (find_setCond_eq (chConditions ch0)
    (newCondition conditionTypeReady ConditionTrue (chGeneration ch0) "Ready" ""))
    as (cond & Hf & _ & Hst & Hog & _).
  simpl in Hf, Hst, Hog. rewrite Hf. rewrite Hog, Z.ltb_irrefl, andb_false_r. simpl. by rewrite Hst.
Qed.

Definition level (t : tierName) : nat :=
  match t with
  | tierOxia => 0
  | tierBookKeeper | tierAutoRecovery => 1
  | tierBroker => 2
  | tierProxy => 3
  | tierFunctionsWorker => 4
  end.

Lemma upstream_level t u : u ∈ upstream t → (level u < level t)%nat.
Proof. destruct t; simpl; intros Hu; set_unfold; destruct_or?; subst; simpl; try done; lia. Qed.

(** The same child, but for its conditions. *)
Definition healed {Spec} (ch ch' : Child Spec) : Prop := ∃ cs, ch' = withConditions cs ch.

Lemma clean_healed c t w s :
  option_Forall2 healed (wChildren w t) (wChildren s t) → clean c t s ↔ clean c t w.
Proof.
  unfold clean. intros H. destruct (desiredChild c t) as [oc|];
    inversion H as [ch ch' [cs ->] E1 E2|E1 E2]; try done;
    split; intros (ch2 & [= <-] & Hn); eexists; split; done || exact Hn.
Qed.

(** The components come up: nothing changes but the conditions of the children,
    and a tier with nothing left to do reports ready (for the last tier it does
    not matter). *)
Definition comesUp (c : PulsarCluster) (w s : world) : Prop :=
  wCluster s = wCluster w ∧
  (∀ t, option_Forall2 healed (wChildren w t) (wChildren s t)) ∧
  ∀ t, clean c t w → t ≠ tierFunctionsWorker → isUp t s.

(** A round: the components come up, then the umbrella reconciles. *)
Definition roundTo (req : NamespacedName) (c : PulsarCluster) (w w' : world) : Prop :=
  ∃ s, comesUp c w s ∧ w' = (pass req s).1.2.

(** What has become of a tier's child since the beginning: nothing, or it is as
    the cluster asks for it and nothing is left to do. *)
Definition since (c : PulsarCluster) (t : tierName) (w0 w : world) : Prop :=
  option_Forall2 healed (wChildren w0 t) (wChildren w t) ∨
  clean c t w ∧ ∀ ch, wChildren w t = Some ch → wanted c t (wChildren w0 t) ch.

Lemma healed_refl {Spec} (ch : Child Spec) : healed ch ch.
Proof. exists (chConditions ch). by destruct ch. Qed.

Lemma healed_trans {Spec} (a b d : option (Child Spec)) :
  option_Forall2 healed a b → option_Forall2 healed b d → option_Forall2 healed a d.
Proof.
  intros [x y [cs ->]|] H; inversion H as [? ? [cs' ->]|]; subst; constructor.
  by exists cs'.
Qed.

Lemma wanted_healed c t old old' ch :
  option_Forall2 healed old old' → wanted c t old' ch → wanted c t old ch.
Proof.
  intros H (oc & Hoc & Hs). exists oc. split; [done|]. rewrite Hs.
  by destruct H as [x y [cs ->]|].
Qed.

Lemma since_pass c t w0 w s w' :
  since c t w0 w → option_Forall2 healed (wChildren w t) (wChildren s t) → moves c t s w' →
  (clean c t s → wChildren w' t = wChildren s t) → since c t w0 w'.
Proof.
  intros [H|[Hc Hw]] Hs Hm Hkeep.
  - pose proof (healed_trans _ _ _ H Hs) as Hws. destruct Hm as [E|[Hc Hw]]; [left; by rewrite E|].
    right. split; [done|]. intros ch Hch. eapply wanted_healed; [exact Hws|by apply Hw].
  - apply (clean_healed _ _ _ _ Hs) in Hc. specialize (Hkeep Hc). right.
    split; [by apply (clean_same c t w' s)|]. intros ch. rewrite Hkeep. intros Hch.
    rewrite Hch in Hs. inversion Hs as [ch0 ? [cs ->] E1 E2|]; subst. symmetry in E1.
    destruct (Hw ch0 E1) as (oc & Hoc & Hspec). by exists oc.
Qed.

(** Every round finishes one more level. *)
Lemma trajectory_clean req c (ws : nat → world) n :
  (∃ st, wCluster (ws 0%nat) = set_pcStatus st c) →
  (∀ k, (k < n)%nat → roundTo req c (ws k) (ws (S k))) →
  ∀ k, (k ≤ n)%nat →
  (∃ st, wCluster (ws k) = set_pcStatus st c) ∧ (∀ t, (level t < k)%nat → clean c t (ws k)) ∧
  ∀ t, since c t (ws 0%nat) (ws k).
Proof.
  intros Hc Hround k. induction k as [|k IH]; intros Hk.
  { split; [done|]. split; [intros; lia|]. intros t. left. destruct (wChildren _ t); constructor.
    apply healed_refl. }
  destruct (IH ltac:(lia)) as (IHc & IHk & IHs). destruct (Hround k ltac:(lia)) as (s & (Hs & Hh & Hup) & ->).
  rewrite <- Hs in IHc. destruct (Reconcile_done c s req IHc) as (_ & Hcl & Hopen & Hmv & _).
  split; [done|]. split.
  - intros t Ht. apply Hopen. intros u Hu%upstream_level.
    split; [apply (clean_healed c u (ws k)); [apply Hh|apply IHk; lia]|].
    apply Hup; [apply IHk; lia|]. intros ->. destruct t; simpl in Hu; lia.
  - intros t. destruct (Hmv t) as [Hm Hkeep]. by eapply since_pass.
Qed.

Lemma settle_comesUp c w : comesUp c w (settleAll w).
Proof.
  split; [done|]. split; [|intros t _ _; apply settle_isUp]. intros t. simpl.
  destruct (wChildren w t); constructor. by eexists.
Qed.

Lemma rounds_clean req c w k :
  (∃ st, wCluster w = set_pcStatus st c) →
  (∃ st, wCluster (Nat.iter k (round req) w) = set_pcStatus st c) ∧
  (∀ t, (level t < k)%nat → clean c t (Nat.iter k (round req) w)) ∧
  ∀ t, since c t w (Nat.iter k (round req) w).
Proof.
  intros Hc. apply (trajectory_clean req c (λ k, Nat.iter k (round req) w) k); [done| |done].
  intros k' _. exists (settleAll (Nat.iter k' (round req) w)). split; [apply settle_comesUp|done].
Qed.

(** The stamps found on a tier's child are true: a child that carries those of
    the spec the cluster asks for has that spec (an autoscaled tier's with the
    replicas it has). *)
Definition honestStamps (c : PulsarCluster) (w : world) : Prop :=
  ∀ t oc ch, desiredChild c t = Some oc → wChildren w t = Some ch →
    decisionFor (hash t) oc true ch = childNoop →
    chSpec ch = defaulting t (setSpec oc (Some (chSpec ch))).

(** The tiers as the cluster asks for them: the unwanted children are gone, the
    others carry the desired spec, as the API server defaults it, and its
    stamp; [w0] holds the children an autoscaled tier's replicas were taken
    over from. *)
Definition rolledOutFrom (c : PulsarCluster) (w0 w : world) : Prop :=
  ∀ t, match desiredChild c t with
       | None => wChildren w t = None
       | Some oc => ∃ ch, wChildren w t = Some ch ∧
                      chSpec ch = defaulting t (setSpec oc (chSpec <$> wChildren w0 t)) ∧
                      annotation ch specHashAnnotation = hash t (desiredSpec oc)
       end.

(** What a world with nothing left to do has, and what a pass does to it. *)
Lemma clean_final req c w0 w health :
  (∃ st, wCluster w = set_pcStatus st c) → honestStamps c w0 → (∀ t, clean c t w) →
  (∀ t, since c t w0 w) →
  rolledOutFrom c w0 w ∧
  let R := pass req (withHealth health w) in
  R.1.1 = Ok emptyResult ∧ Forall quiet R.2 ∧
  (∀ t, wChildren R.1.2 t = wChildren (withHealth health w) t).
Proof.
  intros Hc Hhon Hclean Hsince.
  destruct (Reconcile_done c (withHealth health w) req Hc) as (_ & _ & _ & _ & Hidle).
  destruct Hidle as (Hsame & Hq & Hr); [intros t; by apply clean_health|].
  split; [|done]. intros t. pose proof (Hclean t) as Ht. unfold clean in Ht.
  destruct (desiredChild c t) as [oc|] eqn:Eoc; [|done]. destruct Ht as (ch & Hch & Hn).
  exists ch. split; [done|]. split.
  - destruct (Hsince t) as [Hs|[_ Hw]].
    + rewrite Hch in Hs. inversion Hs as [ch0 ? [cs ->] E1 E2|]; subst. symmetry in E1.
      exact (Hhon t oc ch0 Eoc E1 (Hn true)).
    + destruct (Hw ch Hch) as (oc' & Hoc & Hspec). congruence.
  - specialize (Hn true). revert Hn. unfold decisionFor, orderedChildDecision.
    destruct (String.eqb_spec (annotation ch specHashAnnotation) (hash t (desiredSpec oc))); done.
Qed.

(** C17: The rollout terminates.  Whatever the umbrella finds - no child, old
    children, children edited by hand, so long as a child that carries the
    stamps of the desired spec has that spec - and whatever changed in the
    cluster's spec: after five rounds in which the components come up and the
    umbrella reconciles, every wanted child has exactly the desired spec, as
    the API server defaults it (an autoscaled tier keeping the replicas it had),
    and its stamp, and every unwanted one is gone; from then on a pass writes
    no child, in whatever health the children are, and asks for no requeue. *)
Theorem rollout_terminates req w health :
  let c := wCluster w in
  honestStamps c w →
  let w5 := Nat.iter 5 (round req) w in
  let R := pass req (withHealth health w5) in
  rolledOutFrom c w w5 ∧
  R.1.1 = Ok emptyResult ∧ Forall quiet R.2 ∧
  (∀ t, wChildren R.1.2 t = wChildren (withHealth health w5) t).
Proof.
  cbn zeta. set (c := wCluster w). set (w5 := Nat.iter 5 (round req) w). intros Hhon.
  assert (∃ st, wCluster w = set_pcStatus st c) as Hc by (exists (pcStatus c); by subst c; destruct (wCluster w)).
  destruct (rounds_clean req c w 5 Hc) as (Hc5 & Hlev & Hsince).
  apply (clean_final req c w w5 health Hc5 Hhon); [|done]. intros t. apply Hlev. destruct t; simpl; lia.
Qed.

End World.

(** * A cluster *)

Module UmbrellaDemo.

(** What the demonstration encodes of a spec. *)
Definition encode (t : tierName) : specOf t → string :=
  match t with
  | tierOxia => λ s, match oxServer s with Some _ => "server" | None => "default" end
  | tierBookKeeper => λ s, bkImage s
  | tierAutoRecovery => λ s, arImage s
  | tierBroker => λ s, brImage s
  | tierProxy => λ s, pxImage s
  | tierFunctionsWorker => λ s, fwImage s
  end.

Definition marshal (t : tierName) (s : specOf t) : res string := Ok (encode t s).
(** The end of the encoding, past the length prefix. *)
Definition digest (s : string) : string := String.substring 24 (String.length s) s.
Definition hash (t : tierName) (s : specOf t) : string :=
  match specHash (marshal t) digest s with Ok h => h | Err _ => "" end.
Definition keep (t : tierName) (s : specOf t) : specOf t := s.

Definition key : NamespacedName := mkNN "ns" "pulsar".
Definition cluster (version : string) : PulsarCluster :=
  mkCluster "pulsar" "ns" "uid" 2
    (mkClusterSpec version "" None None
       (Some (zeroSpec tierBroker)) (Some (zeroSpec tierBookKeeper)) (Some (zeroSpec tierProxy)) None None
       None None)
    (mkClusterStatus 1 (λ _, "") []).

Abbreviation rounds n w := (Nat.iter n (round (AM := refApiMeta) marshal digest keep key) w).

(** The version 4 cluster is up, then version 5 is asked for; after two rounds
    it is the brokers' turn. *)
Definition up4 : world := rounds 5 (mkWorld (cluster "4") (λ _, None) None).
Definition asked5 : world := mkWorld (cluster "5") (wChildren up4) (wPVC up4).
Definition world2 : world := settleAll (AM := refApiMeta) (rounds 1 asked5).
Definition run := exec (serveWorld keep) (Reconcile (AM := refApiMeta) marshal digest key) world2.

Definition isBrokerWrite (e : event ans) : bool :=
  match ev_call e with
  | OnChild tierBroker (UpdateChild _) => true
  | _ => false
  end.

Definition position : nat := default 0%nat (fst <$> list_find (λ e, isBrokerWrite e = true) run.2).

Lemma broker_write : ∃ q x, run.2 !! position = Some (Ev (OnChild tierBroker q) x) ∧ writesChild q.
Proof.
  assert (match run.2 !! position with Some e => isBrokerWrite e | None => false end = true) as H
    by (vm_compute; reflexivity).
  destruct (run.2 !! position) as [[q x]|]; [|done].
  destruct q as [| |t q| | | | | |]; try done. destruct t; try done.
  destruct q; try done. by eexists _, _.
Qed.

Lemma rollout_order_witness :
  ∃ q, writesChild q ∧ ∃ c, Ev (GetCluster key) (Ok c) ∈ take position run.2 ∧
    licensed (AM := refApiMeta) marshal digest c tierBroker (take position run.2) ∧
    asked marshal digest c tierBroker (take position run.2) q.
Proof.
  destruct broker_write as (q & x & Hq & Hw). exists q. split; [exact Hw|].
  apply (rollout_order (AM := refApiMeta) marshal digest key _ tierBroker q x (drop (S position) run.2));
    [|exact Hw].
  rewrite take_drop_middle by exact Hq. exact (runs_part _ _ _ (exec_runs _ _ world2)).
Defined.

(** The children of version 4 carry the stamps of version 4. *)
Definition honestAt (t : tierName) : bool :=
  match desiredChild (wCluster asked5) t, wChildren asked5 t with
  | Some oc, Some ch =>
      match decisionFor (hash t) oc true ch with
      | childNoop => bool_decide (chSpec ch = keep t (setSpec oc (Some (chSpec ch))))
      | _ => true
      end
  | _, _ => true
  end.

Lemma asked5_honest : honestStamps keep hash (wCluster asked5) asked5.
Proof.
  intros t oc ch Hoc Hch Hn. assert (honestAt t = true) as H by (destruct t; vm_compute; reflexivity).
  unfold honestAt in H. rewrite Hoc, Hch, Hn in H. by apply bool_decide_eq_true in H.
Qed.

Lemma rollout_terminates_witness :
  rolledOutFrom keep hash (cluster "5") asked5 (rounds 5 asked5) ∧
  (exec (serveWorld keep) (Reconcile (AM := refApiMeta) marshal digest key)
     (withHealth (λ _, []) (rounds 5 asked5))).1.1 = Ok emptyResult.
Proof.
  split.
  - exact (proj1 (rollout_terminates (AM := refApiMeta) marshal digest keep hash
      ltac:(reflexivity) ltac:(reflexivity) key asked5 (λ _, []) asked5_honest)).
  - exact (proj1 (proj2 (rollout_terminates (AM := refApiMeta) marshal digest keep hash
      ltac:(reflexivity) ltac:(reflexivity) key asked5 (λ _, []) asked5_honest))).
Defined.

End UmbrellaDemo.
