(* ===== verification/MetadataProps.v ===== *)
(** Properties of the metadata initialization and of the wiring the umbrella
    writes into its children: the init Job, the addresses of the metadata
    store, the offload credentials. *)

From S2P Require Import Prelude Effects Kube BrokerScale BookKeeper ObjectStore BackupTypes Manifest Config Rollout Workload ClusterTypes MetadataInit Umbrella UmbrellaProps.
Import Rollout Workload Cluster MetadataInit Umbrella.
Open Scope Z_scope.
Open Scope go_scope.

(** * The init Job *)

Section InitJob.
Context `{AM : !ApiMeta} (c : PulsarCluster) (oxiaReady : bool).

Abbreviation key := (mkNN (pcNamespace c) (metadataInitJobName (pcName c))).
Abbreviation initialized cs := (IsStatusConditionTrue cs conditionTypeMetadataInitialized).

(** What licenses the creation and the deletion of the Job. *)
Definition jobGuard (h : list (event MetadataInit.ans)) (q : MetadataInit.call) : Prop :=
  match q with
  | CreateJob owner job =>
      owner = pcUID c ∧ job = buildMetadataInitJob c ∧
      oxiaSelected (pcSpec c) = true ∧ oxiaReady = true ∧ initialized (pcConditions (pcStatus c)) = false ∧
      (∃ e, Ev (GetJob key) (Err e) ∈ h ∧ IsNotFound e = true) ∧
      (∃ u, Ev (CreateOrUpdateConfigMap (pcUID c) (buildMetadataInitConfigMap c)) (Ok u) ∈ h)
  | DeleteJob nn background =>
      nn = key ∧
      if oxiaSelected (pcSpec c) then
        background = true ∧ ∃ job, Ev (GetJob key) (Ok job) ∈ h ∧
          (jobFailedPermanently job = true ∨
           ∃ pods now, Ev (ListPods (pcNamespace c) (SelectorLabels (pcName c) metadataInitComponentName))
                         (Ok pods) ∈ h ∧ Ev Now now ∈ h ∧
             ipStuck (pullStuckPod (jobUID job) pods) = true ∧
             metadataInitRetryInterval <= Sub now (ipSince (pullStuckPod (jobUID job) pods)))
      else background = false
  | DeleteConfigMap nn => nn = key ∧ oxiaSelected (pcSpec c) = false
  | _ => True
  end.

Ltac elem := repeat (rewrite elem_of_app || rewrite elem_of_cons); auto 10.

Lemma reconcileMetadataInitJob_guarded already h :
  oxiaSelected (pcSpec c) = true → already = initialized (pcConditions (pcStatus c)) →
  (∃ u, Ev (CreateOrUpdateConfigMap (pcUID c) (buildMetadataInitConfigMap c)) (Ok u) ∈ h) →
  wp jobGuard (λ _ _, True) (reconcileMetadataInitJob c oxiaReady already) (λ _ _, True) h.
Proof.
  intros Hsel -> [u Hcm]. unfold reconcileMetadataInitJob. apply wp_bind. cbn [wp perform].
  split; [done|]. intros [job|e] _.
  - destruct (jobFailedPermanently job) eqn:Hfail.
    + apply wp_bind. cbn [wp perform]. split.
      { split; [done|]. rewrite Hsel. split; [done|]. exists job. split; [elem|by left]. }
      intros x _. by destruct (deleteFailed x).
    + apply wp_bind_ok. unfold metadataInitImagePullStuck. apply wp_bind_wrap. cbn [wp perform].
      split; [done|]. intros [pods|e] _; [|done]. cbn [wp].
      destruct (ipStuck _) eqn:Hst; [|done]. cbn [negb]. apply wp_bind. cbn [wp perform].
      split; [done|]. intros now _. destruct (_ >=? _) eqn:Hage; [|done]. apply wp_bind. cbn [wp perform].
      split; [|intros x _; by destruct (deleteFailed x)].
      split; [done|]. rewrite Hsel. split; [done|]. exists job. split; [elem|]. right.
      exists pods, now. zbool. split; [elem|]. split; [elem|done].
  - destruct (IsNotFound e) eqn:He; [|done]. cbn [negb].
    destruct oxiaReady eqn:Ho; [|done]. cbn [negb]. destruct (initialized _) eqn:Hi; [done|].
    apply wp_bind_wrap. cbn [wp perform]. split; [done|]. intros [[]|e'] _; [|done].
    apply wp_bind_wrap. cbn [wp perform]. split; [|by intros [[]|]].
    split_and!; try done; [exists e; split; [elem|done]|exists u; elem].
Qed.

Lemma reconcileMetadataInit_guarded :
  wp jobGuard (λ _ _, True) (reconcileMetadataInit c oxiaReady) (λ _ _, True) [].
Proof.
  unfold reconcileMetadataInit. destruct (oxiaSelected (pcSpec c)) eqn:Hsel; cbn [negb].
  - apply wp_bind. cbn [wp perform]. split; [done|]. intros [u|e] _; [|done].
    apply wp_bind. eapply wp_mono, (reconcileMetadataInitJob_guarded _ _ Hsel eq_refl); [|exists u; elem].
    intros [[[job pull] rq]|e] h _ _; [|done]. apply wp_bind.
    eapply wp_mono, (wp_only _ _ (λ q, match q with MetadataInit.Eventf _ _ _ _ _ => True | _ => False end));
      [done| |].
    { intros h' []; done. }
    unfold recordMetadataInitImagePullEvent. break_goal; try done; by apply only_perform.
  - apply wp_bind. unfold pruneMetadataInit. cbn [bind wp perform].
    split; [split; [done|by rewrite Hsel]|]. intros x _. destruct (deleteFailed x); [done|]. cbn [bind wp perform].
    split; [done|]. intros y _. by destruct (deleteFailed y).
Qed.

(** C21: The metadata Job is created and removed only for a reason.  In every
    run, interrupted or not, it is created only while Oxia is the selected and
    ready store, the cluster was never initialized, no such Job exists, and its
    bookkeeper.conf has been written; while Oxia is selected it is deleted only
    when it failed for good or its image could not be pulled for the whole
    retry interval, and then with its pods.  Once another store is selected it
    is pruned whatever its state, and only then its ConfigMap. *)
Theorem init_job_guarded t1 q x t2 :
  part (reconcileMetadataInit c oxiaReady) (t1 ++ Ev q x :: t2) → jobGuard t1 q.
Proof.
  intros Hp. exact (wp_part _ _ _ _ _ _ reconcileMetadataInit_guarded Hp (relies_top _ _)
    t1 (Ev q x) t2 eq_refl).
Qed.

(** ** The condition *)

(** What the reconcile saw of the Job. *)
Definition sawJob (h : list (event MetadataInit.ans)) (job : option Job) : Prop :=
  match job with
  | Some j => Ev (GetJob key) (Ok j) ∈ h
  | None => ∃ e, Ev (GetJob key) (Err e) ∈ h ∧ IsNotFound e = true
  end.

Lemma reconcileMetadataInitJob_saw already h :
  wp (λ _ _, True) (λ _ _, True) (reconcileMetadataInitJob c oxiaReady already)
    (λ r h', match r with
             | Ok (job, pull, rq) =>
                 ∃ job', sawJob h' job' ∧ succeeded job = succeeded job' ∧
                    (already = true → job = None ↔ job' = None) ∧
                    (failedPermanently job' = true ∨ ipStuck pull = true → rq = true)
             | Err _ => True
             end) h.
Proof.
  unfold reconcileMetadataInitJob. apply wp_bind. cbn [wp perform]. split; [done|]. intros [job|e] _.
  - assert (∀ h' pull (rq : bool), Ev (GetJob key) (Ok job) ∈ h' →
      (jobFailedPermanently job = true ∨ ipStuck pull = true → rq = true) →
      ∃ job', sawJob h' job' ∧ succeeded (Some job) = succeeded job' ∧
        (already = true → Some job = None ↔ job' = None) ∧
        (failedPermanently job' = true ∨ ipStuck pull = true → rq = true)) as Hsaw
      by (intros h' pull rq Hin Hrq; exists (Some job); done).
    destruct (jobFailedPermanently job) eqn:Hfail.
    + apply wp_bind. cbn [wp perform]. split; [done|]. intros x _.
      destruct (deleteFailed x), x; cbn [wp]; try done; (apply Hsaw; [elem|done]).
    + apply wp_bind_ok. unfold metadataInitImagePullStuck. apply wp_bind_wrap. cbn [wp perform].
      split; [done|]. intros [pods|e] _; [|done]. cbn [wp].
      destruct (ipStuck (pullStuckPod (jobUID job) pods)) eqn:Hst; cbn [negb wp]; cycle 1.
      { apply Hsaw; [elem|]. by intros []. }
      apply wp_bind. cbn [wp perform]. split; [done|]. intros now _.
      destruct (_ >=? _); cbn [wp]; [|apply Hsaw; [elem|done]].
      apply wp_bind. cbn [wp perform]. split; [done|]. intros x _.
      destruct (deleteFailed x), x; cbn [wp]; try done; (apply Hsaw; [elem|done]).
  - destruct (IsNotFound e) eqn:He; [|done]. cbn [negb].
    assert (∀ h' job, Ev (GetJob key) (Err e) ∈ h' → succeeded job = false →
      (already = true → job = None) →
      ∃ job', sawJob h' job' ∧ succeeded job = succeeded job' ∧
        (already = true → job = None ↔ job' = None) ∧
        (failedPermanently job' = true ∨ ipStuck notPulling = true → false = true)) as Hsaw.
    { intros h' job Hin Hs Ha. exists None. split; [by exists e|]. split; [done|].
      split; [|by intros []]. intros Ht. by rewrite Ha. }
    destruct oxiaReady; cbn [negb wp]; [|apply Hsaw; [elem|done|done]].
    destruct already; cbn [wp]; [apply Hsaw; [elem|done|done]|].
    apply wp_bind_wrap. cbn [wp perform]. split; [done|]. intros [[]|e'] _; [|done].
    apply wp_bind_wrap. cbn [wp perform]. split; [done|]. intros [[]|e'] _; [|done]. cbn [wp].
    apply Hsaw; [elem|done|done].
Qed.

Lemma metadataInitializedCondition_true gen rdy job already pull :
  cStatus (metadataInitializedCondition gen rdy job already pull) = ConditionTrue ↔
  succeeded job = true ∨ (already = true ∧ job = None).
Proof.
  unfold metadataInitializedCondition.
  destruct (succeeded job) eqn:Es; simpl; [tauto|].
  destruct already; simpl.
  - case_bool_decide; simpl; [tauto|]. break_goal; split; try done; intros [|[_ ?]]; done.
  - break_goal; split; try done; intros [|[? _]]; done.
Qed.

(** C22: MetadataInitialized is earned once and then kept.  When a reconcile
    succeeds with Oxia selected, the condition is True exactly if the Job it
    saw succeeded, or the cluster was already initialized and no Job is left -
    whatever Oxia's readiness; the component's report agrees with it, and a
    failed or image-stuck Job asks for a requeue. *)
Theorem init_condition_sound tr c' rep rq :
  oxiaSelected (pcSpec c) = true →
  runs (reconcileMetadataInit c oxiaReady) tr (c', Ok (rep, rq)) →
  ∃ job, sawJob tr job ∧
    (initialized (pcConditions (pcStatus c')) = true ↔
       succeeded job = true ∨ (initialized (pcConditions (pcStatus c)) = true ∧ job = None)) ∧
    ready rep = initialized (pcConditions (pcStatus c')) ∧
    (failedPermanently job = true → rq = true).
Proof.
  intros Hsel. revert c' rep rq.
  enough (wp (λ _ _, True) (λ _ _, True) (reconcileMetadataInit c oxiaReady)
    (λ r h, match r.2 with
            | Ok (rep, rq) => ∃ job, sawJob h job ∧
                (initialized (pcConditions (pcStatus r.1)) = true ↔
                   succeeded job = true ∨ (initialized (pcConditions (pcStatus c)) = true ∧ job = None)) ∧
                ready rep = initialized (pcConditions (pcStatus r.1)) ∧
                (failedPermanently job = true → rq = true)
            | Err _ => True
            end) []) as Hw.
  { intros c' rep rq Hr. exact (wp_top_runs _ _ _ _ Hw Hr). }
  unfold reconcileMetadataInit. rewrite Hsel. cbn [negb]. apply wp_bind. cbn [wp perform]. split; [done|].
  intros [[]|e] _; [|done]. apply wp_bind. eapply wp_mono, reconcileMetadataInitJob_saw.
  intros [[[job pull] rq]|e] h _ Hsaw; [|done]. destruct Hsaw as (job' & Hs & Hsu & Hno & Hrq).
  apply wp_bind. eapply wp_mono, (wp_inv _ _ (λ h, sawJob h job')); [|intros h' e|done|done].
  - intros [] h' _ Hs'. cbn [wp fst snd]. exists job'. split; [done|].
    assert (∀ cond, cType cond = conditionTypeMetadataInitialized →
      initialized (setCond (pcConditions (pcStatus c)) cond) =
        bool_decide (cStatus cond = ConditionTrue)) as Hset.
    { intros cond Hty. unfold IsStatusConditionTrue. rewrite <- Hty, condStatus_set.
      apply bool_decide_ext. split; congruence. }
    cbn [pcStatus set_pcConditions set_pcStatus pcConditions ready].
    rewrite Hset by (unfold metadataInitializedCondition; by break_goal).
    split; [|by auto]. rewrite bool_decide_eq_true, metadataInitializedCondition_true, <- Hsu.
    destruct (initialized _); [rewrite Hno by done; tauto|]. naive_solver.
  - destruct job' as [j|]; simpl; setoid_rewrite elem_of_app; naive_solver.
Qed.

End InitJob.

(** * What the umbrella writes into its children's configuration *)

Lemma lookup_setConfigDefault cfg k v k' :
  setConfigDefault cfg k v !! k' = if decide (k' = k) then Some (default v (cfg !! k)) else cfg !! k'.
Proof.
  unfold setConfigDefault. destruct (cfg !! k) as [u|] eqn:E; destruct (decide (k' = k)) as [->|]; try done.
  - by rewrite lookup_insert_eq.
  - by rewrite lookup_insert_ne by done.
Qed.

(** A set key keeps its value. *)
Lemma kept_setConfigDefault cfg k v : cfg ⊆ setConfigDefault cfg k v.
Proof.
  unfold setConfigDefault. destruct (cfg !! k) eqn:E; [done|]. by apply insert_subseteq.
Qed.

Lemma kept_setConfigDefaultIfSet cfg k v : cfg ⊆ setConfigDefaultIfSet cfg k v.
Proof. unfold setConfigDefaultIfSet. destruct (String.eqb v ""); [done|]. apply kept_setConfigDefault. Qed.

Lemma kept_fold cfg m : cfg ⊆ map_fold (λ k v cfg, setConfigDefault cfg k v) cfg m.
Proof.
  apply (map_fold_weak_ind (λ cfg' _, cfg ⊆ cfg')); [done|]. intros k v m' r _ Hr.
  etrans; [exact Hr|apply kept_setConfigDefault].
Qed.

(** Peels one default off. *)
Ltac keep_step :=
  match goal with
  | |- ?cfg ⊆ ?cfg => reflexivity
  | |- _ ⊆ setConfigDefault ?x _ _ => transitivity x; [|apply kept_setConfigDefault]
  | |- _ ⊆ setConfigDefaultIfSet ?x _ _ => transitivity x; [|apply kept_setConfigDefaultIfSet]
  | |- _ ⊆ map_fold _ ?x _ => transitivity x; [|apply kept_fold]
  | |- _ ⊆ (if ?b then _ else _) => destruct b
  | |- _ ⊆ match ?o with Some _ => _ | None => _ end => destruct o
  end.

Lemma kept_offload cfg offload : cfg ⊆ withBrokerOffloadDefaults cfg offload.
Proof. unfold withBrokerOffloadDefaults. repeat (keep_step || cbn zeta). Qed.

Lemma kept_colocated cfg fw : cfg ⊆ withFunctionsWorkerColocatedBrokerDefaults cfg fw.
Proof. unfold withFunctionsWorkerColocatedBrokerDefaults. repeat (keep_step || cbn zeta). Qed.

Lemma kept_brokerAsWritten c (out : BrokerSpec) : bsConfig out ⊆ bsConfig (brokerAsWritten c out).
Proof.
  unfold brokerAsWritten. destruct (pcFunctionsWorker _) as [fw|]; [|done].
  destruct (buildFunctionsWorkerSpec _) as [built|]; [|done]. destruct (String.eqb _ _); [|done].
  unfold wiredBroker. destruct (isFileSystemPackageStorage _); apply kept_colocated.
Qed.

(** The configuration a user gave for a tier, and the one its child gets. *)
Definition userConfig (c : PulsarCluster) (t : tierName) : option (gmap string string) :=
  match t with
  | tierOxia => None
  | tierBookKeeper => bkConfig <$> pcBookKeeper (pcSpec c)
  | tierAutoRecovery => arConfig <$> pcAutoRecovery (pcSpec c)
  | tierBroker => (λ b : BrokerSpec, bsConfig b) <$> pcBroker (pcSpec c)
  | tierProxy => pxConfig <$> pcProxy (pcSpec c)
  | tierFunctionsWorker => fwConfig <$> pcFunctionsWorker (pcSpec c)
  end.

Definition childConfig (c : PulsarCluster) (t : tierName) : option (gmap string string) :=
  match t with
  | tierOxia => None
  | tierBookKeeper => bkConfig <$> desiredBookKeeper c
  | tierAutoRecovery => arConfig <$> desiredAutoRecovery c
  | tierBroker => (λ b : BrokerSpec, bsConfig (brokerAsWritten c b)) <$> desiredBroker c
  | tierProxy => pxConfig <$> desiredProxy c
  | tierFunctionsWorker => fwConfig <$> desiredFunctionsWorker c
  end.

Lemma brokerConfig_step c (out : BrokerSpec) (cfg : gmap string string) :
  cfg ⊆ bsConfig (brokerAsWritten c (with_brConfig cfg out)).
Proof. exact (kept_brokerAsWritten c (with_brConfig cfg out)). Qed.

Lemma desiredBroker_config c s :
  pcBroker (pcSpec c) = Some s →
  ∃ out, desiredBroker c =
    Some (with_brConfig (withBrokerOffloadDefaults
      (withClusterNameDefault
         (withBrokerBookkeeperMetadataDefault
            (withBrokerProxyMetadataDefaults (bsConfig s) (pcName c)) (pcName c)) (pcName c))
      (pcOffload (pcSpec c))) out).
Proof.
  intros E. unfold desiredBroker, buildBrokerSpec. rewrite E. simpl.
  destruct (pcOffload (pcSpec c)); eexists; reflexivity.
Qed.

(** C26: The user's configuration wins.  A key set in a component's config
    reaches the component's child with the user's value, whatever defaults the
    umbrella adds for the metadata store, offload or the functions worker; and
    a configured component always gets a configuration. *)
Theorem user_config_wins c t user :
  userConfig c t = Some user → ∃ cfg, childConfig c t = Some cfg ∧ user ⊆ cfg.
Proof.
  destruct t; simpl; [done| | | | |]; intros H.
  - unfold desiredBookKeeper, buildBookKeeperSpec. destruct (pcBookKeeper _) as [s|]; [|done].
    injection H as <-. eexists. split; [reflexivity|]. apply kept_setConfigDefault.
  - unfold desiredAutoRecovery, buildAutoRecoverySpec. destruct (pcAutoRecovery _) as [s|]; [|done].
    injection H as <-. eexists. split; [reflexivity|]. apply kept_setConfigDefault.
  - apply fmap_Some in H as (s & Hs & ->). destruct (desiredBroker_config c s Hs) as [out ->].
    eexists. split; [reflexivity|]. etrans; [|apply brokerConfig_step]. etrans; [|apply kept_offload].
    unfold withClusterNameDefault, withBrokerBookkeeperMetadataDefault, withBrokerProxyMetadataDefaults.
    repeat (keep_step || cbn zeta).
  - unfold desiredProxy, buildProxySpec. destruct (pcProxy _) as [s|]; [|done].
    injection H as <-. eexists. split; [reflexivity|]. simpl.
    unfold withClusterNameDefault, withBrokerProxyMetadataDefaults; repeat (keep_step || cbn zeta).
  - unfold desiredFunctionsWorker, buildFunctionsWorkerSpec. destruct (pcFunctionsWorker _) as [s|]; [|done].
    injection H as <-. eexists. split; [reflexivity|]. simpl.
    unfold withFunctionsWorkerClusterDefault, withFunctionsWorkerMetadataDefault;
      repeat (keep_step || cbn zeta).
Qed.

(** ** The addresses of the metadata store *)

Definition storeURL (c : PulsarCluster) : string :=
  MetadataStoreURL (oxiaPublicServiceName (pcName c)) DefaultNamespace.
Definition bookkeeperURI (c : PulsarCluster) : string :=
  BookkeeperMetadataServiceURI (oxiaPublicServiceName (pcName c)).

(** Where each component reads an address of the store. *)
Definition storeSettings (c : PulsarCluster) : list (tierName * string * string) :=
  [(tierBookKeeper, configKeyMetadataServiceURI, bookkeeperURI c);
   (tierAutoRecovery, configKeyMetadataServiceURI, bookkeeperURI c);
   (tierBroker, configKeyBookkeeperMetadataServiceURI, bookkeeperURI c);
   (tierBroker, configKeyMetadataStoreURL, storeURL c);
   (tierBroker, configKeyConfigurationMetadataStoreURL, storeURL c);
   (tierProxy, configKeyMetadataStoreURL, storeURL c);
   (tierProxy, configKeyConfigurationMetadataStoreURL, storeURL c);
   (tierFunctionsWorker, configKeyConfigurationMetadataStoreURL, storeURL c)].

Lemma broker_stores c user k v :
  (tierBroker, k, v) ∈ storeSettings c →
  withBrokerBookkeeperMetadataDefault (withBrokerProxyMetadataDefaults user (pcName c)) (pcName c) !! k =
    Some (default v (user !! k)).
Proof.
  unfold storeSettings, withBrokerBookkeeperMetadataDefault, withBrokerProxyMetadataDefaults.
  cbn zeta. rewrite !lookup_setConfigDefault. intros H. set_unfold.
  destruct_or! H; simplify_eq; reflexivity.
Qed.

(** C27: Everything points at one store.  The bookies, autorecovery and the
    brokers are given the same BookKeeper metadata address, the brokers, the
    proxy and the functions worker the same metadata store, each only where
    the user did not set the key; the init Job initializes that BookKeeper
    address and that store. *)
Theorem metadata_agreement c :
  (∀ t user k v, userConfig c t = Some user → (t, k, v) ∈ storeSettings c →
     ∃ cfg, childConfig c t = Some cfg ∧ cfg !! k = Some (default v (user !! k))) ∧
  cmData (buildMetadataInitConfigMap c) =
    {[ configMapKey := RenderProperties {[ configKeyMetadataServiceURI := bookkeeperURI c ]} ]} ∧
  ∃ web broker, ijArgs (buildMetadataInitJob c) =
    [buildMetadataInitScript (pcName c) (storeURL c) web broker].
Proof.
  split_and!; [|reflexivity|unfold buildMetadataInitJob; destruct (metadataInitBrokerServiceURLs c); by eexists _, _].
  intros t user k v Hu Hk. destruct t; simpl in Hu |- *; [done| | | | |].
  - unfold desiredBookKeeper, buildBookKeeperSpec. destruct (pcBookKeeper _) as [s|]; [|done].
    injection Hu as <-. eexists. split; [reflexivity|]. set_unfold. destruct_or! Hk; simplify_eq.
    apply lookup_setConfigDefault.
  - unfold desiredAutoRecovery, buildAutoRecoverySpec. destruct (pcAutoRecovery _) as [s|]; [|done].
    injection Hu as <-. eexists. split; [reflexivity|]. set_unfold. destruct_or! Hk; simplify_eq.
    apply lookup_setConfigDefault.
  - apply fmap_Some in Hu as (s & Hs & ->). destruct (desiredBroker_config c s Hs) as [out ->].
    eexists. split; [reflexivity|]. eapply lookup_weaken; [by apply (broker_stores c)|].
    etrans; [|apply brokerConfig_step]. etrans; [|apply kept_offload]. apply kept_setConfigDefault.
  - unfold desiredProxy, buildProxySpec. destruct (pcProxy _) as [s|]; [|done].
    injection Hu as <-. eexists. split; [reflexivity|]. simpl. set_unfold.
    unfold withClusterNameDefault, withBrokerProxyMetadataDefaults. cbn zeta.
    rewrite !lookup_setConfigDefault. destruct_or! Hk; simplify_eq; reflexivity.
  - unfold desiredFunctionsWorker, buildFunctionsWorkerSpec. destruct (pcFunctionsWorker _) as [s|]; [|done].
    injection Hu as <-. eexists. split; [reflexivity|]. simpl. set_unfold.
    unfold withFunctionsWorkerClusterDefault, withFunctionsWorkerMetadataDefault.
    rewrite !lookup_setConfigDefault. destruct_or! Hk; simplify_eq; reflexivity.
Qed.

(** * A cluster that is being initialized *)

Module MetadataDemo.

Definition cluster : PulsarCluster :=
  mkCluster "pulsar" "ns" "uid" 1
    (mkClusterSpec "5.0" "" None None
       (Some (with_brConfig {[ configKeyMetadataStoreURL := "zk:legacy" ]} (zeroSpec tierBroker))) None None
       None None None None)
    (mkClusterStatus 0 (λ _, "") []).

(** Nothing exists yet. *)
Definition serveFresh (q : MetadataInit.call) (s : unit) : MetadataInit.ans q * unit :=
  (match q return MetadataInit.ans q with
   | GetJob nn => Err (ErrNotFound (nnName nn))
   | CreateJob _ _ => Ok tt
   | DeleteJob _ _ => Ok tt
   | MetadataInit.SetOwner _ => Ok tt
   | CreateOrUpdateConfigMap _ _ => Ok tt
   | DeleteConfigMap _ => Ok tt
   | ListPods _ _ => Ok []
   | Now => 0
   | MetadataInit.Eventf _ _ _ _ _ => tt
   end, s).

Definition run := exec serveFresh (reconcileMetadataInit (AM := refApiMeta) cluster true) tt.

Lemma run_split :
  run.2 = take 3 run.2 ++ Ev (CreateJob "uid" (buildMetadataInitJob cluster)) (Ok tt) :: [].
Proof. vm_compute. reflexivity. Qed.

Lemma init_job_guarded_witness :
  jobGuard (AM := refApiMeta) cluster true (take 3 run.2) (CreateJob "uid" (buildMetadataInitJob cluster)).
Proof.
  apply (init_job_guarded (AM := refApiMeta) cluster true (take 3 run.2)
    (CreateJob "uid" (buildMetadataInitJob cluster)) (Ok tt) []).
  rewrite <- run_split. exact (runs_part _ _ _ (exec_runs _ _ tt)).
Defined.

Definition c' : PulsarCluster := run.1.1.1.
Definition report : componentReport :=
  mkReport metadataInitComponentName true false reasonMetadataInitJobRunning
    "cluster-metadata-init job pulsar-metadata-init is running".

Lemma init_condition_sound_witness : ∃ job, sawJob cluster run.2 job ∧ succeeded job = false.
Proof.
  destruct (init_condition_sound (AM := refApiMeta) cluster true run.2 c' report false)
    as (job & Hs & Hiff & Hr & _).
  - reflexivity.
  - exact (exec_runs serveFresh (reconcileMetadataInit (AM := refApiMeta) cluster true) tt).
  - exists job. split; [exact Hs|]. destruct (succeeded job); [|reflexivity].
    assert (false = true) as H; [|discriminate H]. rewrite <- Hr at 1. apply Hiff. left. reflexivity.
Defined.

Lemma user_config_wins_witness :
  ∃ cfg, childConfig cluster tierBroker = Some cfg ∧
    ({[ configKeyMetadataStoreURL := "zk:legacy" ]} : gmap string string) ⊆ cfg.
Proof. apply (user_config_wins cluster tierBroker). reflexivity. Defined.

(** The init Job does not follow an override: the broker uses the user's store
    while the Job initializes the operator's. *)
Example override_not_initialized :
  (∃ cfg, childConfig cluster tierBroker = Some cfg ∧ cfg !! configKeyMetadataStoreURL = Some "zk:legacy") ∧
  ijArgs (buildMetadataInitJob cluster) =
    [buildMetadataInitScript "pulsar" "oxia://pulsar-oxia-oxia:6648/default" "http://pulsar-broker:8080"
       "pulsar://pulsar-broker:6650"].
Proof. split; [eexists; split; [reflexivity|vm_compute; reflexivity]|vm_compute; reflexivity]. Qed.

End MetadataDemo.
