(* ===== verification/FunctionsConf.v ===== *)
(** The configuration of a functions worker (functionsworker_controller.go):
    the defaults of functions_worker.yml and its rendering, which the broker
    controller shares for a colocated worker, with [RenderYAML] of
    internal/config.  The YAML marshaller is library code and a parameter. *)

From S2P Require Import Prelude Effects Kube BackupTypes Config Rollout Workload ClusterTypes.
Open Scope Z_scope.
Open Scope go_scope.

Module FunctionsConf.
Import Cluster.

Definition functionsWorkerClusterPlaceholder : string := "standalone".
Definition functionsWorkerPort : Z := 6750.
Definition functionsWorkerConfigFileName : string := "functions_worker.yml".
Definition functionsWorkerConfigMountPath : string := "/pulsar/conf/" ++! functionsWorkerConfigFileName.
Definition cfgKeyPulsarServiceURL : string := "pulsarServiceUrl".
Definition cfgKeyPulsarWebServiceURL : string := "pulsarWebServiceUrl".
Definition cfgKeyWorkerPort : string := "workerPort".
Definition functionsWorkerConfigsKey : string := "functionRuntimeFactoryConfigs".

Definition functionsWorkerDefaultConfig : gmap string string :=
  {[ "configurationMetadataStoreUrl" := "";
     cfgKeyPulsarServiceURL := "";
     cfgKeyPulsarWebServiceURL := "";
     cfgKeyWorkerPort := %d functionsWorkerPort;
     "numFunctionPackageReplicas" := "1";
     "downloadDirectory" := "download/pulsar_functions";
     "connectorsDirectory" := "./connectors";
     "functionsDirectory" := "./functions";
     "pulsarFunctionsNamespace" := "public/functions";
     cfgKeyPulsarFunctionsCluster := functionsWorkerClusterPlaceholder;
     "schedulerClassName" := "org.apache.pulsar.functions.worker.scheduler.RoundRobinScheduler" ]} ∪
  {[ "functionRuntimeFactoryClassName" := "org.apache.pulsar.functions.runtime.process.ProcessRuntimeFactory";
     "failureCheckFreqMs" := "30000";
     "instanceLivenessCheckFreqMs" := "30000";
     "initialBrokerReconnectMaxRetries" := "60";
     "assignmentWriteMaxRetries" := "60";
     "functionMetadataTopicName" := "metadata";
     "clusterCoordinationTopicName" := "coordinate";
     "functionAssignmentTopicName" := "assignments" ]}.

Definition functionsWorkerYAMLNestedDefaults : string :=
  functionsWorkerConfigsKey ++! ": {}" ++! String nl EmptyString.

Definition RenderYAML (Marshal : gmap string string → res string) (cfg : gmap string string) : string :=
  match Marshal cfg with Err _ => "" | Ok out => out end.

Definition renderFunctionsWorkerYAML (Marshal : gmap string string → res string)
    (cfg : gmap string string) : string :=
  let rendered := RenderYAML Marshal cfg in
  match cfg !! functionsWorkerConfigsKey with
  | Some _ => rendered
  | None => rendered ++! functionsWorkerYAMLNestedDefaults
  end.

(** Defaults, package storage, then the user's. *)
Definition functionsWorkerMergedConfig (spec : FunctionsWorkerSpec) : gmap string string :=
  Merge (Merge functionsWorkerDefaultConfig (functionsWorkerPackageStorageConfig (fwPackageStorage spec)))
    (fwConfig spec).

End FunctionsConf.
