(* ===== verification/BrokerCtl.v ===== *)
(** The Broker controller (controller/cluster/broker_controller.go): the
    ConfigMaps, the headless Service, the StatefulSet and the
    PodDisruptionBudget of a Broker, and its Ready condition. *)

From Stdlib Require Import SpecFloat.
From S2P Require Import Prelude Effects GoFloat Kube BrokerScale BackupTypes Config Rollout Workload ClusterTypes FunctionsConf.
Open Scope Z_scope.
Open Scope go_scope.

Module BrokerCtl.
Import BrokerAutoscaler Rollout Workload Cluster FunctionsConf.

Definition brokerPortName : string := "pulsar".
Definition httpPortName : string := "http".
Definition defaultBrokerImage : string := "apachepulsar/pulsar:5.0.0-M1".
Definition preStopDrainSeconds : Z := 5.
Definition defaultBrokerMaxUnavailable : Z := 1.
Definition configVolumeName : string := "config".
Definition brokerConfFileName : string := "broker.conf".
Definition brokerConfMountPath : string := "/pulsar/conf/broker.conf".
Definition functionsWorkerConfigVolumeName : string := "functions-worker-config".
Definition healthCheckPath : string := "/admin/v2/brokers/health".

Abbreviation Broker := (Resource BrokerSpec).

(** * Configuration *)

(** [int64(math.Ceil(f))] *)
Definition ceil_int (f : float64) : Z :=
  match f with
  | S754_finite s m e =>
      let v := if s then Z.neg m else Z.pos m in
      if 0 <=? e then v * 2 ^ e else - ((- v) / 2 ^ (- e))
  | _ => 0
  end.

Definition brokerShutdownTimeoutSeconds (mergedConfig : gmap string string) : Z :=
  let ms :=
    match mergedConfig !! confKeyBrokerShutdownTimeoutMs with
    | Some v =>
        match ParseInt 64 v with
        | Some parsed => if parsed >=? 0 then parsed else defaultBrokerShutdownTimeoutMs
        | None => defaultBrokerShutdownTimeoutMs
        end
    | None => defaultBrokerShutdownTimeoutMs
    end in
  ceil_int (fdiv (of_int ms) (of_int 1000)).

Definition terminationGracePeriodSeconds (mergedConfig : gmap string string) : Z :=
  wrap64 (brokerShutdownTimeoutSeconds mergedConfig + preStopDrainSeconds).

Record brokerPorts := mkPorts { pBinary : Z; pHttp : Z }.

Definition resolveBrokerPorts (mergedConfig : gmap string string) : brokerPorts :=
  mkPorts (resolveConfigPort mergedConfig confKeyBrokerServicePort defaultBrokerServicePort)
    (resolveConfigPort mergedConfig confKeyWebServicePort defaultWebServicePort).

Definition brokerServicePorts (ports : brokerPorts) : list ServicePort :=
  [mkSPort brokerPortName (pBinary ports) (FromInt32 (pBinary ports));
   mkSPort httpPortName (pHttp ports) (FromInt32 (pHttp ports))].

Definition brokerPDBEnabled (pdb : option PodDisruptionBudgetConfig) : bool :=
  match pdb with
  | None => true
  | Some p => default true (pdEnabled p)
  end.

Definition brokerMaxUnavailable (pdb : option PodDisruptionBudgetConfig) : IntOrString :=
  match pdb with
  | Some p => default (FromInt32 defaultBrokerMaxUnavailable) (pdMaxUnavailable p)
  | None => FromInt32 defaultBrokerMaxUnavailable
  end.

Definition brokerImage (specImage : string) : string :=
  if negb (String.eqb specImage "") then specImage else defaultBrokerImage.

(** * Pods *)

Definition brokerProbe (httpPort initialDelaySeconds periodSeconds failureThreshold : Z) : Probe :=
  mkProbe (HTTPGet healthCheckPath httpPort) initialDelaySeconds periodSeconds 0 failureThreshold.

Definition brokerContainer (broker : Broker) (ports : brokerPorts) : Container :=
  let spec := rsSpec broker in
  let volumeMounts :=
    mkMount configVolumeName brokerConfMountPath brokerConfFileName true :: brVolumeMounts spec in
  let volumeMounts :=
    match brFunctionsWorkerConfig spec with
    | Some _ =>
        volumeMounts ++ [mkMount functionsWorkerConfigVolumeName functionsWorkerConfigMountPath
                           functionsWorkerConfigFileName true]
    | None => volumeMounts
    end in
  mkContainer brokerComponent (brokerImage (brImage spec)) ["bin/pulsar"; "broker"] []
    [mkCPort brokerPortName (pBinary ports); mkCPort httpPortName (pHttp ports)]
    (brEnv spec) (brResources spec) volumeMounts
    (Some (brokerProbe (pHttp ports) 10 10 3)) (Some (brokerProbe (pHttp ports) 30 30 5)) None
    ["sh"; "-c"; "sleep " ++! %d preStopDrainSeconds].

Definition functionsWorkerBrokerConfigMapName (brokerName : string) : string :=
  brokerName ++! "-functions-worker".

Definition brokerAffinity (spec : option AntiAffinityConfig) (selectorLabels : gmap string string) :
    option Affinity :=
  match spec with
  | Some a =>
      if bool_decide (aaEnabled a = Some false) then None
      else Some (PodAntiAffinity (default false (aaHost a)) selectorLabels)
  | None => Some (PodAntiAffinity false selectorLabels)
  end.

Section Reconciler.
Context `{AM : !ApiMeta} (sha256hex : string → string) (yamlMarshal : gmap string string → res string).

Definition brokerPodAnnotations (renderedConfig functionsWorkerRendered : string) : gmap string string :=
  WithConfigChecksum sha256hex ∅ [renderedConfig; functionsWorkerRendered].

(** (replicas, service name, selector, template): the fields of
    [appsv1.StatefulSetSpec] that are filled in. *)
Record StatefulSetSpec := mkStsSpec {
  ssReplicas : Z;
  ssServiceName : string;
  ssSelector : gmap string string;
  ssTemplate : PodTemplate
}.

Definition desiredBrokerStatefulSetSpec (broker : Broker) (name : string)
    (selectorLabels podLabels mergedConfig : gmap string string)
    (renderedConfig functionsWorkerRendered : string) (ports : brokerPorts) : StatefulSetSpec :=
  let spec := rsSpec broker in
  let volumes := mkVolume configVolumeName (ConfigMapSource name) :: brVolumes spec in
  let volumes :=
    match brFunctionsWorkerConfig spec with
    | Some _ =>
        volumes ++ [mkVolume functionsWorkerConfigVolumeName
                      (ConfigMapSource (functionsWorkerBrokerConfigMapName name))]
    | None => volumes
    end in
  mkStsSpec (brokerReplicas (bsReplicas spec)) name selectorLabels
    (mkTemplate podLabels (brokerPodAnnotations renderedConfig functionsWorkerRendered) ""
       (Some (terminationGracePeriodSeconds mergedConfig))
       (brokerAffinity (brAntiaffinity spec) selectorLabels)
       (ZoneTopologySpreadConstraints selectorLabels)
       [brokerContainer broker ports] volumes).

(** * Handlers *)

Abbreviation M A := (prog (@ans Broker) A).

Definition reconcileConfigMap (broker : Broker) (name : string) (labels : gmap string string)
    (renderedConfig : string) : M (res unit) :=
  createOrUpdate KConfigMap (mkNN (rsNamespace broker) name) (rsUID broker)
    (set_cm labels {[ brokerConfFileName := renderedConfig ]}).

(** The rendered functions_worker.yml, or the empty string. *)
Definition reconcileFunctionsWorkerConfigMap (broker : Broker) (name : string)
    (labels : gmap string string) : M (res string) :=
  let key := mkNN (rsNamespace broker) (functionsWorkerBrokerConfigMapName name) in
  match brFunctionsWorkerConfig (rsSpec broker) with
  | None => (try! _ := deleteIgnoringNotFound KConfigMap key in Ret (Ok ""))%prog
  | Some cfg =>
      let rendered := renderFunctionsWorkerYAML yamlMarshal (Merge functionsWorkerDefaultConfig cfg) in
      (try! _ := createOrUpdate KConfigMap key (rsUID broker)
                   (set_cm labels {[ functionsWorkerConfigFileName := rendered ]}) in
       Ret (Ok rendered))%prog
  end.

Definition reconcileHeadlessService (broker : Broker) (name : string)
    (labels selectorLabels : gmap string string) (ports : brokerPorts) : M (res unit) :=
  createOrUpdate KService (mkNN (rsNamespace broker) name) (rsUID broker)
    (set_headless (HeadlessService name (rsNamespace broker) labels selectorLabels
                     (brokerServicePorts ports))).

Definition reconcileStatefulSet (broker : Broker) (name : string) (labels : gmap string string)
    (spec : StatefulSetSpec) : M (res unit) :=
  createOrUpdate KStatefulSet (mkNN (rsNamespace broker) name) (rsUID broker)
    (λ sts, mkWorkload (wKey sts) (wOwner sts) (wGeneration sts) (wResourceVersion sts) labels
              (Some (ssReplicas spec)) (ssServiceName spec) (wPodManagementPolicy sts)
              (Some (ssSelector spec)) (ssTemplate spec) (wVolumeClaimTemplates sts) (wStatus sts)).

Definition reconcilePDB (broker : Broker) (name : string) (labels selectorLabels : gmap string string) :
    M (res unit) :=
  let key := mkNN (rsNamespace broker) name in
  if negb (brokerPDBEnabled (brPdb (rsSpec broker))) then deleteIgnoringNotFound KPDB key
  else
    createOrUpdate KPDB key (rsUID broker)
      (set_pdb (PodDisruptionBudget name (rsNamespace broker) labels selectorLabels
                  (brokerMaxUnavailable (brPdb (rsSpec broker))))).

Definition brokerReadyCondition (sts : WorkloadObject) (desired observedGeneration : Z) : Condition :=
  let st := wStatus sts in
  let cond s reason msg := newCondition conditionTypeReady s observedGeneration reason msg in
  if desired =? 0 then cond ConditionFalse reasonNoReplicas "no broker replicas requested"
  else if negb (wsObservedGeneration st =? wGeneration sts) ||
          negb (wsUpdatedReplicas st =? desired) || negb (wsReadyReplicas st =? desired) then
    cond ConditionFalse reasonProgressing
      ("rollout in progress: " ++! %d (wsUpdatedReplicas st) ++! "/" ++! %d desired ++!
       " replicas updated, " ++! %d (wsReadyReplicas st) ++! "/" ++! %d desired ++!
       " ready (statefulset generation " ++! %d (wGeneration sts) ++! " observed " ++!
       %d (wsObservedGeneration st) ++! ")")
  else
    cond ConditionTrue reasonAllReady
      ("all " ++! %d desired ++! " broker replicas ready and up to date").

Definition updateStatus (broker : Broker) (name : string) : M (res unit) :=
  (let! got := perform ans (GetObject KStatefulSet (mkNN (rsNamespace broker) name)) in
   match got with
   | Err e => match IgnoreNotFound e with None => Ret (Ok tt) | Some e' => Ret (Err e') end
   | Ok sts =>
       let desired := brokerReplicas (bsReplicas (rsSpec broker)) in
       perform ans (UpdateStatus (set_rsStatus
         (mkStatus (wsReplicas (wStatus sts)) (wsReadyReplicas (wStatus sts)) (rsGeneration broker)
            (setCond (stConditions (rsStatus broker))
               (brokerReadyCondition sts desired (rsGeneration broker)))) broker))
   end)%prog.

Definition Reconcile (req : NamespacedName) : M (res Result) :=
  (let! got := perform (@ans Broker) (GetResource req) in
   match got with
   | Err e => Ret (ignore_not_found e)
   | Ok broker =>
       let name := rsName broker in
       let labels := Labels (rsName broker) brokerComponent in
       let selectorLabels := SelectorLabels (rsName broker) brokerComponent in
       let mergedConfig := mergedBrokerConfig (rsSpec broker) in
       let renderedConfig := RenderProperties mergedConfig in
       let ports := resolveBrokerPorts mergedConfig in
       try! ["reconciling broker configmap"] _ := reconcileConfigMap broker name labels renderedConfig in
       try! ["reconciling broker functions-worker configmap"] functionsWorkerRendered :=
         reconcileFunctionsWorkerConfigMap broker name labels in
       try! ["reconciling broker headless service"] _ :=
         reconcileHeadlessService broker name labels selectorLabels ports in
       let stsSpec := desiredBrokerStatefulSetSpec broker name selectorLabels labels mergedConfig
                        renderedConfig functionsWorkerRendered ports in
       try! ["reconciling broker statefulset"] _ := reconcileStatefulSet broker name labels stsSpec in
       try! ["reconciling broker poddisruptionbudget"] _ := reconcilePDB broker name labels selectorLabels in
       try! ["updating broker status"] _ := updateStatus broker name in
       Ret (Ok emptyResult)
   end)%prog.

End Reconciler.
End BrokerCtl.
