(* ===== verification/BookieCtl.v ===== *)
(** The BookKeeper controller (controller/cluster/bookkeeper_controller.go):
    the bookies' ConfigMap, headless Service, PodDisruptionBudget and
    StatefulSet, and their Ready condition.  The status fields of the bookie
    autoscaler and of the decommission, which this controller writes back as
    it read them, are in BookKeeper.v. *)

From S2P Require Import Prelude Effects Kube BookKeeper BackupTypes Config Rollout Workload ClusterTypes MetadataInit.
Open Scope Z_scope.
Open Scope go_scope.

Module BookieCtl.
Import Rollout MetadataInit Workload Cluster.

Definition bookieContainerName : string := "bookie".
Definition defaultBookieImage : string := "apachepulsar/pulsar:5.0.0-M1".
Definition keyBookiePort : string := "bookiePort".
Definition keyHTTPServerEnabled : string := "httpServerEnabled".
Definition keyHTTPServerPort : string := "httpServerPort".
Definition keyHTTPServerClass : string := "httpServerClass".
Definition keyJournalDirectories : string := "journalDirectories".
Definition keyLedgerDirectories : string := "ledgerDirectories".
Definition keyIndexDirectories : string := "indexDirectories".
Definition bookieHTTPServerClass : string := "org.apache.bookkeeper.http.vertx.VertxHttpServer".
Definition journalMountPath : string := "/pulsar/data/bookkeeper/journal".
Definition ledgerMountPath : string := "/pulsar/data/bookkeeper/ledgers".
Definition indexMountPath : string := "/pulsar/data/bookkeeper/index".
Definition volumeNameJournal : string := "journal".
Definition volumeNameLedgers : string := "ledgers".
Definition volumeNameIndex : string := "index".
Definition bookieStatePath : string := "/api/v1/bookie/state".
(** 10Gi, 50Gi, 10Gi *)
Definition defaultJournalSize : Z := 10 * 2 ^ 30.
Definition defaultLedgerSize : Z := 50 * 2 ^ 30.
Definition defaultIndexSize : Z := 10 * 2 ^ 30.

Abbreviation BookKeeper := (Resource BookKeeperSpec).

(** * Configuration *)

Definition operatorManagedConfig : gmap string string :=
  {[ keyBookiePort := %d bookiePort;
     keyHTTPServerEnabled := configValTrue;
     keyHTTPServerPort := %d bookieAdminPort;
     keyHTTPServerClass := bookieHTTPServerClass;
     keyJournalDirectories := journalMountPath;
     keyLedgerDirectories := ledgerMountPath;
     keyIndexDirectories := indexMountPath ]}.

Definition mergeConfig (spec : BookKeeperSpec) : gmap string string * string :=
  let merged := Merge (bkConfig spec) operatorManagedConfig in
  (merged, RenderProperties merged).

Definition resolveImage (spec : BookKeeperSpec) : string :=
  if negb (String.eqb (bkImage spec) "") then bkImage spec else defaultBookieImage.

Definition resolvePodManagementPolicy (spec : BookKeeperSpec) : string :=
  if negb (String.eqb (bkPodManagementPolicy spec) "") then bkPodManagementPolicy spec else "Parallel".

(** int32 arithmetic. *)
Definition resolvePDBMaxUnavailable (replicas writeQuorum ackQuorum : Z) : IntOrString :=
  let maxUnavailable := Z.max (wrap32 (writeQuorum - ackQuorum)) 1 in
  let maxUnavailable := Z.min maxUnavailable (wrap32 (replicas - 1)) in
  FromInt32 (Z.max maxUnavailable 0).

Definition desiredConfigMap (bk : BookKeeper) (rendered : string) : ConfigMapObject :=
  BuildConfigMap (rsName bk) (rsNamespace bk) (Labels (rsName bk) bookkeeperComponent)
    {[ configMapKey := rendered ]}.

Definition desiredHeadlessService (bk : BookKeeper) : ServiceObject :=
  let ports :=
    [mkSPort bookieContainerName bookiePort (FromInt32 bookiePort);
     mkSPort "http" bookieAdminPort (FromInt32 bookieAdminPort)] in
  HeadlessService (rsName bk) (rsNamespace bk) (Labels (rsName bk) bookkeeperComponent)
    (SelectorLabels (rsName bk) bookkeeperComponent) ports.

Definition desiredPDB (bk : BookKeeper) : PDBObject :=
  let replicas := resolveReplicas (rsSpec bk) in
  let writeQuorum := resolveWriteQuorum (rsSpec bk) in
  let ackQuorum := resolveAckQuorum (rsSpec bk) in
  PodDisruptionBudget (rsName bk) (rsNamespace bk) (Labels (rsName bk) bookkeeperComponent)
    (SelectorLabels (rsName bk) bookkeeperComponent)
    (resolvePDBMaxUnavailable replicas writeQuorum ackQuorum).

(** * Pods *)

Definition buildBookieContainer (image : string) : Container :=
  mkContainer bookieContainerName image ["bin/pulsar"; "bookie"] []
    [mkCPort bookieContainerName bookiePort; mkCPort "http" bookieAdminPort] [] (mkResources ∅ ∅)
    [mkMount volumeNameConfig bookieConfMountPath configMapKey true;
     mkMount volumeNameJournal journalMountPath "" false;
     mkMount volumeNameLedgers ledgerMountPath "" false;
     mkMount volumeNameIndex indexMountPath "" false]
    (Some (mkProbe (HTTPGet bookieStatePath bookieAdminPort) 20 10 5 6))
    (Some (mkProbe (TCPSocket bookiePort) 20 10 5 6)) None [].

Definition volumeClaimTemplate (name : string) (vol : option VolumeSpec) (defaultSize : Z)
    (labels : gmap string string) : PersistentVolumeClaim :=
  let '(size, sc) :=
    match vol with
    | Some v => (if negb (vsSize v =? 0) then vsSize v else defaultSize, vsStorageClassName v)
    | None => (defaultSize, None)
    end in
  mkPVC name "" labels ["ReadWriteOnce"] size sc.

Definition buildVolumeClaimTemplates (spec : BookKeeperSpec) (labels : gmap string string) :
    list PersistentVolumeClaim :=
  let vol (f : BookKeeperVolumes → option VolumeSpec) :=
    match bkVolumes spec with Some v => f v | None => None end in
  [volumeClaimTemplate volumeNameJournal (vol bvJournal) defaultJournalSize labels;
   volumeClaimTemplate volumeNameLedgers (vol bvLedgers) defaultLedgerSize labels;
   volumeClaimTemplate volumeNameIndex (vol bvIndex) defaultIndexSize labels].

(** * Readiness *)

Record rolloutState := mkState {
  rsReady : Z;
  rsUpdated : Z;
  rsCurrentRevision : string;
  rsUpdateRevision : string
}.

Definition rolloutStateOf (sts : WorkloadObject) : rolloutState :=
  mkState (wsReadyReplicas (wStatus sts)) (wsUpdatedReplicas (wStatus sts))
    (wsCurrentRevision (wStatus sts)) (wsUpdateRevision (wStatus sts)).

Definition computeReadyCondition (generation desiredReplicas : Z) (state : rolloutState) : Condition :=
  let cond s reason msg := newCondition conditionTypeReady s generation reason msg in
  let rolledOut :=
    (rsUpdated state =? desiredReplicas) &&
    String.eqb (rsCurrentRevision state) (rsUpdateRevision state) in
  if desiredReplicas =? 0 then
    cond ConditionFalse reasonNoReplicas "BookKeeper has zero desired replicas"
  else if (rsReady state =? desiredReplicas) && rolledOut then
    cond ConditionTrue reasonAllReady
      (%d (rsReady state) ++! "/" ++! %d desiredReplicas ++! " bookie replicas ready on revision " ++!
       quote (rsUpdateRevision state))
  else
    cond ConditionFalse reasonProgressing
      ("rollout in progress: " ++! %d (rsReady state) ++! "/" ++! %d desiredReplicas ++! " ready, " ++!
       %d (rsUpdated state) ++! "/" ++! %d desiredReplicas ++! " updated to revision " ++!
       quote (rsUpdateRevision state)).

Section Reconciler.
Context `{AM : !ApiMeta} (sha256hex : string → string).

Definition buildPodTemplate (bk : BookKeeper) (image rendered : string) : PodTemplate :=
  let selector := SelectorLabels (rsName bk) bookkeeperComponent in
  mkTemplate (Labels (rsName bk) bookkeeperComponent) (WithConfigChecksum sha256hex ∅ [rendered]) "" None
    (Some (PodAntiAffinity true selector)) (ZoneTopologySpreadConstraints selector)
    [buildBookieContainer image] [mkVolume volumeNameConfig (ConfigMapSource (rsName bk))].

Definition desiredStatefulSet (bk : BookKeeper) (image rendered : string) : WorkloadObject :=
  let labels := Labels (rsName bk) bookkeeperComponent in
  mkWorkload (rsKey bk) None 0 "" labels (Some (resolveReplicas (rsSpec bk))) (rsName bk)
    (resolvePodManagementPolicy (rsSpec bk)) (Some (SelectorLabels (rsName bk) bookkeeperComponent))
    (buildPodTemplate bk image rendered) (buildVolumeClaimTemplates (rsSpec bk) labels) emptyStatus.

(** * Handlers *)

Abbreviation M A := (prog (@ans BookKeeper) A).

Definition reconcileConfigMap (bk : BookKeeper) (rendered : string) : M (res unit) :=
  let wanted := desiredConfigMap bk rendered in
  createOrUpdate KConfigMap (rsKey bk) (rsUID bk) (set_cm (cmLabels wanted) (cmData wanted)).

Definition reconcileHeadlessService (bk : BookKeeper) : M (res unit) :=
  createOrUpdate KService (rsKey bk) (rsUID bk) (set_headless (desiredHeadlessService bk)).

Definition reconcilePodDisruptionBudget (bk : BookKeeper) : M (res unit) :=
  createOrUpdate KPDB (rsKey bk) (rsUID bk) (set_pdb (desiredPDB bk)).

(** An existing StatefulSet keeps everything but labels, replicas, template.
    [Create] and [Update] answer with the object as stored, status included. *)
Definition reconcileStatefulSet (bk : BookKeeper) (image rendered : string) : M (res WorkloadObject) :=
  let desired := desiredStatefulSet bk image rendered in
  (let! got := perform (@ans BookKeeper) (GetObject KStatefulSet (wKey desired)) in
   match got with
   | Err e =>
       if IsNotFound e then
         try! _ := perform ans (SetOwner (rsUID bk)) in
         perform (@ans BookKeeper) (CreateObject KStatefulSet (rsUID bk) desired)
       else Ret (Err e)
   | Ok existing =>
       let existing :=
         mkWorkload (wKey existing) (wOwner existing) (wGeneration existing) (wResourceVersion existing)
           (wLabels desired) (wReplicas desired) (wServiceName existing) (wPodManagementPolicy existing)
           (wSelector existing) (wTemplate desired) (wVolumeClaimTemplates existing) (wStatus existing) in
       try! _ := perform ans (SetOwner (rsUID bk)) in
       perform (@ans BookKeeper) (UpdateObject KStatefulSet (rsUID bk) existing)
   end)%prog.

Definition updateStatus (key : NamespacedName) (sts : WorkloadObject) : M (res unit) :=
  (let! got := perform (@ans BookKeeper) (GetResource key) in
   match got with
   | Err e => match IgnoreNotFound e with None => Ret (Ok tt) | Some e' => Ret (Err e') end
   | Ok latest =>
       let desiredReplicas := resolveReplicas (rsSpec latest) in
       perform ans (UpdateStatus (set_rsStatus
         (mkStatus (wsReplicas (wStatus sts)) (wsReadyReplicas (wStatus sts)) (rsGeneration latest)
            (setCond (stConditions (rsStatus latest))
               (computeReadyCondition (rsGeneration latest) desiredReplicas (rolloutStateOf sts))))
         latest))
   end)%prog.

Definition Reconcile (req : NamespacedName) : M (res Result) :=
  (let! got := perform (@ans BookKeeper) (GetResource req) in
   match got with
   | Err e => Ret (ignore_not_found e)
   | Ok bk =>
       let rendered := (mergeConfig (rsSpec bk)).2 in
       let image := resolveImage (rsSpec bk) in
       try! _ := reconcileConfigMap bk rendered in
       try! _ := reconcileHeadlessService bk in
       try! _ := reconcilePodDisruptionBudget bk in
       try! sts := reconcileStatefulSet bk image rendered in
       try! _ := updateStatus req sts in
       Ret (Ok emptyResult)
   end)%prog.

End Reconciler.
End BookieCtl.
