(* ===== verification/PodExec.v ===== *)
(** The admin client the decommission controller is deployed with
    (internal/autoscaler/bookkeeper/podexec.go): every admin operation is a
    shell command run in the bookie's pod.  The controller of Decommission.v
    is hoisted onto it, and the safety of the decommission is stated of the
    commands that reach the pods. *)

From S2P Require Import Prelude Effects GoFloat Kube BookKeeper Decommission DecommissionProps ObjectStore BookieCtl.
Open Scope Z_scope.
Open Scope go_scope.

Module PodExec.

(** * Calls *)

(** What a pod-exec stream ends in: the stream could not be set up, it failed
    (the command exited non-zero, the connection broke, the two minutes of
    [execTimeout] passed) after some output, or the command succeeded. *)
Inductive StreamReply :=
| NoExecutor (e : goerr)
| StreamFailed (stdout stderr : string) (e : goerr)
| Streamed (stdout : string).

Inductive call :=
| Core (c : Decom.call)
| Stream (ns pod container : string) (command : list string).

#[local] Existing Instance Decom.call_eq_dec.
#[export] Instance call_eq_dec : EqDecision call.
Proof. solve_decision. Defined.

Definition ans (c : call) : Type :=
  match c with
  | Core c => Decom.ans c
  | Stream _ _ _ _ => StreamReply
  end.

Abbreviation event := (Effects.event ans).
Abbreviation M A := (prog ans (res A)).

(** * The client *)

Record PodExecAdminClient := mkClient {
  Namespace : string;
  ContainerName : string;
  AdminPort : Z;
  JournalDir : string
}.

Definition bash (command : string) : list string := ["bash"; "-c"; command].

(** The output is returned with the error, as [exec] does. *)
Definition exec (c : PodExecAdminClient) (podName command : string) :
    prog ans (string * option goerr) :=
  (let! r := perform ans (Stream (Namespace c) podName (ContainerName c) (bash command)) in
   Ret (match r with
        | NoExecutor e => ("", Some (Errorf ("building exec stream for pod " ++! podName) e))
        | StreamFailed out err e =>
            (out, Some (ErrorfWith ("exec " ++! quote command ++! " on pod " ++! podName) e
                          (" (stderr: " ++! err ++! ")")))
        | Streamed out => (out, None)
        end))%prog.

(** [out, err := c.exec(...)], with the error wrapped in [msg]. *)
Definition execOr {A} (c : PodExecAdminClient) (podName command msg : string)
    (f : string → res A) : M A :=
  (let! r := exec c podName command in
   Ret (match r with
        | (_, Some e) => Err (Errorf msg e)
        | (out, None) => f out
        end))%prog.

(** [%t] *)
Definition showBool (b : bool) : string := if b then "true" else "false".
Definition dq : string := String "034" EmptyString.

Definition adminBaseURL (c : PodExecAdminClient) : string :=
  "http://localhost:" ++! %d (AdminPort c).

Record bookieState := mkState { running : bool; readOnly : bool; shuttingDown : bool }.
Record bookieInfo := mkInfo { freeSpace : Z; totalSpace : Z }.

(** encoding/json on the two admin bodies. *)
Class AdminJSON := {
  UnmarshalState : string → res bookieState;
  UnmarshalInfo : string → res bookieInfo
}.

Section Client.
Context `{AJ : !AdminJSON} (c : PodExecAdminClient).

Definition stateCommand : string := "curl -s " ++! adminBaseURL c ++! "/api/v1/bookie/state".
Definition infoCommand : string := "curl -s " ++! adminBaseURL c ++! "/api/v1/bookie/info".

Definition parseState (podName out : string) : res bool :=
  match UnmarshalState out with
  | Err e =>
      Err (ErrorfWith ("parsing bookie state for " ++! podName) e (" (output: " ++! out ++! ")"))
  | Ok s => Ok (running s && negb (readOnly s) && negb (shuttingDown s))
  end.

Definition IsWritable (podName : string) : M bool :=
  execOr c podName stateCommand ("querying bookie state for " ++! podName) (parseState podName).

Definition parseInfo (podName : string) (tolerance : float64) (out : string) : res bool :=
  match UnmarshalInfo out with
  | Err e =>
      Err (ErrorfWith ("parsing bookie info for " ++! podName) e (" (output: " ++! out ++! ")"))
  | Ok i =>
      if totalSpace i <=? 0 then
        Err (ErrPlain ("bookie " ++! podName ++! " reported a non-positive totalSpace (" ++!
                       %d (totalSpace i) ++! ")"))
      else
        let used := fdiv (of_int (wrap64 (totalSpace i - freeSpace i))) (of_int (totalSpace i)) in
        Ok (flt used tolerance)
  end.

Definition LedgerDiskUsageBelow (podName : string) (tolerance : float64) : M bool :=
  execOr c podName infoCommand ("querying bookie info for " ++! podName)
    (parseInfo podName tolerance).

Definition readOnlyCommand (ro : bool) : string :=
  "curl -s -X PUT -H " ++! dq ++! "Content-Type: application/json" ++! dq ++! " -d '{" ++!
  dq ++! "readOnly" ++! dq ++! ":" ++! showBool ro ++! "}' " ++! adminBaseURL c ++!
  "/api/v1/bookie/state/readonly".

Definition SetReadOnly (podName : string) (ro : bool) : M unit :=
  execOr c podName (readOnlyCommand ro)
    ("setting read-only=" ++! showBool ro ++! " on bookie " ++! podName) (λ _, Ok tt).

Definition decommissionCommand (bookieID : string) : string :=
  "bin/bookkeeper shell decommissionbookie -bookieid " ++! bookieID.
Definition recoverCommand (bookieID : string) : string :=
  "bin/bookkeeper shell recover -f -bookieid " ++! bookieID.

Definition TriggerDecommission (podName bookieID : string) : M unit :=
  (let! r := exec c podName (decommissionCommand bookieID) in
   match r.2 with
   | None => Ret (Ok tt)
   | Some err =>
       let! r' := exec c podName (recoverCommand bookieID) in
       Ret (match r'.2 with
            | Some fallbackErr =>
                Err (Errorf2 "decommissionbookie failed (" err
                       ") and recover fallback also failed: " fallbackErr)
            | None => Ok tt
            end)
   end)%prog.

Definition listLedgersCommand (bookieID : string) : string :=
  "bin/bookkeeper shell listledgers -meta -bookieid " ++! bookieID.

(** The reading of the output of [listledgers]. *)
Definition ledgersListed (out : string) : bool :=
  if Contains out "Unable to read the ledger" ||
     Contains out "Received error return value while processing ledgers" ||
     Contains out "Received Exception while processing ledgers" then true
  else Contains out "ledgerID: ".

Definition HasLedgers (podName bookieID : string) : M bool :=
  execOr c podName (listLedgersCommand bookieID) ("listing ledgers for bookie " ++! podName)
    (λ out, Ok (ledgersListed out)).

Definition underReplicatedCommand : string :=
  "curl -s " ++! adminBaseURL c ++! "/api/v1/autorecovery/list_under_replicated_ledger/".
Definition noneUnderReplicated (out : string) : bool :=
  Contains out "No under replicated ledgers found".

Definition NoUnderReplicatedLedgers (podName : string) : M bool :=
  execOr c podName underReplicatedCommand
    ("listing under-replicated ledgers via bookie " ++! podName)
    (λ out, Ok (noneUnderReplicated out)).

Definition renameCommand : string :=
  let dir := JournalDir c ++! "/current" in
  "test -f " ++! dir ++! "/VERSION.decommissioned || mv " ++! dir ++! "/VERSION " ++!
  dir ++! "/VERSION.decommissioned".

Definition RenameCookie (podName : string) : M unit :=
  execOr c podName renameCommand ("renaming cookie for bookie " ++! podName) (λ _, Ok tt).

End Client.

(** * The deployed controller *)

(** [adminClient] for a BookKeeper of the namespace. *)
Definition adminClient (ns : string) : PodExecAdminClient :=
  mkClient ns BookieCtl.bookieContainerName bookieAdminPort BookieCtl.journalMountPath.

Section Deployed.
Context `{AM : !ApiMeta} `{AJ : !AdminJSON} (hasRecorder : bool).

(** The admin interface implemented by the client; every other call is made
    as it is. *)
Definition admin (c : Decom.call) : prog ans (Decom.ans c) :=
  match c return prog ans (Decom.ans c) with
  | Decom.SetReadOnly pod ro => SetReadOnly (adminClient (nnNamespace pod)) (nnName pod) ro
  | Decom.TriggerDecommission pod id =>
      TriggerDecommission (adminClient (nnNamespace pod)) (nnName pod) id
  | Decom.HasLedgers pod id => HasLedgers (adminClient (nnNamespace pod)) (nnName pod) id
  | Decom.NoUnderReplicatedLedgers pod =>
      NoUnderReplicatedLedgers (adminClient (nnNamespace pod)) (nnName pod)
  | Decom.RenameCookie pod => RenameCookie (adminClient (nnNamespace pod)) (nnName pod)
  | Decom.IsWritable pod => IsWritable (adminClient (nnNamespace pod)) (nnName pod)
  | Decom.LedgerDiskUsageBelow pod tolerance =>
      LedgerDiskUsageBelow (adminClient (nnNamespace pod)) (nnName pod) tolerance
  | c => perform ans (Core c)
  end.

Definition deployedReconcile (req : NamespacedName) : prog ans (res Result) :=
  hoist admin (Decom.Reconcile hasRecorder req).

(** * Histories of the deployed controller *)

(** What the controller did besides talking to the pods. *)
Definition coreEvent (e : event) : option (Effects.event Decom.ans) :=
  match e with
  | Ev c x =>
      match c return ans c → option (Effects.event Decom.ans) with
      | Core c => λ x, Some (Ev c x)
      | Stream _ _ _ _ => λ _, None
      end x
  end.
Definition core (t : list event) : list (Effects.event Decom.ans) := omap coreEvent t.

(** The assumption of DecommissionProps.v, on the calls that are not execs. *)
Definition relyDeployed (h : list event) (e : event) : Prop :=
  match coreEvent e with Some e' => rely (core h) e' | None => True end.

Inductive deployed : list event → Prop :=
| deployed_start : deployed []
| deployed_reconcile h req t :
    deployed h → part (deployedReconcile req) t → relies relyDeployed h t → deployed (h ++ t).

(** ** The implementation of one call *)

Definition isAdmin (c : Decom.call) : bool :=
  match c with
  | Decom.SetReadOnly _ _ | Decom.TriggerDecommission _ _ | Decom.HasLedgers _ _
  | Decom.NoUnderReplicatedLedgers _ | Decom.RenameCookie _ | Decom.IsWritable _
  | Decom.LedgerDiskUsageBelow _ _ => true
  | _ => false
  end.

Definition isStream (c : call) : Prop :=
  match c with Stream _ _ _ _ => True | Core _ => False end.

Lemma admin_streams c : isAdmin c = true → only isStream (admin c).
Proof. destruct c; simpl; try done; intros _; split; try done; intros []; simpl; auto. Qed.

Lemma admin_part c seg :
  part (admin c) seg →
  (isAdmin c = true ∧ Forall (λ e, isStream (ev_call e)) seg) ∨
  (isAdmin c = false ∧ (seg = [] ∨ ∃ x, seg = [Ev (Core c) x] ∧ runs (admin c) seg x)).
Proof.
  intros Hp. destruct (isAdmin c) eqn:E.
  - left. split; [done|]. by eapply only_part, Hp; apply admin_streams.
  - right. split; [done|].
    destruct c; try done; simpl in Hp;
      (destruct Hp as [->|(x & t & -> & ->)]; [by left|right; exists x; split; [done|]; by exists x, []]).
Qed.

Lemma core_streams seg : Forall (λ e, isStream (ev_call e)) seg → core seg = [].
Proof. induction 1 as [|[[] x] seg]; simpl; try done. Qed.

Lemma torn_core c seg : torn admin c seg → core seg = [].
Proof.
  intros [[[_ Hs]|[_ [->|(x & -> & Hr)]]]%admin_part Hn]; [by apply core_streams|done|].
  by destruct (Hn x).
Qed.

Lemma runs_core c seg x :
  runs (admin c) seg x →
  (isAdmin c = true ∧ core seg = []) ∨ (isAdmin c = false ∧ seg = [Ev (Core c) x]).
Proof.
  intros Hr. pose proof (runs_part _ _ _ Hr) as [[E Hs]|[E _]]%admin_part; [left|right].
  - split; [done|]. by apply core_streams.
  - split; [done|]. destruct c; try done; simpl in Hr;
      by destruct Hr as (y & t & -> & -> & ->).
Qed.

(** ** What is read back *)

Lemma record_admin s c x : isAdmin c = true → record s (Ev c x) = s.
Proof. by destruct c. Qed.

Lemma store_core t1 t2 : refines admin t1 t2 → ∀ s, foldl record s t1 = foldl record s (core t2).
Proof.
  induction 1 as [|c x seg t1 t2 Hs Hr IH|c seg t1 t2 Hs Hr IH]; intros s; [done| |];
    unfold core; rewrite omap_app; fold (core seg) (core t2).
  - cbn [foldl]. apply runs_core in Hs as [[E ->]|[E ->]].
    + rewrite record_admin by done. apply IH.
    + apply IH.
  - rewrite (torn_core _ _ Hs). apply IH.
Qed.

Lemma rely_store h h' e : store h = store h' → rely h e → rely h' e.
Proof. intros E. destruct e as [[] x]; simpl; try done. by rewrite E. Qed.

Lemma relies_refined h1 h2 t1 t2 :
  refines admin h1 h2 → refines admin t1 t2 → relies relyDeployed h2 t2 → relies rely h1 t1.
Proof.
  intros Hh Ht. revert h1 h2 Hh.
  induction Ht as [|c x seg t1 t2 Hs Hr IH|c seg t1 t2 Hs Hr IH]; intros h1 h2 Hh; simpl; [done| |];
    intros [Hseg Hrest]%relies_app.
  - split.
    + apply runs_core in Hs as [[E _]|[E ->]]; [by destruct c|].
      destruct Hseg as [Hx _]. apply (rely_store (core h2) h1 (Ev c x)); [|exact Hx].
      symmetry. by apply store_core.
    + eapply IH, Hrest. apply refines_app; [done|].
      rewrite <- (app_nil_r seg). apply refines_cons; [done|constructor].
  - eapply IH, Hrest. rewrite <- (app_nil_r h1). apply refines_app; [done|].
    rewrite <- (app_nil_r seg). eapply refines_torn; [done|constructor].
Qed.

(** The deployed controller refines the controller over the admin interface. *)
Lemma deployed_history h2 :
  deployed h2 → ∃ h1, history hasRecorder h1 ∧ refines admin h1 h2.
Proof.
  induction 1 as [|h req t _ (h1 & Hh & Hr) Hp Hrel]; [by exists []; repeat constructor|].
  apply part_hoist in Hp as (t1 & Hp & Ht).
  exists (h1 ++ t1). split; [|by apply refines_app].
  eapply history_reconcile; [done|done|by eapply relies_refined].
Qed.

(** * Evidence at the level of the pods *)

(** The command was run in the bookie's container, with this outcome. *)
Definition ran (k : NamespacedName) (ord : Z) (command : string) (r : StreamReply) : event :=
  Ev (Stream (nnNamespace k) (podOf k ord) BookieCtl.bookieContainerName (bash command)) r.

Definition theClient (k : NamespacedName) : PodExecAdminClient := adminClient (nnNamespace k).

(** [decommissionbookie] succeeded, or it failed and [recover] succeeded. *)
Definition triggeredBy (k : NamespacedName) (ord : Z) (l : list event) : Prop :=
  ∃ out, l = [ran k ord (decommissionCommand (idOf k ord)) (Streamed out)] ∨
    ∃ r, (∀ out', r ≠ Streamed out') ∧
      l = [ran k ord (decommissionCommand (idOf k ord)) r;
           ran k ord (recoverCommand (idOf k ord)) (Streamed out)].

(** The bookie was made read-only, its decommission was triggered, the
    listing of its ledgers showed none and no error, and the cluster said it
    has no under-replicated ledger: the commands and what they printed. *)
Definition drainedBy (k : NamespacedName) (ord : Z) (l : list event) : Prop :=
  ∃ o1 trig o3 o4,
    l = ran k ord (readOnlyCommand (theClient k) true) (Streamed o1) :: trig ++
        [ran k ord (listLedgersCommand (idOf k ord)) (Streamed o3);
         ran k ord (underReplicatedCommand (theClient k)) (Streamed o4)] ∧
    triggeredBy k ord trig ∧ ledgersListed o3 = false ∧ noneUnderReplicated o4 = true.

Lemma runs_execOr_ok {A} c podName command msg (f : string → res A) t a :
  runs (execOr c podName command msg f) t (Ok a) →
  ∃ out, t = [Ev (Stream (Namespace c) podName (ContainerName c) (bash command)) (Streamed out)] ∧
    f out = Ok a.
Proof.
  intros (x & t' & -> & -> & E). destruct x as [e|o e' e|o]; try done.
  by exists o.
Qed.

Lemma runs_TriggerDecommission_ok c podName id t :
  runs (TriggerDecommission c podName id) t (Ok tt) →
  ∃ out, t = [Ev (Stream (Namespace c) podName (ContainerName c)
                   (bash (decommissionCommand id))) (Streamed out)] ∨
    ∃ r, (∀ out', r ≠ Streamed out') ∧
      t = [Ev (Stream (Namespace c) podName (ContainerName c) (bash (decommissionCommand id))) r;
           Ev (Stream (Namespace c) podName (ContainerName c) (bash (recoverCommand id))) (Streamed out)].
Proof.
  intros (x & t' & -> & H). destruct x as [e|o e' e|o]; simpl in H.
  1,2: destruct H as (y & t & -> & -> & H); destruct y as [?|? ? ?|o']; try done;
    exists o'; right; eexists; (split; [|reflexivity]); done.
  destruct H as [-> _]. exists o. by left.
Qed.

Lemma implements_drained k ord l :
  implements admin (evDrained k ord) l → drainedBy k ord l.
Proof.
  intros (s1 & t1 & -> & H1 & s2 & t2 & -> & H2 & s3 & t3 & -> & H3 & s4 & t4 & -> & H4 & ->).
  apply runs_execOr_ok in H1 as (o1 & -> & _), H3 as (o3 & -> & E3), H4 as (o4 & -> & E4).
  apply runs_TriggerDecommission_ok in H2 as (o2 & H2).
  exists o1, s2, o3, o4. split_and!; [by rewrite app_nil_r| |by injection E3|by injection E4].
  by exists o2.
Qed.

Definition renames (c : call) : Prop :=
  match c with
  | Stream ns _ _ command => command = bash (renameCommand (adminClient ns))
  | Core _ => False
  end.

Lemma renames_not c : (∀ pod, c ≠ Decom.RenameCookie pod) → only (λ c, ¬ renames c) (admin c).
Proof.
  destruct c; intros H; simpl; try (by split; [intros []|]); try (by destruct (H pod));
    (split; [done|]; intros []; try done; simpl; split; try done; intros []; done).
Qed.

(** The only admin call that renames a cookie is [RenameCookie], and it does
    nothing else. *)
Lemma renames_only c pre e post :
  renames (ev_call e) → part (admin c) (pre ++ e :: post) →
  ∃ pod, c = Decom.RenameCookie pod ∧ pre = [] ∧ post = [] ∧
    ev_call e = Stream (nnNamespace pod) (nnName pod) BookieCtl.bookieContainerName
                  (bash (renameCommand (adminClient (nnNamespace pod)))).
Proof.
  intros He Hp.
  assert ((∃ pod, c = Decom.RenameCookie pod) ∨ ∀ pod, c ≠ Decom.RenameCookie pod) as [[pod ->]|Hc].
  { destruct c; (by right) || (left; eauto). }
  - exists pod. destruct pre as [|e' [|]]; destruct Hp as [?|(x & t & E & H)]; simplify_eq/=; done.
  - eapply only_part, Forall_app in Hp as [_ Hp]; [|by apply renames_not].
    by inversion Hp.
Qed.

(** C1: The cookie of a bookie is moved away only after its drain, told by the
    pods.  Whenever any history of the deployed controller, crashes included,
    runs the command that renames a cookie, it runs it in the container of a
    bookie for which the controller had persisted the attempt and since then,
    in this order, had run the commands: read-only was set, the decommission
    (or its fallback) succeeded, the ledger listing printed neither a ledger
    nor one of its errors, and the under-replication listing said there is
    none. *)
Theorem cookie_moved_only_after_drain h1 e h2 :
  deployed (h1 ++ e :: h2) → renames (ev_call e) →
  ∃ k ord bk0 d0 x l,
    ev_call e = Stream (nnNamespace k) (podOf k ord) BookieCtl.bookieContainerName
                  (bash (renameCommand (theClient k))) ∧
    bkKey bk0 = k ∧ stDecommission (bkStatus bk0) = Some d0 ∧
    dPhase d0 = PhaseVerifying ∧ dTargetOrdinal d0 = Some ord ∧
    drainedBy k ord l ∧
    Ev (Core (Decom.StatusUpdate bk0)) (Ok x) :: l `sublist_of` h1.
Proof.
  intros (t1 & Hh & Hr)%deployed_history He.
  apply refines_at in Hr as (ta & a' & pre & post & c & -> & Hra & Hp & Hc).
  destruct (renames_only _ _ _ _ He Hp) as (pod & -> & -> & -> & E).
  assert (∃ x tb, t1 = ta ++ Ev (Decom.RenameCookie pod) x :: tb) as (x & tb & ->).
  { destruct Hc as [(x & tb & -> & _)|[_ Hn]]; [eauto|]. destruct e as [c y].
    simpl in E. subst c. exfalso. eapply Hn. simpl. by eexists y, []. }
  destruct (history_at _ _ _ _ _ Hh) as (k & ord & -> & h0 & bk0 & d0 & y & hs & -> & Hk & Hd & Hph & Hord & Hs & _).
  apply refines_sublist with (l := Ev (Decom.StatusUpdate bk0) (Ok y) :: evDrained k ord) in Hra
    as (l2 & (seg & l & -> & Hseg & Hl) & Hl2);
    [|by apply sublist_inserts_l, sublist_skip].
  apply runs_core in Hseg as [[? _]|[_ ->]]; [done|].
  exists k, ord, bk0, d0, y, l. rewrite app_nil_r.
  split_and!; [done..|by apply implements_drained|done].
Qed.

End Deployed.

(** * Readings *)

(** An output that names no ledger and none of the known errors counts as "no
    ledgers", whatever it says otherwise; so does an empty one. *)
Lemma ledgersListed_false out :
  ledgersListed out = false ↔
  Contains out "Unable to read the ledger" = false ∧
  Contains out "Received error return value while processing ledgers" = false ∧
  Contains out "Received Exception while processing ledgers" = false ∧
  Contains out "ledgerID: " = false.
Proof.
  unfold ledgersListed. destruct (Contains out "Unable to read the ledger"),
    (Contains out "Received error return value while processing ledgers"),
    (Contains out "Received Exception while processing ledgers"); simpl; naive_solver.
Qed.

Example empty_listing_is_no_ledgers : ledgersListed "" = false.
Proof. reflexivity. Qed.

(** A failed command is an error of every operation but the trigger, which
    fails only if the fallback fails as well: no failure is a reading. *)
Lemma runs_execOr_failed {A} c podName command msg (f : string → res A) t r a :
  runs (execOr c podName command msg f)
    (Ev (Stream (Namespace c) podName (ContainerName c) (bash command)) r :: t) a →
  (∀ out, r ≠ Streamed out) → ∃ e, a = Err (Errorf msg e).
Proof.
  intros H Hr. apply runs_Vis in H. destruct H as [_ ->]. destruct r; eauto. by destruct (Hr stdout).
Qed.

(** * A complete decommission, down to the pods *)

Module PodExecDemo.

Definition stateText : string := "running".
Definition infoText : string := "half full".

Definition demoJSON : AdminJSON := {|
  UnmarshalState out :=
    if String.eqb out stateText then Ok (mkState true false false) else Err (ErrPlain "state");
  UnmarshalInfo out :=
    if String.eqb out infoText then Ok (mkInfo 500 1000) else Err (ErrPlain "info")
|}.

(** A healthy pod: [decommissionbookie] is not available in it, so the
    fallback is used. *)
Definition reply (command : string) : StreamReply :=
  let c := adminClient "ns" in
  if String.eqb command (stateCommand c) then Streamed stateText
  else if String.eqb command (infoCommand c) then Streamed infoText
  else if String.eqb command (underReplicatedCommand c) then
    Streamed "No under replicated ledgers found"
  else if HasPrefix command "bin/bookkeeper shell decommissionbookie" then
    StreamFailed "" "no such command" (ErrPlain "exit status 1")
  else Streamed "".

Definition serve (c : call) (s : BookKeeper) : ans c * BookKeeper :=
  match c return ans c * BookKeeper with
  | Core c => DecomDemo.serve c s
  | Stream _ _ _ command => (reply (List.last command ""), s)
  end.

Definition reconcile : prog ans (res Result) :=
  @deployedReconcile refApiMeta demoJSON true (mkNN "ns" "bk").

Fixpoint reconciles (n : nat) (s : BookKeeper) : BookKeeper * list event :=
  match n with
  | O => (s, [])
  | S n => let '(_, s', t) := Effects.exec serve reconcile s in
           let '(s'', t') := reconciles n s' in (s'', t ++ t')
  end.

(** The deployed controller also ends one bookie smaller, after the same
    eight reconciles. *)
Example demo_deployed_completes :
  let s := (reconciles 8 DecomDemo.demoBK).1 in
  (Replicas (bkSpec s), stDecommission (bkStatus s)) = (Some 3, None).
Proof. by vm_compute. Qed.

Lemma reconciles_deployed n s h :
  @deployed refApiMeta demoJSON true h → relies relyDeployed h (reconciles n s).2 →
  @deployed refApiMeta demoJSON true (h ++ (reconciles n s).2).
Proof.
  revert s h. induction n as [|n IH]; intros s h Hh; cbn [reconciles]; [by rewrite app_nil_r|].
  pose proof (exec_runs serve reconcile s) as Hr.
  destruct (Effects.exec serve reconcile s) as [[r s'] t]. specialize (IH s' (h ++ t)).
  destruct (reconciles n s') as [s'' t']. cbn [fst snd] in *. rewrite (assoc_L (++)).
  intros [? ?]%relies_app. apply IH; [|done].
  apply deployed_reconcile with (mkNN "ns" "bk"); [done| |done]. exact (runs_part _ _ _ Hr).
Qed.

Definition demoTrace : list event := (reconciles 8 DecomDemo.demoBK).2.

Lemma demo_deployed : @deployed refApiMeta demoJSON true demoTrace.
Proof.
  apply (reconciles_deployed 8 DecomDemo.demoBK []); [constructor|]. vm_compute. repeat split.
Qed.

Fixpoint indexOf (f : call → bool) (t : list event) : nat :=
  match t with
  | [] => 0
  | e :: t => if f (ev_call e) then 0 else S (indexOf f t)
  end%nat.

Definition isRename (c : call) : bool :=
  match c with
  | Stream _ _ _ command => bool_decide (command = bash (renameCommand (adminClient "ns")))
  | Core _ => false
  end.

Definition renameEvent : event :=
  Ev (Stream "ns" "bk-3" "bookie" (bash (renameCommand (adminClient "ns")))) (Streamed "").
Definition renameIndex : nat := Eval vm_compute in indexOf isRename demoTrace.

Lemma demo_rename_at : demoTrace !! renameIndex = Some renameEvent.
Proof. by vm_compute. Qed.

Lemma cookie_moved_only_after_drain_witness :
  ∃ k ord l, drainedBy k ord l ∧ l `sublist_of` take renameIndex demoTrace.
Proof.
  pose proof demo_deployed as H. rewrite <- (take_drop_middle _ _ _ demo_rename_at) in H.
  destruct (@cookie_moved_only_after_drain refApiMeta demoJSON true _ _ _ H eq_refl)
    as (k & ord & bk0 & d0 & x & l & _ & _ & _ & _ & _ & Hl & Hs).
  exists k, ord, l. split; [exact Hl|]. etransitivity; [|exact Hs]. by apply sublist_cons.
Defined.

End PodExecDemo.

End PodExec.
