(* ===== verification/ProxyCtl.v ===== *)
(** The Proxy controller (controller/cluster/proxy_controller.go): the
    ConfigMap, headless Service, StatefulSet and PodDisruptionBudget of a
    Proxy, its Ready condition, and the refusal to serve without the
    certificate that TLS needs. *)

From S2P Require Import Prelude Effects Kube BackupTypes Config Rollout Workload ClusterTypes MetadataInit.
Open Scope Z_scope.
Open Scope go_scope.

Module ProxyCtl.
Import Rollout MetadataInit Workload Cluster.

Definition portNameHTTP : string := "http".
Definition cmdBinPulsar : string := "bin/pulsar".
Definition proxyComponent : string := "proxy".
Definition proxyDefaultImage : string := "apachepulsar/pulsar:5.0.0-M1".
Definition proxyDefaultReplicas : Z := 1.
Definition proxyPulsarPort : Z := 6650.
Definition proxyHTTPPort : Z := 8080.
Definition proxyPulsarTLSPort : Z := 6651.
Definition proxyHTTPSPort : Z := 8443.
Definition proxyConfigFileName : string := "proxy.conf".
Definition proxyConfigMountPath : string := "/pulsar/conf/" ++! proxyConfigFileName.
Definition proxyConfigVolume : string := "config".
Definition configKeyStatusFilePath : string := "statusFilePath".
Definition proxyStatusFilePath : string := "/pulsar/logs/status".
Definition proxyTLSVolume : string := "tls-certs".
Definition proxyTLSMountPath : string := "/pulsar/certs/proxy".
Definition proxyTLSCertPath : string := proxyTLSMountPath ++! "/tls.crt".
Definition proxyTLSKeyPath : string := proxyTLSMountPath ++! "/tls.key".
Definition reasonTLSMisconfigured : string := "TLSMisconfigured".

Abbreviation Proxy := (Resource ProxySpec).

Definition proxyConfigMapName (proxy : Proxy) : string := rsName proxy ++! "-config".

Definition proxyImage (specImage : string) : string :=
  if negb (String.eqb specImage "") then specImage else proxyDefaultImage.

Definition proxyReplicas (spec : ProxySpec) : Z := default proxyDefaultReplicas (pxReplicas spec).

(** * TLS *)

Definition proxyTLSWired (tls : option ProxyTlsConfig) : bool :=
  match tls with
  | Some t => tlsEnabled t && negb (String.eqb (tlsSecretName t) "")
  | None => false
  end.

Definition proxyTLSMisconfigured (spec : ProxySpec) : bool :=
  match pxTls spec with
  | Some t => tlsEnabled t && String.eqb (tlsSecretName t) ""
  | None => false
  end.

(** * Configuration *)

Definition proxyDefaultConfig : gmap string string :=
  {[ configKeyMetadataStoreURL := "";
     configKeyConfigurationMetadataStoreURL := "";
     "bindAddress" := "0.0.0.0";
     "servicePort" := %d proxyPulsarPort;
     "webServicePort" := %d proxyHTTPPort ]}.

(** A nil map is an empty one to [Merge]. *)
Definition proxyTLSDefaultConfig (tls : option ProxyTlsConfig) : gmap string string :=
  if negb (proxyTLSWired tls) then ∅
  else
    {[ "servicePortTls" := %d proxyPulsarTLSPort;
       "webServicePortTls" := %d proxyHTTPSPort;
       "tlsCertificateFilePath" := proxyTLSCertPath;
       "tlsKeyFilePath" := proxyTLSKeyPath ]}.

Definition proxyMergedConfig (spec : ProxySpec) : gmap string string :=
  let merged := Merge proxyDefaultConfig (proxyTLSDefaultConfig (pxTls spec)) in
  let merged := Merge merged (pxConfig spec) in
  <[configKeyStatusFilePath := proxyStatusFilePath]> merged.

(** * Pods *)

Definition proxyContainerPorts (tls : option ProxyTlsConfig) : list ContainerPort :=
  let ports := [mkCPort "pulsar" proxyPulsarPort; mkCPort portNameHTTP proxyHTTPPort] in
  if proxyTLSWired tls then
    ports ++ [mkCPort "pulsarssl" proxyPulsarTLSPort; mkCPort "https" proxyHTTPSPort]
  else ports.

Definition proxyServicePorts (tls : option ProxyTlsConfig) : list ServicePort :=
  let ports :=
    [mkSPort "pulsar" proxyPulsarPort (FromInt32 proxyPulsarPort);
     mkSPort portNameHTTP proxyHTTPPort (FromInt32 proxyHTTPPort)] in
  if proxyTLSWired tls then
    ports ++
    [mkSPort "pulsarssl" proxyPulsarTLSPort (FromInt32 proxyPulsarTLSPort);
     mkSPort "https" proxyHTTPSPort (FromInt32 proxyHTTPSPort)]
  else ports.

Definition proxyProbe : Probe := mkProbe (HTTPGet "/status.html" proxyHTTPPort) 10 10 5 3.

Definition proxyVolumes (proxy : Proxy) (tls : option ProxyTlsConfig) : list Volume :=
  let volumes := [mkVolume proxyConfigVolume (ConfigMapSource (proxyConfigMapName proxy))] in
  match tls with
  | Some t =>
      if proxyTLSWired tls then volumes ++ [mkVolume proxyTLSVolume (SecretSource (tlsSecretName t) [])]
      else volumes
  | None => volumes
  end.

Definition proxyVolumeMounts (tls : option ProxyTlsConfig) : list VolumeMount :=
  let mounts := [mkMount proxyConfigVolume proxyConfigMountPath proxyConfigFileName false] in
  if proxyTLSWired tls then mounts ++ [mkMount proxyTLSVolume proxyTLSMountPath "" true] else mounts.

Section Reconciler.
(** [recorder]: whether the reconciler has an event recorder. *)
Context `{AM : !ApiMeta} (sha256hex : string → string) (recorder : bool).

(** The pod template, from the annotations of the live one. *)
Definition proxyTemplate (proxy : Proxy) (labels selector annotations : gmap string string)
    (renderedConf : string) : PodTemplate :=
  let spec := rsSpec proxy in
  mkTemplate labels (WithConfigChecksum sha256hex annotations [renderedConf]) "" None
    (Some (PodAntiAffinity false selector)) (ZoneTopologySpreadConstraints selector)
    [mkContainer proxyComponent (proxyImage (pxImage spec)) ["sh"; "-c"]
       ["echo OK > " ++! proxyStatusFilePath ++! " && exec " ++! cmdBinPulsar ++! " proxy"]
       (proxyContainerPorts (pxTls spec)) [] (pxResources spec) (proxyVolumeMounts (pxTls spec))
       (Some proxyProbe) (Some proxyProbe) None []]
    (proxyVolumes proxy (pxTls spec)).

(** * Handlers *)

Abbreviation M A := (prog (@ans Proxy) A).

Definition reconcileConfigMap (proxy : Proxy) (labels : gmap string string) (renderedConf : string) :
    M (res unit) :=
  createOrUpdate KConfigMap (mkNN (rsNamespace proxy) (proxyConfigMapName proxy)) (rsUID proxy)
    (set_cm labels {[ proxyConfigFileName := renderedConf ]}).

Definition reconcileHeadlessService (proxy : Proxy) (labels selector : gmap string string) : M (res unit) :=
  createOrUpdate KService (rsKey proxy) (rsUID proxy)
    (set_headless (HeadlessService (rsName proxy) (rsNamespace proxy) labels selector
                     (proxyServicePorts (pxTls (rsSpec proxy))))).

Definition reconcileStatefulSet (proxy : Proxy) (labels selector : gmap string string) (replicas : Z)
    (renderedConf : string) : M (res WorkloadObject) :=
  perform (@ans Proxy) (CreateOrUpdate KStatefulSet (rsKey proxy) (rsUID proxy)
    (λ sts, mkWorkload (wKey sts) (wOwner sts) (wGeneration sts) (wResourceVersion sts) labels
              (Some replicas) (rsName proxy) "Parallel" (Some selector)
              (proxyTemplate proxy labels selector (ptAnnotations (wTemplate sts)) renderedConf)
              (wVolumeClaimTemplates sts) (wStatus sts))).

Definition reconcilePDB (proxy : Proxy) (labels selector : gmap string string) : M (res unit) :=
  let name := rsName proxy ++! "-pdb" in
  createOrUpdate KPDB (mkNN (rsNamespace proxy) name) (rsUID proxy)
    (set_pdb (PodDisruptionBudget name (rsNamespace proxy) labels selector (FromInt32 1))).

Definition tlsMisconfiguredMessage : string :=
  "tls.enabled=true but tls.secretName is empty; refusing to serve the proxy plaintext-only".

Definition reportTLSMisconfigured (proxy : Proxy) : M (res Result) :=
  (let! _ :=
     if recorder then
       perform (@ans Proxy)
         (Eventf EventTypeWarning reasonTLSMisconfigured "RefusePlaintext" tlsMisconfiguredMessage)
     else Ret tt in
   try! ["tearing down plaintext Proxy StatefulSet"] _ :=
     deleteIgnoringNotFound KStatefulSet (rsKey proxy) in
   let st := rsStatus proxy in
   let st' := mkStatus (stReplicas st) (stReadyReplicas st) (rsGeneration proxy)
                (setCond (stConditions st)
                   (newCondition conditionTypeReady ConditionFalse (rsGeneration proxy)
                      reasonTLSMisconfigured tlsMisconfiguredMessage)) in
   try! ["updating Proxy status"] _ := perform ans (UpdateStatus (set_rsStatus st' proxy)) in
   Ret (Ok emptyResult))%prog.

Definition Reconcile (req : NamespacedName) : M (res Result) :=
  (let! got := perform (@ans Proxy) (GetResource req) in
   match got with
   | Err e => Ret (ignore_not_found e)
   | Ok proxy =>
       if proxyTLSMisconfigured (rsSpec proxy) then reportTLSMisconfigured proxy
       else
         let labels := Labels (rsName proxy) proxyComponent in
         let selector := SelectorLabels (rsName proxy) proxyComponent in
         let renderedConf := RenderProperties (proxyMergedConfig (rsSpec proxy)) in
         try! _ := reconcileConfigMap proxy labels renderedConf in
         try! _ := reconcileHeadlessService proxy labels selector in
         let desiredReplicas := proxyReplicas (rsSpec proxy) in
         try! sts := reconcileStatefulSet proxy labels selector desiredReplicas renderedConf in
         try! _ := reconcilePDB proxy labels selector in
         let st' := mkStatus (wsReplicas (wStatus sts)) (wsReadyReplicas (wStatus sts)) (rsGeneration proxy)
                      (setCond (stConditions (rsStatus proxy))
                         (workloadReadyCondition (rsGeneration proxy) desiredReplicas
                            (statefulSetRollout sts) proxyComponent)) in
         try! ["updating Proxy status"] _ := perform ans (UpdateStatus (set_rsStatus st' proxy)) in
         Ret (Ok emptyResult)
   end)%prog.

End Reconciler.
End ProxyCtl.
