(* ===== verification/AutoRecoveryCtl.v ===== *)
(** The AutoRecovery controller (controller/cluster/autorecovery_controller.go):
    a Deployment of the autorecovery daemon in dedicated mode, nothing but the
    clean-up of one in embedded mode. *)

From S2P Require Import Prelude Effects Kube BackupTypes Config Rollout Workload ClusterTypes ProxyCtl.
Open Scope Z_scope.
Open Scope go_scope.

Module AutoRecoveryCtl.
Import Rollout Workload Cluster.

Definition autoRecoveryComponent : string := "autorecovery".
Definition autoRecoverySubcommand : string := "autorecovery".
Definition autoRecoveryModeEmbedded : string := "embedded".
Definition autoRecoveryModeDedicated : string := "dedicated".
Definition autoRecoveryDefaultImage : string := "apachepulsar/pulsar:5.0.0-M1".
Definition autoRecoveryDefaultReplicas : Z := 1.
Definition autoRecoveryHTTPPort : Z := 8000.
Definition autoRecoveryConfigFileName : string := "bookkeeper.conf".
Definition autoRecoveryConfigMountPath : string := "/pulsar/conf/" ++! autoRecoveryConfigFileName.
Definition autoRecoveryConfigVolume : string := "config".
Definition autoRecoveryKeyMetadataServiceURI : string := "metadataServiceUri".

Abbreviation AutoRecovery := (Resource AutoRecoverySpec).

Definition autoRecoveryConfigMapName (ar : AutoRecovery) : string := rsName ar ++! "-config".

Definition autoRecoveryMode (spec : AutoRecoverySpec) : string :=
  if String.eqb (arMode spec) "" then autoRecoveryModeEmbedded else arMode spec.

Definition autoRecoveryImage (specImage : string) : string :=
  if negb (String.eqb specImage "") then specImage else autoRecoveryDefaultImage.

Definition autoRecoveryReplicas (spec : AutoRecoverySpec) : Z :=
  default autoRecoveryDefaultReplicas (arReplicas spec).

Definition autoRecoveryDefaultConfig : gmap string string :=
  {[ autoRecoveryKeyMetadataServiceURI := "";
     "httpServerEnabled" := configValTrue;
     "httpServerPort" := %d autoRecoveryHTTPPort ]}.

Definition autoRecoveryMergedConfig (spec : AutoRecoverySpec) : gmap string string :=
  Merge autoRecoveryDefaultConfig (arConfig spec).

Definition autoRecoveryProbe : Probe := mkProbe (HTTPGet "/heartbeat" autoRecoveryHTTPPort) 10 10 5 3.

Section Reconciler.
Context `{AM : !ApiMeta} (sha256hex : string → string).
Abbreviation M A := (prog (@ans AutoRecovery) A).

Definition autoRecoveryTemplate (ar : AutoRecovery) (labels selector annotations : gmap string string)
    (renderedConf : string) : PodTemplate :=
  mkTemplate labels (WithConfigChecksum sha256hex annotations [renderedConf]) "" None
    (Some (PodAntiAffinity true selector)) (ZoneTopologySpreadConstraints selector)
    [mkContainer autoRecoveryComponent (autoRecoveryImage (arImage (rsSpec ar))) ["bin/bookkeeper"]
       [autoRecoverySubcommand] [mkCPort ProxyCtl.portNameHTTP autoRecoveryHTTPPort] [] (mkResources ∅ ∅)
       [mkMount autoRecoveryConfigVolume autoRecoveryConfigMountPath autoRecoveryConfigFileName false]
       (Some autoRecoveryProbe) (Some autoRecoveryProbe) None []]
    [mkVolume autoRecoveryConfigVolume (ConfigMapSource (autoRecoveryConfigMapName ar))].

Definition reconcileConfigMap (ar : AutoRecovery) (labels : gmap string string) (renderedConf : string) :
    M (res unit) :=
  createOrUpdate KConfigMap (mkNN (rsNamespace ar) (autoRecoveryConfigMapName ar)) (rsUID ar)
    (set_cm labels {[ autoRecoveryConfigFileName := renderedConf ]}).

Definition reconcileDeployment (ar : AutoRecovery) (labels selector : gmap string string) (replicas : Z)
    (renderedConf : string) : M (res WorkloadObject) :=
  perform (@ans AutoRecovery) (CreateOrUpdate KDeployment (rsKey ar) (rsUID ar)
    (λ deploy, mkWorkload (wKey deploy) (wOwner deploy) (wGeneration deploy) (wResourceVersion deploy)
                 labels (Some replicas) (wServiceName deploy) (wPodManagementPolicy deploy) (Some selector)
                 (autoRecoveryTemplate ar labels selector (ptAnnotations (wTemplate deploy)) renderedConf)
                 (wVolumeClaimTemplates deploy) (wStatus deploy))).

Definition reconcilePDB (ar : AutoRecovery) (labels selector : gmap string string) : M (res unit) :=
  createOrUpdate KPDB (rsKey ar) (rsUID ar)
    (set_pdb (PodDisruptionBudget (rsName ar) (rsNamespace ar) labels selector (FromInt32 1))).

(** The Ready condition, and the (Replicas, ReadyReplicas) the status takes. *)
Definition reconcileDedicated (ar : AutoRecovery) : M (res (Condition * (Z * Z))) :=
  let labels := Labels (rsName ar) autoRecoveryComponent in
  let selector := SelectorLabels (rsName ar) autoRecoveryComponent in
  let renderedConf := RenderProperties (autoRecoveryMergedConfig (rsSpec ar)) in
  (try! _ := reconcileConfigMap ar labels renderedConf in
   let desiredReplicas := autoRecoveryReplicas (rsSpec ar) in
   try! deploy := reconcileDeployment ar labels selector desiredReplicas renderedConf in
   try! _ := reconcilePDB ar labels selector in
   Ret (Ok (workloadReadyCondition (rsGeneration ar) desiredReplicas (deploymentRollout deploy)
              autoRecoveryComponent,
            (wsReplicas (wStatus deploy), wsReadyReplicas (wStatus deploy)))))%prog.

Definition reconcileEmbedded (ar : AutoRecovery) : M (res (Condition * (Z * Z))) :=
  (try! ["deleting stale dedicated Deployment"] _ := deleteChildIfExists KDeployment (rsKey ar) in
   try! ["deleting stale dedicated ConfigMap"] _ :=
     deleteChildIfExists KConfigMap (mkNN (rsNamespace ar) (autoRecoveryConfigMapName ar)) in
   try! ["deleting stale dedicated PodDisruptionBudget"] _ := deleteChildIfExists KPDB (rsKey ar) in
   Ret (Ok (newCondition conditionTypeReady ConditionTrue (rsGeneration ar) "EmbeddedMode"
              "autorecovery runs embedded in bookie pods; the operator manages no dedicated workload",
            (0, 0))))%prog.

Definition Reconcile (req : NamespacedName) : M (res Result) :=
  (let! got := perform (@ans AutoRecovery) (GetResource req) in
   match got with
   | Err e => Ret (ignore_not_found e)
   | Ok ar =>
       try! out :=
         if String.eqb (autoRecoveryMode (rsSpec ar)) autoRecoveryModeDedicated then reconcileDedicated ar
         else reconcileEmbedded ar in
       let '(condition, (replicas, ready)) := out in
       let st' := mkStatus replicas ready (rsGeneration ar)
                    (setCond (stConditions (rsStatus ar)) condition) in
       try! ["updating AutoRecovery status"] _ := perform ans (UpdateStatus (set_rsStatus st' ar)) in
       Ret (Ok emptyResult)
   end)%prog.

End Reconciler.
End AutoRecoveryCtl.
