(* ===== verification/FunctionsCtl.v ===== *)
(** The FunctionsWorker controller (controller/cluster/functionsworker_controller.go):
    a StatefulSet of workers in standalone mode; in colocated mode the
    clean-up of one and the readiness of the Broker the workers run in. *)

From S2P Require Import Prelude Effects Kube BrokerScale BackupTypes Config Rollout Workload ClusterTypes Umbrella FunctionsConf ProxyCtl.
Open Scope Z_scope.
Open Scope go_scope.

Module FunctionsCtl.
Import Rollout Workload Cluster FunctionsConf.

Definition functionsWorkerComponent : string := Umbrella.functionsWorkerComponent.
Definition functionsWorkerNoun : string := "functions worker".
Definition functionsWorkerDefaultImage : string := "apachepulsar/pulsar:5.0.0-M1".
Definition functionsWorkerDefaultReplicas : Z := 1.
Definition functionsWorkerConfigVolume : string := "config".
Definition pulsarClusterOwnerKind : string := "PulsarCluster".

Abbreviation FunctionsWorker := (Resource FunctionsWorkerSpec).

Definition functionsWorkerConfigMapName (fw : FunctionsWorker) : string := rsName fw ++! "-config".

Definition functionsWorkerImage (specImage : string) : string :=
  if negb (String.eqb specImage "") then specImage else functionsWorkerDefaultImage.

Definition functionsWorkerReplicas (spec : FunctionsWorkerSpec) : Z :=
  default functionsWorkerDefaultReplicas (fwReplicas spec).

Definition functionsWorkerServicePorts : list ServicePort :=
  [mkSPort ProxyCtl.portNameHTTP functionsWorkerPort (FromInt32 functionsWorkerPort)].

Definition functionsWorkerProbe : Probe := mkProbe (TCPSocket functionsWorkerPort) 10 10 5 3.

(** The request a change of a Broker enqueues. *)
Definition enqueueFunctionsWorkerForBroker {Spec} (broker : Resource Spec) : list NamespacedName :=
  match rsController broker with
  | Some (kind, name) =>
      if String.eqb kind pulsarClusterOwnerKind then
        [mkNN (rsNamespace broker) (childName name functionsWorkerComponent)]
      else []
  | None => []
  end.

Section Reconciler.
Context `{AM : !ApiMeta} (sha256hex : string → string) (yamlMarshal : gmap string string → res string).
Abbreviation M A := (prog (@ans FunctionsWorker) A).

Definition functionsWorkerTemplate (fw : FunctionsWorker) (labels selector annotations : gmap string string)
    (renderedConf : string) : PodTemplate :=
  mkTemplate labels (WithConfigChecksum sha256hex annotations [renderedConf]) "" None
    (Some (PodAntiAffinity false selector)) (ZoneTopologySpreadConstraints selector)
    [mkContainer functionsWorkerComponent (functionsWorkerImage (fwImage (rsSpec fw)))
       [ProxyCtl.cmdBinPulsar] ["functions-worker"] [mkCPort ProxyCtl.portNameHTTP functionsWorkerPort] []
       (mkResources ∅ ∅)
       [mkMount functionsWorkerConfigVolume functionsWorkerConfigMountPath functionsWorkerConfigFileName
          false]
       (Some functionsWorkerProbe) (Some functionsWorkerProbe) None []]
    [mkVolume functionsWorkerConfigVolume (ConfigMapSource (functionsWorkerConfigMapName fw))].

Definition reconcileConfigMap (fw : FunctionsWorker) (labels : gmap string string) (renderedConf : string) :
    M (res unit) :=
  createOrUpdate KConfigMap (mkNN (rsNamespace fw) (functionsWorkerConfigMapName fw)) (rsUID fw)
    (set_cm labels {[ functionsWorkerConfigFileName := renderedConf ]}).

Definition reconcileHeadlessService (fw : FunctionsWorker) (labels selector : gmap string string) :
    M (res unit) :=
  createOrUpdate KService (rsKey fw) (rsUID fw)
    (set_headless (HeadlessService (rsName fw) (rsNamespace fw) labels selector
                     functionsWorkerServicePorts)).

Definition reconcileStatefulSet (fw : FunctionsWorker) (labels selector : gmap string string) (replicas : Z)
    (renderedConf : string) : M (res WorkloadObject) :=
  perform (@ans FunctionsWorker) (CreateOrUpdate KStatefulSet (rsKey fw) (rsUID fw)
    (λ sts, mkWorkload (wKey sts) (wOwner sts) (wGeneration sts) (wResourceVersion sts) labels
              (Some replicas) (rsName fw) "Parallel" (Some selector)
              (functionsWorkerTemplate fw labels selector (ptAnnotations (wTemplate sts)) renderedConf)
              (wVolumeClaimTemplates sts) (wStatus sts))).

Definition pdbName (fw : FunctionsWorker) : string := rsName fw ++! "-pdb".

Definition reconcilePDB (fw : FunctionsWorker) (labels selector : gmap string string) : M (res unit) :=
  createOrUpdate KPDB (mkNN (rsNamespace fw) (pdbName fw)) (rsUID fw)
    (set_pdb (PodDisruptionBudget (pdbName fw) (rsNamespace fw) labels selector (FromInt32 1))).

(** The Ready condition, and the (Replicas, ReadyReplicas) the status takes. *)
Definition reconcileStandalone (fw : FunctionsWorker) : M (res (Condition * (Z * Z))) :=
  let labels := Labels (rsName fw) functionsWorkerComponent in
  let selector := SelectorLabels (rsName fw) functionsWorkerComponent in
  let renderedConf := renderFunctionsWorkerYAML yamlMarshal (functionsWorkerMergedConfig (rsSpec fw)) in
  (try! _ := reconcileConfigMap fw labels renderedConf in
   try! _ := reconcileHeadlessService fw labels selector in
   let desiredReplicas := functionsWorkerReplicas (rsSpec fw) in
   try! sts := reconcileStatefulSet fw labels selector desiredReplicas renderedConf in
   try! _ := reconcilePDB fw labels selector in
   Ret (Ok (workloadReadyCondition (rsGeneration fw) desiredReplicas (statefulSetRollout sts)
              functionsWorkerNoun,
            (wsReplicas (wStatus sts), wsReadyReplicas (wStatus sts)))))%prog.

Definition colocatedReadyCondition (fw : FunctionsWorker) : M (res Condition) :=
  let cond st reason msg := newCondition conditionTypeReady st (rsGeneration fw) reason msg in
  let ownerUnknown :=
    Ret (Ok (cond ConditionUnknown "BrokerOwnerUnknown"
      "functions worker runs colocated inside broker pods, but this FunctionsWorker has no owning PulsarCluster to look up the broker's readiness from")) in
  match rsController fw with
  | None => ownerUnknown
  | Some (kind, name) =>
      if negb (String.eqb kind pulsarClusterOwnerKind) then ownerUnknown
      else
        let brokerKey := mkNN (rsNamespace fw) (childName name BrokerAutoscaler.brokerComponent) in
        (let! got := perform (@ans FunctionsWorker) (GetBrokerConditions brokerKey) in
         match got with
         | Err e =>
             if IsNotFound e then
               Ret (Ok (cond ConditionFalse "BrokerMissing"
                 ("functions worker runs colocated inside broker pods, but Broker " ++!
                  quote (nnName brokerKey) ++! " does not exist yet")))
             else
               Ret (Err (Errorf ("getting sibling Broker " ++! quote (nnName brokerKey) ++!
                                 " for colocated functions worker readiness") e))
         | Ok conditions =>
             match FindStatusCondition conditions conditionTypeReady with
             | None =>
                 Ret (Ok (cond ConditionFalse "BrokerStatusMissing"
                   ("broker " ++! quote (nnName brokerKey) ++! " has not reported a Ready condition yet")))
             | Some brokerReady =>
                 Ret (Ok (cond (cStatus brokerReady) ("Broker" ++! cReason brokerReady)
                   ("functions worker runs colocated inside broker pods: " ++! cMessage brokerReady)))
             end
         end)%prog
  end.

Definition reconcileColocated (fw : FunctionsWorker) : M (res (Condition * (Z * Z))) :=
  (try! ["deleting stale standalone StatefulSet"] _ := deleteChildIfExists KStatefulSet (rsKey fw) in
   try! ["deleting stale standalone Service"] _ := deleteChildIfExists KService (rsKey fw) in
   try! ["deleting stale standalone ConfigMap"] _ :=
     deleteChildIfExists KConfigMap (mkNN (rsNamespace fw) (functionsWorkerConfigMapName fw)) in
   try! ["deleting stale standalone PodDisruptionBudget"] _ :=
     deleteChildIfExists KPDB (mkNN (rsNamespace fw) (pdbName fw)) in
   try! condition := colocatedReadyCondition fw in
   Ret (Ok (condition, (0, 0))))%prog.

Definition Reconcile (req : NamespacedName) : M (res Result) :=
  (let! got := perform (@ans FunctionsWorker) (GetResource req) in
   match got with
   | Err e => Ret (ignore_not_found e)
   | Ok fw =>
       try! out :=
         if String.eqb (functionsWorkerMode (rsSpec fw)) functionsWorkerModeStandalone
         then reconcileStandalone fw
         else reconcileColocated fw in
       let '(condition, (replicas, ready)) := out in
       let st' := mkStatus replicas ready (rsGeneration fw)
                    (setCond (stConditions (rsStatus fw)) condition) in
       try! ["updating FunctionsWorker status"] _ := perform ans (UpdateStatus (set_rsStatus st' fw)) in
       Ret (Ok emptyResult)
   end)%prog.

End Reconciler.
End FunctionsCtl.
