(* ===== verification/OxiaCtl.v ===== *)
(** The OxiaCluster controller (controller/metadata/oxiacluster_*.go): the
    oxia-server StatefulSet, the oxia-coordinator Deployment, what connects
    them, and the status.  The YAML marshaller of the coordinator's
    configuration is library code and a parameter. *)

From S2P Require Import Prelude Effects Kube BackupTypes Config Rollout Workload ClusterTypes MetadataInit.
Open Scope Z_scope.
Open Scope go_scope.

Module OxiaCtl.
Import MetadataInit Workload Cluster.

Record OxiaClusterStatus := mkOxiaStatus {
  oxCoordinatorReplicas : Z;
  oxServerReplicas : Z;
  oxObservedGeneration : Z;
  oxConditions : list Condition
}.

#[export] Instance OxiaClusterStatus_eq_dec : EqDecision OxiaClusterStatus.
Proof. solve_decision. Defined.

Record OxiaCluster := mkOxia {
  oxName : string;
  oxNamespace : string;
  oxUID : string;
  oxGeneration : Z;
  oxSpec : OxiaClusterSpec;
  oxStatus : OxiaClusterStatus
}.

Definition set_oxStatus (st : OxiaClusterStatus) (o : OxiaCluster) : OxiaCluster :=
  mkOxia (oxName o) (oxNamespace o) (oxUID o) (oxGeneration o) (oxSpec o) st.

(** * Defaults *)

Definition oxiaBinary : string := "oxia".
Definition componentCoordinator : string := "oxia-coordinator".
Definition componentServer : string := "oxia-server".
Definition portNamePublic : string := "public".
Definition portNameInternal : string := "internal".
Definition portNameMetrics : string := "metrics".
Definition oxiaInternalPort : Z := 6649.
Definition coordinatorInternalPort : Z := oxiaInternalPort.
Definition coordinatorMetricsPort : Z := 8080.
Definition serverPublicPort : Z := ServerPort.
Definition serverInternalPort : Z := oxiaInternalPort.
Definition serverMetricsPort : Z := 8080.
Definition defaultOxiaImage : string := "oxia/oxia:0.16.7".
Definition defaultCoordinatorReplicas : Z := 2.
Definition defaultServerReplicas : Z := 3.
Definition defaultDbCacheSizeMb : Z := 512.
Definition defaultWalSyncData : bool := true.
Definition defaultInitialShardCount : Z := 3.
Definition defaultReplicationFactor : Z := 3.
Definition clusterDomain : string := "cluster.local".
Definition serverDataVolumeName : string := "data".
Definition coordinatorConfigFileName : string := "config.yaml".

Definition coordinatorName (oxiaName : string) : string := oxiaName ++! "-" ++! componentCoordinator.
Definition coordinatorStatusConfigMapName (oxiaName : string) : string :=
  coordinatorName oxiaName ++! "-status".
Definition serverName (oxiaName : string) : string := oxiaName ++! "-" ++! componentServer.
Definition serverHeadlessServiceName (oxiaName : string) : string := oxiaName ++! "-oxia-svc".
Definition publicServiceName (oxiaName : string) : string := PublicServiceName oxiaName.

Definition coordinatorSpec (oxia : OxiaCluster) : OxiaCoordinatorSpec :=
  default (mkOxiaCoordinator None "" (mkResources ∅ ∅)) (oxCoordinator (oxSpec oxia)).

Definition serverSpec (oxia : OxiaCluster) : OxiaServerSpec :=
  default (mkOxiaServer None "" None 0 None None) (oxServer (oxSpec oxia)).

Definition derefInt32 (p : option Z) (def : Z) : Z := match p with None => def | Some v => v end.

Definition coordinatorReplicas (oxia : OxiaCluster) : Z :=
  derefInt32 (ocReplicas (coordinatorSpec oxia)) defaultCoordinatorReplicas.

Definition serverReplicas (oxia : OxiaCluster) : Z :=
  derefInt32 (osReplicas (serverSpec oxia)) defaultServerReplicas.

Definition coordinatorImage (oxia : OxiaCluster) : string :=
  let image := ocImage (coordinatorSpec oxia) in
  if negb (String.eqb image "") then image else defaultOxiaImage.

Definition serverImage (oxia : OxiaCluster) : string :=
  let image := osImage (serverSpec oxia) in
  if negb (String.eqb image "") then image else defaultOxiaImage.

Definition dbCacheSizeMb (oxia : OxiaCluster) : Z :=
  derefInt32 (osDbCacheSizeMb (serverSpec oxia)) defaultDbCacheSizeMb.

Definition walSyncData (oxia : OxiaCluster) : bool :=
  match osWalSyncData (serverSpec oxia) with Some v => v | None => defaultWalSyncData end.

(** * The coordinator's configuration *)

Record coordinatorNamespace := mkNamespace {
  cnName : string;
  cnInitialShardCount : Z;
  cnReplicationFactor : Z
}.

Record coordinatorServer := mkServer { csPublic : string; csInternal : string }.

Record coordinatorConfig := mkCoordinatorConfig {
  ccNamespaces : list coordinatorNamespace;
  ccServers : list coordinatorServer;
  ccAllowExtraAuthorities : list string
}.

Definition renderNamespaces (oxia : OxiaCluster) : list coordinatorNamespace :=
  map (λ ns, mkNamespace (onName ns) (derefInt32 (onInitialShardCount ns) defaultInitialShardCount)
               (derefInt32 (onReplicationFactor ns) defaultReplicationFactor))
    (oxNamespaces (oxSpec oxia)).

(** [for i := range replicas]; the CRD keeps [replicas] above 0. *)
Definition renderServers (oxia : OxiaCluster) : list coordinatorServer :=
  let headlessSvc := serverHeadlessServiceName (oxName oxia) in
  let sts := serverName (oxName oxia) in
  map (λ i,
    let pod := sts ++! "-" ++! %d i in
    mkServer
      (pod ++! "." ++! headlessSvc ++! "." ++! oxNamespace oxia ++! ".svc." ++! clusterDomain ++! ":" ++!
       %d serverPublicPort)
      (pod ++! "." ++! headlessSvc ++! ":" ++! %d serverInternalPort))
    (seqZ 0 (serverReplicas oxia)).

Definition renderAllowExtraAuthorities (oxia : OxiaCluster) : list string :=
  match oxAllowExtraAuthorities (oxSpec oxia) with
  | Some true =>
      let public := publicServiceName (oxName oxia) in
      let headless := serverHeadlessServiceName (oxName oxia) in
      let port := ":" ++! %d serverPublicPort in
      let fqdn svc := svc ++! "." ++! oxNamespace oxia ++! ".svc." ++! clusterDomain ++! port in
      [public ++! port; fqdn public; headless ++! port; fqdn headless]
  | _ => []
  end.

(** * Pods *)

Definition oxiaHealthProbe (readiness : bool) (initialDelaySeconds : Z) : Probe :=
  let command := [oxiaBinary; "health"; "--port=" ++! %d oxiaInternalPort] in
  let command := if readiness then command ++ ["--service=oxia-readiness"] else command in
  mkProbe (ExecProbe command) initialDelaySeconds 0 10 0.

Definition coordinatorPorts : list ServicePort :=
  [mkSPort portNameInternal coordinatorInternalPort (FromString portNameInternal);
   mkSPort portNameMetrics coordinatorMetricsPort (FromString portNameMetrics)].

Definition serverPorts : list ServicePort :=
  [mkSPort portNamePublic serverPublicPort (FromString portNamePublic);
   mkSPort portNameInternal serverInternalPort (FromString portNameInternal);
   mkSPort portNameMetrics serverMetricsPort (FromString portNameMetrics)].

Definition coordinatorContainer (oxia : OxiaCluster) : Container :=
  mkContainer "coordinator" (coordinatorImage oxia)
    [oxiaBinary; "coordinator";
     "--conf=configmap:" ++! oxNamespace oxia ++! "/" ++! coordinatorName (oxName oxia);
     "--log-json"; "--metadata=configmap";
     "--k8s-namespace=" ++! oxNamespace oxia;
     "--k8s-configmap-name=" ++! coordinatorStatusConfigMapName (oxName oxia)] []
    [mkCPort portNameInternal coordinatorInternalPort; mkCPort portNameMetrics coordinatorMetricsPort]
    [] (ocResources (coordinatorSpec oxia)) []
    (Some (oxiaHealthProbe false 10)) (Some (oxiaHealthProbe false 10)) None [].

Definition serverContainer (oxia : OxiaCluster) : Container :=
  let command :=
    [oxiaBinary; "server"; "--log-json"; "--data-dir=/data/db"; "--wal-dir=/data/wal";
     "--db-cache-size-mb=" ++! %d (dbCacheSizeMb oxia)] in
  let command := if negb (walSyncData oxia) then command ++ ["--wal-sync-data=false"] else command in
  mkContainer "server" (serverImage oxia) command []
    [mkCPort portNamePublic serverPublicPort; mkCPort portNameInternal serverInternalPort;
     mkCPort portNameMetrics serverMetricsPort]
    [] (mkResources ∅ ∅) [mkMount serverDataVolumeName "/data" "" false]
    (Some (oxiaHealthProbe true 10)) (Some (oxiaHealthProbe false 10)) (Some (oxiaHealthProbe false 60)) [].

Definition serverVolumeClaimTemplate (oxia : OxiaCluster) : PersistentVolumeClaim :=
  let spec := serverSpec oxia in
  mkPVC serverDataVolumeName "" (SelectorLabels (oxName oxia) componentServer) ["ReadWriteOnce"]
    (osStorageSize spec) (osStorageClassName spec).

(** * Status *)

Definition ReadyConditionType : string := "Ready".
Definition reasonComponentsReady : string := "ComponentsReady".
Definition reasonCoordinatorNotReady : string := "CoordinatorNotReady".
Definition reasonServerNotReady : string := "ServerNotReady".
Definition reasonComponentsNotReady : string := "ComponentsNotReady".

Fixpoint available (conditions : list (string * ConditionStatus)) : bool :=
  match conditions with
  | [] => false
  | (ty, st) :: cs => if String.eqb ty "Available" then bool_decide (st = ConditionTrue) else available cs
  end.

Definition deploymentAvailable (d : WorkloadObject) : bool := available (wsConditions (wStatus d)).

Definition readyCondition (coordinatorReady serverReady : bool) : ConditionStatus * string * string :=
  match coordinatorReady, serverReady with
  | true, true =>
      (ConditionTrue, reasonComponentsReady, "coordinator is Available and all server replicas are Ready")
  | false, false =>
      (ConditionFalse, reasonComponentsNotReady, "waiting for coordinator and server to become ready")
  | false, true =>
      (ConditionFalse, reasonCoordinatorNotReady, "waiting for coordinator to become Available")
  | true, false =>
      (ConditionFalse, reasonServerNotReady, "waiting for server replicas to become Ready")
  end.

Section Reconciler.
Context `{AM : !ApiMeta} (sha256hex : string → string).

(** The status, and the conditions [oxia.Status] is left with: both slices
    have the same backing array, so the assignments [SetStatusCondition] makes
    to a condition it finds are made to both, while a condition it appends
    shows in the new slice only. *)
Definition aggregateStatus (oxia : OxiaCluster) (coordinator server : WorkloadObject) :
    OxiaClusterStatus * OxiaCluster :=
  let coordinatorReady := deploymentAvailable coordinator in
  let desiredServerReplicas := serverReplicas oxia in
  let serverReady := wsReadyReplicas (wStatus server) =? desiredServerReplicas in
  let '(condStatus, reason, message) := readyCondition coordinatorReady serverReady in
  let shared := oxConditions (oxStatus oxia) in
  let conditions :=
    setCond shared (newCondition ReadyConditionType condStatus (oxGeneration oxia) reason message) in
  let left :=
    match FindStatusCondition shared ReadyConditionType with
    | Some _ => conditions
    | None => shared
    end in
  (mkOxiaStatus (wsReadyReplicas (wStatus coordinator)) (wsReadyReplicas (wStatus server))
     (oxGeneration oxia) conditions,
   set_oxStatus (mkOxiaStatus (oxCoordinatorReplicas (oxStatus oxia)) (oxServerReplicas (oxStatus oxia))
                   (oxObservedGeneration (oxStatus oxia)) left) oxia).

(** * Handlers *)

Abbreviation M A := (prog (@ans OxiaCluster) A).

Definition oxKey (oxia : OxiaCluster) (name : string) : NamespacedName := mkNN (oxNamespace oxia) name.

(** A [Get] whose NotFound leaves the zero object. *)
Definition getOrZero (k : Kind) (key : NamespacedName) : M (res (object k)) :=
  (let! got := perform (@ans OxiaCluster) (GetObject k key) in
   match got with
   | Ok o => Ret (Ok o)
   | Err e => if IsNotFound e then Ret (Ok (zeroObject k key)) else Ret (Err e)
   end)%prog.

Definition reconcileStatus (oxia : OxiaCluster) : M (res unit) :=
  (try! coordinator := getOrZero KDeployment (oxKey oxia (coordinatorName (oxName oxia))) in
   try! server := getOrZero KStatefulSet (oxKey oxia (serverName (oxName oxia))) in
   let '(newStatus, oxia) := aggregateStatus oxia coordinator server in
   if bool_decide (oxStatus oxia = newStatus) then Ret (Ok tt)
   else perform (@ans OxiaCluster) (UpdateStatus (set_oxStatus newStatus oxia)))%prog.

(** ** Server *)

Definition reconcileServerHeadlessService (oxia : OxiaCluster) : M (res unit) :=
  let name := serverHeadlessServiceName (oxName oxia) in
  createOrUpdate KService (oxKey oxia name) (oxUID oxia)
    (set_headless (HeadlessService name (oxNamespace oxia) (Labels (oxName oxia) componentServer)
                     (SelectorLabels (oxName oxia) componentServer) serverPorts)).

Definition reconcileServerPublicService (oxia : OxiaCluster) : M (res unit) :=
  let name := publicServiceName (oxName oxia) in
  createOrUpdate KService (oxKey oxia name) (oxUID oxia)
    (set_service (Service name (oxNamespace oxia) (Labels (oxName oxia) componentServer)
                    (SelectorLabels (oxName oxia) componentServer) serverPorts)).

Definition serverStatefulSet (oxia : OxiaCluster) (sts : WorkloadObject) : WorkloadObject :=
  let labels := Labels (oxName oxia) componentServer in
  let selector := SelectorLabels (oxName oxia) componentServer in
  let isCreate := String.eqb (wResourceVersion sts) "" in
  let template :=
    mkTemplate labels ∅ "" None (Some (PodAntiAffinity true selector))
      (ZoneTopologySpreadConstraints selector) [serverContainer oxia] [] in
  let '(sel, svc, policy, claims) :=
    if isCreate then
      (Some selector, serverHeadlessServiceName (oxName oxia), "Parallel", [serverVolumeClaimTemplate oxia])
    else (wSelector sts, wServiceName sts, wPodManagementPolicy sts, wVolumeClaimTemplates sts) in
  mkWorkload (wKey sts) (wOwner sts) (wGeneration sts) (wResourceVersion sts) labels
    (Some (serverReplicas oxia)) svc policy sel template claims (wStatus sts).

Definition reconcileServerStatefulSet (oxia : OxiaCluster) : M (res unit) :=
  createOrUpdate KStatefulSet (oxKey oxia (serverName (oxName oxia))) (oxUID oxia) (serverStatefulSet oxia).

Definition reconcileServerPDB (oxia : OxiaCluster) : M (res unit) :=
  let name := serverName (oxName oxia) in
  createOrUpdate KPDB (oxKey oxia name) (oxUID oxia)
    (set_pdb (PodDisruptionBudget name (oxNamespace oxia) (Labels (oxName oxia) componentServer)
                (SelectorLabels (oxName oxia) componentServer)
                (QuorumMaxUnavailable (serverReplicas oxia)))).

Definition reconcileServer (oxia : OxiaCluster) : M (res unit) :=
  (try! ["server headless service"] _ := reconcileServerHeadlessService oxia in
   try! ["server public service"] _ := reconcileServerPublicService oxia in
   try! ["server statefulset"] _ := reconcileServerStatefulSet oxia in
   try! ["server poddisruptionbudget"] _ := reconcileServerPDB oxia in
   Ret (Ok tt))%prog.

(** ** Coordinator *)

Definition reconcileCoordinatorServiceAccount (oxia : OxiaCluster) : M (res unit) :=
  createOrUpdate KServiceAccount (oxKey oxia (coordinatorName (oxName oxia))) (oxUID oxia)
    (λ sa, mkRBAC (rbKey sa) (rbOwner sa) (Labels (oxName oxia) componentCoordinator) (rbRules sa)
             (rbRoleRef sa) (rbSubjects sa)).

Definition coordinatorConfigMapVerbs : list string := ["get"; "list"; "watch"; "update"; "patch"].

Definition reconcileCoordinatorRole (oxia : OxiaCluster) : M (res unit) :=
  createOrUpdate KRole (oxKey oxia (coordinatorName (oxName oxia))) (oxUID oxia)
    (λ role, mkRBAC (rbKey role) (rbOwner role) (Labels (oxName oxia) componentCoordinator)
               [mkRule [""] ["configmaps"] coordinatorConfigMapVerbs;
                mkRule ["coordination.k8s.io"] ["leases"] ["get"; "create"; "update"]]
               (rbRoleRef role) (rbSubjects role)).

Definition reconcileCoordinatorRoleBinding (oxia : OxiaCluster) : M (res unit) :=
  let name := coordinatorName (oxName oxia) in
  createOrUpdate KRoleBinding (oxKey oxia name) (oxUID oxia)
    (λ rb, mkRBAC (rbKey rb) (rbOwner rb) (Labels (oxName oxia) componentCoordinator) (rbRules rb) name
             [(name, oxNamespace oxia)]).

(** Created once, never written again. *)
Definition reconcileCoordinatorStatusConfigMap (oxia : OxiaCluster) : M (res unit) :=
  let key := oxKey oxia (coordinatorStatusConfigMapName (oxName oxia)) in
  (let! got := perform (@ans OxiaCluster) (GetObject KConfigMap key) in
   match got with
   | Ok _ => Ret (Ok tt)
   | Err e =>
       if negb (IsNotFound e) then Ret (Err e)
       else
         let cm := mkConfigMap key None (Labels (oxName oxia) componentCoordinator) ∅ in
         try! _ := perform ans (SetOwner (oxUID oxia)) in
         try! _ := perform (@ans OxiaCluster) (CreateObject KConfigMap (oxUID oxia) cm) in
         Ret (Ok tt)
   end)%prog.

Context (yamlMarshal : coordinatorConfig → res string).

Definition renderCoordinatorConfig (oxia : OxiaCluster) : res string :=
  match yamlMarshal (mkCoordinatorConfig (renderNamespaces oxia) (renderServers oxia)
                       (renderAllowExtraAuthorities oxia)) with
  | Ok out => Ok out
  | Err e => Err (Errorf "marshal coordinator config" e)
  end.

Definition reconcileCoordinatorConfigMap (oxia : OxiaCluster) : M (res string) :=
  match renderCoordinatorConfig oxia with
  | Err e => Ret (Err e)
  | Ok configContent =>
      (try! _ := createOrUpdate KConfigMap (oxKey oxia (coordinatorName (oxName oxia))) (oxUID oxia)
                   (set_cm (Labels (oxName oxia) componentCoordinator)
                      {[ coordinatorConfigFileName := configContent ]}) in
       Ret (Ok configContent))%prog
  end.

Definition reconcileCoordinatorService (oxia : OxiaCluster) : M (res unit) :=
  let name := coordinatorName (oxName oxia) in
  createOrUpdate KService (oxKey oxia name) (oxUID oxia)
    (set_service (Service name (oxNamespace oxia) (Labels (oxName oxia) componentCoordinator)
                    (SelectorLabels (oxName oxia) componentCoordinator) coordinatorPorts)).

Definition coordinatorDeployment (oxia : OxiaCluster) (configContent : string) (deploy : WorkloadObject) :
    WorkloadObject :=
  let labels := Labels (oxName oxia) componentCoordinator in
  let selector := SelectorLabels (oxName oxia) componentCoordinator in
  let isCreate := String.eqb (wResourceVersion deploy) "" in
  let template :=
    mkTemplate labels (WithConfigChecksum sha256hex (ptAnnotations (wTemplate deploy)) [configContent])
      (coordinatorName (oxName oxia)) None (Some (PodAntiAffinity false selector))
      (ZoneTopologySpreadConstraints selector) [coordinatorContainer oxia] [] in
  mkWorkload (wKey deploy) (wOwner deploy) (wGeneration deploy) (wResourceVersion deploy) labels
    (Some (coordinatorReplicas oxia)) (wServiceName deploy) (wPodManagementPolicy deploy)
    (if isCreate then Some selector else wSelector deploy) template (wVolumeClaimTemplates deploy)
    (wStatus deploy).

Definition reconcileCoordinatorDeployment (oxia : OxiaCluster) (configContent : string) : M (res unit) :=
  createOrUpdate KDeployment (oxKey oxia (coordinatorName (oxName oxia))) (oxUID oxia)
    (coordinatorDeployment oxia configContent).

Definition reconcileCoordinatorPDB (oxia : OxiaCluster) : M (res unit) :=
  let name := coordinatorName (oxName oxia) in
  createOrUpdate KPDB (oxKey oxia name) (oxUID oxia)
    (set_pdb (PodDisruptionBudget name (oxNamespace oxia) (Labels (oxName oxia) componentCoordinator)
                (SelectorLabels (oxName oxia) componentCoordinator) (FromInt32 1))).

Definition reconcileCoordinator (oxia : OxiaCluster) : M (res string) :=
  (try! ["coordinator service account"] _ := reconcileCoordinatorServiceAccount oxia in
   try! ["coordinator role"] _ := reconcileCoordinatorRole oxia in
   try! ["coordinator role binding"] _ := reconcileCoordinatorRoleBinding oxia in
   try! ["coordinator status config map"] _ := reconcileCoordinatorStatusConfigMap oxia in
   try! ["coordinator config map"] configContent := reconcileCoordinatorConfigMap oxia in
   try! ["coordinator service"] _ := reconcileCoordinatorService oxia in
   try! ["coordinator deployment"] _ := reconcileCoordinatorDeployment oxia configContent in
   try! ["coordinator poddisruptionbudget"] _ := reconcileCoordinatorPDB oxia in
   Ret (Ok configContent))%prog.

Definition Reconcile (req : NamespacedName) : M (res Result) :=
  (let! got := perform (@ans OxiaCluster) (GetResource req) in
   match got with
   | Err e => Ret (ignore_not_found e)
   | Ok oxia =>
       try! _ := reconcileServer oxia in
       try! _ := reconcileCoordinator oxia in
       try! _ := reconcileStatus oxia in
       Ret (Ok emptyResult)
   end)%prog.

End Reconciler.
End OxiaCtl.
