(* ===== verification/WorkloadProps.v ===== *)
(** Properties of the workload controllers: what a Ready condition they write
    rests on, what a Proxy does without its certificate, and where the bookie
    and Oxia controllers fall short of what the others do. *)

From S2P Require Import Prelude Effects Kube BrokerScale BookKeeper BackupTypes Config Rollout Workload ClusterTypes MetadataInit Umbrella FunctionsConf BrokerCtl BookieCtl ProxyCtl AutoRecoveryCtl FunctionsCtl OxiaCtl.
Import Rollout Workload Cluster.
Open Scope Z_scope.
Open Scope go_scope.

(** * Stepping through a handler *)

Ltac elem := repeat (rewrite elem_of_app || rewrite elem_of_cons); auto 20.

(** The API server answered that there is no such object, or that it deleted
    it. *)
Definition gone {R} (k : Kind) (key : NamespacedName) (h : list (event (@ans R))) : Prop :=
  (∃ e, Ev (GetObject k key) (Err e) ∈ h ∧ IsNotFound e = true) ∨
  (∃ x, Ev (DeleteObject k key) x ∈ h ∧ ∀ e, x = Err e → IsNotFound e = true).

Lemma gone_app {R} k key (h l : list (event (@ans R))) : gone k key h → gone k key (h ++ l).
Proof. unfold gone. setoid_rewrite elem_of_app. naive_solver. Qed.

(** What was gone still is. *)
Ltac still_gone := solve [repeat first [eassumption|apply gone_app]].

(** A deletion that succeeds leaves nothing behind. *)
Lemma wp_deleteChildIfExists {R} (G : list (event (@ans R)) → call R → Prop) Rl k key Q h :
  (∀ h, G h (GetObject k key)) → (∀ h, G h (DeleteObject k key)) → (∀ e h', Q (Err e) h') →
  (∀ l, gone k key (h ++ l) → Q (Ok tt) (h ++ l)) →
  wp G Rl (deleteChildIfExists k key) Q h.
Proof.
  intros Hg Hd He HQ. split; [apply Hg|]. intros x _. cbn. destruct x as [o|e]; cycle 1.
  { unfold IgnoreNotFound. destruct (IsNotFound e) eqn:E; cbn; [|apply He].
    apply HQ. left. exists e. split; [elem|done]. }
  split; [apply Hd|]. intros y _. cbn. rewrite <- (assoc_L (++)).
  destruct y as [[]|e]; [|destruct (IsNotFound e) eqn:E; [|apply He]]; apply HQ; right;
    eexists; (split; [elem|]); naive_solver.
Qed.

(** One call, one sequencing or one branch. *)
Ltac wstep :=
  lazymatch goal with
  | |- True => exact I
  | |- wp _ _ (bind_ok _ _) _ _ => apply wp_bind_ok
  | |- wp _ _ (bind_wrap _ _ _) _ _ => apply wp_bind_wrap
  | |- wp _ _ (bind _ _) _ _ => apply wp_bind
  | |- wp _ _ (createOrUpdate _ _ _ _) _ _ => unfold createOrUpdate
  | |- wp _ _ (deleteIgnoringNotFound _ _) _ _ => unfold deleteIgnoringNotFound
  | |- wp _ _ (deleteChildIfExists _ _) _ _ => apply wp_deleteChildIfExists; [done|done|done|intros ? ?]
  | |- wp _ _ (perform _ _) _ _ => cbn [wp perform]; split; [try done|first [intros [] _|intros ? _]]
  | |- wp _ _ (Ret _) _ _ => cbn [wp]; try done
  | |- wp _ _ (if ?b then _ else _) _ _ => destruct b eqn:?
  | |- wp _ _ (match ?x with _ => _ end) _ _ => destruct x eqn:?
  end.

(** * What Ready=True rests on *)

Section Ready.
Context `{AM : !ApiMeta} (sha256hex : string → string).

Definition readyClaimed {Spec} (r : Resource Spec) : Prop :=
  condStatus (stConditions (rsStatus r)) conditionTypeReady = Some ConditionTrue.

(** The workload controller has seen the current spec, and every replica runs
    it and is ready. *)
Definition converged (w : WorkloadObject) (desired : Z) : Prop :=
  wsObservedGeneration (wStatus w) = wGeneration w ∧
  wsUpdatedReplicas (wStatus w) = desired ∧ wsReadyReplicas (wStatus w) = desired.

Definition readyReason {Spec} (r : Resource Spec) : option string :=
  condReason (stConditions (rsStatus r)) conditionTypeReady.

(** The replicas a status reports are those of the workload. *)
Definition countsOf {Spec} (r : Resource Spec) (w : WorkloadObject) : Prop :=
  stReplicas (rsStatus r) = wsReplicas (wStatus w) ∧
  stReadyReplicas (rsStatus r) = wsReadyReplicas (wStatus w).

(** A status that claims Ready for a workload: all its replicas are up, or none
    is asked for and the reason says so. *)
Definition backedBy {Spec} (r : Resource Spec) (w : WorkloadObject) (desired : Z) : Prop :=
  countsOf r w ∧
  if desired =? 0 then readyReason r = Some reasonScaledToZero
  else converged w desired ∧ readyReason r = Some reasonReplicasReady.

(** A write of the status that claims Ready needs evidence. *)
Definition statusGuard {Spec} (evidence : list (event (@ans (Resource Spec))) → Resource Spec → Prop)
    (h : list (event (@ans (Resource Spec)))) (q : call (Resource Spec)) : Prop :=
  match q with
  | UpdateStatus r =>
      stObservedGeneration (rsStatus r) = rsGeneration r ∧ (readyClaimed r → evidence h r)
  | _ => True
  end.

(** The closure asks for this template and this many replicas. *)
Definition asks (mutate : WorkloadObject → WorkloadObject) (template : gmap string string → PodTemplate)
    (desired : Z) : Prop :=
  ∀ o, wTemplate (mutate o) = template (ptAnnotations (wTemplate o)) ∧ wReplicas (mutate o) = Some desired.

Lemma readyClaimed_set {Spec} (p : Resource Spec) a b g cs cond :
  cType cond = conditionTypeReady →
  readyClaimed (set_rsStatus (mkStatus a b g (setCond cs cond)) p) ↔ cStatus cond = ConditionTrue.
Proof.
  intros Hty. unfold readyClaimed. simpl. rewrite <- Hty, condStatus_set. split; congruence.
Qed.

Lemma readyReason_set {Spec} (p : Resource Spec) a b g cs cond :
  cType cond = conditionTypeReady →
  readyReason (set_rsStatus (mkStatus a b g (setCond cs cond)) p) = Some (cReason cond).
Proof. intros Hty. unfold readyReason. simpl. by rewrite <- Hty, condReason_set. Qed.

Lemma workloadReadyCondition_true gen desired rollout noun :
  cStatus (workloadReadyCondition gen desired rollout noun) = ConditionTrue ↔
  desired = 0 ∨ roObservedGeneration rollout = roGeneration rollout ∧
                roUpdatedReplicas rollout = desired ∧ roReadyReplicas rollout = desired.
Proof.
  unfold workloadReadyCondition. destruct (Z.eqb_spec desired 0); simpl; [tauto|].
  destruct (_ && _) eqn:E; simpl; [zbool; tauto|]. split; [done|].
  intros [?|(H1 & H2 & H3)]; [done|]. by rewrite H1, H2, H3, !Z.eqb_refl in E.
Qed.

Lemma workloadReadyCondition_type gen desired rollout noun :
  cType (workloadReadyCondition gen desired rollout noun) = conditionTypeReady.
Proof. unfold workloadReadyCondition. by break_goal. Qed.

Lemma brokerReadyCondition_true sts desired gen :
  cStatus (BrokerCtl.brokerReadyCondition sts desired gen) = ConditionTrue ↔
  desired ≠ 0 ∧ converged sts desired.
Proof.
  unfold BrokerCtl.brokerReadyCondition, converged. destruct (Z.eqb_spec desired 0); simpl; [naive_solver|].
  destruct (_ || _) eqn:E; simpl; [|zbool; tauto].
  split; [done|]. intros (_ & H1 & H2 & H3). by rewrite H1, H2, H3, !Z.eqb_refl in E.
Qed.

Lemma brokerReadyCondition_type sts desired gen :
  cType (BrokerCtl.brokerReadyCondition sts desired gen) = conditionTypeReady.
Proof. unfold BrokerCtl.brokerReadyCondition. by break_goal. Qed.

(** What the shared condition rests on. *)
Lemma workload_backed {Spec} (p : Resource Spec) g cs gen desired w noun :
  let r := set_rsStatus (mkStatus (wsReplicas (wStatus w)) (wsReadyReplicas (wStatus w)) g
             (setCond cs (workloadReadyCondition gen desired (statefulSetRollout w) noun))) p in
  readyClaimed r → backedBy r w desired.
Proof.
  cbn zeta. pose proof (workloadReadyCondition_type gen desired (statefulSetRollout w) noun) as Hty.
  intros Hc. apply readyClaimed_set in Hc; [|exact Hty]. split; [done|].
  rewrite (readyReason_set _ _ _ _ _ _ Hty). apply workloadReadyCondition_true in Hc as Hc'.
  revert Hc. unfold workloadReadyCondition. destruct (Z.eqb_spec desired 0); [done|].
  destruct (_ && _); [|done]. intros _. split; [|done]. by destruct Hc'.
Qed.

(** ** Proxy *)

Definition proxyEvidence (h : list (event (@ans ProxyCtl.Proxy))) (r : ProxyCtl.Proxy) : Prop :=
  let labels := Labels (rsName r) ProxyCtl.proxyComponent in
  let selector := SelectorLabels (rsName r) ProxyCtl.proxyComponent in
  let desired := ProxyCtl.proxyReplicas (rsSpec r) in
  ProxyCtl.proxyTLSMisconfigured (rsSpec r) = false ∧
  ∃ mutate sts,
    Ev (CreateOrUpdate KStatefulSet (rsKey r) (rsUID r) mutate) (Ok sts) ∈ h ∧
    asks mutate (λ annotations, ProxyCtl.proxyTemplate sha256hex r labels selector annotations
                   (RenderProperties (ProxyCtl.proxyMergedConfig (rsSpec r)))) desired ∧
    backedBy r sts desired.

Lemma proxy_ready recorder req :
  wp (statusGuard proxyEvidence) (λ _ _, True) (ProxyCtl.Reconcile sha256hex recorder req) (λ _ _, True) [].
Proof.
  unfold ProxyCtl.Reconcile. do 2 wstep; [|done]. wstep.
  - unfold ProxyCtl.reportTLSMisconfigured. repeat wstep.
    all: split; [done|]; intros Hc; by apply readyClaimed_set in Hc.
  - repeat first [wstep|progress (unfold ProxyCtl.reconcileConfigMap, ProxyCtl.reconcileHeadlessService,
      ProxyCtl.reconcileStatefulSet, ProxyCtl.reconcilePDB)].
    split; [done|]. intros Hc%workload_backed.
    split; [done|]. eexists _, _. split; [elem|]. split; [|exact Hc]. intros o. by split.
Qed.

(** ** AutoRecovery *)

Definition autoRecoveryEvidence (h : list (event (@ans AutoRecoveryCtl.AutoRecovery)))
    (r : AutoRecoveryCtl.AutoRecovery) : Prop :=
  let labels := Labels (rsName r) AutoRecoveryCtl.autoRecoveryComponent in
  let selector := SelectorLabels (rsName r) AutoRecoveryCtl.autoRecoveryComponent in
  let desired := AutoRecoveryCtl.autoRecoveryReplicas (rsSpec r) in
  if String.eqb (AutoRecoveryCtl.autoRecoveryMode (rsSpec r)) AutoRecoveryCtl.autoRecoveryModeDedicated then
    ∃ mutate deploy,
      Ev (CreateOrUpdate KDeployment (rsKey r) (rsUID r) mutate) (Ok deploy) ∈ h ∧
      asks mutate (λ annotations, AutoRecoveryCtl.autoRecoveryTemplate sha256hex r labels selector annotations
                     (RenderProperties (AutoRecoveryCtl.autoRecoveryMergedConfig (rsSpec r)))) desired ∧
      backedBy r deploy desired
  else
    gone KDeployment (rsKey r) h ∧
    gone KConfigMap (mkNN (rsNamespace r) (AutoRecoveryCtl.autoRecoveryConfigMapName r)) h ∧
    gone KPDB (rsKey r) h ∧
    stReplicas (rsStatus r) = 0 ∧ stReadyReplicas (rsStatus r) = 0 ∧ readyReason r = Some "EmbeddedMode".

Lemma autoRecovery_ready req :
  wp (statusGuard autoRecoveryEvidence) (λ _ _, True) (AutoRecoveryCtl.Reconcile sha256hex req)
    (λ _ _, True) [].
Proof.
  unfold AutoRecoveryCtl.Reconcile. do 2 wstep; [|done]. wstep.
  destruct (String.eqb _ _) eqn:Em.
  - repeat first [wstep|progress (unfold AutoRecoveryCtl.reconcileDedicated,
      AutoRecoveryCtl.reconcileConfigMap, AutoRecoveryCtl.reconcileDeployment,
      AutoRecoveryCtl.reconcilePDB)].
    split; [done|]. intros Hc%workload_backed.
    unfold autoRecoveryEvidence. cbn [rsSpec set_rsStatus]. rewrite Em.
    eexists _, _. split; [elem|]. split; [|exact Hc]. intros o. by split.
  - repeat first [wstep|progress (unfold AutoRecoveryCtl.reconcileEmbedded)].
    split; [done|]. intros _. unfold autoRecoveryEvidence. cbn [rsSpec set_rsStatus]. rewrite Em.
    split; [still_gone|]. split; [still_gone|]. split; [still_gone|].
    split; [done|]. split; [done|]. by apply readyReason_set.
Qed.

(** ** FunctionsWorker *)

Context (yamlMarshal : gmap string string → res string).

Definition functionsWorkerEvidence (h : list (event (@ans FunctionsCtl.FunctionsWorker)))
    (r : FunctionsCtl.FunctionsWorker) : Prop :=
  let labels := Labels (rsName r) FunctionsCtl.functionsWorkerComponent in
  let selector := SelectorLabels (rsName r) FunctionsCtl.functionsWorkerComponent in
  let desired := FunctionsCtl.functionsWorkerReplicas (rsSpec r) in
  if String.eqb (functionsWorkerMode (rsSpec r)) functionsWorkerModeStandalone then
    ∃ mutate sts,
      Ev (CreateOrUpdate KStatefulSet (rsKey r) (rsUID r) mutate) (Ok sts) ∈ h ∧
      asks mutate (λ annotations, FunctionsCtl.functionsWorkerTemplate sha256hex r labels selector annotations
                     (FunctionsConf.renderFunctionsWorkerYAML yamlMarshal
                        (FunctionsConf.functionsWorkerMergedConfig (rsSpec r)))) desired ∧
      backedBy r sts desired
  else
    gone KStatefulSet (rsKey r) h ∧
    stReplicas (rsStatus r) = 0 ∧ stReadyReplicas (rsStatus r) = 0 ∧
    ∃ cluster conditions,
      rsController r = Some (FunctionsCtl.pulsarClusterOwnerKind, cluster) ∧
      Ev (GetBrokerConditions (mkNN (rsNamespace r) (childName cluster BrokerAutoscaler.brokerComponent)))
        (Ok conditions) ∈ h ∧
      condStatus conditions conditionTypeReady = Some ConditionTrue.

(** The condition of a colocated worker is True only if the broker's was. *)
Lemma colocatedReadyCondition_true fw h G :
  (∀ h key, G h (GetBrokerConditions key)) →
  wp G (λ _ _, True) (FunctionsCtl.colocatedReadyCondition fw)
    (λ r h', (∃ l, h' = h ++ l) ∧
             match r with
             | Ok cond =>
                 cType cond = conditionTypeReady ∧
                 (cStatus cond = ConditionTrue →
                  ∃ cluster conditions,
                    rsController fw = Some (FunctionsCtl.pulsarClusterOwnerKind, cluster) ∧
                    Ev (GetBrokerConditions (mkNN (rsNamespace fw)
                          (childName cluster BrokerAutoscaler.brokerComponent))) (Ok conditions) ∈ h' ∧
                    condStatus conditions conditionTypeReady = Some ConditionTrue)
             | Err _ => True
             end) h.
Proof.
  intros HG. unfold FunctionsCtl.colocatedReadyCondition.
  assert (∃ l, h = h ++ l) as Hl by (exists []; by rewrite app_nil_r).
  destruct (rsController fw) as [[kind name]|] eqn:Eo; [|done].
  destruct (String.eqb_spec kind FunctionsCtl.pulsarClusterOwnerKind) as [->|]; [|done]. cbn [negb].
  wstep. cbn [wp perform]. split; [apply HG|]. clear Hl.
  intros [conditions|e] _; [|by wstep; cbn [wp]; (split; [by eexists|])].
  wstep; cbn [wp]; (split; [by eexists|]); [|done]. split; [done|]. simpl. intros Hs. exists name, conditions. split; [done|].
  split; [elem|]. unfold condStatus. match goal with H : FindStatusCondition _ _ = _ |- _ => rewrite H end.
  by simpl; rewrite Hs.
Qed.

Lemma functionsWorker_ready req :
  wp (statusGuard functionsWorkerEvidence) (λ _ _, True)
    (FunctionsCtl.Reconcile sha256hex yamlMarshal req) (λ _ _, True) [].
Proof.
  unfold FunctionsCtl.Reconcile. do 2 wstep; [|done]. wstep.
  destruct (String.eqb _ _) eqn:Em.
  - repeat first [wstep|progress (unfold FunctionsCtl.reconcileStandalone,
      FunctionsCtl.reconcileConfigMap, FunctionsCtl.reconcileHeadlessService,
      FunctionsCtl.reconcileStatefulSet, FunctionsCtl.reconcilePDB)].
    split; [done|]. intros Hc%workload_backed.
    unfold functionsWorkerEvidence. cbn [rsSpec set_rsStatus]. rewrite Em.
    eexists _, _. split; [elem|]. split; [|exact Hc]. intros o. by split.
  - unfold FunctionsCtl.reconcileColocated. repeat wstep.
    eapply wp_mono, colocatedReadyCondition_true; [|done].
    intros [cond|] h _ [[l' ->] Hb]; [|done]. destruct Hb as [Hty Hb]. repeat wstep.
    split; [done|]. intros Hc. apply readyClaimed_set in Hc; [|done].
    unfold functionsWorkerEvidence. cbn [rsSpec set_rsStatus]. rewrite Em.
    split; [still_gone|]. split; [done|]. split; [done|]. by apply Hb.
Qed.

(** ** Broker *)

Definition brokerEvidence (h : list (event (@ans BrokerCtl.Broker))) (r : BrokerCtl.Broker) : Prop :=
  let labels := Labels (rsName r) BrokerAutoscaler.brokerComponent in
  let selector := SelectorLabels (rsName r) BrokerAutoscaler.brokerComponent in
  let config := BrokerAutoscaler.mergedBrokerConfig (rsSpec r) in
  let desired := BrokerAutoscaler.brokerReplicas (bsReplicas (rsSpec r)) in
  desired ≠ 0 ∧
  ∃ mutate functionsWorker written sts,
    Ev (CreateOrUpdate KStatefulSet (rsKey r) (rsUID r) mutate) (Ok written) ∈ h ∧
    asks mutate (λ _, BrokerCtl.ssTemplate (BrokerCtl.desiredBrokerStatefulSetSpec sha256hex r (rsName r)
                        selector labels config (RenderProperties config) functionsWorker
                        (BrokerCtl.resolveBrokerPorts config))) desired ∧
    Ev (GetObject KStatefulSet (rsKey r)) (Ok sts) ∈ h ∧ countsOf r sts ∧ converged sts desired.

Lemma broker_ready req :
  wp (statusGuard brokerEvidence) (λ _ _, True) (BrokerCtl.Reconcile sha256hex yamlMarshal req)
    (λ _ _, True) [].
Proof.
  unfold BrokerCtl.Reconcile. do 2 wstep; [|done].
  repeat first [wstep|progress (unfold BrokerCtl.reconcileConfigMap,
    BrokerCtl.reconcileFunctionsWorkerConfigMap, BrokerCtl.reconcileHeadlessService,
    BrokerCtl.reconcileStatefulSet, BrokerCtl.reconcilePDB, BrokerCtl.updateStatus)].
  all: split; [done|]; intros Hc.
  all: apply readyClaimed_set, brokerReadyCondition_true in Hc; [|apply brokerReadyCondition_type].
  all: destruct Hc as [Hd Hc]; split; [exact Hd|].
  all: eexists _, _, _, _; split; [elem|]; split; [intros o; by split|]; split; [elem|]; split; [done|exact Hc].
Qed.

(** C6: Ready is backed by the workload.  In every run, interrupted or not, the
    Proxy, AutoRecovery, FunctionsWorker and Broker controllers write a status
    that claims Ready=True only after the API server accepted, in the same
    reconcile, a workload with the template and the replicas the current spec
    asks for, and returned it (for a Broker: read it back) fully converged, with
    the counts the status reports.  There are three exceptions, and each is
    spelled out: a Proxy, dedicated AutoRecovery or standalone FunctionsWorker
    of no replicas is Ready for the reason ScaledToZero; an AutoRecovery that is
    not dedicated is Ready for the reason EmbeddedMode once its Deployment,
    ConfigMap and PodDisruptionBudget are known to be gone; a FunctionsWorker
    that is not standalone is Ready when its Broker is and its own StatefulSet
    is known to be gone.  The status carries the generation it was computed
    for. *)
Theorem ready_backed recorder req :
  (∀ t1 r x t2, part (ProxyCtl.Reconcile sha256hex recorder req) (t1 ++ Ev (UpdateStatus r) x :: t2) →
     statusGuard proxyEvidence t1 (UpdateStatus r)) ∧
  (∀ t1 r x t2, part (AutoRecoveryCtl.Reconcile sha256hex req) (t1 ++ Ev (UpdateStatus r) x :: t2) →
     statusGuard autoRecoveryEvidence t1 (UpdateStatus r)) ∧
  (∀ t1 r x t2, part (FunctionsCtl.Reconcile sha256hex yamlMarshal req) (t1 ++ Ev (UpdateStatus r) x :: t2) →
     statusGuard functionsWorkerEvidence t1 (UpdateStatus r)) ∧
  (∀ t1 r x t2, part (BrokerCtl.Reconcile sha256hex yamlMarshal req) (t1 ++ Ev (UpdateStatus r) x :: t2) →
     statusGuard brokerEvidence t1 (UpdateStatus r)).
Proof.
  split_and!; intros t1 r x t2 Hp;
    [pose proof (proxy_ready recorder req) as Hw|pose proof (autoRecovery_ready req) as Hw
    |pose proof (functionsWorker_ready req) as Hw|pose proof (broker_ready req) as Hw];
    exact (wp_part _ _ _ _ _ _ Hw Hp (relies_top _ _) t1 (Ev (UpdateStatus r) x) t2 eq_refl).
Qed.

End Ready.

(** * A Proxy without its certificate *)

Section Proxy.
Context `{AM : !ApiMeta} (sha256hex : string → string) (recorder : bool).

(** What the controller may do for a Proxy it refuses to serve. *)
Definition refusal (proxy : ProxyCtl.Proxy) (h : list (event (@ans ProxyCtl.Proxy)))
    (q : call ProxyCtl.Proxy) : Prop :=
  match q with
  | GetResource _ => True
  | Eventf ty reason _ _ => ty = EventTypeWarning ∧ reason = ProxyCtl.reasonTLSMisconfigured
  | DeleteObject KStatefulSet key => key = rsKey proxy
  | UpdateStatus r =>
      rsSpec r = rsSpec proxy ∧
      condStatus (stConditions (rsStatus r)) conditionTypeReady = Some ConditionFalse ∧
      ∃ x, Ev (DeleteObject KStatefulSet (rsKey proxy)) x ∈ h ∧
           (∀ e, x = Err e → IsNotFound e = true)
  | _ => False
  end.

(** What the answers to the first call say. *)
Definition readsProxy (proxy : ProxyCtl.Proxy) (_ : list (event (@ans ProxyCtl.Proxy)))
    (e : event (@ans ProxyCtl.Proxy)) : Prop :=
  match e with
  | Ev c x => match c return ans c → Prop with GetResource _ => λ x, x = Ok proxy | _ => λ _, True end x
  end.

(** C23: A Proxy that asks for TLS without naming a certificate is not served.
    For such a Proxy the controller writes no ConfigMap, Service, StatefulSet or
    PodDisruptionBudget; it deletes the StatefulSet an earlier spec left, and
    reports Ready=False, and that only once the StatefulSet is known to be
    gone; a run that succeeds has made that report. *)
Theorem proxy_fails_closed proxy req t a :
  pxTls (rsSpec proxy) = Some (mkTls true "") →
  runs (ProxyCtl.Reconcile sha256hex recorder req) t a → relies (readsProxy proxy) [] t →
  guaranteed (refusal proxy) [] t ∧
  (∀ res, a = Ok res → ∃ r u, Ev (UpdateStatus r) (Ok u) ∈ t ∧ rsSpec r = rsSpec proxy).
Proof.
  intros Htls Hr Hrel.
  assert (ProxyCtl.proxyTLSMisconfigured (rsSpec proxy) = true) as Hm
    by (unfold ProxyCtl.proxyTLSMisconfigured; by rewrite Htls).
  assert (wp (refusal proxy) (readsProxy proxy) (ProxyCtl.Reconcile sha256hex recorder req)
    (λ a h, ∀ res, a = Ok res → ∃ r u, Ev (UpdateStatus r) (Ok u) ∈ h ∧ rsSpec r = rsSpec proxy) []) as Hw.
  2: { split; [exact (wp_part _ _ _ _ _ _ Hw (runs_part _ _ _ Hr) Hrel)|exact (wp_runs _ _ _ _ _ _ _ Hw Hr Hrel)]. }
  clear t a Hr Hrel. unfold ProxyCtl.Reconcile. wstep. cbn [wp perform]. split; [done|].
  intros x Hx. simpl in Hx. subst x. rewrite Hm. unfold ProxyCtl.reportTLSMisconfigured. wstep.
  enough (∀ h, wp (refusal proxy) (readsProxy proxy)
    (bind_wrap "tearing down plaintext Proxy StatefulSet" (deleteIgnoringNotFound KStatefulSet (rsKey proxy))
       (λ _ : unit, bind_wrap "updating Proxy status"
          (perform ans (UpdateStatus (set_rsStatus
             (mkStatus (stReplicas (rsStatus proxy)) (stReadyReplicas (rsStatus proxy)) (rsGeneration proxy)
                (setCond (stConditions (rsStatus proxy))
                   (newCondition conditionTypeReady ConditionFalse (rsGeneration proxy)
                      ProxyCtl.reasonTLSMisconfigured ProxyCtl.tlsMisconfiguredMessage))) proxy)))
          (λ _ : unit, Ret (Ok emptyResult))))
    (λ a h, ∀ res, a = Ok res → ∃ r u, Ev (UpdateStatus r) (Ok u) ∈ h ∧ rsSpec r = rsSpec proxy) h) as Hd.
  { destruct recorder; [wstep|wstep]; apply Hd. }
  intros h. repeat wstep.
  all: try (intros res [=]; (eexists _, _; (split; [elem|done]))).
  all: split_and!; [done|exact (condStatus_set _ (newCondition conditionTypeReady ConditionFalse _ _ _))|].
  all: eexists; split; [elem|]; intros ? [=]; by subst.
Qed.

End Proxy.

(** * Bookies: Ready before the roll *)

Section Bookie.
Context `{AM : !ApiMeta} (sha256hex : string → string).

(** An API server that holds the BookKeeper and its StatefulSet: an update
    stores what it is given under the next generation and, the status being a
    subresource, leaves the status as it was. *)
Definition holding (bk : BookieCtl.BookKeeper) (live : WorkloadObject) (q : call BookieCtl.BookKeeper)
    (s : unit) : ans q * unit :=
  (match q return ans q with
   | GetResource _ => Ok bk
   | UpdateStatus _ => Ok tt
   | CreateOrUpdate k key _ f => Ok (f (zeroObject k key))
   | GetObject k key =>
       match k return res (object k) with KStatefulSet => Ok live | k => Ok (zeroObject k key) end
   | CreateObject k _ o => Ok o
   | UpdateObject k _ o =>
       match k return object k → res (object k) with
       | KStatefulSet => λ o : WorkloadObject,
           Ok (mkWorkload (wKey o) (wOwner o) (wGeneration o + 1) (wResourceVersion o) (wLabels o)
                 (wReplicas o) (wServiceName o) (wPodManagementPolicy o) (wSelector o) (wTemplate o)
                 (wVolumeClaimTemplates o) (wStatus live))
       | _ => λ o, Ok o
       end o
   | DeleteObject _ _ => Ok tt
   | SetOwner _ => Ok tt
   | GetBrokerConditions _ => Ok []
   | Eventf _ _ _ _ => tt
   end, s).

Lemma computeReadyCondition_true gen desired st :
  cStatus (BookieCtl.computeReadyCondition gen desired st) = ConditionTrue ↔
  desired ≠ 0 ∧ BookieCtl.rsReady st = desired ∧ BookieCtl.rsUpdated st = desired ∧
  BookieCtl.rsCurrentRevision st = BookieCtl.rsUpdateRevision st.
Proof.
  unfold BookieCtl.computeReadyCondition. destruct (Z.eqb_spec desired 0); simpl; [naive_solver|].
  destruct (_ && _) eqn:E; simpl; [zbool; tauto|]. split; [done|].
  intros (_ & H1 & H2 & H3). by rewrite H1, H2, H3, !Z.eqb_refl, String.eqb_refl in E.
Qed.

Lemma computeReadyCondition_type gen desired st :
  cType (BookieCtl.computeReadyCondition gen desired st) = conditionTypeReady.
Proof. unfold BookieCtl.computeReadyCondition. by break_goal. Qed.

(** C24: Bookies read as Ready before they roll.  When the StatefulSet's status
    still describes the settled previous revision, a reconcile that writes a
    new pod template reports Ready=True at the new generation in the same
    breath, although the StatefulSet it just stored has not converged: the
    condition is computed from that status, and nothing compares the
    StatefulSet's observed generation. *)
Theorem bookie_ready_before_roll (bk : BookieCtl.BookKeeper) live req :
  let desired := resolveReplicas (rsSpec bk) in
  desired ≠ 0 →
  wsReadyReplicas (wStatus live) = desired → wsUpdatedReplicas (wStatus live) = desired →
  wsCurrentRevision (wStatus live) = wsUpdateRevision (wStatus live) →
  wsObservedGeneration (wStatus live) ≤ wGeneration live →
  let t := (exec (holding bk live) (BookieCtl.Reconcile sha256hex req) tt).2 in
  ∃ o sts r,
    Ev (UpdateObject KStatefulSet (rsUID bk) o) (Ok sts) ∈ t ∧
    wTemplate sts = BookieCtl.buildPodTemplate sha256hex bk (BookieCtl.resolveImage (rsSpec bk))
                      (BookieCtl.mergeConfig (rsSpec bk)).2 ∧
    ¬ converged sts desired ∧
    Ev (UpdateStatus r) (Ok tt) ∈ t ∧
    readyClaimed r ∧ stObservedGeneration (rsStatus r) = rsGeneration bk.
Proof.
  intros desired Hd Hr Hu Hrev Hg t.
  assert (∀ P, P (exec (holding bk live) (BookieCtl.Reconcile sha256hex req) tt).2 → P t) as Ht by done.
  apply Ht. clear t Ht. cbn. eexists _, _, _. split; [elem|]. split; [done|]. split.
  { intros [Hc _]. cbn in Hc. lia. }
  split; [elem|]. split; [|done].
  apply readyClaimed_set; [apply computeReadyCondition_type|]. by apply computeReadyCondition_true.
Qed.

End Bookie.

(** * Oxia: readiness changes that are not written *)

Section Oxia.
Context `{AM : !ApiMeta}.
Import OxiaCtl.

(** An API server that holds the two workloads of an OxiaCluster. *)
Definition holdingOxia (oxia : OxiaCluster) (coordinator server : WorkloadObject) (q : call OxiaCluster)
    (s : unit) : ans q * unit :=
  (match q return ans q with
   | GetResource _ => Ok oxia
   | UpdateStatus _ => Ok tt
   | CreateOrUpdate k key _ f => Ok (f (zeroObject k key))
   | GetObject k key =>
       match k return res (object k) with
       | KStatefulSet => Ok server
       | KDeployment => Ok coordinator
       | k => Ok (zeroObject k key)
       end
   | CreateObject k _ o => Ok o
   | UpdateObject k _ o => Ok o
   | DeleteObject _ _ => Ok tt
   | SetOwner _ => Ok tt
   | GetBrokerConditions _ => Ok []
   | Eventf _ _ _ _ => tt
   end, s).

(** The counts and the generation, the fields of the status that are not
    reached through the conditions' array. *)
Definition countsChanged (oxia : OxiaCluster) (coordinator server : WorkloadObject) : Prop :=
  oxCoordinatorReplicas (oxStatus oxia) ≠ wsReadyReplicas (wStatus coordinator) ∨
  oxServerReplicas (oxStatus oxia) ≠ wsReadyReplicas (wStatus server) ∨
  oxObservedGeneration (oxStatus oxia) ≠ oxGeneration oxia.

Definition oxiaReady (oxia : OxiaCluster) (coordinator server : WorkloadObject) : bool :=
  deploymentAvailable coordinator && (wsReadyReplicas (wStatus server) =? serverReplicas oxia).

Definition readyConditionOf (oxia : OxiaCluster) (coordinator server : WorkloadObject) : Condition :=
  let '(st, reason, message) :=
    readyCondition (deploymentAvailable coordinator)
      (wsReadyReplicas (wStatus server) =? serverReplicas oxia) in
  newCondition ReadyConditionType st (oxGeneration oxia) reason message.

Lemma aggregateStatus_unfold oxia coordinator server :
  aggregateStatus oxia coordinator server =
    (mkOxiaStatus (wsReadyReplicas (wStatus coordinator)) (wsReadyReplicas (wStatus server))
       (oxGeneration oxia) (setCond (oxConditions (oxStatus oxia)) (readyConditionOf oxia coordinator server)),
     set_oxStatus (mkOxiaStatus (oxCoordinatorReplicas (oxStatus oxia)) (oxServerReplicas (oxStatus oxia))
       (oxObservedGeneration (oxStatus oxia))
       (match FindStatusCondition (oxConditions (oxStatus oxia)) ReadyConditionType with
        | Some _ => setCond (oxConditions (oxStatus oxia)) (readyConditionOf oxia coordinator server)
        | None => oxConditions (oxStatus oxia)
        end)) oxia).
Proof.
  unfold aggregateStatus, readyConditionOf. by destruct (readyCondition _ _) as [[st reason] message].
Qed.

Lemma readyConditionOf_status oxia coordinator server :
  condStatus (setCond (oxConditions (oxStatus oxia)) (readyConditionOf oxia coordinator server))
    ReadyConditionType =
  Some (if oxiaReady oxia coordinator server then ConditionTrue else ConditionFalse).
Proof.
  assert (cType (readyConditionOf oxia coordinator server) = ReadyConditionType) as <-
    by (unfold readyConditionOf; by destruct (readyCondition _ _) as [[? ?] ?]).
  rewrite condStatus_set. unfold readyConditionOf, oxiaReady.
  by destruct (deploymentAvailable _), (_ =? _).
Qed.

Abbreviation statusRun oxia coordinator server :=
  (exec (holdingOxia oxia coordinator server) (reconcileStatus oxia) tt).

(** C25: An OxiaCluster that has a Ready condition gets a new one only together
    with a change of the ready counts or of the generation.  The first status
    is written, and what is written says Ready exactly when the coordinator is
    available and all servers are ready; but once a Ready condition exists, a
    readiness that changes while the counts and the generation stay is not
    written: the comparison that is to skip an unchanged status sees the new
    condition on both sides, because the two share one array. *)
Theorem oxia_status_written oxia coordinator server :
  (∀ st x, Ev (UpdateStatus st) x ∈ (statusRun oxia coordinator server).2 →
     condStatus (oxConditions (oxStatus st)) ReadyConditionType =
       Some (if oxiaReady oxia coordinator server then ConditionTrue else ConditionFalse)) ∧
  ((∃ st x, Ev (UpdateStatus st) x ∈ (statusRun oxia coordinator server).2) ↔
     FindStatusCondition (oxConditions (oxStatus oxia)) ReadyConditionType = None ∨
     countsChanged oxia coordinator server).
Proof.
  unfold reconcileStatus. cbn [exec bind bind_ok getOrZero perform holdingOxia fst snd].
  rewrite aggregateStatus_unfold. cbn [oxStatus set_oxStatus].
  pose proof (readyConditionOf_status oxia coordinator server) as Hs.
  set (conds := setCond _ _) in *. case_bool_decide as E; cbn [exec perform holdingOxia snd].
  - split.
    + intros st x H. repeat (apply elem_of_cons in H as [H|H]; [done|]). by apply elem_of_nil in H.
    + split.
      * intros (st & x & H). repeat (apply elem_of_cons in H as [H|H]; [done|]). by apply elem_of_nil in H.
      * injection E as E1 E2 E3 E4. unfold countsChanged. intros [Hn|Hc]; [|naive_solver].
        rewrite Hn in E4. unfold condStatus in Hs. rewrite <- E4, Hn in Hs. done.
  - split.
    + intros st x H. apply elem_of_cons in H as [H|H]; [done|]. apply elem_of_cons in H as [H|H]; [done|].
      apply list_elem_of_singleton in H. apply (f_equal ev_call) in H. injection H as ->. exact Hs.
    + split; [intros _|intros _; eexists _, _; elem].
      destruct (FindStatusCondition _ _) eqn:Ef; [right|by left]. unfold countsChanged.
      destruct (decide (oxCoordinatorReplicas (oxStatus oxia) = wsReadyReplicas (wStatus coordinator)));
        [|by left].
      destruct (decide (oxServerReplicas (oxStatus oxia) = wsReadyReplicas (wStatus server)));
        [|by right; left].
      right; right. intros ?. apply E. congruence.
Qed.

End Oxia.

(** * Instances *)

Module WorkloadDemo.

Definition sha (s : string) : string := s.

Definition noStatus : ComponentStatus := mkStatus 0 0 0 [].
Definition noResources : ResourceRequirements := mkResources ∅ ∅.

(** Three of three replicas ready on one revision. *)
Definition settled : WorkloadObject :=
  mkWorkload (mkNN "ns" "pulsar") (Some "uid") 4 "100" ∅ (Some 3) "pulsar" "Parallel" (Some ∅) emptyTemplate []
    (mkWStatus 4 3 3 3 "rev-4" "rev-4" []).

(** Every StatefulSet is the settled one, with the fields the closure sets. *)
Definition serveSettled {Spec} (r : Resource Spec) (q : call (Resource Spec)) (s : unit) : ans q * unit :=
  (match q return ans q with
   | GetResource _ => Ok r
   | UpdateStatus _ => Ok tt
   | CreateOrUpdate k key _ f =>
       match k return (object k → object k) → res (object k) with
       | KStatefulSet => λ f, Ok (f settled)
       | k => λ f, Ok (f (zeroObject k key))
       end f
   | GetObject k key => Err (ErrNotFound (nnName key))
   | CreateObject k _ o => Ok o
   | UpdateObject k _ o => Ok o
   | DeleteObject k key => Err (ErrNotFound (nnName key))
   | SetOwner _ => Ok tt
   | GetBrokerConditions _ => Ok []
   | Eventf _ _ _ _ => tt
   end, s).

Definition proxy (tls : option ProxyTlsConfig) : ProxyCtl.Proxy :=
  mkResource "pulsar" "ns" "uid" 7 None (mkProxySpec (Some 3) "" ∅ tls noResources) noStatus.

Definition run (tls : option ProxyTlsConfig) :=
  exec (serveSettled (proxy tls)) (ProxyCtl.Reconcile (AM := refApiMeta) sha true (mkNN "ns" "pulsar")) tt.

Definition written : ProxyCtl.Proxy :=
  set_rsStatus (mkStatus 3 3 7
    [mkCondition conditionTypeReady ConditionTrue 7 zeroTime reasonReplicasReady
       "3/3 proxy replicas ready"]) (proxy None).

Lemma proxy_run_split : (run None).2 = take 5 (run None).2 ++ Ev (UpdateStatus written) (Ok tt) :: [].
Proof. vm_compute. reflexivity. Qed.

Lemma ready_backed_witness :
  readyClaimed (AM := refApiMeta) written ∧ proxyEvidence (AM := refApiMeta) sha (take 5 (run None).2) written.
Proof.
  assert (readyClaimed (AM := refApiMeta) written) as Hc by (vm_compute; reflexivity).
  split; [exact Hc|].
  destruct (ready_backed (AM := refApiMeta) sha (λ _, Ok "") true (mkNN "ns" "pulsar")) as [Hp _].
  apply (Hp (take 5 (run None).2) written (Ok tt) []); [|exact Hc].
  rewrite <- proxy_run_split.
  exact (runs_part _ _ _ (exec_runs (serveSettled (proxy None))
    (ProxyCtl.Reconcile (AM := refApiMeta) sha true (mkNN "ns" "pulsar")) tt)).
Defined.

Definition bareTLS : option ProxyTlsConfig := Some (mkTls true "").

Lemma proxy_fails_closed_witness :
  guaranteed (refusal (AM := refApiMeta) (proxy bareTLS)) [] (run bareTLS).2.
Proof.
  refine (proj1 (proxy_fails_closed (AM := refApiMeta) sha true (proxy bareTLS) (mkNN "ns" "pulsar")
    (run bareTLS).2 (run bareTLS).1.1 _ _ _)).
  - reflexivity.
  - exact (exec_runs (serveSettled (proxy bareTLS))
      (ProxyCtl.Reconcile (AM := refApiMeta) sha true (mkNN "ns" "pulsar")) tt).
  - vm_compute. repeat split.
Defined.

Definition bookkeeper : BookieCtl.BookKeeper :=
  mkResource "pulsar" "ns" "uid" 7 None
    (mkBookKeeperSpec (mkBKSpec (Some 3) None None) "pulsar:new" ∅ None "" None) noStatus.

Lemma bookie_ready_before_roll_witness :
  ∃ r, Ev (UpdateStatus r) (Ok tt) ∈
         (exec (holding bookkeeper settled)
            (BookieCtl.Reconcile (AM := refApiMeta) sha (mkNN "ns" "pulsar")) tt).2 ∧
       readyClaimed (AM := refApiMeta) r ∧ stObservedGeneration (rsStatus r) = 7.
Proof.
  destruct (bookie_ready_before_roll (AM := refApiMeta) sha bookkeeper settled (mkNN "ns" "pulsar"))
    as (o & sts & r & _ & _ & _ & Hr & Hc & Hg).
  - vm_compute. discriminate.
  - reflexivity.
  - reflexivity.
  - reflexivity.
  - vm_compute. discriminate.
  - exists r. split; [exact Hr|]. split; [exact Hc|exact Hg].
Defined.

(** Scaled down from two coordinators, one of them not ready, to one: the
    deployment turns Available, the count of ready coordinators stays at one,
    and the OxiaCluster stays not Ready. *)
Definition oxia : OxiaCtl.OxiaCluster :=
  OxiaCtl.mkOxia "pulsar-oxia" "ns" "uid" 2
    (mkOxiaSpec (Some (mkOxiaCoordinator (Some 1) "" noResources)) None [] None)
    (OxiaCtl.mkOxiaStatus 1 3 2
       [mkCondition OxiaCtl.ReadyConditionType ConditionFalse 2 zeroTime OxiaCtl.reasonCoordinatorNotReady
          "waiting for coordinator to become Available"]).

Definition availableDeployment : WorkloadObject :=
  mkWorkload (mkNN "ns" "c") None 2 "101" ∅ (Some 1) "" "" None emptyTemplate []
    (mkWStatus 2 1 1 1 "" "" [("Available", ConditionTrue)]).

Example oxia_stays_not_ready :
  oxiaReady oxia availableDeployment settled = true ∧
  condStatus (AM := refApiMeta) (OxiaCtl.oxConditions (OxiaCtl.oxStatus oxia)) OxiaCtl.ReadyConditionType =
    Some ConditionFalse ∧
  ev_call <$> (exec (holdingOxia oxia availableDeployment settled)
                 (OxiaCtl.reconcileStatus (AM := refApiMeta) oxia) tt).2 =
    [GetObject KDeployment (mkNN "ns" "pulsar-oxia-oxia-coordinator");
     GetObject KStatefulSet (mkNN "ns" "pulsar-oxia-oxia-server")].
Proof. split_and!; vm_compute; reflexivity. Qed.

End WorkloadDemo.
