(* ===== verification/BringUp.v ===== *)
(** What the workload controllers promise the umbrella: once the workloads of
    a component have settled, its next reconcile writes a status that the
    umbrella reads as Ready at the component's generation.

    [settles] is what the API server and the workload controllers answer then:
    reads return the last write, and a StatefulSet or Deployment that is
    written comes back rolled out. *)

From S2P Require Import Prelude Effects Kube BrokerScale BookKeeper BackupTypes Config Rollout Workload ClusterTypes MetadataInit Umbrella FunctionsConf BrokerCtl BookieCtl ProxyCtl AutoRecoveryCtl FunctionsCtl OxiaCtl WorkloadProps.
Import Rollout Workload Cluster.
Open Scope Z_scope.
Open Scope go_scope.

Section Settled.
Context `{AM : !ApiMeta}.

(** All of the [desired] replicas run the current revision and are ready. *)
Definition rolledOut (desired : Z) (w : WorkloadObject) : Prop :=
  converged w desired ∧ wsCurrentRevision (wStatus w) = wsUpdateRevision (wStatus w) ∧
  OxiaCtl.deploymentAvailable w = true.

(** The object stored for a closure: a workload is rolled out to the replicas
    the closure asks for. *)
Definition upFor (k : Kind) : (object k → object k) → object k → Prop :=
  match k with
  | KStatefulSet | KDeployment => λ f o, ∀ n, (∀ o', wReplicas (f o') = Some n) → rolledOut n o
  | _ => λ _ _, True
  end.

(** The closure an event stores under a key, and the last one of a history. *)
Definition writes {R} (k : Kind) (key : NamespacedName) (e : event (@ans R)) : option (object k → object k) :=
  match ev_call e with
  | CreateOrUpdate k' key' _ f =>
      match decide (k' = k) with
      | left E => if decide (key' = key) then Some (eq_rect k' (λ k, object k → object k) f k E) else None
      | right _ => None
      end
  | _ => None
  end.
Definition lastWrite {R} (k : Kind) (key : NamespacedName) (h : list (event (@ans R))) :
    option (object k → object k) := last (omap (writes k key) h).

(** The answers once everything has settled: [r] is the component's resource,
    and a workload that was written is read back rolled out. *)
Definition settles {R} (r : R) (h : list (event (@ans R))) (e : event (@ans R)) : Prop :=
  match e with
  | Ev c x =>
      match c return ans c → Prop with
      | GetResource _ => λ x, x = Ok r
      | UpdateStatus _ => λ x, x = Ok tt
      | CreateOrUpdate k _ _ f => λ x, ∃ o, x = Ok o ∧ upFor k f o
      | GetObject k key => λ x,
          (∃ o, x = Ok o ∧ ∀ f, lastWrite k key h = Some f → upFor k f o) ∨
          (∃ e, x = Err e ∧ IsNotFound e = true ∧ lastWrite k key h = None)
      | CreateObject k _ o | UpdateObject k _ o => λ x, ∃ o', x = Ok o' ∧ upFor k (λ _, o) o'
      | DeleteObject _ _ => λ x, x = Ok tt ∨ ∃ e, x = Err e ∧ IsNotFound e = true
      | SetOwner _ => λ x, x = Ok tt
      | GetBrokerConditions _ => λ x, ∃ cs, x = Ok cs
      | Eventf _ _ _ _ => λ _, True
      end x
  end.

(** The umbrella reads Ready from the conditions, at the generation. *)
Definition reportsReady (generation : Z) (conditions : list Condition) : Prop :=
  ready (reportFromConditions "" generation conditions) = true.

#[global] Instance reportsReady_dec generation conditions : Decision (reportsReady generation conditions).
Proof. unfold reportsReady. apply _. Defined.

Lemma reportsReady_name generation conditions name :
  reportsReady generation conditions → ready (reportFromConditions name generation conditions) = true.
Proof. unfold reportsReady, reportFromConditions. by repeat case_match. Qed.

Lemma reportsReady_set generation conditions cond :
  cType cond = conditionTypeReady → cStatus cond = ConditionTrue → cObservedGeneration cond = generation →
  reportsReady generation (setCond conditions cond).
Proof.
  intros Hty Hst Hog. unfold reportsReady, reportFromConditions.
  destruct (find_setCond_eq conditions cond) as (found & Hf & _ & Hs & Hg & _).
  rewrite Hty in Hf. rewrite Hf, Hg, Hog, Z.ltb_irrefl, andb_false_r. simpl. by rewrite Hs, Hst.
Qed.

(** The conditions the API server holds after a run that began with [r]: those
    of the last status written. *)
Definition statusOf {R} (e : event (@ans R)) : option R :=
  match ev_call e with UpdateStatus r => Some r | _ => None end.
Definition stored {R} (r : R) (h : list (event (@ans R))) : R := default r (last (omap statusOf h)).

(** The reconcile succeeded, and the status it leaves reads Ready. *)
Definition reportedUp {R} (generation : Z) (conditions : R → list Condition) (r : R) (a : res Result)
    (h : list (event (@ans R))) : Prop :=
  a = Ok emptyResult ∧ reportsReady generation (conditions (stored r h)).

Lemma stored_snoc {R} (r r' : R) h x : stored r (h ++ [Ev (UpdateStatus r') x]) = r'.
Proof. unfold stored. rewrite omap_app. simpl. by rewrite last_snoc. Qed.

Abbreviation rsConditions r := (stConditions (rsStatus r)).
Abbreviation resourceUp r := (reportedUp (rsGeneration r) (λ r, rsConditions r) r).

Abbreviation settled r p Q := (wp (λ _ _, True) (settles r) p Q).

(** One call answered as [settles] says. *)
Ltac answered :=
  let x := fresh "x" in let Hx := fresh "Hx" in
  split; [exact I|]; intros x Hx; cbn beta iota delta [settles upFor] in Hx;
  first [ subst x
        | destruct Hx as (? & -> & ?)
        | destruct Hx as [->|(? & -> & ?)]
        | destruct Hx as [(? & -> & ?)|(? & -> & ? & ?)]
        | destruct Hx as (? & ->)
        | clear Hx; try destruct x ]; cbn beta iota.

Ltac sstep :=
  lazymatch goal with
  | |- wp _ _ (perform _ _) _ _ => cbn [wp perform]; answered
  | |- True ∧ _ => answered
  | _ => wstep
  end.

(** A call that stores nothing. *)
Definition storeless {R} (e : event (@ans R)) : Prop := ∀ k key, writes k key e = None.

Lemma lastWrite_app {R} k key (h t : list (event (@ans R))) :
  Forall storeless t → lastWrite k key (h ++ t) = lastWrite k key h.
Proof.
  intros Ht. unfold lastWrite. rewrite omap_app. assert (omap (writes k key) t = []) as ->.
  { induction Ht as [|e t He _ IH]; [done|]. simpl. by rewrite He. }
  by rewrite app_nil_r.
Qed.

Lemma lastWrite_here {R} k key u f (y : res (object k)) (h : list (event (@ans R))) :
  lastWrite k key (h ++ [Ev (CreateOrUpdate k key u f) y]) = Some f.
Proof.
  unfold lastWrite. rewrite omap_app. cbn. destruct (decide (k = k)) as [E|]; [|done].
  rewrite decide_True by done. rewrite (proof_irrel E eq_refl). cbn. by rewrite last_snoc.
Qed.

Lemma lastWrite_other {R} k key (e : event (@ans R)) h :
  writes k key e = None → lastWrite k key (h ++ [e]) = lastWrite k key h.
Proof. intros He. unfold lastWrite. rewrite omap_app. simpl. by rewrite He, app_nil_r. Qed.

Lemma settled_delete {R} (r : R) k key Q h :
  (∀ t, Forall storeless t → Q (Ok tt) (h ++ t)) → settled r (deleteChildIfExists k key) Q h.
Proof.
  intros HQ. unfold deleteChildIfExists, deleteIgnoringNotFound, IgnoreNotFound.
  repeat sstep; first [rewrite <- ?(assoc_L (++)); apply HQ; by repeat constructor
    |match goal with H : IsNotFound _ = true |- _ => rewrite H in *; discriminate end].
Qed.

Lemma settled_deleteIgnoring {R} (r : R) k key Q h :
  (∀ t, Forall storeless t → Q (Ok tt) (h ++ t)) → settled r (deleteIgnoringNotFound k key) Q h.
Proof.
  intros HQ. unfold deleteIgnoringNotFound.
  repeat sstep; first [apply HQ; by repeat constructor
    |match goal with H : IsNotFound _ = true |- _ => rewrite H in *; discriminate end].
Qed.

(** * The controllers *)

Context (sha256hex : string → string) (yamlMarshal : gmap string string → res string).

Ltac settle :=
  repeat first
    [ match goal with
      | |- wp _ _ (deleteChildIfExists _ _) _ _ => apply settled_delete; intros ? ?; cbn beta iota
      | |- wp _ _ (deleteIgnoringNotFound _ _) _ _ => apply settled_deleteIgnoring; intros ? ?; cbn beta iota
      end
    | sstep ].

Ltac reported :=
  split; [reflexivity|]; rewrite stored_snoc; apply reportsReady_set.

Lemma rolledOut_rollout gen desired w noun :
  rolledOut desired w →
  cStatus (workloadReadyCondition gen desired (statefulSetRollout w) noun) = ConditionTrue.
Proof. intros [Hc _]. apply (workloadReadyCondition_true sha256hex). right. exact Hc. Qed.

Lemma workloadReadyCondition_generation gen desired rollout noun :
  cObservedGeneration (workloadReadyCondition gen desired rollout noun) = gen.
Proof. unfold workloadReadyCondition. by break_goal. Qed.

Lemma brokerReadyCondition_generation sts desired gen :
  cObservedGeneration (BrokerCtl.brokerReadyCondition sts desired gen) = gen.
Proof. unfold BrokerCtl.brokerReadyCondition. by break_goal. Qed.

Lemma computeReadyCondition_generation gen desired st :
  cObservedGeneration (BookieCtl.computeReadyCondition gen desired st) = gen.
Proof. unfold BookieCtl.computeReadyCondition. by break_goal. Qed.

Lemma proxy_brings_up recorder (proxy : ProxyCtl.Proxy) req :
  ProxyCtl.proxyTLSMisconfigured (rsSpec proxy) = false →
  settled proxy (ProxyCtl.Reconcile sha256hex recorder req) (resourceUp proxy) [].
Proof.
  intros Hm. unfold ProxyCtl.Reconcile. sstep. sstep. rewrite Hm.
  unfold ProxyCtl.reconcileConfigMap, ProxyCtl.reconcileHeadlessService,
    ProxyCtl.reconcileStatefulSet, ProxyCtl.reconcilePDB. settle. reported.
  - apply workloadReadyCondition_type.
  - apply rolledOut_rollout. eauto.
  - apply workloadReadyCondition_generation.
Qed.

Lemma autoRecovery_brings_up (ar : AutoRecoveryCtl.AutoRecovery) req :
  settled ar (AutoRecoveryCtl.Reconcile sha256hex req) (resourceUp ar) [].
Proof.
  unfold AutoRecoveryCtl.Reconcile. sstep. sstep. sstep. destruct (String.eqb _ _).
  - unfold AutoRecoveryCtl.reconcileDedicated, AutoRecoveryCtl.reconcileConfigMap,
      AutoRecoveryCtl.reconcileDeployment, AutoRecoveryCtl.reconcilePDB. settle. reported.
    + apply workloadReadyCondition_type.
    + apply (rolledOut_rollout _ _ _ _). eauto.
    + apply workloadReadyCondition_generation.
  - unfold AutoRecoveryCtl.reconcileEmbedded. settle. reported; done.
Qed.

Lemma functionsWorker_brings_up (fw : FunctionsCtl.FunctionsWorker) req :
  functionsWorkerMode (rsSpec fw) = functionsWorkerModeStandalone →
  settled fw (FunctionsCtl.Reconcile sha256hex yamlMarshal req) (resourceUp fw) [].
Proof.
  intros Hm. unfold FunctionsCtl.Reconcile. sstep. sstep. sstep. rewrite Hm, String.eqb_refl.
  unfold FunctionsCtl.reconcileStandalone, FunctionsCtl.reconcileConfigMap,
    FunctionsCtl.reconcileHeadlessService, FunctionsCtl.reconcileStatefulSet,
    FunctionsCtl.reconcilePDB. settle. reported.
  - apply workloadReadyCondition_type.
  - apply rolledOut_rollout. eauto.
  - apply workloadReadyCondition_generation.
Qed.

Lemma broker_updateStatus (broker : BrokerCtl.Broker) f h :
  let desired := BrokerAutoscaler.brokerReplicas (bsReplicas (rsSpec broker)) in
  desired ≠ 0 → lastWrite KStatefulSet (rsKey broker) h = Some f →
  (∀ o, wReplicas (f o) = Some desired) →
  settled broker (BrokerCtl.updateStatus broker (rsName broker))
    (λ a h', a = Ok tt ∧ resourceUp broker (Ok emptyResult) h') h.
Proof.
  cbn zeta. intros Hd Hw Hf. unfold BrokerCtl.updateStatus. change (mkNN _ _) with (rsKey broker).
  sstep. sstep; [|congruence].
  sstep. split; [done|]. reported.
  - apply brokerReadyCondition_type.
  - apply brokerReadyCondition_true. split; [done|]. apply (H f Hw _ Hf).
  - apply brokerReadyCondition_generation.
Qed.

(** The last closure stored under a key, in a history that is written out. *)
Ltac last_write :=
  repeat first [apply lastWrite_here|rewrite lastWrite_app by done|rewrite lastWrite_other by done].

Lemma broker_brings_up (broker : BrokerCtl.Broker) req :
  BrokerAutoscaler.brokerReplicas (bsReplicas (rsSpec broker)) ≠ 0 →
  settled broker (BrokerCtl.Reconcile sha256hex yamlMarshal req) (resourceUp broker) [].
Proof.
  intros Hd. unfold BrokerCtl.Reconcile. sstep. sstep.
  unfold BrokerCtl.reconcileConfigMap, BrokerCtl.reconcileFunctionsWorkerConfigMap,
    BrokerCtl.reconcileHeadlessService, BrokerCtl.reconcileStatefulSet, BrokerCtl.reconcilePDB. settle.
  all: eapply wp_mono, broker_updateStatus; [intros ? h'' _ [-> Hup]; exact Hup|exact Hd|last_write|done].
Qed.

Lemma bookie_brings_up (bk : BookieCtl.BookKeeper) req :
  resolveReplicas (rsSpec bk) ≠ 0 →
  settled bk (BookieCtl.Reconcile sha256hex req) (resourceUp bk) [].
Proof.
  intros Hd. unfold BookieCtl.Reconcile. sstep. sstep.
  unfold BookieCtl.reconcileConfigMap, BookieCtl.reconcileHeadlessService,
    BookieCtl.reconcilePodDisruptionBudget, BookieCtl.reconcileStatefulSet, BookieCtl.updateStatus. settle.
  all: reported; [apply computeReadyCondition_type| |apply computeReadyCondition_generation].
  all: apply computeReadyCondition_true; split; [done|].
  all: match goal with H : ∀ n, _ → rolledOut n ?x |- context [BookieCtl.rolloutStateOf ?x] =>
         destruct (H _ (λ _, eq_refl)) as ((_ & ? & ?) & ? & _) end; done.
Qed.
(** ** Oxia *)

Section Oxia.
Import OxiaCtl.
Context (marshalConfig : coordinatorConfig → res string) (Hmarshal : ∀ c, ∃ s, marshalConfig c = Ok s).

(** The status of an OxiaCluster that has everything right but Ready is never
    written again: the comparison sees the new condition on both sides
    ([oxia_status_written]). *)
Definition stuck (oxia : OxiaCluster) : Prop :=
  let st := oxStatus oxia in
  is_Some (FindStatusCondition (oxConditions st) ReadyConditionType) ∧
  oxCoordinatorReplicas st = coordinatorReplicas oxia ∧ oxServerReplicas st = serverReplicas oxia ∧
  oxObservedGeneration st = oxGeneration oxia ∧ ¬ reportsReady (oxGeneration oxia) (oxConditions st).

Lemma readyConditionOf_up oxia coordinator server :
  rolledOut (coordinatorReplicas oxia) coordinator → rolledOut (serverReplicas oxia) server →
  let cond := readyConditionOf oxia coordinator server in
  cType cond = conditionTypeReady ∧ cStatus cond = ConditionTrue ∧ cObservedGeneration cond = oxGeneration oxia.
Proof.
  intros (_ & _ & Ha) ((_ & _ & Hr) & _). unfold readyConditionOf. by rewrite Ha, Hr, Z.eqb_refl.
Qed.

Lemma oxia_reconcileStatus (oxia : OxiaCluster) f g h :
  ¬ stuck oxia →
  lastWrite KDeployment (oxKey oxia (coordinatorName (oxName oxia))) h = Some f →
  (∀ o, wReplicas (f o) = Some (coordinatorReplicas oxia)) →
  lastWrite KStatefulSet (oxKey oxia (serverName (oxName oxia))) h = Some g →
  (∀ o, wReplicas (g o) = Some (serverReplicas oxia)) →
  omap statusOf h = [] →
  settled oxia (reconcileStatus oxia)
    (λ a h', a = Ok tt ∧
       reportedUp (oxGeneration oxia) (λ r, oxConditions (oxStatus r)) oxia (Ok emptyResult) h') h.
Proof.
  intros Hs Hf Hcr Hg Hsr Hno. unfold reconcileStatus, getOrZero.
  sstep. sstep. sstep; [|congruence]. sstep. sstep. sstep. sstep; [|rewrite lastWrite_other in * by done; congruence].
  sstep. rewrite lastWrite_other in * by done.
  pose proof (H _ Hf _ Hcr) as Hc. pose proof (H0 _ Hg _ Hsr) as Hv. cbn in Hc, Hv.
  destruct (readyConditionOf_up oxia _ _ Hc Hv) as (Hty & Hst & Hog).
  rewrite aggregateStatus_unfold. case_bool_decide as E.
  - cbn [wp]. split; [done|]. split; [done|].
    unfold stored. rewrite !omap_app, Hno. simpl. cbn in E. injection E as E1 E2 E3 E4.
    destruct Hc as ((_ & _ & Hcr') & _), Hv as ((_ & _ & Hsr') & _). rewrite Hcr' in E1. rewrite Hsr' in E2.
    destruct (FindStatusCondition (oxConditions (oxStatus oxia)) ReadyConditionType) as [cond|] eqn:Ef.
    + destruct (decide (reportsReady (oxGeneration oxia) (oxConditions (oxStatus oxia)))); [done|].
      destruct Hs. split_and!; [by eexists|done..].
    + destruct (find_setCond_eq (oxConditions (oxStatus oxia)) (readyConditionOf oxia x0 x1)) as (c & Hc & _).
      change ReadyConditionType with conditionTypeReady in Ef. rewrite <- E4, Hty, Ef in Hc. done.
  - sstep. split; [done|]. split; [done|]. rewrite stored_snoc. by apply reportsReady_set.
Qed.

Lemma serverStatefulSet_replicas (oxia : OxiaCluster) o :
  wReplicas (serverStatefulSet oxia o) = Some (serverReplicas oxia).
Proof. unfold serverStatefulSet. by repeat case_match. Qed.

Lemma oxia_brings_up (oxia : OxiaCluster) req :
  ¬ stuck oxia →
  settled oxia (OxiaCtl.Reconcile sha256hex marshalConfig req)
    (reportedUp (oxGeneration oxia) (λ r, oxConditions (oxStatus r)) oxia) [].
Proof.
  intros Hs. unfold OxiaCtl.Reconcile. sstep. sstep.
  unfold reconcileServer, reconcileServerHeadlessService, reconcileServerPublicService,
    reconcileServerStatefulSet, reconcileServerPDB, reconcileCoordinator, reconcileCoordinatorServiceAccount,
    reconcileCoordinatorRole, reconcileCoordinatorRoleBinding, reconcileCoordinatorStatusConfigMap,
    reconcileCoordinatorConfigMap, renderCoordinatorConfig, reconcileCoordinatorService,
    reconcileCoordinatorDeployment, reconcileCoordinatorPDB.
  destruct (Hmarshal (mkCoordinatorConfig (renderNamespaces oxia) (renderServers oxia)
    (renderAllowExtraAuthorities oxia))) as [config ->].
  settle.
  all: try (match goal with H : IsNotFound _ = true |- _ => rewrite H in *; discriminate end).
  all: eapply wp_mono, oxia_reconcileStatus; [intros ? h'' _ [-> Hup]; exact Hup|exact Hs|last_write|intros ?; reflexivity|last_write|apply serverStatefulSet_replicas|reflexivity].
Qed.
End Oxia.
End Settled.
