(* ===== verification/Deployed.v ===== *)
(** The rollout with the controllers that run beside the umbrella: the tiers of
    UmbrellaLive.v brought up by the reconciles of BringUp.v. *)

From S2P Require Import Prelude Effects Kube BrokerScale BookKeeper BackupTypes Config Rollout RolloutProps Workload ClusterTypes MetadataInit Umbrella UmbrellaProps UmbrellaLive FunctionsConf BrokerCtl BookieCtl ProxyCtl AutoRecoveryCtl FunctionsCtl OxiaCtl WorkloadProps BringUp.
Import Rollout Workload Cluster MetadataInit Umbrella.
Open Scope Z_scope.
Open Scope go_scope.

Module Deployed.

Section Deployed.
Context `{AM : !ApiMeta} `{Heq : ∀ t, EqDecision (specOf t)}
  (Marshal : ∀ t, specOf t → res string) (sha256hex : string → string)
  (defaulting : ∀ t, specOf t → specOf t)
  (hash : ∀ t, specOf t → string)
  (Hhash : ∀ t x, specHash (Marshal t) sha256hex x = Ok (hash t x))
  (Hidem : ∀ t s, defaulting t (defaulting t s) = defaulting t s)
  (yamlMarshal : gmap string string → res string)
  (marshalConfig : OxiaCtl.coordinatorConfig → res string)
  (Hmarshal : ∀ c, ∃ s, marshalConfig c = Ok s) (recorder : bool).

(** * Components *)

(** A spec its controller can bring up: there is a bookie and a broker to wait
    for, and a Proxy that wants TLS names its certificate. *)
Definition viable (t : tierName) : specOf t → Prop :=
  match t with
  | tierBookKeeper => λ s, resolveReplicas s ≠ 0
  | tierBroker => λ s, BrokerAutoscaler.brokerReplicas (bsReplicas s) ≠ 0
  | tierProxy => λ s, ProxyCtl.proxyTLSMisconfigured s = false
  | _ => λ _, True
  end.

(** The umbrella's child is the controller's resource. *)
Definition represents {Spec} (ch : Child Spec) (r : Resource Spec) : Prop :=
  rsKey r = chKey ch ∧ rsGeneration r = chGeneration ch ∧ rsSpec r = chSpec ch ∧
  stConditions (rsStatus r) = chConditions ch.

Definition representsOxia (ch : Child OxiaClusterSpec) (r : OxiaCtl.OxiaCluster) : Prop :=
  mkNN (OxiaCtl.oxNamespace r) (OxiaCtl.oxName r) = chKey ch ∧ OxiaCtl.oxGeneration r = chGeneration ch ∧
  OxiaCtl.oxSpec r = chSpec ch ∧ OxiaCtl.oxConditions (OxiaCtl.oxStatus r) = chConditions ch.

(** A reconcile among settled workloads, and the conditions it leaves. *)
Definition reconciledBy {Spec} (p : NamespacedName → prog (@Workload.ans (Resource Spec)) (res Result))
    (ch ch' : Child Spec) : Prop :=
  ∃ r a tr, represents ch r ∧ runs (p (chKey ch)) tr a ∧ relies (settles r) [] tr ∧
    ch' = withConditions (stConditions (rsStatus (stored r tr))) ch.

Definition oxiaReconciled (ch ch' : Child OxiaClusterSpec) : Prop :=
  ∃ r a tr, representsOxia ch r ∧ ¬ stuck r ∧
    runs (OxiaCtl.Reconcile sha256hex marshalConfig (chKey ch)) tr a ∧ relies (settles r) [] tr ∧
    ch' = withConditions (OxiaCtl.oxConditions (OxiaCtl.oxStatus (stored r tr))) ch.

Definition reconciled (t : tierName) : Child (specOf t) → Child (specOf t) → Prop :=
  match t with
  | tierOxia => oxiaReconciled
  | tierBookKeeper => reconciledBy (BookieCtl.Reconcile sha256hex)
  | tierAutoRecovery => reconciledBy (AutoRecoveryCtl.Reconcile sha256hex)
  | tierBroker => reconciledBy (BrokerCtl.Reconcile sha256hex yamlMarshal)
  | tierProxy => reconciledBy (ProxyCtl.Reconcile sha256hex recorder)
  | tierFunctionsWorker => reconciledBy (FunctionsCtl.Reconcile sha256hex yamlMarshal)
  end.

Lemma reconciled_conditions t ch ch' : reconciled t ch ch' → ∃ cs, ch' = withConditions cs ch.
Proof. destruct t; simpl; [intros (r & a & tr & ? & ? & ? & ? & ->)|intros (r & a & tr & ? & ? & ? & ->)..]; eauto. Qed.

Lemma reconciledBy_up {Spec} p (ch ch' : Child Spec) :
  (∀ r, represents ch r → wp (λ _ _, True) (settles r) (p (chKey ch))
     (reportedUp (rsGeneration r) (λ r, stConditions (rsStatus r)) r) []) →
  reconciledBy p ch ch' → reportsReady (chGeneration ch') (chConditions ch').
Proof.
  intros Hp (r & a & tr & Hrep & Hr & Hrel & ->).
  destruct (wp_runs _ _ _ _ _ _ _ (Hp r Hrep) Hr Hrel) as [_ Hup]. destruct Hrep as (_ & Hg & _).
  cbn [chGeneration chConditions withConditions]. by rewrite <- Hg.
Qed.

(** Each controller keeps what the umbrella expects of it. *)
Lemma reconciled_up t ch ch' :
  t ≠ tierFunctionsWorker → viable t (chSpec ch) → reconciled t ch ch' →
  reportsReady (chGeneration ch') (chConditions ch').
Proof.
  intros Ht Hv. destruct t; simpl in *; [|apply reconciledBy_up; intros r (_ & _ & Hs & _)..|done].
  - intros (r & a & tr & (_ & Hg & _) & Hst & Hr & Hrel & ->).
    cbn [chGeneration chConditions withConditions]. rewrite <- Hg.
    apply (wp_runs _ _ _ _ _ _ _ (oxia_brings_up sha256hex marshalConfig Hmarshal r _ Hst) Hr Hrel).
  - apply bookie_brings_up. by rewrite Hs.
  - apply autoRecovery_brings_up.
  - apply broker_brings_up. by rewrite Hs.
  - apply proxy_brings_up. by rewrite Hs.
Qed.

(** * Rounds *)

Abbreviation pass req w := (exec (serveWorld defaulting) (Reconcile Marshal sha256hex req) w).

(** Every component's controller reconciles. *)
Definition componentsReconcile (w s : world) : Prop :=
  wCluster s = wCluster w ∧ wPVC s = wPVC w ∧
  ∀ t, option_Forall2 (reconciled t) (wChildren w t) (wChildren s t).

Definition allViable (w : world) : Prop := ∀ t ch, wChildren w t = Some ch → viable t (chSpec ch).

(** What the cluster asks for can be brought up, whatever the autoscalers have
    made of the replicas. *)
Definition asksViable (c : PulsarCluster) : Prop :=
  ∀ t oc old, desiredChild c t = Some oc → (∀ l, old = Some l → viable t l) →
    viable t (defaulting t (setSpec oc old)).

Lemma componentsReconcile_child w s t ch' :
  componentsReconcile w s → wChildren s t = Some ch' →
  ∃ ch, wChildren w t = Some ch ∧ reconciled t ch ch'.
Proof. intros (_ & _ & H) E. specialize (H t). rewrite E in H. inversion H; eauto. Qed.

Lemma componentsReconcile_viable w s : componentsReconcile w s → allViable w → allViable s.
Proof.
  intros Hs Hv t ch' Hch'. destruct (componentsReconcile_child _ _ _ _ Hs Hch') as (ch & Hch & Hr).
  apply reconciled_conditions in Hr as [cs ->]. simpl. by apply Hv.
Qed.

Lemma componentsReconcile_up c w s :
  allViable w → componentsReconcile w s → comesUp hash c w s.
Proof.
  intros Hv Hs. split; [apply Hs|]. split.
  - intros t. destruct Hs as (_ & _ & Hall).
    destruct (Hall t) as [ch ch' Hr|]; constructor. exact (reconciled_conditions t ch ch' Hr).
  - intros t _ Ht ch' Hch'. destruct (componentsReconcile_child _ _ _ _ Hs Hch') as (ch & Hch & Hr).
    apply reportsReady_name. apply (reconciled_up t ch); [done|by apply Hv|done].
Qed.

Lemma rounds_viable req c (ws : nat → world) n :
  (∃ st, wCluster (ws 0%nat) = set_pcStatus st c) → allViable (ws 0%nat) → asksViable c →
  (∀ k, (k < n)%nat → ∃ s, componentsReconcile (ws k) s ∧ ws (S k) = (pass req s).1.2) →
  ∀ k, (k ≤ n)%nat → (∃ st, wCluster (ws k) = set_pcStatus st c) ∧ allViable (ws k).
Proof.
  intros Hc Hv Ha Hround k. induction k as [|k IH]; intros Hk; [done|].
  destruct (IH ltac:(lia)) as [IHc IHv]. destruct (Hround k ltac:(lia)) as (s & Hs & ->).
  pose proof (componentsReconcile_viable _ _ Hs IHv) as Hvs. destruct Hs as (Hcl & _).
  rewrite <- Hcl in IHc.
  destruct (Reconcile_done Marshal sha256hex defaulting hash Hhash Hidem c s req IHc) as (_ & Hc' & _ & Hspec & _).
  split; [done|]. intros t ch Hch. destruct (Hspec t) as [[Hsame|[_ Hw]] _].
  { apply Hvs. by rewrite <- Hsame. }
  destruct (Hw ch Hch) as (oc & Hoc & ->). apply Ha; [done|]. intros l. destruct (wChildren s t) as [old|] eqn:Eo; [|done].
  intros [= <-]. by apply Hvs.
Qed.

(** C18: The rollout terminates with the controllers that are deployed.  Let the
    workloads settle and every component controller reconcile before each pass
    of the umbrella, and let what is there and what is asked for be possible to
    bring up (at least one bookie and one broker, a certificate for a Proxy
    with TLS, and no OxiaCluster whose status is right in everything but
    Ready), and the stamps found be true.  Then after five rounds every wanted
    child has exactly the desired spec, as the API server defaults it (an
    autoscaled tier keeping the replicas it had), and its stamp, every unwanted
    one is gone, and a further pass writes no child and asks for no requeue. *)
Theorem deployed_rollout_terminates req (ws : nat → world) health :
  let c := wCluster (ws 0%nat) in
  allViable (ws 0%nat) → asksViable c → honestStamps defaulting hash c (ws 0%nat) →
  (∀ k, (k < 5)%nat → ∃ s, componentsReconcile (ws k) s ∧ ws (S k) = (pass req s).1.2) →
  let w5 := ws 5%nat in
  let R := pass req (withHealth health w5) in
  rolledOutFrom defaulting hash c (ws 0%nat) w5 ∧
  R.1.1 = Ok emptyResult ∧ Forall quiet R.2 ∧
  (∀ t, wChildren R.1.2 t = wChildren (withHealth health w5) t).
Proof.
  cbn zeta. set (c := wCluster (ws 0%nat)). intros Hv Ha Hhon Hround.
  assert (∃ st, wCluster (ws 0%nat) = set_pcStatus st c) as Hc
    by (exists (pcStatus c); by subst c; destruct (wCluster (ws 0%nat))).
  destruct (trajectory_clean Marshal sha256hex defaulting hash Hhash Hidem req c ws 5 Hc) with (k := 5%nat)
    as (Hc5 & Hlev & Hsince); [|lia|].
  - intros k Hk. destruct (Hround k Hk) as (s & Hs & E). exists s. split; [|done].
    apply componentsReconcile_up; [|done]. eapply rounds_viable; eauto with lia.
  - apply (clean_final Marshal sha256hex defaulting hash Hhash Hidem req c (ws 0%nat) (ws 5%nat) health Hc5 Hhon);
      [|done].
    intros t. apply Hlev. destruct t; simpl; lia.
Qed.

End Deployed.

(** * An API server whose workloads settle at once *)

Section Serve.
Context `{AM : !ApiMeta} {R : Type} (r : R).

(** The status the workload controllers give an object in the end. *)
Definition raise (k : Kind) : object k → object k :=
  match k with
  | KStatefulSet | KDeployment => λ o,
      let n := default 1 (wReplicas o) in
      mkWorkload (wKey o) (wOwner o) (wGeneration o) (wResourceVersion o) (wLabels o) (wReplicas o)
        (wServiceName o) (wPodManagementPolicy o) (wSelector o) (wTemplate o) (wVolumeClaimTemplates o)
        (mkWStatus (wGeneration o) n n n "rev" "rev" [("Available", ConditionTrue)])
  | _ => λ o, o
  end.

Lemma raise_up k f o : upFor k f (raise k (f o)).
Proof.
  destruct k; simpl; try done; intros n Hn; unfold rolledOut, converged; simpl; by rewrite Hn.
Qed.

(** The objects stored, by kind and key. *)
Definition store : Type := ∀ k, NamespacedName → option (object k).

Definition put (k : Kind) (key : NamespacedName) (o : object k) (σ : store) : store :=
  λ k' key', match decide (k = k') with
             | left E => if decide (key = key') then Some (eq_rect k object o k' E) else σ k' key'
             | right _ => σ k' key'
             end.

Lemma put_eq k key o σ : put k key o σ k key = Some o.
Proof.
  unfold put. destruct (decide (k = k)) as [E|]; [|done]. rewrite decide_True by done.
  by rewrite (proof_irrel E eq_refl).
Qed.

(** What is deleted is not read again, so it stays. *)
Definition serveUp (q : Workload.call R) (σ : store) : Workload.ans q * store :=
  match q return Workload.ans q * store with
  | GetResource _ => (Ok r, σ)
  | UpdateStatus _ => (Ok tt, σ)
  | CreateOrUpdate k key _ f =>
      let o := raise k (f (default (zeroObject k key) (σ k key))) in (Ok o, put k key o σ)
  | GetObject k key => (match σ k key with Some o => Ok o | None => Err (ErrNotFound (nnName key)) end, σ)
  | CreateObject k _ o | UpdateObject k _ o => (Ok (raise k o), σ)
  | DeleteObject _ _ => (Ok tt, σ)
  | Workload.SetOwner _ => (Ok tt, σ)
  | GetBrokerConditions _ => (Ok [], σ)
  | Workload.Eventf _ _ _ _ => (tt, σ)
  end.

(** What was written last is stored, rolled out. *)
Definition keeps (h : list (event (@Workload.ans R))) (σ : store) : Prop :=
  ∀ k key f, lastWrite k key h = Some f → ∃ o, σ k key = Some o ∧ upFor k f o.

Lemma keeps_other h σ e : storeless e → keeps h σ → keeps (h ++ [e]) σ.
Proof. intros He Hk k key f. rewrite lastWrite_other by apply He. apply Hk. Qed.

Lemma keeps_write h σ k key u f o y :
  upFor k f o → keeps h σ → keeps (h ++ [Ev (CreateOrUpdate k key u f) y]) (put k key o σ).
Proof.
  intros Ho Hk k' key' f'. destruct (decide (k = k')) as [<-|Hne].
  - destruct (decide (key = key')) as [<-|Hne].
    + rewrite lastWrite_here. intros [= <-]. exists o. split; [apply put_eq|done].
    + rewrite lastWrite_other.
      * intros Hf. destruct (Hk _ _ _ Hf) as (o' & Ho' & ?). exists o'. split; [|done].
        unfold put. destruct (decide (k = k)); [|done]. by rewrite decide_False.
      * unfold writes. simpl. destruct (decide (k = k)); [|done]. by rewrite decide_False.
  - rewrite lastWrite_other.
    + intros Hf. destruct (Hk _ _ _ Hf) as (o' & Ho' & ?). exists o'. split; [|done].
      unfold put. by destruct (decide (k = k')).
    + unfold writes. simpl. by destruct (decide (k = k')).
Qed.

Lemma serveUp_settles {A} (p : prog (@Workload.ans R) A) σ h :
  keeps h σ → relies (settles r) h (exec serveUp p σ).2.
Proof.
  revert σ h. induction p as [a|q k IH]; intros σ h Hk; [done|].
  rewrite exec_Vis. cbn [snd relies].
  assert (settles r h (Ev q (serveUp q σ).1) ∧ keeps (h ++ [Ev q (serveUp q σ).1]) (serveUp q σ).2)
    as [Hs Hk'].
  { destruct q; simpl; try (split; [by eauto|by apply keeps_other]).
    - split; [eexists; split; [done|apply raise_up]|]. apply keeps_write; [apply raise_up|done].
    - split; [|by apply keeps_other]. destruct (σ k0 key) as [o|] eqn:E.
      + left. exists o. split; [done|]. intros f Hf. destruct (Hk _ _ _ Hf) as (o' & Ho' & ?). congruence.
      + right. eexists. split; [done|]. split; [done|].
        destruct (lastWrite k0 key h) as [f|] eqn:Ef; [|done].
        destruct (Hk _ _ _ Ef) as (o' & Ho' & _). congruence.
    - split; [|by apply keeps_other]. eexists. split; [done|]. apply (raise_up _ (λ _, o) o).
    - split; [|by apply keeps_other]. eexists. split; [done|]. apply (raise_up _ (λ _, o) o). }
  split; [done|]. by apply IH.
Qed.

Definition noObjects : store := λ _ _, None.

Lemma serveUp_run {A} (p : prog (@Workload.ans R) A) :
  let R := exec serveUp p noObjects in runs p R.2 R.1.1 ∧ relies (settles r) [] R.2.
Proof. split; [apply exec_runs|]. apply serveUp_settles. intros k key f [=]. Qed.
End Serve.

(** * A cluster *)

Module DeployedDemo.
Import UmbrellaDemo.

Definition yaml (_ : gmap string string) : res string := Ok "".
Definition config (_ : OxiaCtl.coordinatorConfig) : res string := Ok "".

Definition asResource {Spec} (ch : Child Spec) : Resource Spec :=
  mkResource (nnName (chKey ch)) (nnNamespace (chKey ch)) "uid" (chGeneration ch) None (chSpec ch)
    (mkStatus 0 0 0 (chConditions ch)).

Definition asOxia (ch : Child OxiaClusterSpec) : OxiaCtl.OxiaCluster :=
  OxiaCtl.mkOxia (nnName (chKey ch)) (nnNamespace (chKey ch)) "uid" (chGeneration ch) (chSpec ch)
    (OxiaCtl.mkOxiaStatus 0 0 (chGeneration ch - 1) (chConditions ch)).

Definition after {Spec} (p : NamespacedName → prog (@Workload.ans (Resource Spec)) (res Result))
    (ch : Child Spec) : Child Spec :=
  let r := asResource ch in
  withConditions (stConditions (rsStatus (stored r (exec (serveUp r) (p (chKey ch)) noObjects).2))) ch.

Definition afterOxia (ch : Child OxiaClusterSpec) : Child OxiaClusterSpec :=
  let r := asOxia ch in
  let p := OxiaCtl.Reconcile (AM := refApiMeta) digest config (chKey ch) in
  withConditions (OxiaCtl.oxConditions (OxiaCtl.oxStatus (stored r (exec (serveUp r) p noObjects).2))) ch.

Definition settleTier (t : tierName) : Child (specOf t) → Child (specOf t) :=
  match t with
  | tierOxia => afterOxia
  | tierBookKeeper => after (BookieCtl.Reconcile (AM := refApiMeta) digest)
  | tierAutoRecovery => after (AutoRecoveryCtl.Reconcile (AM := refApiMeta) digest)
  | tierBroker => after (BrokerCtl.Reconcile (AM := refApiMeta) digest yaml)
  | tierProxy => after (ProxyCtl.Reconcile (AM := refApiMeta) digest true)
  | tierFunctionsWorker => after (FunctionsCtl.Reconcile (AM := refApiMeta) digest yaml)
  end.

Definition settleReal (w : world) : world :=
  mkWorld (wCluster w) (λ t, settleTier t <$> wChildren w t) (wPVC w).

Lemma after_reconciled {Spec} p (ch : Child Spec) : reconciledBy p ch (after p ch).
Proof.
  destruct (serveUp_run (asResource ch) (p (chKey ch))) as [Hr Hs].
  eexists (asResource ch), _, _. split_and!; [|exact Hr|exact Hs|done].
  by destruct ch as [[]].
Qed.

Lemma afterOxia_reconciled ch : oxiaReconciled (AM := refApiMeta) digest config ch (afterOxia ch).
Proof.
  destruct (serveUp_run (asOxia ch) (OxiaCtl.Reconcile (AM := refApiMeta) digest config (chKey ch))) as [Hr Hs].
  eexists (asOxia ch), _, _. split_and!; [| |exact Hr|exact Hs|done].
  - by destruct ch as [[]].
  - intros (_ & _ & _ & Hg & _). simpl in Hg. lia.
Qed.

Lemma settleReal_reconciles w :
  componentsReconcile (AM := refApiMeta) digest yaml config true w (settleReal w).
Proof.
  split; [done|]. split; [done|]. intros t. simpl. destruct (wChildren w t) as [ch|]; constructor.
  destruct t; simpl; [apply afterOxia_reconciled|apply after_reconciled..].
Qed.

Definition step (w : world) : world :=
  (exec (serveWorld keep) (Reconcile (AM := refApiMeta) marshal digest key) (settleReal w)).1.2.

Lemma asked5_viable : allViable asked5.
Proof.
  intros t ch H. destruct t; [done| |done| | |done]; vm_compute in H; try discriminate H;
    injection H as <-; vm_compute; done.
Qed.

Lemma asked5_asks : asksViable keep (wCluster asked5).
Proof.
  intros t oc old H _. destruct t; [done| |done| | |done]; vm_compute in H; try discriminate H;
    injection H as <-; vm_compute; done.
Qed.

Lemma steps_reconcile k :
  (k < 5)%nat →
  ∃ s, componentsReconcile (AM := refApiMeta) digest yaml config true (Nat.iter k step asked5) s ∧
    Nat.iter (S k) step asked5 =
      (exec (serveWorld keep) (Reconcile (AM := refApiMeta) marshal digest key) s).1.2.
Proof. intros _. exists (settleReal (Nat.iter k step asked5)). split; [apply settleReal_reconciles|done]. Qed.

Lemma deployed_rollout_terminates_witness :
  rolledOutFrom keep hash (cluster "5") asked5 (Nat.iter 5 step asked5) ∧
  (exec (serveWorld keep) (Reconcile (AM := refApiMeta) marshal digest key)
     (withHealth (λ _, []) (Nat.iter 5 step asked5))).1.1 = Ok emptyResult.
Proof.
  split.
  - exact (proj1 (deployed_rollout_terminates (AM := refApiMeta) marshal digest keep hash
      ltac:(reflexivity) ltac:(reflexivity) yaml config (λ c, ex_intro _ "" eq_refl) true key
      (λ k, Nat.iter k step asked5) (λ _, [])
      asked5_viable asked5_asks asked5_honest steps_reconcile)).
  - exact (proj1 (proj2 (deployed_rollout_terminates (AM := refApiMeta) marshal digest keep hash
      ltac:(reflexivity) ltac:(reflexivity) yaml config (λ c, ex_intro _ "" eq_refl) true key
      (λ k, Nat.iter k step asked5) (λ _, [])
      asked5_viable asked5_asks asked5_honest steps_reconcile))).
Defined.

End DeployedDemo.

End Deployed.
