(* ===== verification/PodProps.v ===== *)
(** Well-formedness of what the workload controllers render: pods whose
    mounts, probes and selectors refer to things that exist, Services and
    disruption budgets that select those pods, budgets that keep a quorum, and
    the addresses under which Oxia is reached. *)

From S2P Require Import Prelude Effects Kube BrokerScale BookKeeper BackupTypes Manifest Config Rollout Workload ClusterTypes MetadataInit Umbrella FunctionsConf BrokerCtl BookieCtl ProxyCtl AutoRecoveryCtl FunctionsCtl OxiaCtl UmbrellaProps MetadataProps WorkloadProps.
Import Rollout Workload Cluster.
Open Scope Z_scope.
Open Scope go_scope.

(** * Well-formed objects *)

(** What a workload's pods look like from outside: the labels that select
    them, the claims the StatefulSet makes for them, the ports they listen on. *)
Record shape := mkShape {
  shSelector : gmap string string;
  shClaims : list string;
  shPorts : list ContainerPort
}.

Definition resolves (target : IntOrString) (ports : list ContainerPort) : Prop :=
  match target with
  | FromInt32 n => n ∈ cpPort <$> ports
  | FromString s => s ∈ cpName <$> ports
  end.

Definition probeOK (ports : list ContainerPort) (p : option Probe) : Prop :=
  match p with
  | Some p => match pbHandler p with
              | HTTPGet _ port | TCPSocket port => port ∈ cpPort <$> ports
              | ExecProbe _ => True
              end
  | None => True
  end.

(** The API server's rules for a pod, and the ones it does not check: a mount
    of an undeclared volume never starts, a probe of a port nothing listens on
    never passes. *)
Definition podOK (sh : shape) (t : PodTemplate) : Prop :=
  shSelector sh ⊆ ptLabels t ∧
  NoDup ((vName <$> ptVolumes t) ++ shClaims sh) ∧
  ∃ c, ptContainers t = [c] ∧ ctPorts c = shPorts sh ∧ NoDup (cpName <$> ctPorts c) ∧
    (∀ m, m ∈ ctVolumeMounts c → vmName m ∈ (vName <$> ptVolumes t) ++ shClaims sh) ∧
    probeOK (ctPorts c) (ctReadinessProbe c) ∧ probeOK (ctPorts c) (ctLivenessProbe c) ∧
    probeOK (ctPorts c) (ctStartupProbe c).

(** A workload as the controller keeps it. *)
Definition stored (sh : shape) (o : WorkloadObject) : Prop :=
  wSelector o = Some (shSelector sh) ∧ (pvcName <$> wVolumeClaimTemplates o) = shClaims sh ∧
  podOK sh (wTemplate o).

(** What a [Get] can find: nothing (the zero object), or the stored workload,
    which has a resource version. *)
Definition found (sh : shape) (o : WorkloadObject) : Prop :=
  (wResourceVersion o = "" ∧ wVolumeClaimTemplates o = []) ∨ (wResourceVersion o ≠ "" ∧ stored sh o).

Definition serviceOK (sh : shape) (s : ServiceObject) : Prop :=
  svSelector s = shSelector sh ∧ ∀ p, p ∈ svPorts s → resolves (spTargetPort p) (shPorts sh).

Section Writes.
Context {R : Type} (sh : Kind → string → shape).

Definition objectOK (k : Kind) (name : string) : object k → Prop :=
  match k return object k → Prop with
  | KStatefulSet | KDeployment => stored (sh k name)
  | KService => serviceOK (sh k name)
  | KPDB => λ o, pdbSelector o = shSelector (sh k name)
  | _ => λ _, True
  end.

Definition foundOK (k : Kind) (name : string) : object k → Prop :=
  match k return object k → Prop with
  | KStatefulSet | KDeployment => found (sh k name)
  | _ => λ _, True
  end.

(** Every write leaves a well-formed object. *)
Definition writesOK (_ : list (event (@ans R))) (q : call R) : Prop :=
  match q with
  | CreateOrUpdate k key _ f => ∀ o, foundOK k (nnName key) o → objectOK k (nnName key) (f o)
  | CreateObject KStatefulSet _ o => stored (sh KStatefulSet (nnName (wKey o))) o
  | UpdateObject KStatefulSet _ o => stored (sh KStatefulSet (nnName (wKey o))) o
  | _ => True
  end.

(** The resource that is read, and a StatefulSet under the name it is asked
    for and as it was stored. *)
Definition readsTyped (r : R) (_ : list (event (@ans R))) (e : event (@ans R)) : Prop :=
  match e with
  | Ev c x =>
      match c return ans c → Prop with
      | GetResource _ => λ x, x = Ok r
      | GetObject KStatefulSet key => λ x, ∀ o : WorkloadObject, x = Ok o →
          wKey o = key ∧ stored (sh KStatefulSet (nnName key)) o
      | _ => λ _, True
      end x
  end.
End Writes.

(** A Service that forwards each port of the pod, by number or by name. *)
Definition byNumber (p : ContainerPort) : ServicePort := mkSPort (cpName p) (cpPort p) (FromInt32 (cpPort p)).
Definition byName (p : ContainerPort) : ServicePort := mkSPort (cpName p) (cpPort p) (FromString (cpName p)).

Lemma serviceOK_forwards sh s f :
  f = byNumber ∨ f = byName → svSelector s = shSelector sh → svPorts s = f <$> shPorts sh → serviceOK sh s.
Proof.
  intros Hf Hs Hp. split; [done|]. rewrite Hp. intros p (q & -> & Hq)%list_elem_of_fmap.
  destruct Hf as [-> | ->]; cbn; by apply list_elem_of_fmap_2.
Qed.

Lemma found_no_claims sh o :
  shClaims sh = [] → found sh o → (pvcName <$> wVolumeClaimTemplates o) = shClaims sh.
Proof. intros Hc [[_ ->]|(_ & _ & Ho & _)]; [by rewrite Hc|exact Ho]. Qed.

Lemma selects_own name component : SelectorLabels name component ⊆ Labels name component.
Proof. by apply SelectorLabels_inj. Qed.

Ltac mem := set_unfold; naive_solver.
Ltac distinct := vm_compute; repeat (constructor; [set_solver|]); constructor.

(** * The pods of each controller *)

Section Pods.
Context `{AM : !ApiMeta} (sha256hex : string → string) (yamlMarshal : gmap string string → res string).

(** ** Proxy *)

Definition proxyShape (p : ProxyCtl.Proxy) : shape :=
  mkShape (SelectorLabels (rsName p) ProxyCtl.proxyComponent) []
    (ProxyCtl.proxyContainerPorts (pxTls (rsSpec p))).

Lemma proxyWired_volumes p tls :
  vName <$> ProxyCtl.proxyVolumes p tls =
    ProxyCtl.proxyConfigVolume :: if ProxyCtl.proxyTLSWired tls then [ProxyCtl.proxyTLSVolume] else [].
Proof. unfold ProxyCtl.proxyVolumes. destruct tls; [|done]. by destruct (ProxyCtl.proxyTLSWired _). Qed.

Lemma proxyTemplate_ok p annotations conf :
  podOK (proxyShape p)
    (ProxyCtl.proxyTemplate sha256hex p (Labels (rsName p) ProxyCtl.proxyComponent)
       (SelectorLabels (rsName p) ProxyCtl.proxyComponent) annotations conf).
Proof.
  split; [apply selects_own|]. cbn [ptVolumes ptContainers ProxyCtl.proxyTemplate shClaims proxyShape].
  rewrite proxyWired_volumes, app_nil_r. split; [by destruct (ProxyCtl.proxyTLSWired _); distinct|].
  eexists. split; [done|]. split; [done|]. cbn [ctPorts ctVolumeMounts ctReadinessProbe ctLivenessProbe
    ctStartupProbe]. unfold ProxyCtl.proxyContainerPorts, ProxyCtl.proxyVolumeMounts.
  destruct (ProxyCtl.proxyTLSWired _).
  all: split; [distinct|]; split; [mem|]; cbn; split_and!; set_solver.
Qed.

Lemma proxy_typed recorder req p :
  wp (writesOK (λ _ _, proxyShape p)) (readsTyped (λ _ _, proxyShape p) p)
    (ProxyCtl.Reconcile sha256hex recorder req) (λ _ _, True) [].
Proof.
  unfold ProxyCtl.Reconcile. wstep. cbn [wp perform]. split; [done|]. intros x Hx. simpl in Hx. subst x.
  wstep; [unfold ProxyCtl.reportTLSMisconfigured; repeat wstep|].
  repeat first [wstep|progress (unfold ProxyCtl.reconcileConfigMap, ProxyCtl.reconcileHeadlessService,
    ProxyCtl.reconcileStatefulSet, ProxyCtl.reconcilePDB)].
  - intros o _. apply (serviceOK_forwards _ _ byNumber); [by left|done|]. cbn.
    unfold ProxyCtl.proxyServicePorts, ProxyCtl.proxyContainerPorts. by destruct (ProxyCtl.proxyTLSWired _).
  - intros o Ho. split; [done|]. split; [exact (found_no_claims (proxyShape p) _ eq_refl Ho)|apply proxyTemplate_ok].
Qed.

(** ** AutoRecovery *)

Definition autoRecoveryShape (r : AutoRecoveryCtl.AutoRecovery) : shape :=
  mkShape (SelectorLabels (rsName r) AutoRecoveryCtl.autoRecoveryComponent) []
    [mkCPort ProxyCtl.portNameHTTP AutoRecoveryCtl.autoRecoveryHTTPPort].

(** Pods with one volume, mounted, and one port, probed. *)
Lemma podOK_simple sh t c v m p pr :
  shSelector sh ⊆ ptLabels t → shClaims sh = [] → ptVolumes t = [v] → ptContainers t = [c] →
  ctPorts c = [p] → shPorts sh = [p] → ctVolumeMounts c = [m] → vmName m = vName v →
  ctReadinessProbe c = Some pr → ctLivenessProbe c = Some pr → ctStartupProbe c = None →
  probeOK [p] (Some pr) → podOK sh t.
Proof.
  intros Hl Hc Hv Hct Hp Hsp Hm Hmv Hr Hli Hs Hok. split; [done|]. rewrite Hv, Hc. cbn.
  split; [apply NoDup_singleton|]. exists c. rewrite Hp, Hsp, Hm, Hr, Hli, Hs.
  split_and!; try done; [apply NoDup_singleton|]. set_solver.
Qed.

Lemma autoRecovery_typed req r :
  wp (writesOK (λ _ _, autoRecoveryShape r)) (readsTyped (λ _ _, autoRecoveryShape r) r)
    (AutoRecoveryCtl.Reconcile sha256hex req) (λ _ _, True) [].
Proof.
  unfold AutoRecoveryCtl.Reconcile. wstep. cbn [wp perform]. split; [done|]. intros x Hx. simpl in Hx. subst x.
  wstep. destruct (String.eqb _ _);
    [|unfold AutoRecoveryCtl.reconcileEmbedded; repeat wstep].
  repeat first [wstep|progress (unfold AutoRecoveryCtl.reconcileDedicated,
      AutoRecoveryCtl.reconcileConfigMap, AutoRecoveryCtl.reconcileDeployment,
      AutoRecoveryCtl.reconcilePDB)].
  intros o Ho. split; [done|]. split; [exact (found_no_claims (autoRecoveryShape r) _ eq_refl Ho)|].
  eapply podOK_simple; try done; [apply selects_own|]. cbn. set_solver.
Qed.

(** ** FunctionsWorker *)

Definition functionsWorkerShape (r : FunctionsCtl.FunctionsWorker) : shape :=
  mkShape (SelectorLabels (rsName r) FunctionsCtl.functionsWorkerComponent) []
    [mkCPort ProxyCtl.portNameHTTP FunctionsConf.functionsWorkerPort].

Lemma functionsWorker_typed req r :
  wp (writesOK (λ _ _, functionsWorkerShape r)) (readsTyped (λ _ _, functionsWorkerShape r) r)
    (FunctionsCtl.Reconcile sha256hex yamlMarshal req) (λ _ _, True) [].
Proof.
  unfold FunctionsCtl.Reconcile. wstep. cbn [wp perform]. split; [done|]. intros x Hx. simpl in Hx. subst x.
  wstep. destruct (String.eqb _ _);
    [|unfold FunctionsCtl.reconcileColocated, FunctionsCtl.colocatedReadyCondition; repeat wstep].
  repeat first [wstep|progress (unfold FunctionsCtl.reconcileStandalone,
      FunctionsCtl.reconcileConfigMap, FunctionsCtl.reconcileHeadlessService,
      FunctionsCtl.reconcileStatefulSet, FunctionsCtl.reconcilePDB)].
  - intros o _. by apply (serviceOK_forwards _ _ byNumber); [left|..].
  - intros o Ho. split; [done|]. split; [exact (found_no_claims (functionsWorkerShape r) _ eq_refl Ho)|].
    eapply podOK_simple; try done; [apply selects_own|]. cbn. set_solver.
Qed.

(** ** Bookies *)

Definition bookieShape (bk : BookieCtl.BookKeeper) : shape :=
  mkShape (SelectorLabels (rsName bk) bookkeeperComponent)
    [BookieCtl.volumeNameJournal; BookieCtl.volumeNameLedgers; BookieCtl.volumeNameIndex]
    [mkCPort BookieCtl.bookieContainerName bookiePort; mkCPort "http" bookieAdminPort].

Lemma bookieTemplate_ok bk image rendered :
  podOK (bookieShape bk) (BookieCtl.buildPodTemplate sha256hex bk image rendered).
Proof.
  split; [apply selects_own|]. split; [distinct|].
  eexists. split; [done|]. split; [done|]. split; [distinct|]. split; [mem|]. cbn. split_and!; set_solver.
Qed.

Lemma bookieClaims spec labels :
  pvcName <$> BookieCtl.buildVolumeClaimTemplates spec labels =
    [BookieCtl.volumeNameJournal; BookieCtl.volumeNameLedgers; BookieCtl.volumeNameIndex].
Proof.
  unfold BookieCtl.buildVolumeClaimTemplates, BookieCtl.volumeClaimTemplate.
  destruct (bkVolumes spec) as [v|]; [|done]. by destruct (bvJournal v), (bvLedgers v), (bvIndex v).
Qed.

Lemma bookie_typed req bk :
  wp (writesOK (λ _ _, bookieShape bk)) (readsTyped (λ _ _, bookieShape bk) bk)
    (BookieCtl.Reconcile sha256hex req) (λ _ _, True) [].
Proof.
  unfold BookieCtl.Reconcile. wstep. cbn [wp perform]. split; [done|]. intros x Hx. simpl in Hx. subst x.
  unfold BookieCtl.reconcileConfigMap, BookieCtl.reconcileHeadlessService,
    BookieCtl.reconcilePodDisruptionBudget. repeat wstep.
  - intros o _. by apply (serviceOK_forwards _ _ byNumber); [left|..].
  - unfold BookieCtl.reconcileStatefulSet. wstep. cbn [wp perform]. split; [done|].
    intros [existing|e] Hx; cbn in Hx.
    + specialize (Hx _ eq_refl) as (_ & Hsel & Hcl & _). cbv beta iota zeta. wstep. wstep; [|done].
      split; [exact (conj Hsel (conj Hcl (bookieTemplate_ok _ _ _)))|].
      intros [sts|e'] _; [|done]. unfold BookieCtl.updateStatus. repeat wstep.
    + cbv beta iota. destruct (IsNotFound e); [|done]. wstep. wstep; [|done].
      split; [exact (conj eq_refl (conj (bookieClaims _ _) (bookieTemplate_ok _ _ _)))|].
      intros [sts|e'] _; [|done]. unfold BookieCtl.updateStatus. repeat wstep.
Qed.

(** ** Brokers *)

Definition brokerShape (b : BrokerCtl.Broker) : shape :=
  let ports := BrokerCtl.resolveBrokerPorts (BrokerAutoscaler.mergedBrokerConfig (rsSpec b)) in
  mkShape (SelectorLabels (rsName b) BrokerAutoscaler.brokerComponent) []
    [mkCPort BrokerCtl.brokerPortName (BrokerCtl.pBinary ports);
     mkCPort BrokerCtl.httpPortName (BrokerCtl.pHttp ports)].

(** The volumes a spec adds have names of their own, and its mounts use them. *)
Definition brokerVolumesOK (spec : BrokerSpec) : Prop :=
  NoDup (BrokerCtl.configVolumeName :: BrokerCtl.functionsWorkerConfigVolumeName ::
         (vName <$> brVolumes spec)) ∧
  ∀ m, m ∈ brVolumeMounts spec → vmName m ∈ vName <$> brVolumes spec.

Lemma brokerTemplate_ok b config rendered fwRendered :
  brokerVolumesOK (rsSpec b) →
  podOK (brokerShape b)
    (BrokerCtl.ssTemplate (BrokerCtl.desiredBrokerStatefulSetSpec sha256hex b (rsName b)
       (SelectorLabels (rsName b) BrokerAutoscaler.brokerComponent)
       (Labels (rsName b) BrokerAutoscaler.brokerComponent) config rendered fwRendered
       (BrokerCtl.resolveBrokerPorts (BrokerAutoscaler.mergedBrokerConfig (rsSpec b))))).
Proof.
  intros [Hnd Hm]. split; [apply selects_own|].
  cbn [BrokerCtl.ssTemplate BrokerCtl.desiredBrokerStatefulSetSpec ptVolumes ptContainers shClaims brokerShape].
  rewrite app_nil_r. apply NoDup_cons in Hnd as [Hc Hnd]. apply NoDup_cons in Hnd as [Hf Hnd].
  split.
  { destruct (brFunctionsWorkerConfig _); [|by constructor; [set_solver|]].
    rewrite fmap_app, fmap_cons. cbn [app]. apply NoDup_cons. split; [set_solver|].
    apply NoDup_app. split; [done|]. split; [set_solver|apply NoDup_singleton]. }
  eexists. split; [done|]. split; [done|]. split; [distinct|]. split; [|cbn; split_and!; set_solver].
  cbn [ctVolumeMounts BrokerCtl.brokerContainer]. intros m Hin.
  destruct (brFunctionsWorkerConfig _); rewrite ?fmap_app, ?fmap_cons in *; set_solver.
Qed.

(** The package storage the umbrella mounts into the brokers. *)
Lemma wiredBroker_volumes c fw built spec :
  Umbrella.functionsWorkerPackageStorageVolumeName ∉ vName <$> brVolumes spec →
  brokerVolumesOK spec → brokerVolumesOK (Umbrella.wiredBroker c fw built spec).
Proof.
  intros Hfree [Hnd Hm]. unfold Umbrella.wiredBroker.
  destruct (isFileSystemPackageStorage _); [|by split]. split; cbn.
  - rewrite fmap_app, !app_comm_cons. apply NoDup_app. split; [done|].
    split; [|apply NoDup_singleton]. intros x Hx Hs. apply list_elem_of_singleton in Hs. subst x.
    cbn in Hx. set_solver.
  - rewrite fmap_app. intros m Hin. set_solver.
Qed.

Lemma broker_typed req b :
  brokerVolumesOK (rsSpec b) →
  wp (writesOK (λ _ _, brokerShape b)) (readsTyped (λ _ _, brokerShape b) b)
    (BrokerCtl.Reconcile sha256hex yamlMarshal req) (λ _ _, True) [].
Proof.
  intros Hv. unfold BrokerCtl.Reconcile. wstep. cbn [wp perform]. split; [done|].
  intros x Hx. simpl in Hx. subst x.
  repeat first [wstep|progress (unfold BrokerCtl.reconcileConfigMap,
    BrokerCtl.reconcileFunctionsWorkerConfigMap, BrokerCtl.reconcileHeadlessService,
    BrokerCtl.reconcileStatefulSet, BrokerCtl.reconcilePDB, BrokerCtl.updateStatus)].
  all: lazymatch goal with
  | |- writesOK _ _ (CreateOrUpdate KService _ _ _) =>
      intros o _; by apply (serviceOK_forwards _ _ byNumber); [left|..]
  | |- writesOK _ _ (CreateOrUpdate KStatefulSet _ _ _) =>
      intros o Ho; split; [done|];
      split; [exact (found_no_claims (brokerShape b) _ eq_refl Ho)|by apply brokerTemplate_ok]
  end.
Qed.

(** ** Oxia *)

Import OxiaCtl.

Definition serverShape (oxia : OxiaCluster) : shape :=
  mkShape (SelectorLabels (oxName oxia) componentServer) [serverDataVolumeName]
    [mkCPort portNamePublic serverPublicPort; mkCPort portNameInternal serverInternalPort;
     mkCPort portNameMetrics serverMetricsPort].

Definition coordinatorShape (oxia : OxiaCluster) : shape :=
  mkShape (SelectorLabels (oxName oxia) componentCoordinator) []
    [mkCPort portNameInternal coordinatorInternalPort; mkCPort portNameMetrics coordinatorMetricsPort].

(** An OxiaCluster owns objects of both. *)
Definition oxiaShapes (oxia : OxiaCluster) (_ : Kind) (name : string) : shape :=
  if String.eqb name (coordinatorName (oxName oxia)) then coordinatorShape oxia else serverShape oxia.

Lemma serverTemplate_ok oxia o : podOK (serverShape oxia) (wTemplate (serverStatefulSet oxia o)).
Proof.
  unfold serverStatefulSet. destruct (String.eqb _ _); cbn [wTemplate].
  all: split; [apply selects_own|]; split; [distinct|].
  all: eexists; split; [done|]; split; [done|]; split; [distinct|]; split; [mem|]; cbn; split_and!; set_solver.
Qed.

Lemma serverStatefulSet_stored oxia o : found (serverShape oxia) o → stored (serverShape oxia) (serverStatefulSet oxia o).
Proof.
  intros Ho. split_and!; [..|apply serverTemplate_ok]; unfold serverStatefulSet.
  all: destruct Ho as [[-> _]|(Hrv & Hs & Hc & _)]; [done|].
  all: apply String.eqb_neq in Hrv; rewrite Hrv; done.
Qed.

Lemma coordinatorDeployment_stored oxia content o :
  found (coordinatorShape oxia) o →
  stored (coordinatorShape oxia) (coordinatorDeployment sha256hex oxia content o).
Proof.
  intros Ho. split; [|split; [exact (found_no_claims (coordinatorShape oxia) _ eq_refl Ho)|]].
  - unfold coordinatorDeployment. cbn. destruct Ho as [[-> _]|(Hrv & Hs & Hc & _)]; [done|].
    apply String.eqb_neq in Hrv. rewrite Hrv. done.
  - split; [apply selects_own|]. split; [distinct|]. eexists. split; [done|]. split; [done|].
    split; [distinct|]. split; [mem|]. done.
Qed.

Lemma oxiaShapes_server oxia k suffix :
  suffix ≠ "-oxia-coordinator" → oxiaShapes oxia k (oxName oxia ++! suffix) = serverShape oxia.
Proof.
  intros Hne. unfold oxiaShapes. destruct (String.eqb_spec (oxName oxia ++! suffix) (coordinatorName (oxName oxia)))
    as [E|]; [|done]. by apply (inj (String.append _)) in E.
Qed.

Lemma oxiaShapes_servers oxia k name :
  name ∈ [serverName (oxName oxia); serverHeadlessServiceName (oxName oxia); publicServiceName (oxName oxia)] →
  oxiaShapes oxia k name = serverShape oxia.
Proof.
  intros H. set_unfold in H. destruct_or! H; subst name;
    [apply (oxiaShapes_server _ _ "-oxia-server")|apply (oxiaShapes_server _ _ "-oxia-svc")
    |apply (oxiaShapes_server _ _ "-oxia")]; done.
Qed.

Lemma oxiaShapes_coordinator oxia k : oxiaShapes oxia k (coordinatorName (oxName oxia)) = coordinatorShape oxia.
Proof. unfold oxiaShapes. by rewrite String.eqb_refl. Qed.

Context (marshal : coordinatorConfig → res string).

Lemma oxia_typed req oxia :
  wp (writesOK (oxiaShapes oxia)) (readsTyped (oxiaShapes oxia) oxia)
    (Reconcile sha256hex marshal req) (λ _ _, True) [].
Proof.
  unfold Reconcile. wstep. cbn [wp perform]. split; [done|]. intros x Hx. simpl in Hx. subst x.
  repeat first [wstep|progress (unfold reconcileServer, reconcileServerHeadlessService,
    reconcileServerPublicService, reconcileServerStatefulSet, reconcileServerPDB, reconcileCoordinator,
    reconcileCoordinatorServiceAccount, reconcileCoordinatorRole, reconcileCoordinatorRoleBinding,
    reconcileCoordinatorStatusConfigMap, reconcileCoordinatorConfigMap, reconcileCoordinatorService,
    reconcileCoordinatorDeployment, reconcileCoordinatorPDB, reconcileStatus, getOrZero)].
  all: intros o; cbn [foundOK objectOK nnName oxKey].
  all: rewrite ?oxiaShapes_coordinator, ?oxiaShapes_servers by set_solver.
  all: lazymatch goal with
  | |- found _ _ → stored _ (serverStatefulSet _ _) => apply serverStatefulSet_stored
  | |- found _ _ → stored _ (coordinatorDeployment _ _ _ _) => apply coordinatorDeployment_stored
  | |- _ → serviceOK _ _ => intros _; apply (serviceOK_forwards _ _ byName); [by right|reflexivity..]
  | |- _ → pdbSelector _ = _ => intros _; reflexivity
  end.
Qed.

(** C7: What the controllers store is well formed.  For each of the workload
    controllers, in every run, interrupted or not, in which a workload that is
    read back is one as it was stored: every StatefulSet or Deployment written
    selects its own pods; its pods declare each volume they mount, once, and
    probe ports they listen on; each Service selects those pods and forwards to
    ports they listen on, each disruption budget selects them.  So
    well-formedness is kept by every write.  A Broker's own volumes and mounts
    must be consistent; what the umbrella adds to them keeps them so. *)
Theorem writes_well_formed recorder req :
  (∀ p t, part (ProxyCtl.Reconcile sha256hex recorder req) t →
     relies (readsTyped (λ _ _, proxyShape p) p) [] t → guaranteed (writesOK (λ _ _, proxyShape p)) [] t) ∧
  (∀ r t, part (AutoRecoveryCtl.Reconcile sha256hex req) t →
     relies (readsTyped (λ _ _, autoRecoveryShape r) r) [] t →
     guaranteed (writesOK (λ _ _, autoRecoveryShape r)) [] t) ∧
  (∀ r t, part (FunctionsCtl.Reconcile sha256hex yamlMarshal req) t →
     relies (readsTyped (λ _ _, functionsWorkerShape r) r) [] t →
     guaranteed (writesOK (λ _ _, functionsWorkerShape r)) [] t) ∧
  (∀ bk t, part (BookieCtl.Reconcile sha256hex req) t →
     relies (readsTyped (λ _ _, bookieShape bk) bk) [] t → guaranteed (writesOK (λ _ _, bookieShape bk)) [] t) ∧
  (∀ b t, brokerVolumesOK (rsSpec b) → part (BrokerCtl.Reconcile sha256hex yamlMarshal req) t →
     relies (readsTyped (λ _ _, brokerShape b) b) [] t → guaranteed (writesOK (λ _ _, brokerShape b)) [] t) ∧
  (∀ oxia t, part (Reconcile sha256hex marshal req) t →
     relies (readsTyped (oxiaShapes oxia) oxia) [] t → guaranteed (writesOK (oxiaShapes oxia)) [] t) ∧
  (∀ c fw built spec,
     Umbrella.functionsWorkerPackageStorageVolumeName ∉ vName <$> brVolumes spec →
     brokerVolumesOK spec → brokerVolumesOK (Umbrella.wiredBroker c fw built spec)).
Proof.
  split_and!; [..|exact wiredBroker_volumes]; intros r t; [| | | |intros Hv| ]; intros Hp Hr;
    [pose proof (proxy_typed recorder req r) as Hw|pose proof (autoRecovery_typed req r) as Hw
    |pose proof (functionsWorker_typed req r) as Hw|pose proof (bookie_typed req r) as Hw
    |pose proof (broker_typed req r Hv) as Hw|pose proof (oxia_typed req r) as Hw];
    exact (wp_part _ _ _ _ _ _ Hw Hp Hr).
Qed.

End Pods.

(** * Disruption budgets *)

(** A budget given as a number, of which [P] holds. *)
Definition budget (b : IntOrString) (P : Z → Prop) : Prop := ∃ m, b = FromInt32 m ∧ P m.

Lemma bookieBudget replicas writeQuorum ackQuorum :
  0 <= replicas < 2 ^ 31 → 1 <= ackQuorum <= writeQuorum → writeQuorum < 2 ^ 31 →
  BookieCtl.resolvePDBMaxUnavailable replicas writeQuorum ackQuorum =
    FromInt32 (Z.max 0 (Z.min (Z.max 1 (writeQuorum - ackQuorum)) (replicas - 1))).
Proof.
  intros. unfold BookieCtl.resolvePDBMaxUnavailable. rewrite !wrap32_id by (unfold in32; lia). f_equal. lia.
Qed.

Lemma quorumBudget n :
  1 <= n → budget (QuorumMaxUnavailable n) (λ m, 0 <= m ∧ n < 2 * (n - m) ∧ 2 * (n - (m + 1)) <= n).
Proof.
  intros. unfold QuorumMaxUnavailable. destruct (Z.ltb_spec n 0); [lia|]. eexists. split; [done|].
  pose proof (Z.quot_rem' (n - 1) 2). pose proof (Z.rem_bound_pos (n - 1) 2). lia.
Qed.

(** C33: The disruption budgets protect a quorum without blocking a drain.  For
    an ensemble the CRD admits (ack quorum between 1 and the write quorum), the
    bookies' budget lets fewer bookies go than there are, some as soon as there
    are two, and no more than the write quorum can lose and still be
    acknowledged - or one, when it can lose none; the Oxia servers' budget is
    the largest that leaves a majority. *)
Theorem disruption_budgets :
  (∀ bk : BookieCtl.BookKeeper,
     let replicas := resolveReplicas (rsSpec bk) in
     let writeQuorum := resolveWriteQuorum (rsSpec bk) in
     let ackQuorum := resolveAckQuorum (rsSpec bk) in
     0 <= replicas < 2 ^ 31 → 1 <= ackQuorum <= writeQuorum → writeQuorum < 2 ^ 31 →
     budget (pdbMaxUnavailable (BookieCtl.desiredPDB bk)) (λ m,
       0 <= m <= Z.max 0 (replicas - 1) ∧ (2 <= replicas → 1 <= m) ∧
       m <= Z.max 1 (writeQuorum - ackQuorum))) ∧
  (∀ oxia, 1 <= OxiaCtl.serverReplicas oxia →
     budget (QuorumMaxUnavailable (OxiaCtl.serverReplicas oxia)) (λ m, 0 <= m ∧
       OxiaCtl.serverReplicas oxia < 2 * (OxiaCtl.serverReplicas oxia - m) ∧
       2 * (OxiaCtl.serverReplicas oxia - (m + 1)) <= OxiaCtl.serverReplicas oxia)).
Proof.
  split; [|intros oxia; apply quorumBudget].
  intros bk replicas writeQuorum ackQuorum Hr Ha Hw. eexists. split.
  { unfold BookieCtl.desiredPDB, PodDisruptionBudget. cbn. by apply bookieBudget. }
  subst replicas writeQuorum ackQuorum. lia.
Qed.

(** * Oxia's addresses *)

Section Addresses.
Context `{AM : !ApiMeta} (oxia : OxiaCtl.OxiaCluster).

(** The StatefulSet as it is created, and the stable name Kubernetes gives its
    pods. *)
Definition serverSet : WorkloadObject :=
  OxiaCtl.serverStatefulSet oxia
    (zeroObject KStatefulSet (OxiaCtl.oxKey oxia (OxiaCtl.serverName (OxiaCtl.oxName oxia)))).

Definition podName (sts : WorkloadObject) (i : Z) : string := nnName (wKey sts) ++! "-" ++! %d i.

Definition serverAddress (i : Z) : OxiaCtl.coordinatorServer :=
  OxiaCtl.mkServer
    (podName serverSet i ++! "." ++! wServiceName serverSet ++! "." ++! nnNamespace (wKey serverSet) ++!
     ".svc." ++! OxiaCtl.clusterDomain ++! ":" ++! %d OxiaCtl.serverPublicPort)
    (podName serverSet i ++! "." ++! wServiceName serverSet ++! ":" ++! %d OxiaCtl.serverInternalPort).

(** Oxia is reached where it runs.  The coordinator's configuration lists
    one server per replica of the StatefulSet, under the stable name that
    replica has behind the headless Service the controller creates and the
    ports its container opens; and the store address the umbrella hands to
    every tier names a Service, and a port of it, that the controller creates
    for the OxiaCluster the umbrella owns. *)
Theorem oxia_addresses c :
  OxiaCtl.oxName oxia = nnName (Umbrella.childKey c tierOxia) →
  OxiaCtl.renderServers oxia = serverAddress <$> seqZ 0 (OxiaCtl.serverReplicas oxia) ∧
  wReplicas serverSet = Some (OxiaCtl.serverReplicas oxia) ∧
  (∃ key f, OxiaCtl.reconcileServerHeadlessService oxia =
       createOrUpdate KService key (OxiaCtl.oxUID oxia) f ∧
     key = mkNN (nnNamespace (wKey serverSet)) (wServiceName serverSet) ∧
     ∀ o, svClusterIP (f o) = clusterIPNone) ∧
  (∃ key f p, OxiaCtl.reconcileServerPublicService oxia =
       createOrUpdate KService key (OxiaCtl.oxUID oxia) f ∧
     nnNamespace key = OxiaCtl.oxNamespace oxia ∧ (∀ o, p ∈ svPorts (f o)) ∧
     storeURL c = "oxia://" ++! nnName key ++! ":" ++! %d (spPort p) ++! "/" ++! Manifest.DefaultNamespace) ∧
  (∀ p, p ∈ [OxiaCtl.serverPublicPort; OxiaCtl.serverInternalPort] →
     p ∈ cpPort <$> ctPorts (OxiaCtl.serverContainer oxia)).
Proof.
  intros Hname. split_and!.
  - reflexivity.
  - reflexivity.
  - eexists _, _. split; [done|]. done.
  - eexists _, _, (mkSPort OxiaCtl.portNamePublic OxiaCtl.serverPublicPort
                     (FromString OxiaCtl.portNamePublic)).
    split; [done|]. split; [done|]. split; [intros o; cbn; set_solver|].
    cbn [nnName OxiaCtl.oxKey]. unfold OxiaCtl.publicServiceName. rewrite Hname. done.
  - cbn. set_solver.
Qed.

End Addresses.

(** * Instances *)

Module PodDemo.
Import WorkloadDemo.

Definition tls : option ProxyTlsConfig := Some (mkTls true "proxy-cert").

Definition noYAML (_ : OxiaCtl.coordinatorConfig) : res string := Ok "".

(** A Proxy with TLS: two volumes, four ports. *)
Lemma writes_well_formed_witness :
  guaranteed (writesOK (λ _ _, proxyShape (proxy tls))) [] (run tls).2 ∧
  length (shPorts (proxyShape (proxy tls))) = 4%nat.
Proof.
  split; [|reflexivity].
  destruct (writes_well_formed (AM := refApiMeta) sha (λ _, Ok "") noYAML true (mkNN "ns" "pulsar")) as [Hp _].
  apply (Hp (proxy tls)).
  - exact (runs_part _ _ _ (exec_runs (serveSettled (proxy tls))
      (ProxyCtl.Reconcile (AM := refApiMeta) sha true (mkNN "ns" "pulsar")) tt)).
  - vm_compute. repeat split.
Defined.

Lemma disruption_budgets_witness :
  pdbMaxUnavailable (BookieCtl.desiredPDB bookkeeper) = FromInt32 1 ∧
  ∃ m, pdbMaxUnavailable (BookieCtl.desiredPDB bookkeeper) = FromInt32 m ∧ 1 <= m <= 2.
Proof.
  split; [reflexivity|]. destruct disruption_budgets as [Hb _].
  destruct (Hb bookkeeper) as (m & Hm & [_ H2] & H1 & _).
  - split; [discriminate|reflexivity].
  - split; discriminate.
  - reflexivity.
  - exists m. split; [exact Hm|]. split; [apply H1; discriminate|exact H2].
Defined.

Definition cluster : PulsarCluster :=
  mkCluster "pulsar" "ns" "uid" 1
    (mkClusterSpec "5.0" "" None None None None None None None None None)
    (mkClusterStatus 0 (λ _, "") []).

Lemma oxia_addresses_witness :
  OxiaCtl.renderServers oxia = serverAddress oxia <$> seqZ 0 3 ∧
  OxiaCtl.csInternal <$> OxiaCtl.renderServers oxia =
    ["pulsar-oxia-oxia-server-0.pulsar-oxia-oxia-svc:6649";
     "pulsar-oxia-oxia-server-1.pulsar-oxia-oxia-svc:6649";
     "pulsar-oxia-oxia-server-2.pulsar-oxia-oxia-svc:6649"].
Proof.
  split; [|vm_compute; reflexivity].
  exact (proj1 (oxia_addresses oxia cluster eq_refl)).
Defined.

End PodDemo.
