(* ===== verification/RackCtl.v ===== *)
(** Bookie rack awareness: the rack-sync controller
    (controller/cluster/bookkeeper_rack_controller.go) and the rack setter it
    applies the mapping through (internal/rackawareness/racksetter.go).
    Executing a command in a pod is a call. *)

From S2P Require Import Prelude Effects Kube BrokerScale BookKeeper BackupTypes ScheduleCtl Config Rollout Workload ClusterTypes BookieCtl FunctionsCtl.
Open Scope Z_scope.
Open Scope go_scope.

Module RackCtl.
Import Rollout Workload Cluster.

Definition conditionTypeRackSync : string := "RackSync".
Definition reasonRackSynced : string := "RackSynced".
Definition reasonRackSyncPartial : string := "RackSyncPartialFailure".
Definition reasonRackSyncUnavailable : string := "RackSetterUnavailable".
Definition defaultRackSyncPeriodSeconds : Z := 60.

(** [AutoRackConfig]: enabled and period. *)
Definition AutoRackConfig : Type := bool * option Z.

(** The fields of a BookKeeper this controller reads or writes. *)
Record RackBookKeeper := mkRackBK {
  rkName : string;
  rkNamespace : string;
  rkGeneration : Z;
  rkOwnerReferences : list (string * string);
  rkAutoRackConfig : option AutoRackConfig;
  rkBookieRacks : gmap string string;
  rkConditions : list Condition
}.

Definition set_rkStatus (racks : gmap string string) (cs : list Condition) (bk : RackBookKeeper) :
    RackBookKeeper :=
  mkRackBK (rkName bk) (rkNamespace bk) (rkGeneration bk) (rkOwnerReferences bk) (rkAutoRackConfig bk) racks cs.

Record BookiePod := mkBookiePod { bpName : string; bpNodeName : string; bpPhase : string }.
Definition PodRunning : string := "Running".

Definition resolveRackPeriodSeconds (cfg : AutoRackConfig) : Z := default defaultRackSyncPeriodSeconds cfg.2.

(** * The rack setter *)

Definition pulsarAdminBin : string := "bin/pulsar-admin".

Record PodExecRackSetter := mkPodExec {
  peNamespace : string;
  pePodName : string;
  peContainer : string;
  peAdminURL : string
}.

Definition adminCommand (p : PodExecRackSetter) (args : list string) : list string :=
  (if negb (String.eqb (peAdminURL p) "") then [pulsarAdminBin; "--admin-url"; peAdminURL p]
   else [pulsarAdminBin]) ++ args.

(** A RackSetter is the one injected into the reconciler, or an exec into a
    pod. *)
Inductive RackSetter := Injected | PodExec (p : PodExecRackSetter).

(** * Calls *)

Inductive call :=
| GetBookKeeper (key : NamespacedName)
| ListPods (namespace : string) (selector : gmap string string)
| GetNodeLabels (node : string)
| SetRack (bookieID rack : string)
| Exec (p : PodExecRackSetter) (command : list string)
| PatchStatus (bk : RackBookKeeper)
| Eventf (ty : EventType) (reason action note : string).

#[export] Instance PodExecRackSetter_eq_dec : EqDecision PodExecRackSetter.
Proof. solve_decision. Defined.
#[export] Instance RackBookKeeper_eq_dec : EqDecision RackBookKeeper.
Proof. solve_decision. Defined.
#[export] Instance call_eq_dec : EqDecision call.
Proof. solve_decision. Defined.

Definition ans (c : call) : Type :=
  match c with
  | GetBookKeeper _ => res RackBookKeeper
  | ListPods _ _ => res (list BookiePod)
  | GetNodeLabels _ => res (gmap string string)
  | SetRack _ _ => res unit
  | Exec _ _ => string * option goerr
  | PatchStatus _ => res unit
  | Eventf _ _ _ _ => unit
  end.

Abbreviation M A := (prog ans A).

Definition rackArgs (bookieID rack : string) : list string :=
  ["bookies"; "set-bookie-rack"; "--bookie"; bookieID; "--rack"; rack; "--hostname"; bookieID].

(** The error leaves out the command's output, which is only logged. *)
Definition SetBookieRack (s : RackSetter) (bookieID rack : string) : M (res unit) :=
  match s with
  | Injected => perform ans (SetRack bookieID rack)
  | PodExec p =>
      (let! out := perform ans (Exec p (adminCommand p (rackArgs bookieID rack))) in
       match out.2 with
       | Some e => Ret (Err (Errorf ("set-bookie-rack --bookie " ++! bookieID ++! " --rack " ++! rack) e))
       | None => Ret (Ok tt)
       end)%prog
  end.

(** * The mapping *)

Record rackTarget := mkTarget { rtBookieID : string; rtRack : string }.

Definition bookieID (bk : RackBookKeeper) (podName : string) : string :=
  podName ++! "." ++! rkName bk ++! "." ++! rkNamespace bk ++! ":" ++! %d bookiePort.

Definition rackForZone (zone : string) : string := "/" ++! zone.

Definition compareTargets (compare : string → string → Z) (a b : rackTarget) : Z :=
  compare (rtBookieID a) (rtBookieID b).

(** [strings.Compare] is a total order, here by the code points. *)
Definition stringsCompare (a b : string) : Z :=
  if String.eqb a b then 0 else if String.ltb a b then -1 else 1.

(** The targets in the order of the pods, and how many were skipped. *)
Fixpoint mappingOf (bk : RackBookKeeper) (pods : list BookiePod) : M (list rackTarget * Z) :=
  match pods with
  | [] => Ret ([], 0)
  | pod :: pods' =>
      let skip :=
        (let! rest := mappingOf bk pods' in Ret (rest.1, rest.2 + 1))%prog in
      if String.eqb (bpNodeName pod) "" then skip
      else
        (let! node := perform ans (GetNodeLabels (bpNodeName pod)) in
         match node with
         | Err _ => skip
         | Ok labels =>
             let zone := default "" (labels !! ZoneTopologyKey) in
             if String.eqb zone "" then skip
             else
               let! rest := mappingOf bk pods' in
               Ret (mkTarget (bookieID bk (bpName pod)) (rackForZone zone) :: rest.1, rest.2)
         end)%prog
  end.

Section Reconciler.
Context `{AM : !ApiMeta, SF : !SortFuncs}.
(** Whether a RackSetter was injected; whether the exec transport is wired. *)
Context (injected wired : bool).

Definition desiredRackMapping (bk : RackBookKeeper) (pods : list BookiePod) : M (list rackTarget * Z) :=
  (let! out := mappingOf bk pods in
   Ret (SortFunc (compareTargets stringsCompare) out.1, out.2))%prog.

(** The next cache, how many were synced, and the bookies that failed. *)
Fixpoint applyRackMapping (setter : RackSetter) (targets : list rackTarget)
    (previouslyApplied applied : gmap string string) (synced : Z) (failed : list string) :
    M (gmap string string * Z * list string) :=
  match targets with
  | [] => Ret (applied, synced, failed)
  | t :: ts =>
      if bool_decide (previouslyApplied !! rtBookieID t = Some (rtRack t)) then
        applyRackMapping setter ts previouslyApplied (<[rtBookieID t := rtRack t]> applied) synced failed
      else
        (let! r := SetBookieRack setter (rtBookieID t) (rtRack t) in
         match r with
         | Err _ =>
             let applied :=
               match previouslyApplied !! rtBookieID t with
               | Some prev => <[rtBookieID t := prev]> applied
               | None => applied
               end in
             applyRackMapping setter ts previouslyApplied applied synced (failed ++ [rtBookieID t])
         | Ok _ =>
             applyRackMapping setter ts previouslyApplied (<[rtBookieID t := rtRack t]> applied) (synced + 1)
               failed
         end)%prog
  end.

Definition pulsarClusterOwnerName (bk : RackBookKeeper) : option string :=
  snd <$> (snd <$> list_find (λ ref, ref.1 = FunctionsCtl.pulsarClusterOwnerKind) (rkOwnerReferences bk)).

Definition firstRunning (pods : list BookiePod) : option string :=
  bpName <$> (snd <$> list_find (λ pod, bpPhase pod = PodRunning) pods).

Definition findRunningBrokerPod (bk : RackBookKeeper) : M (option string) :=
  match pulsarClusterOwnerName bk with
  | None => Ret None
  | Some ownerName =>
      let brokerName := childName ownerName BrokerAutoscaler.brokerComponent in
      (let! got := perform ans (ListPods (rkNamespace bk)
                     (SelectorLabels brokerName BrokerAutoscaler.brokerComponent)) in
       match got with
       | Err _ => Ret None
       | Ok pods => Ret (firstRunning pods)
       end)%prog
  end.

(** (pod name, container) *)
Definition resolveExecTarget (bk : RackBookKeeper) (bookiePods : list BookiePod) : M (res (string * string)) :=
  (let! broker := findRunningBrokerPod bk in
   match broker with
   | Some pod => Ret (Ok (pod, BrokerAutoscaler.brokerComponent))
   | None =>
       match firstRunning bookiePods with
       | Some pod => Ret (Ok (pod, BookieCtl.bookieContainerName))
       | None => Ret (Err (ErrPlain "no running bookie or broker pod available to exec pulsar-admin into"))
       end
   end)%prog.

Definition rackSetter (bk : RackBookKeeper) (bookiePods : list BookiePod) : M (res RackSetter) :=
  if injected then Ret (Ok Injected)
  else if negb wired then
    Ret (Err (ErrPlain "no RESTConfig/ClientSet wired for the default pod-exec RackSetter"))
  else
    (try! target := resolveExecTarget bk bookiePods in
     Ret (Ok (PodExec (mkPodExec (rkNamespace bk) target.1 target.2 ""))))%prog.

(** * Status *)

Definition statusError (bk : RackBookKeeper) : string :=
  "update bookkeeper " ++! rkNamespace bk ++! "/" ++! rkName bk ++! " rack-sync status".

Definition recordRackSyncResult (bk : RackBookKeeper) (applied : gmap string string) (total synced : Z)
    (failed : list string) (skipped : Z) : M (res unit) :=
  let unchanged := total - synced - Z.of_nat (length failed) in
  let counts := "bookie rack sync: " ++! %d synced ++! " synced, " ++! %d unchanged ++!
                " already up to date, " ++! %d skipped in
  let '(st, reason, message, eventType) :=
    match failed with
    | [] => (ConditionTrue, reasonRackSynced,
             counts ++! " skipped (pod/node/zone not ready yet)", EventTypeNormal)
    | _ => (ConditionFalse, reasonRackSyncPartial,
            counts ++! " skipped, " ++! %d (Z.of_nat (length failed)) ++! " failed: " ++!
            String.concat ", " failed, EventTypeWarning)
    end in
  let cond := newCondition conditionTypeRackSync st (rkGeneration bk) reason message in
  let mapChanged := bool_decide (rkBookieRacks bk ≠ applied) in
  let '(cs, condChanged) := SetStatusCondition (rkConditions bk) cond in
  if negb condChanged && negb mapChanged then Ret (Ok tt)
  else
    (try! [statusError bk] _ := perform ans (PatchStatus (set_rkStatus applied cs bk)) in
     let! _ :=
       if condChanged then perform ans (Eventf eventType reason "RackSync" message) else Ret tt in
     Ret (Ok tt))%prog.

Definition recordRackSetterUnavailable (bk : RackBookKeeper) (cause : string) : M (res unit) :=
  let message := "bookie rack sync skipped this tick: " ++! cause in
  let '(cs, changed) :=
    SetStatusCondition (rkConditions bk)
      (newCondition conditionTypeRackSync ConditionFalse (rkGeneration bk) reasonRackSyncUnavailable message) in
  if negb changed then Ret (Ok tt)
  else
    (try! [statusError bk] _ := perform ans (PatchStatus (set_rkStatus (rkBookieRacks bk) cs bk)) in
     let! _ := perform ans (Eventf EventTypeWarning reasonRackSyncUnavailable "RackSync" message) in
     Ret (Ok tt))%prog.

(** * Reconcile *)

Definition listBookiePods (bk : RackBookKeeper) : M (res (list BookiePod)) :=
  (try! [("list bookie pods for " ++! rkNamespace bk ++! "/" ++! rkName bk)] pods :=
     perform ans (ListPods (rkNamespace bk) (SelectorLabels (rkName bk) bookkeeperComponent)) in
   Ret (Ok pods))%prog.

Definition Reconcile (req : NamespacedName) : M (res Result) :=
  (let! got := perform ans (GetBookKeeper req) in
   match got with
   | Err e => Ret (ignore_not_found e)
   | Ok bk =>
       match rkAutoRackConfig bk with
       | None => Ret (Ok emptyResult)
       | Some cfg =>
           if negb cfg.1 then Ret (Ok emptyResult)
           else
             let result := mkResult (seconds (resolveRackPeriodSeconds cfg)) in
             try! pods := listBookiePods bk in
             let! mapping := desiredRackMapping bk pods in
             let '(targets, skipped) := mapping in
             let! setter := rackSetter bk pods in
             match setter with
             | Err e =>
                 try! _ := recordRackSetterUnavailable bk (error_text e) in Ret (Ok result)
             | Ok setter =>
                 let! out := applyRackMapping setter targets (rkBookieRacks bk) ∅ 0 [] in
                 let '(applied, synced, failed) := out in
                 try! _ := recordRackSyncResult bk applied (Z.of_nat (length targets)) synced failed skipped in
                 Ret (Ok result)
             end
       end
   end)%prog.

End Reconciler.
End RackCtl.
