(* ===== verification/RackProps.v ===== *)
(** Properties of the rack sync: what a rack assignment rests on, and that
    the cache it keeps in the status is exactly what the assignments put in
    force. *)

From S2P Require Import Prelude Effects Kube BrokerScale BookKeeper BackupTypes ScheduleCtl Config Rollout Workload ClusterTypes BookieCtl FunctionsCtl RackCtl ScheduleProps WorkloadProps.
Import Workload Cluster RackCtl.
Open Scope Z_scope.
Open Scope go_scope.

Section Racks.
Context `{AM : !ApiMeta, SF : !SortFuncs} (injected wired : bool) (req : NamespacedName).

(** The rack a call sets, if it is one that sets a rack. *)
Definition setsRack (q : RackCtl.call) : option (string * string) :=
  match q with
  | SetRack id rack => Some (id, rack)
  | Exec p command =>
      match drop (length command - 8) command with
      | ["bookies"; "set-bookie-rack"; "--bookie"; id; "--rack"; rack; "--hostname"; _] => Some (id, rack)
      | _ => None
      end
  | _ => None
  end.

Definition succeeded (e : event RackCtl.ans) : bool :=
  match e with
  | Ev c x =>
      match c return RackCtl.ans c → bool with
      | SetRack _ _ => λ x, match x with Ok _ => true | Err _ => false end
      | Exec _ _ => λ x, match x.2 with None => true | Some _ => false end
      | _ => λ _, false
      end x
  end.

(** The racks in force after a history: an assignment that fails changes
    nothing. *)
Definition afterwards (racks : gmap string string) (e : event RackCtl.ans) : gmap string string :=
  match setsRack (ev_call e) with
  | Some (id, rack) => if succeeded e then <[id := rack]> racks else racks
  | None => racks
  end.
Definition replay (racks : gmap string string) (h : list (event RackCtl.ans)) : gmap string string :=
  foldl afterwards racks h.

(** The assignments attempted in a history, those that failed, and the answers
    about the nodes, each in order. *)
Definition attempts (h : list (event RackCtl.ans)) : list (string * string) :=
  omap (λ e, setsRack (ev_call e)) h.
Definition failures (h : list (event RackCtl.ans)) : list (string * string) :=
  omap (λ e, if succeeded e then None else setsRack (ev_call e)) h.
Definition nodeAnswers (h : list (event RackCtl.ans)) : list (res (gmap string string)) :=
  omap (λ e, match e with
             | Ev c x =>
                 match c return RackCtl.ans c → option (res (gmap string string)) with
                 | GetNodeLabels _ => Some
                 | _ => λ _, None
                 end x
             end) h.

(** The rack each bookie belongs in, when the nodes answer as they do: a pod
    that is not scheduled, whose node cannot be read or carries no zone, is
    passed over. *)
Fixpoint zoned (bk : RackBookKeeper) (pods : list BookiePod) (answers : list (res (gmap string string))) :
    list rackTarget :=
  match pods with
  | [] => []
  | pod :: pods' =>
      if String.eqb (bpNodeName pod) "" then zoned bk pods' answers
      else match answers with
           | Ok labels :: answers' =>
               let zone := default "" (labels !! ZoneTopologyKey) in
               if String.eqb zone "" then zoned bk pods' answers'
               else mkTarget (bookieID bk (bpName pod)) (rackForZone zone) :: zoned bk pods' answers'
           | _ => zoned bk pods' (tail answers)
           end
  end.

(** The assignments a list of targets asks for: those that are not what was
    last applied. *)
Definition pending (bk : RackBookKeeper) (ts : list rackTarget) : list (string * string) :=
  (λ t, (rtBookieID t, rtRack t)) <$> filter (λ t, rkBookieRacks bk !! rtBookieID t ≠ Some (rtRack t)) ts.

Definition bookies (ts : list rackTarget) : list string := rtBookieID <$> ts.

(** What a status write says of the tick.  Either no assignment could be made,
    and the cache stays; or exactly the pending assignments were attempted, the
    cache holds for each bookie found what they put in force and nothing else,
    and the condition says whether one failed. *)
Definition told (bk bk' : RackBookKeeper) (h : list (event RackCtl.ans)) : Prop :=
  ∃ pods, Ev (ListPods (rkNamespace bk) (SelectorLabels (rkName bk) bookkeeperComponent)) (Ok pods) ∈ h ∧
    let reason := condReason (rkConditions bk') conditionTypeRackSync in
    let targets := zoned bk pods (nodeAnswers h) in
    (reason = Some reasonRackSyncUnavailable ∧ attempts h = [] ∧ rkBookieRacks bk' = rkBookieRacks bk) ∨
    (reason = Some (if decide (failures h = []) then reasonRackSynced else reasonRackSyncPartial) ∧
     attempts h ≡ₚ pending bk targets ∧
     ∀ id, rkBookieRacks bk' !! id =
       if decide (id ∈ bookies targets) then replay (rkBookieRacks bk) h !! id else None).

(** The assignment is what the bookie's node asks for, and not the one last
    applied. *)
Definition wanted (bk : RackBookKeeper) (h : list (event RackCtl.ans)) (id rack : string) : Prop :=
  ∃ pods pod labels zone,
    Ev (ListPods (rkNamespace bk) (SelectorLabels (rkName bk) bookkeeperComponent)) (Ok pods) ∈ h ∧
    pod ∈ pods ∧ bpNodeName pod ≠ "" ∧ Ev (GetNodeLabels (bpNodeName pod)) (Ok labels) ∈ h ∧
    labels !! ZoneTopologyKey = Some zone ∧ zone ≠ "" ∧
    id = bookieID bk (bpName pod) ∧ rack = rackForZone zone.

Definition rackGuard (racks : gmap string string) (h : list (event RackCtl.ans)) (q : RackCtl.call) : Prop :=
  match q with
  | SetRack _ _ | Exec _ _ =>
      ∃ bk id rack, Ev (GetBookKeeper req) (Ok bk) ∈ h ∧ setsRack q = Some (id, rack) ∧
        wanted bk h id rack ∧ rkBookieRacks bk !! id ≠ Some rack
  | PatchStatus bk' =>
      rkBookieRacks bk' ⊆ replay racks h ∧ ∃ bk, Ev (GetBookKeeper req) (Ok bk) ∈ h ∧ told bk bk' h
  | _ => True
  end.

(** What is read: a cache that is true so far, and pods with different names. *)
Definition readsTrue (racks : gmap string string) (_ : list (event RackCtl.ans)) (e : event RackCtl.ans) : Prop :=
  match e with
  | Ev c x =>
      match c return RackCtl.ans c → Prop with
      | GetBookKeeper _ => λ x, ∀ bk, x = Ok bk → rkBookieRacks bk ⊆ racks
      | ListPods _ _ => λ x, ∀ pods, x = Ok pods → NoDup (bpName <$> pods)
      | _ => λ _, True
      end x
  end.

Lemma wanted_later bk h h' id rack : h `prefix_of` h' → wanted bk h id rack → wanted bk h' id rack.
Proof.
  intros [k ->] (pods & pod & labels & zone & H1 & H2 & H3 & H4 & H). exists pods, pod, labels, zone.
  rewrite !elem_of_app. tauto.
Qed.

Lemma length_append (s t : string) : String.length (s ++! t) = (String.length s + String.length t)%nat.
Proof. induction s as [|a s IH]; [done|]. change (S (String.length (s ++! t)) = S (String.length s + String.length t)). lia. Qed.

Lemma append_cancel (s t u : string) : s ++! u = t ++! u → s = t.
Proof.
  revert t. induction s as [|a s IH]; intros [|b t] E; [done| | |].
  - apply (f_equal String.length) in E. rewrite !length_append in E. simpl in E. lia.
  - apply (f_equal String.length) in E. rewrite !length_append in E. simpl in E. lia.
  - change (String a (s ++! u) = String b (t ++! u)) in E. injection E as -> E. f_equal. by apply IH.
Qed.

Lemma bookieID_inj bk p p' : bookieID bk p = bookieID bk p' → p = p'.
Proof. apply append_cancel. Qed.

Lemma sets_args p id rack : setsRack (Exec p (adminCommand p (rackArgs id rack))) = Some (id, rack).
Proof. unfold adminCommand. by destruct (negb _). Qed.

Lemma replay_app racks h h' : replay racks (h ++ h') = replay (replay racks h) h'.
Proof. apply foldl_app. Qed.

(** What does not touch the racks, nor asks about a node. *)
Definition quiet (k : list (event RackCtl.ans)) : Prop := attempts k = [] ∧ nodeAnswers k = [].

Lemma attempts_app h k : attempts (h ++ k) = attempts h ++ attempts k.
Proof. apply omap_app. Qed.

Lemma failures_app h k : failures (h ++ k) = failures h ++ failures k.
Proof. apply omap_app. Qed.

Lemma nodeAnswers_app h k : nodeAnswers (h ++ k) = nodeAnswers h ++ nodeAnswers k.
Proof. apply omap_app. Qed.

Lemma replay_quiet racks k : attempts k = [] → replay racks k = racks.
Proof.
  induction k as [|e k IH] in racks |- *; [done|]. unfold attempts. simpl.
  destruct (setsRack (ev_call e)) eqn:E; [done|]. intros Hk. unfold replay. simpl.
  unfold afterwards at 2. rewrite E. by apply IH.
Qed.

Lemma failures_quiet k : attempts k = [] → failures k = [].
Proof.
  induction k as [|e k IH]; [done|]. unfold attempts, failures. simpl.
  destruct (setsRack (ev_call e)) eqn:E; [done|]. intros Hk. destruct (succeeded e); by apply IH.
Qed.

Lemma replay_mono racks racks' h : racks ⊆ racks' → replay racks h ⊆ replay racks' h.
Proof.
  revert racks racks'. induction h as [|e h IH]; intros racks racks' Hs; [done|]. apply IH.
  unfold afterwards. destruct (setsRack _) as [[id rack]|]; [|done].
  destruct (succeeded e); [by apply insert_mono|done].
Qed.

(** ** The mapping *)

Lemma mappingOf_wanted racks bk pods h :
  Ev (ListPods (rkNamespace bk) (SelectorLabels (rkName bk) bookkeeperComponent)) (Ok pods) ∈ h →
  ∀ pods' h', pods' ⊆ pods → NoDup (bpName <$> pods') → h `prefix_of` h' →
  wp (rackGuard racks) (readsTrue racks) (mappingOf bk pods')
    (λ out h'', (∃ k, h'' = h' ++ k ∧ attempts k = [] ∧ out.1 = zoned bk pods' (nodeAnswers k)) ∧
       (∀ t, t ∈ out.1 → wanted bk h'' (rtBookieID t) (rtRack t) ∧
          ∃ pod, pod ∈ pods' ∧ rtBookieID t = bookieID bk (bpName pod)) ∧
       NoDup (bookies out.1)) h'.
Proof.
  intros Hl pods'. induction pods' as [|pod pods' IH]; intros h' Hsub Hnd Hp; cbn [mappingOf].
  { cbn [wp]. split_and!; [|by intros ? ?%elem_of_nil|constructor]. exists []. by rewrite app_nil_r. }
  apply NoDup_cons in Hnd as [Hno Hnd].
  assert (pods' ⊆ pods) as Hsub' by (intros p Hin; apply Hsub; by right).
  assert (∀ k, attempts k = [] →
    (∀ a, zoned bk (pod :: pods') (nodeAnswers k ++ a) = zoned bk pods' a) →
    wp (rackGuard racks) (readsTrue racks)
    (bind (mappingOf bk pods') (λ rest, Ret (rest.1, rest.2 + 1)))
    (λ out h'', (∃ k, h'' = h' ++ k ∧ attempts k = [] ∧ out.1 = zoned bk (pod :: pods') (nodeAnswers k)) ∧
       (∀ t, t ∈ out.1 → wanted bk h'' (rtBookieID t) (rtRack t) ∧
          ∃ pod', pod' ∈ pod :: pods' ∧ rtBookieID t = bookieID bk (bpName pod')) ∧
       NoDup (bookies out.1)) (h' ++ k)) as Hskip.
  { intros k Hq Hz. apply wp_bind.
    eapply wp_mono, IH; [|exact Hsub'|done|by etrans; [|apply prefix_app_r]].
    intros [ts n] h3 _ ((k' & -> & Hk & Ht) & H3 & H4). cbn [wp fst snd] in *. split_and!; [| |done].
    - exists (k ++ k'). by rewrite (assoc_L (++)), attempts_app, nodeAnswers_app, Hq, Hz.
    - intros t Hin. destruct (H3 t Hin) as (? & pod' & ? & ?). split; [done|]. exists pod'. split; [by right|done]. }
  destruct (String.eqb (bpNodeName pod) "") eqn:Hn.
  { specialize (Hskip [] eq_refl). rewrite app_nil_r in Hskip. apply Hskip. intros a. simpl. by rewrite Hn. }
  apply wp_bind. cbn [wp perform]. split; [done|]. intros [labels|e] _.
  2: { apply Hskip; [done|]. intros a. simpl. by rewrite Hn. }
  destruct (String.eqb (default "" (labels !! ZoneTopologyKey)) "") eqn:Hz.
  { apply Hskip; [done|]. intros a. simpl. by rewrite Hn, Hz. }
  apply wp_bind. eapply wp_mono, IH; [|exact Hsub'|done|by etrans; [|apply prefix_app_r]].
  intros [ts n] h3 _ ((k & -> & Hk & Ht) & H3 & H4). cbn [wp fst snd] in *. split_and!.
  - eexists (_ :: k). rewrite <- (assoc_L (++)). split; [done|]. split; [done|].
    simpl. rewrite Hn, Hz. by f_equal.
  - intros t [->|Hin]%elem_of_cons.
    + split; [|by exists pod; split; [left|]]. apply String.eqb_neq in Hn, Hz.
      cbn. destruct (labels !! ZoneTopologyKey) as [zone|] eqn:E; [|done].
      eapply wanted_later; [apply prefix_app_r; done|]. exists pods, pod, labels, zone. cbn.
      split; [rewrite elem_of_app; left; by eapply elem_of_prefix|].
      split; [apply Hsub; by left|]. split; [done|]. split; [|done].
      rewrite elem_of_app. right. by apply list_elem_of_singleton.
    + destruct (H3 t Hin) as (? & pod' & ? & ?). split; [done|]. exists pod'. split; [by right|done].
  - cbn. apply NoDup_cons. split; [|done]. intros (t & Heq & Hin)%list_elem_of_fmap.
    destruct (H3 t Hin) as (_ & pod' & Hin' & E). rewrite E in Heq. apply bookieID_inj in Heq.
    apply Hno. rewrite Heq. by apply list_elem_of_fmap_2.
Qed.

(** ** Applying it *)

Lemma SetBookieRack_effect racks bk setter id rack h :
  Ev (GetBookKeeper req) (Ok bk) ∈ h → wanted bk h id rack → rkBookieRacks bk !! id ≠ Some rack →
  wp (rackGuard racks) (readsTrue racks) (SetBookieRack setter id rack)
    (λ r h', ∃ k, h' = h ++ k ∧ nodeAnswers k = [] ∧ attempts k = [(id, rack)] ∧
       failures k = (match r with Ok _ => [] | Err _ => [(id, rack)] end) ∧
       ∀ rs, replay rs k = match r with Ok _ => <[id := rack]> rs | Err _ => rs end) h.
Proof.
  intros Hb Hw Hne. destruct setter as [|p]; cbn [SetBookieRack].
  - split; [by exists bk, id, rack|]. intros x _. cbn [wp]. eexists. split; [done|]. by destruct x.
  - split; [exists bk, id, rack; by rewrite sets_args|]. intros [out err] _. cbn [wp bind].
    pose proof (sets_args p id rack) as Hs.
    destruct err; cbn [snd wp]; (eexists; split; [done|]);
      unfold attempts, failures, replay, afterwards; cbn -[setsRack]; by rewrite Hs.
Qed.

Lemma replay_lookup rs rs' k id : rs !! id = rs' !! id → replay rs k !! id = replay rs' k !! id.
Proof.
  revert rs rs'. induction k as [|e k IH]; intros rs rs' E; [done|]. apply IH. unfold afterwards.
  destruct (setsRack _) as [[id' rack]|]; [|done]. destruct (succeeded e); [|done].
  destruct (decide (id = id')) as [->|]; [by rewrite !lookup_insert_eq|by rewrite !lookup_insert_ne].
Qed.

Lemma replay_untouched rs k id : id ∉ (attempts k).*1 → replay rs k !! id = rs !! id.
Proof.
  revert rs. induction k as [|e k IH]; intros rs; [done|]. unfold attempts, replay. simpl. unfold afterwards at 2.
  destruct (setsRack _) as [[id' rack]|]; [|apply IH]. simpl.
  intros [Hne Hk]%not_elem_of_cons. rewrite (IH _ Hk). destruct (succeeded e); [by rewrite lookup_insert_ne|done].
Qed.

Lemma pending_ids bk ts id : id ∈ (pending bk ts).*1 → id ∈ bookies ts.
Proof.
  unfold pending. rewrite <- list_fmap_compose. intros (t & -> & Ht)%list_elem_of_fmap.
  apply list_elem_of_filter in Ht as [_ Ht]. by apply list_elem_of_fmap_2.
Qed.

Lemma pending_cons bk t ts :
  pending bk (t :: ts) =
    (if decide (rkBookieRacks bk !! rtBookieID t = Some (rtRack t)) then [] else [(rtBookieID t, rtRack t)])
      ++ pending bk ts.
Proof.
  unfold pending. rewrite filter_cons. repeat case_decide; try done; tauto.
Qed.

(** The cache after the first target, then the others. *)
Lemma cache_step bk t ts k0 k (applied applied' out : gmap string string) :
  rtBookieID t ∉ bookies ts → attempts k = pending bk ts →
  applied' !! rtBookieID t = replay (rkBookieRacks bk) k0 !! rtBookieID t →
  (∀ id, id ≠ rtBookieID t → applied' !! id = applied !! id ∧
     replay (rkBookieRacks bk) k0 !! id = rkBookieRacks bk !! id) →
  (∀ id, out !! id =
     if decide (id ∈ bookies ts) then replay (rkBookieRacks bk) k !! id else applied' !! id) →
  ∀ id, out !! id =
    if decide (id ∈ bookies (t :: ts)) then replay (rkBookieRacks bk) (k0 ++ k) !! id else applied !! id.
Proof.
  intros Hno Hk Ht Ho Hout id. rewrite Hout, replay_app.
  change (bookies (t :: ts)) with (rtBookieID t :: bookies ts).
  destruct (decide (id = rtBookieID t)) as [->|Hid].
  - rewrite decide_False by done. rewrite decide_True by by left. rewrite replay_untouched; [done|].
    rewrite Hk. by intros ?%pending_ids.
  - destruct (Ho id Hid) as [Ho1 Ho2]. destruct (decide (id ∈ bookies ts)).
    + rewrite decide_True by by right. by apply replay_lookup.
    + rewrite decide_False; [done|]. by intros [?|?]%elem_of_cons.
Qed.

Lemma applyRackMapping_exact racks bk setter ts : ∀ applied synced failed h,
  Ev (GetBookKeeper req) (Ok bk) ∈ h →
  (∀ t, t ∈ ts → wanted bk h (rtBookieID t) (rtRack t)) → NoDup (bookies ts) →
  (∀ t, t ∈ ts → applied !! rtBookieID t = None) →
  wp (rackGuard racks) (readsTrue racks)
    (applyRackMapping setter ts (rkBookieRacks bk) applied synced failed)
    (λ out h', ∃ k, h' = h ++ k ∧ nodeAnswers k = [] ∧ attempts k = pending bk ts ∧
       out.2 = failed ++ (failures k).*1 ∧
       ∀ id, out.1.1 !! id =
         if decide (id ∈ bookies ts) then replay (rkBookieRacks bk) k !! id else applied !! id) h.
Proof.
  induction ts as [|t ts IH]; intros applied synced failed h Hb Hw Hnd Hfresh.
  { exists []. split_and!; rewrite ?app_nil_r; try done. }
  apply NoDup_cons in Hnd as [Hno Hnd]. cbn [applyRackMapping].
  assert (∀ t', t' ∈ ts → rtBookieID t ≠ rtBookieID t') as Hne.
  { intros t' Ht' E. apply Hno. rewrite E. by apply list_elem_of_fmap_2. }
  assert (∀ applied' synced' failed' k0,
    nodeAnswers k0 = [] → attempts k0 ++ pending bk ts = pending bk (t :: ts) →
    failed' = failed ++ (failures k0).*1 →
    applied' !! rtBookieID t = replay (rkBookieRacks bk) k0 !! rtBookieID t →
    (∀ id, id ≠ rtBookieID t → applied' !! id = applied !! id ∧
       replay (rkBookieRacks bk) k0 !! id = rkBookieRacks bk !! id) →
    wp (rackGuard racks) (readsTrue racks)
      (applyRackMapping setter ts (rkBookieRacks bk) applied' synced' failed')
      (λ out h', ∃ k, h' = h ++ k ∧ nodeAnswers k = [] ∧ attempts k = pending bk (t :: ts) ∧
         out.2 = failed ++ (failures k).*1 ∧
         ∀ id, out.1.1 !! id = if decide (id ∈ bookies (t :: ts))
           then replay (rkBookieRacks bk) k !! id else applied !! id) (h ++ k0)) as Hstep.
  { intros applied' synced' failed' k0 Hn Ha Hf Ht Ho. eapply wp_mono, IH.
    - intros out h' _ (k & -> & Hk1 & Hk2 & Hk3 & Hk4). exists (k0 ++ k).
      rewrite (assoc_L (++)), nodeAnswers_app, attempts_app, failures_app, Hn, Hk1, Hk2, Ha, Hk3, Hf, fmap_app.
      rewrite (assoc_L (++)). split_and!; [done..|]. by eapply cache_step.
    - by apply elem_of_app; left.
    - intros t' Hin. eapply wanted_later; [by apply prefix_app_r|]. by apply Hw; right.
    - done.
    - intros t' Hin. destruct (Ho (rtBookieID t')) as [-> _]; [by apply not_eq_sym, Hne|]. by apply Hfresh; right. }
  case_bool_decide as Hcur.
  - specialize (Hstep (<[rtBookieID t := rtRack t]> applied) synced failed []).
    rewrite !app_nil_r in Hstep. apply Hstep; [done| |done| |].
    + by rewrite pending_cons, decide_True.
    + by rewrite lookup_insert_eq.
    + intros id Hid. by rewrite lookup_insert_ne.
  - apply wp_bind. eapply wp_mono, SetBookieRack_effect; [|done|by apply Hw; left|done].
    intros r h' _ (k & -> & Hk1 & Hk2 & Hk3 & Hk4). destruct r as [u|e].
    + apply Hstep; [done|by rewrite Hk2, pending_cons, decide_False| | |].
      * by rewrite Hk3, app_nil_r.
      * by rewrite Hk4, !lookup_insert_eq.
      * intros id Hid. by rewrite Hk4, !lookup_insert_ne.
    + apply Hstep; [done|by rewrite Hk2, pending_cons, decide_False|by rewrite Hk3| |].
      * rewrite Hk4. destruct (rkBookieRacks bk !! rtBookieID t); [by rewrite lookup_insert_eq|].
        by apply Hfresh; left.
      * intros id Hid. rewrite Hk4. destruct (rkBookieRacks bk !! rtBookieID t); [by rewrite lookup_insert_ne|done].
Qed.

Lemma rackSetter_quiet racks bk pods Q h :
  (∀ r k, quiet k → Q r (h ++ k)) →
  wp (rackGuard racks) (readsTrue racks) (rackSetter injected wired bk pods) Q h.
Proof.
  intros HQ. assert (∀ r, Q r h) as HQ0.
  { intros r. rewrite <- (app_nil_r h). by apply HQ. }
  unfold rackSetter. destruct injected; [by apply HQ0|]. destruct wired; cbn [negb]; [|by apply HQ0].
  apply wp_bind_ok. unfold resolveExecTarget. apply wp_bind. unfold findRunningBrokerPod.
  destruct (pulsarClusterOwnerName bk) as [owner|]; cbn [wp].
  - apply wp_bind. cbn [wp perform]. split; [done|]. intros x _.
    assert (∀ r, Q r (h ++ [Ev (ListPods (rkNamespace bk)
       (SelectorLabels (childName owner BrokerAutoscaler.brokerComponent) BrokerAutoscaler.brokerComponent)) x]))
      as HQ' by (intros r; by apply HQ).
    destruct x as [ps|e]; cbn [wp]; [destruct (firstRunning ps); cbn [wp]; [apply HQ'|]|];
      (destruct (firstRunning pods); apply HQ').
  - destruct (firstRunning pods); apply HQ0.
Qed.

Lemma pending_perm bk ts ts' : ts ≡ₚ ts' → pending bk ts ≡ₚ pending bk ts'.
Proof. intros E. unfold pending. by rewrite E. Qed.

Lemma condReason_sync cs st gen reason msg :
  condReason (SetStatusCondition cs (newCondition conditionTypeRackSync st gen reason msg)).1
    conditionTypeRackSync = Some reason.
Proof. apply (condReason_set cs (newCondition conditionTypeRackSync st gen reason msg)). Qed.

(** What the sync reports once the pending assignments were attempted. *)
Lemma told_applied racks bk pods applied cs h :
  Ev (GetBookKeeper req) (Ok bk) ∈ h →
  Ev (ListPods (rkNamespace bk) (SelectorLabels (rkName bk) bookkeeperComponent)) (Ok pods) ∈ h →
  rkBookieRacks bk ⊆ racks →
  condReason cs conditionTypeRackSync =
    Some (if decide (failures h = []) then reasonRackSynced else reasonRackSyncPartial) →
  attempts h ≡ₚ pending bk (zoned bk pods (nodeAnswers h)) →
  (∀ id, applied !! id =
     if decide (id ∈ bookies (zoned bk pods (nodeAnswers h))) then replay (rkBookieRacks bk) h !! id else None) →
  rackGuard racks h (PatchStatus (set_rkStatus applied cs bk)).
Proof.
  intros Hb Hl Hr Hc Ha He. cbn. split.
  - apply map_subseteq_spec. intros id rack. rewrite He. destruct (decide (id ∈ _)); [|discriminate].
    apply map_subseteq_spec. by apply replay_mono.
  - exists bk. split; [done|]. exists pods. split; [done|]. right. by split_and!.
Qed.

Lemma recorded racks bk pods applied total synced failed skipped h :
  Ev (GetBookKeeper req) (Ok bk) ∈ h →
  Ev (ListPods (rkNamespace bk) (SelectorLabels (rkName bk) bookkeeperComponent)) (Ok pods) ∈ h →
  rkBookieRacks bk ⊆ racks → failed = (failures h).*1 →
  attempts h ≡ₚ pending bk (zoned bk pods (nodeAnswers h)) →
  (∀ id, applied !! id =
     if decide (id ∈ bookies (zoned bk pods (nodeAnswers h))) then replay (rkBookieRacks bk) h !! id else None) →
  wp (rackGuard racks) (readsTrue racks) (recordRackSyncResult bk applied total synced failed skipped)
    (λ _ _, True) h.
Proof.
  intros Hb Hl Hr Hf Ha He. unfold recordRackSyncResult.
  destruct failed as [|f failed]; cbn zeta;
    (destruct (SetStatusCondition _ _) as [cs changed] eqn:Ec; destruct (_ && _); [done|];
     apply wp_bind_wrap; split; [|intros [u|e] _; [|done]; cbn [wp]; apply wp_bind; by destruct changed];
     eapply told_applied; [done..| |done|done]; apply (f_equal fst) in Ec; cbn [fst] in Ec; subst cs;
     rewrite condReason_sync; f_equal; destruct (failures h); done).
Qed.

Lemma unavailable racks bk pods cause h :
  Ev (GetBookKeeper req) (Ok bk) ∈ h →
  Ev (ListPods (rkNamespace bk) (SelectorLabels (rkName bk) bookkeeperComponent)) (Ok pods) ∈ h →
  rkBookieRacks bk ⊆ racks → attempts h = [] →
  wp (rackGuard racks) (readsTrue racks) (recordRackSetterUnavailable bk cause) (λ _ _, True) h.
Proof.
  intros Hb Hl Hr Hnone. unfold recordRackSetterUnavailable.
  destruct (SetStatusCondition _ _) as [cs []] eqn:Ec; [|done]. apply wp_bind_wrap.
  split; [|by intros [u|e'] _; [cbn [wp]; apply wp_bind|]].
  apply (f_equal fst) in Ec. cbn [fst] in Ec. subst cs. cbn. rewrite replay_quiet by done. split; [done|].
  exists bk. split; [done|]. exists pods. split; [done|]. left. split; [apply condReason_sync|done].
Qed.

Lemma rack_sync racks :
  wp (rackGuard racks) (readsTrue racks) (Reconcile injected wired req) (λ _ _, True) [].
Proof.
  unfold Reconcile. apply wp_bind. cbn [wp perform]. split; [done|]. intros [bk|e] Hx; [|done].
  specialize (Hx _ eq_refl). destruct (rkAutoRackConfig bk) as [[[] period]|]; [|done|done]. cbn [fst negb].
  apply wp_bind_ok. unfold listBookiePods. apply wp_bind_wrap. cbn [wp perform]. split; [done|].
  intros [pods|e] Hpods; [|done]. specialize (Hpods _ eq_refl). cbn [wp].
  apply wp_bind. unfold desiredRackMapping. apply wp_bind.
  lazymatch goal with |- wp _ _ _ _ ?h =>
    assert (Ev (ListPods (rkNamespace bk) (SelectorLabels (rkName bk) bookkeeperComponent)) (Ok pods) ∈ h)
      as Hl by elem; assert (Ev (GetBookKeeper req) (Ok bk) ∈ h) as Hb by elem;
    eapply wp_mono, (mappingOf_wanted racks bk pods h Hl pods h); [|done..];
    assert (quiet h) as Hq by done; revert Hl Hb Hq; generalize h; intros h0 Hl Hb Hq
  end.
  intros [ts skipped] h _ ((k & -> & Hk & Ht) & Hts & Hnd). cbn [wp fst snd] in *. subst ts.
  apply wp_bind. apply rackSetter_quiet. intros setter k1 [Hk1 Hk1'].
  assert (nodeAnswers ((h0 ++ k) ++ k1) = nodeAnswers k) as Hn.
  { destruct Hq as [_ Hq]. by rewrite !nodeAnswers_app, Hq, Hk1', app_nil_r. }
  assert (attempts ((h0 ++ k) ++ k1) = []) as Hnone.
  { destruct Hq as [Hq _]. by rewrite !attempts_app, Hq, Hk, Hk1. }
  assert (Ev (GetBookKeeper req) (Ok bk) ∈ (h0 ++ k) ++ k1) as Hb1 by (rewrite !elem_of_app; auto).
  assert (Ev (ListPods (rkNamespace bk) (SelectorLabels (rkName bk) bookkeeperComponent)) (Ok pods)
    ∈ (h0 ++ k) ++ k1) as Hl1 by (rewrite !elem_of_app; auto).
  assert (∀ t, t ∈ zoned bk pods (nodeAnswers k) → wanted bk ((h0 ++ k) ++ k1) (rtBookieID t) (rtRack t)) as Hw.
  { intros t Hin. eapply wanted_later; [by apply prefix_app_r|]. by apply Hts. }
  clear Hts Hq Hl Hb Hk1 Hk1' Hk. revert Hw Hn Hnone Hb1 Hl1.
  generalize ((h0 ++ k) ++ k1) as h1; intros h1 Hw Hn Hnone Hb1 Hl1. destruct setter as [setter|e].
  - apply wp_bind. eapply wp_mono, (applyRackMapping_exact racks bk setter); [|done| | |].
    + intros [[applied synced] failed] h2 _ (k2 & -> & Hk1 & Hk2 & Hk3 & Hk4). cbn [fst snd] in *.
      assert (zoned bk pods (nodeAnswers (h1 ++ k2)) = zoned bk pods (nodeAnswers k)) as Hz
        by by rewrite nodeAnswers_app, Hn, Hk1, app_nil_r.
      apply wp_bind_ok, (wp_mono _ _ _ (λ _ _, True)); [by intros [u|e] ? ? ?|].
      apply (recorded _ _ pods); try (by apply elem_of_app; left); [done| | |].
      * by rewrite failures_app, (failures_quiet _ Hnone).
      * rewrite attempts_app, Hnone, Hk2, Hz. apply pending_perm, SortFunc_perm.
      * intros id. rewrite Hk4, Hz, replay_app, (replay_quiet _ _ Hnone).
        apply decide_ext. unfold bookies. by rewrite SortFunc_perm.
    + intros t Hin. rewrite SortFunc_perm in Hin. by apply Hw.
    + unfold bookies. by rewrite SortFunc_perm.
    + done.
  - apply wp_bind_ok. eapply wp_mono, (unavailable racks bk pods); [by intros [u|e'] ? ? ?|done..].
Qed.

(** C40: The rack sync tells the truth and does no more than it must.  In every
    run, interrupted or not, if the cache of applied racks that was read is
    true, the pods listed have different names, and an assignment that fails
    has no effect:
    - a bookie's rack is set only to the zone of the node its pod was just
      found on, and only when that is not the rack last applied;
    - a status is written only when either no assignment could be made (the
      cache is then unchanged and the reason says so), or each bookie found in
      a zone whose rack was not the one last applied has been assigned it; the
      cache then holds, for each bookie found in a zone, exactly the rack that
      the cache read and the successful assignments since give it, and nothing
      for another bookie, and the reason tells whether an assignment failed;
    - so every rack in the cache written is in force. *)
Theorem rack_sync_sound racks t :
  part (Reconcile injected wired req) t → relies (readsTrue racks) [] t → guaranteed (rackGuard racks) [] t.
Proof. intros Hp Hr. exact (wp_part _ _ _ _ _ _ (rack_sync racks) Hp Hr). Qed.

End Racks.

(** * Instances *)

Module RackDemo.

Definition bk : RackBookKeeper :=
  mkRackBK "bk" "ns" 1 [] (Some (true, None)) {[ "bk-0.bk.ns:3181" := "/a" ]} [].

(** Three bookies: one where it was, one moved, one on a node without a zone. *)
Definition pods : list BookiePod :=
  [mkBookiePod "bk-1" "n2" PodRunning; mkBookiePod "bk-0" "n1" PodRunning; mkBookiePod "bk-2" "n3" PodRunning].

Definition serve (q : RackCtl.call) (s : unit) : RackCtl.ans q * unit :=
  (match q return RackCtl.ans q with
   | GetBookKeeper _ => Ok bk
   | ListPods _ _ => Ok pods
   | GetNodeLabels n =>
       if String.eqb n "n1" then Ok {[ ZoneTopologyKey := "a" ]}
       else if String.eqb n "n2" then Ok {[ ZoneTopologyKey := "b" ]} else Ok ∅
   | SetRack _ _ => Ok tt
   | Exec _ _ => ("", None)
   | PatchStatus _ => Ok tt
   | RackCtl.Eventf _ _ _ _ => tt
   end, s).

Definition run :=
  exec serve (Reconcile (AM := refApiMeta) (SF := ScheduleProps.ScheduleDemo.refSort) false true
                (mkNN "ns" "bk")) tt.

Example run_sets : omap (λ e, setsRack (ev_call e)) run.2 = [("bk-1.bk.ns:3181", "/b")].
Proof. vm_compute. reflexivity. Qed.

Lemma rack_sync_sound_witness :
  guaranteed (rackGuard (AM := refApiMeta) (mkNN "ns" "bk") {[ "bk-0.bk.ns:3181" := "/a" ]}) [] run.2.
Proof.
  apply (rack_sync_sound (AM := refApiMeta) (SF := ScheduleProps.ScheduleDemo.refSort) false true).
  - exact (runs_part _ _ _ (exec_runs serve (Reconcile (AM := refApiMeta)
      (SF := ScheduleProps.ScheduleDemo.refSort) false true (mkNN "ns" "bk")) tt)).
  - assert (∀ ps, Ok pods = Ok ps → NoDup (bpName <$> ps)) as Hp.
    { intros ps E. injection E as <-. apply (bool_decide_unpack _). vm_compute. exact I. }
    assert (∀ b, Ok bk = Ok b → rkBookieRacks b ⊆ {[ "bk-0.bk.ns:3181" := "/a" ]}) as Hb.
    { intros b E. injection E as <-. reflexivity. }
    split; [exact Hb|]. split; [exact Hp|]. vm_compute. repeat split.
Defined.

End RackDemo.
