(* ===== verification/Rbac.v ===== *)
(** What the operator is allowed to do: the permission markers of the
    controllers (the kubebuilder:rbac comments), the ClusterRole generated from
    them (config/rbac/role.yaml), and the calls the controllers make. *)

From S2P Require Import Prelude Effects Kube BrokerScale LoadReport BookKeeper BookieScale BookieAdmin Decommission BackupTypes BackupCtl Restore ScheduleCtl Config Rollout Workload ClusterTypes MetadataInit Umbrella FunctionsConf BrokerCtl BookieCtl PodExec ProxyCtl AutoRecoveryCtl FunctionsCtl OxiaCtl WorkloadProps RackCtl.
Import Rollout Workload Cluster.
Open Scope Z_scope.
Open Scope go_scope.

Module Rbac.

Definition coreGroup : string := "".
Definition clusterGroup : string := "cluster.pulsaroperator.io".
Definition metadataGroup : string := "metadata.pulsaroperator.io".
Definition backupGroup : string := "backup.pulsaroperator.io".

Definition everyVerb : list string := ["create"; "delete"; "get"; "list"; "patch"; "update"; "watch"].
Definition allVerbs : list string := ["get"; "list"; "watch"; "create"; "update"; "patch"; "delete"].
Definition statusVerbs : list string := ["get"; "update"; "patch"].
Definition readVerbs : list string := ["get"; "list"; "watch"].

Definition marker (group resource : string) (verbs : list string) : PolicyRule :=
  mkRule [group] [resource] verbs.

(** * The role *)

Definition managerRole : list PolicyRule :=
  [mkRule [coreGroup]
     ["configmaps"; "persistentvolumeclaims"; "serviceaccounts"; "services"]
     everyVerb;
   mkRule [coreGroup]
     ["events"]
     ["create"; "patch"];
   mkRule [coreGroup]
     ["nodes"; "pods"; "secrets"]
     ["get"; "list"; "watch"];
   mkRule [coreGroup]
     ["pods/exec"]
     ["create"];
   mkRule ["apps"]
     ["deployments"; "statefulsets"]
     everyVerb;
   mkRule [backupGroup]
     ["backups"; "backupschedules"; "restores"]
     everyVerb;
   mkRule [backupGroup]
     ["backups/finalizers"; "backupschedules/finalizers"; "restores/finalizers"]
     ["update"];
   mkRule [backupGroup]
     ["backups/status"; "backupschedules/status"; "restores/status"]
     ["get"; "patch"; "update"];
   mkRule ["batch"]
     ["jobs"]
     everyVerb;
   mkRule [clusterGroup]
     ["autorecoveries"; "bookkeepers"; "brokers"; "functionsworkers"; "proxies"; "pulsarclusters"]
     everyVerb;
   mkRule [clusterGroup]
     ["autorecoveries/finalizers"; "bookkeepers/finalizers"; "brokers/finalizers"; "functionsworkers/finalizers"; "proxies/finalizers"; "pulsarclusters/finalizers"]
     ["update"];
   mkRule [clusterGroup]
     ["autorecoveries/status"; "bookkeepers/status"; "brokers/status"; "functionsworkers/status"; "proxies/status"; "pulsarclusters/status"]
     ["get"; "patch"; "update"];
   mkRule ["coordination.k8s.io"]
     ["leases"]
     everyVerb;
   mkRule [metadataGroup]
     ["oxiaclusters"]
     everyVerb;
   mkRule [metadataGroup]
     ["oxiaclusters/finalizers"]
     ["update"];
   mkRule [metadataGroup]
     ["oxiaclusters/status"]
     ["get"; "patch"; "update"];
   mkRule ["metrics.k8s.io"]
     ["pods"]
     ["get"; "list"];
   mkRule ["policy"]
     ["poddisruptionbudgets"]
     everyVerb;
   mkRule ["rbac.authorization.k8s.io"]
     ["rolebindings"; "roles"]
     everyVerb].

(** * The markers *)

Definition pulsarClusterMarkers : list PolicyRule :=
  [marker clusterGroup "pulsarclusters" allVerbs;
   marker clusterGroup "pulsarclusters/status" statusVerbs;
   marker clusterGroup "pulsarclusters/finalizers" ["update"];
   marker clusterGroup "brokers" allVerbs;
   marker clusterGroup "brokers/status" statusVerbs;
   marker clusterGroup "bookkeepers" allVerbs;
   marker clusterGroup "bookkeepers/status" statusVerbs;
   marker clusterGroup "proxies" allVerbs;
   marker clusterGroup "proxies/status" statusVerbs;
   marker clusterGroup "autorecoveries" allVerbs;
   marker clusterGroup "autorecoveries/status" statusVerbs;
   marker clusterGroup "functionsworkers" allVerbs;
   marker clusterGroup "functionsworkers/status" statusVerbs;
   marker metadataGroup "oxiaclusters" allVerbs;
   marker metadataGroup "oxiaclusters/status" statusVerbs;
   marker "batch" "jobs" allVerbs;
   marker coreGroup "configmaps" allVerbs;
   marker coreGroup "pods" readVerbs;
   marker coreGroup "persistentvolumeclaims" ["get"; "list"; "watch"; "create"];
   marker coreGroup "events" ["create"; "patch"]].

Definition brokerMarkers : list PolicyRule :=
  [marker clusterGroup "brokers" allVerbs;
   marker clusterGroup "brokers/status" statusVerbs;
   marker clusterGroup "brokers/finalizers" ["update"];
   marker "apps" "statefulsets" allVerbs;
   marker coreGroup "services" allVerbs;
   marker coreGroup "configmaps" allVerbs;
   marker "policy" "poddisruptionbudgets" allVerbs].

Definition brokerAutoscalerMarkers : list PolicyRule :=
  [marker clusterGroup "brokers" ["get"; "list"; "watch"; "update"; "patch"];
   marker clusterGroup "brokers/status" statusVerbs;
   marker clusterGroup "brokers/finalizers" ["update"];
   marker coreGroup "pods" readVerbs;
   marker coreGroup "events" ["create"; "patch"];
   marker "metrics.k8s.io" "pods" ["get"; "list"]].

Definition bookKeeperMarkers : list PolicyRule :=
  [marker clusterGroup "bookkeepers" allVerbs;
   marker clusterGroup "bookkeepers/status" statusVerbs;
   marker clusterGroup "bookkeepers/finalizers" ["update"];
   marker "apps" "statefulsets" allVerbs;
   marker coreGroup "services" allVerbs;
   marker coreGroup "configmaps" allVerbs;
   marker coreGroup "persistentvolumeclaims" allVerbs;
   marker coreGroup "pods" readVerbs;
   marker "policy" "poddisruptionbudgets" allVerbs].

Definition bookKeeperAutoscalerMarkers : list PolicyRule :=
  [marker clusterGroup "bookkeepers" ["get"; "list"; "watch"; "update"; "patch"];
   marker clusterGroup "bookkeepers/status" statusVerbs;
   marker coreGroup "pods" readVerbs;
   marker coreGroup "events" ["create"; "patch"]].

Definition decommissionMarkers : list PolicyRule :=
  [marker clusterGroup "bookkeepers" ["get"; "list"; "watch"; "update"; "patch"];
   marker clusterGroup "bookkeepers/status" statusVerbs;
   marker "apps" "statefulsets" readVerbs;
   marker coreGroup "pods" readVerbs;
   marker coreGroup "pods/exec" ["create"];
   marker coreGroup "persistentvolumeclaims" ["get"; "list"; "watch"; "delete"];
   marker coreGroup "nodes" readVerbs;
   marker coreGroup "events" ["create"; "patch"]].

Definition rackMarkers : list PolicyRule :=
  [marker clusterGroup "bookkeepers" readVerbs;
   marker clusterGroup "bookkeepers/status" statusVerbs;
   marker coreGroup "pods" readVerbs;
   marker coreGroup "pods/exec" ["create"];
   marker coreGroup "nodes" readVerbs;
   marker coreGroup "events" ["create"; "patch"]].

Definition proxyMarkers : list PolicyRule :=
  [marker clusterGroup "proxies" allVerbs;
   marker clusterGroup "proxies/status" statusVerbs;
   marker clusterGroup "proxies/finalizers" ["update"];
   marker "apps" "statefulsets" allVerbs;
   marker coreGroup "services" allVerbs;
   marker coreGroup "configmaps" allVerbs;
   marker coreGroup "pods" readVerbs;
   marker "policy" "poddisruptionbudgets" allVerbs;
   marker coreGroup "events" ["create"; "patch"]].

Definition autoRecoveryMarkers : list PolicyRule :=
  [marker clusterGroup "autorecoveries" allVerbs;
   marker clusterGroup "autorecoveries/status" statusVerbs;
   marker clusterGroup "autorecoveries/finalizers" ["update"];
   marker "apps" "deployments" allVerbs;
   marker coreGroup "configmaps" allVerbs;
   marker coreGroup "pods" readVerbs;
   marker "policy" "poddisruptionbudgets" allVerbs].

Definition functionsWorkerMarkers : list PolicyRule :=
  [marker clusterGroup "functionsworkers" allVerbs;
   marker clusterGroup "functionsworkers/status" statusVerbs;
   marker clusterGroup "functionsworkers/finalizers" ["update"];
   marker clusterGroup "brokers" readVerbs;
   marker "apps" "statefulsets" allVerbs;
   marker coreGroup "services" allVerbs;
   marker coreGroup "configmaps" allVerbs;
   marker coreGroup "pods" readVerbs;
   marker "policy" "poddisruptionbudgets" allVerbs].

Definition oxiaClusterMarkers : list PolicyRule :=
  [marker metadataGroup "oxiaclusters" allVerbs;
   marker metadataGroup "oxiaclusters/status" statusVerbs;
   marker metadataGroup "oxiaclusters/finalizers" ["update"];
   marker "apps" "deployments" allVerbs;
   marker "apps" "statefulsets" allVerbs;
   marker coreGroup "services" allVerbs;
   marker coreGroup "configmaps" allVerbs;
   marker coreGroup "serviceaccounts" allVerbs;
   marker coreGroup "pods" readVerbs;
   marker "rbac.authorization.k8s.io" "roles" allVerbs;
   marker "rbac.authorization.k8s.io" "rolebindings" allVerbs;
   marker "policy" "poddisruptionbudgets" allVerbs;
   marker "coordination.k8s.io" "leases" allVerbs].

Definition backupMarkers : list PolicyRule :=
  [marker backupGroup "backups" allVerbs;
   marker backupGroup "backups/status" statusVerbs;
   marker backupGroup "backups/finalizers" ["update"];
   marker "batch" "jobs" allVerbs;
   marker coreGroup "pods" readVerbs;
   marker coreGroup "configmaps" ["get"; "list"; "watch"; "create"];
   marker coreGroup "secrets" readVerbs;
   marker coreGroup "events" ["create"; "patch"];
   marker clusterGroup "pulsarclusters" readVerbs;
   marker metadataGroup "oxiaclusters" readVerbs].

Definition restoreMarkers : list PolicyRule :=
  [marker backupGroup "restores" allVerbs;
   marker backupGroup "restores/status" statusVerbs;
   marker backupGroup "restores/finalizers" ["update"];
   marker "batch" "jobs" allVerbs;
   marker coreGroup "pods" readVerbs;
   marker coreGroup "configmaps" readVerbs;
   marker coreGroup "secrets" readVerbs;
   marker coreGroup "events" ["create"; "patch"];
   marker clusterGroup "pulsarclusters" readVerbs;
   marker metadataGroup "oxiaclusters" readVerbs].

Definition backupScheduleMarkers : list PolicyRule :=
  [marker backupGroup "backupschedules" allVerbs;
   marker backupGroup "backupschedules/status" statusVerbs;
   marker backupGroup "backupschedules/finalizers" ["update"];
   marker backupGroup "backups" ["get"; "list"; "watch"; "create"; "delete"];
   marker coreGroup "events" ["create"; "patch"]].

Definition allMarkers : list PolicyRule :=
  pulsarClusterMarkers ++ brokerMarkers ++ brokerAutoscalerMarkers ++ bookKeeperMarkers ++
  bookKeeperAutoscalerMarkers ++ decommissionMarkers ++ rackMarkers ++ proxyMarkers ++
  autoRecoveryMarkers ++ functionsWorkerMarkers ++ oxiaClusterMarkers ++ backupMarkers ++
  restoreMarkers ++ backupScheduleMarkers.

(** * Authorization *)

(** Group, resource and verb of a request. *)
Definition Need : Type := string * string * string.

(** The authorizer: some rule names all three. *)
Definition granted (rules : list PolicyRule) (n : Need) : bool :=
  existsb (λ r, bool_decide (n.1.1 ∈ prAPIGroups r) && bool_decide (n.1.2 ∈ prResources r) &&
                bool_decide (n.2 ∈ prVerbs r)) rules.

(** Everything a role allows. *)
Definition expand (rules : list PolicyRule) : list Need :=
  rules ≫= λ r, g ← prAPIGroups r; x ← prResources r; v ← prVerbs r; [(g, x, v)].

Lemma granted_expand rules n : granted rules n = true ↔ n ∈ expand rules.
Proof.
  unfold granted, expand. rewrite existsb_exists, list_elem_of_bind. split.
  - intros (r & Hr & H). exists r. split; [|by apply list_elem_of_In].
    apply andb_true_iff in H as [[Hg Hx]%andb_true_iff Hv].
    apply bool_decide_eq_true in Hg, Hx, Hv. destruct n as [[g x] v]. simpl in *. set_solver.
  - intros (r & H & Hr). exists r. split; [by apply list_elem_of_In|].
    destruct n as [[g x] v]. set_unfold in H. destruct H as (g' & (x' & (v' & E & ?) & ?) & ?). simplify_eq/=.
    by rewrite !bool_decide_eq_true_2.
Qed.

Definition covers (rules rules' : list PolicyRule) : bool := forallb (granted rules) (expand rules').

Lemma covers_granted rules rules' n : covers rules rules' = true → granted rules' n = true → granted rules n = true.
Proof.
  unfold covers. rewrite forallb_forall. intros H Hn. apply H, list_elem_of_In. by apply granted_expand.
Qed.

Lemma role_covers : covers managerRole allMarkers = true ∧ covers allMarkers managerRole = true.
Proof. by vm_compute. Qed.

(** The ClusterRole is what the markers add up to. *)
Lemma role_is_markers n : granted managerRole n = granted allMarkers n.
Proof.
  destruct role_covers as [H1 H2]. apply eq_true_iff_eq. split; by apply covers_granted.
Qed.

(** * What a call needs *)

(** A read goes through the manager's cache, which lists and watches. *)
Definition cached (group resource : string) : list Need := (λ v, (group, resource, v)) <$> readVerbs.
Definition doing (group resource verb : string) : list Need := [(group, resource, verb)].

(** The recorders are those of client-go's tools/events, which write the events
    of this group. *)
Definition recorderGroup : string := "events.k8s.io".
Definition recording : list Need := (λ v, (recorderGroup, "events", v)) <$> ["create"; "patch"].

(** [needs] of a call that is not an event, [emits] of one that is. *)
Class Privileged (call : Type) := { needs : call → list Need; emits : call → bool }.

Definition resourceOf (k : Kind) : string * string :=
  match k with
  | KConfigMap => (coreGroup, "configmaps")
  | KService => (coreGroup, "services")
  | KStatefulSet => ("apps", "statefulsets")
  | KDeployment => ("apps", "deployments")
  | KPDB => ("policy", "poddisruptionbudgets")
  | KServiceAccount => (coreGroup, "serviceaccounts")
  | KRole => ("rbac.authorization.k8s.io", "roles")
  | KRoleBinding => ("rbac.authorization.k8s.io", "rolebindings")
  end.

Definition on (k : Kind) (verb : string) : list Need := doing (resourceOf k).1 (resourceOf k).2 verb.

(** An owner reference that blocks deletion needs the owner's finalizers. *)
Definition owning (group resource : string) : list Need := doing group (resource ++! "/finalizers") "update".

(** The API server lets nobody write a Role that allows what the writer may not
    do itself. *)
Definition delegating (k : Kind) (key : NamespacedName) : (object k → object k) → list Need :=
  match k with
  | KRole => λ f, expand (rbRules (f (zeroObject KRole key)))
  | _ => λ _, []
  end.

Definition workloadNeeds {R} (group resource : string) (c : Workload.call R) : list Need :=
  match c with
  | GetResource _ => cached group resource
  | UpdateStatus _ => doing group (resource ++! "/status") "update"
  | CreateOrUpdate k key _ f =>
      cached (resourceOf k).1 (resourceOf k).2 ++ on k "create" ++ on k "update" ++ owning group resource ++
      delegating k key f
  | GetObject k _ => cached (resourceOf k).1 (resourceOf k).2
  | CreateObject k _ _ => on k "create"
  | UpdateObject k _ _ => on k "update"
  | DeleteObject k _ => on k "delete"
  | Workload.SetOwner _ => owning group resource
  | GetBrokerConditions _ => cached clusterGroup "brokers"
  | Workload.Eventf _ _ _ _ => recording
  end.
Definition workloadEmits {R} (c : Workload.call R) : bool :=
  match c with Workload.Eventf _ _ _ _ => true | _ => false end.

#[export] Instance broker_privileged : Privileged (Workload.call BrokerCtl.Broker) :=
  {| needs := workloadNeeds clusterGroup "brokers"; emits := workloadEmits |}.
#[export] Instance bookKeeper_privileged : Privileged (Workload.call BookieCtl.BookKeeper) :=
  {| needs := workloadNeeds clusterGroup "bookkeepers"; emits := workloadEmits |}.
#[export] Instance proxy_privileged : Privileged (Workload.call ProxyCtl.Proxy) :=
  {| needs := workloadNeeds clusterGroup "proxies"; emits := workloadEmits |}.
#[export] Instance autoRecovery_privileged : Privileged (Workload.call AutoRecoveryCtl.AutoRecovery) :=
  {| needs := workloadNeeds clusterGroup "autorecoveries"; emits := workloadEmits |}.
#[export] Instance functionsWorker_privileged : Privileged (Workload.call FunctionsCtl.FunctionsWorker) :=
  {| needs := workloadNeeds clusterGroup "functionsworkers"; emits := workloadEmits |}.
#[export] Instance oxia_privileged : Privileged (Workload.call OxiaCtl.OxiaCluster) :=
  {| needs := workloadNeeds metadataGroup "oxiaclusters"; emits := workloadEmits |}.

Definition tierResource (t : tierName) : string * string :=
  match t with
  | tierOxia => (metadataGroup, "oxiaclusters")
  | tierBookKeeper => (clusterGroup, "bookkeepers")
  | tierAutoRecovery => (clusterGroup, "autorecoveries")
  | tierBroker => (clusterGroup, "brokers")
  | tierProxy => (clusterGroup, "proxies")
  | tierFunctionsWorker => (clusterGroup, "functionsworkers")
  end.

Definition childNeeds (t : tierName) {Spec} (c : @Rollout.call Spec) : list Need :=
  let '(group, resource) := tierResource t in
  match c with
  | GetChild _ => cached group resource
  | Rollout.SetOwner _ => owning clusterGroup "pulsarclusters"
  | CreateChild _ => doing group resource "create"
  | UpdateChild _ => doing group resource "update"
  end.

Definition metadataNeeds (c : MetadataInit.call) : list Need :=
  match c with
  | MetadataInit.GetJob _ => cached "batch" "jobs"
  | MetadataInit.CreateJob _ _ => doing "batch" "jobs" "create"
  | MetadataInit.DeleteJob _ _ => doing "batch" "jobs" "delete"
  | MetadataInit.SetOwner _ => owning clusterGroup "pulsarclusters"
  | MetadataInit.CreateOrUpdateConfigMap _ _ =>
      cached coreGroup "configmaps" ++ on KConfigMap "create" ++ on KConfigMap "update" ++
      owning clusterGroup "pulsarclusters"
  | MetadataInit.DeleteConfigMap _ => on KConfigMap "delete"
  | MetadataInit.ListPods _ _ => cached coreGroup "pods"
  | MetadataInit.Now => []
  | MetadataInit.Eventf _ _ _ _ _ => recording
  end.

#[export] Instance umbrella_privileged : Privileged Umbrella.call :=
  {| needs c := match c with
       | Umbrella.GetCluster _ => cached clusterGroup "pulsarclusters"
       | Umbrella.UpdateClusterStatus _ => doing clusterGroup "pulsarclusters/status" "update"
       | Umbrella.OnChild t c => childNeeds t c
       | Umbrella.DeleteChild t _ => doing (tierResource t).1 (tierResource t).2 "delete"
       | Umbrella.OnMetadata c => metadataNeeds c
       | Umbrella.GetPVC _ => cached coreGroup "persistentvolumeclaims"
       | Umbrella.SetPVCOwner _ => owning clusterGroup "pulsarclusters"
       | Umbrella.CreatePVC _ _ => doing coreGroup "persistentvolumeclaims" "create"
       | Umbrella.Eventf _ _ _ _ _ => recording
       end;
     emits c := match c with
       | Umbrella.Eventf _ _ _ _ _ | Umbrella.OnMetadata (MetadataInit.Eventf _ _ _ _ _) => true
       | _ => false
       end |}.

(** The broker autoscaler with its deployed load sources. *)
Definition brokerAutoscalerNeeds (c : BrokerAutoscaler.call) : list Need :=
  match c with
  | BrokerAutoscaler.Get _ => cached clusterGroup "brokers"
  | BrokerAutoscaler.ListPods _ _ => cached coreGroup "pods"
  | BrokerAutoscaler.Now => []
  | BrokerAutoscaler.CPUPercentByBroker _ _ => []
  | BrokerAutoscaler.Update _ => doing clusterGroup "brokers" "update"
  | BrokerAutoscaler.StatusUpdate _ => doing clusterGroup "brokers/status" "update"
  | BrokerAutoscaler.Eventf _ _ _ _ _ => recording
  end.

#[export] Instance brokerAutoscaler_privileged : Privileged LoadReport.call :=
  {| needs c := match c with
       | LoadReport.Core c => brokerAutoscalerNeeds c
       | LoadReport.GetPodMetrics _ => doing "metrics.k8s.io" "pods" "get"
       | LoadReport.GetLoadReport _ => []
       end;
     emits c := match c with LoadReport.Core (BrokerAutoscaler.Eventf _ _ _ _ _) => true | _ => false end |}.

(** The bookie autoscaler with its HTTP client. *)
Definition bookKeeperAutoscalerNeeds (c : BookieAutoscaler.call) : list Need :=
  match c with
  | BookieAutoscaler.Get _ => cached clusterGroup "bookkeepers"
  | BookieAutoscaler.ListPods _ _ => cached coreGroup "pods"
  | BookieAutoscaler.Now | BookieAutoscaler.State _ | BookieAutoscaler.Info _ => []
  | BookieAutoscaler.Patch _ _ => doing clusterGroup "bookkeepers" "patch"
  | BookieAutoscaler.StatusPatch _ _ => doing clusterGroup "bookkeepers/status" "patch"
  | BookieAutoscaler.Eventf _ _ _ _ _ => recording
  end.

#[export] Instance bookKeeperAutoscaler_privileged : Privileged BookieAdmin.call :=
  {| needs c := match c with BookieAdmin.Core c => bookKeeperAutoscalerNeeds c | BookieAdmin.Do _ => [] end;
     emits c := match c with BookieAdmin.Core (BookieAutoscaler.Eventf _ _ _ _ _) => true | _ => false end |}.

(** What the decommission controller asks of the API server itself; its bookie
    administration goes through commands in the pods. *)
Definition decommissionNeeds (c : Decom.call) : list Need :=
  match c with
  | Decom.GetBK _ => cached clusterGroup "bookkeepers"
  | Decom.GetPod _ => cached coreGroup "pods"
  | Decom.GetNode _ => cached coreGroup "nodes"
  | Decom.GetPVC _ => cached coreGroup "persistentvolumeclaims"
  | Decom.DeletePVC _ => doing coreGroup "persistentvolumeclaims" "delete"
  | Decom.UpdateBK _ => doing clusterGroup "bookkeepers" "update"
  | Decom.StatusUpdate _ => doing clusterGroup "bookkeepers/status" "update"
  | Decom.PatchBK _ _ => doing clusterGroup "bookkeepers" "patch"
  | Decom.Now => []
  | Decom.Eventf _ _ _ _ => recording
  | _ => doing coreGroup "pods/exec" "create"
  end.

#[export] Instance decommission_privileged : Privileged PodExec.call :=
  {| needs c := match c with
       | PodExec.Core c => decommissionNeeds c
       | PodExec.Stream _ _ _ _ => doing coreGroup "pods/exec" "create"
       end;
     emits c := match c with PodExec.Core (Decom.Eventf _ _ _ _) => true | _ => false end |}.

#[export] Instance rack_privileged : Privileged RackCtl.call :=
  {| needs c := match c with
       | RackCtl.GetBookKeeper _ => cached clusterGroup "bookkeepers"
       | RackCtl.ListPods _ _ => cached coreGroup "pods"
       | RackCtl.GetNodeLabels _ => cached coreGroup "nodes"
       | RackCtl.SetRack _ _ | RackCtl.Exec _ _ => doing coreGroup "pods/exec" "create"
       | RackCtl.PatchStatus _ => doing clusterGroup "bookkeepers/status" "patch"
       | RackCtl.Eventf _ _ _ _ => recording
       end;
     emits c := match c with RackCtl.Eventf _ _ _ _ => true | _ => false end |}.

#[export] Instance backup_privileged : Privileged BackupCtl.call :=
  {| needs c := match c with
       | BackupCtl.GetBackup _ => cached backupGroup "backups"
       | BackupCtl.GetCluster _ => cached clusterGroup "pulsarclusters"
       | BackupCtl.GetJob _ => cached "batch" "jobs"
       | BackupCtl.SetOwner _ => owning backupGroup "backups"
       | BackupCtl.CreateJob _ => doing "batch" "jobs" "create"
       | BackupCtl.ListPods _ _ => cached coreGroup "pods"
       | BackupCtl.StatusPatch _ _ => doing backupGroup "backups/status" "patch"
       | BackupCtl.Now => []
       | BackupCtl.Eventf _ _ _ _ => recording
       end;
     emits c := match c with BackupCtl.Eventf _ _ _ _ => true | _ => false end |}.

#[export] Instance restore_privileged : Privileged RestoreCtl.call :=
  {| needs c := match c with
       | RestoreCtl.GetRestore _ => cached backupGroup "restores"
       | RestoreCtl.GetCluster _ => cached clusterGroup "pulsarclusters"
       | RestoreCtl.GetSecret _ => cached coreGroup "secrets"
       | RestoreCtl.GetJob _ => cached "batch" "jobs"
       | RestoreCtl.SetOwner _ => owning backupGroup "restores"
       | RestoreCtl.CreateJob _ => doing "batch" "jobs" "create"
       | RestoreCtl.ListPods _ _ => cached coreGroup "pods"
       | RestoreCtl.StatusPatch _ _ => doing backupGroup "restores/status" "patch"
       | RestoreCtl.Oxia _ _ | RestoreCtl.NewStore _ | RestoreCtl.Download _ _ | RestoreCtl.Now => []
       | RestoreCtl.Eventf _ _ _ _ => recording
       end;
     emits c := match c with RestoreCtl.Eventf _ _ _ _ => true | _ => false end |}.

#[export] Instance backupSchedule_privileged : Privileged ScheduleCtl.call :=
  {| needs c := match c with
       | ScheduleCtl.GetSchedule _ => cached backupGroup "backupschedules"
       | ScheduleCtl.ListBackups _ _ => cached backupGroup "backups"
       | ScheduleCtl.DeleteBackup _ => doing backupGroup "backups" "delete"
       | ScheduleCtl.SetOwner _ => owning backupGroup "backupschedules"
       | ScheduleCtl.CreateBackup _ => doing backupGroup "backups" "create"
       | ScheduleCtl.StatusPatch _ _ => doing backupGroup "backupschedules/status" "patch"
       | ScheduleCtl.Now => []
       | ScheduleCtl.Eventf _ _ _ _ => recording
       end;
     emits c := match c with ScheduleCtl.Eventf _ _ _ _ => true | _ => false end |}.

(** * Every call of a run *)

Section Licensed.
Context {call : Type} {ans : call → Type}.

(** Every call of every initial part of a run satisfies [C]. *)
Definition licensed {A} (C : call → Prop) (p : prog ans A) : Prop :=
  ∀ t, part p t → Forall (λ e, C (ev_call e)) t.

Lemma licensed_all {A} C (p : prog ans A) : (∀ c, C c) → licensed C p.
Proof. intros H t _. apply Forall_forall. intros e _. apply H. Qed.

Lemma licensed_wp {A} C (p : prog ans A) : wp (λ _ c, C c) (λ _ _, True) p (λ _ _, True) [] → licensed C p.
Proof.
  intros H t Hp. pose proof (wp_part _ _ _ _ _ _ H Hp (relies_top _ _)) as G.
  apply Forall_forall. intros e (t1 & t2 & ->)%list_elem_of_split. by eapply G.
Qed.

(** A call that is no event is granted in full. *)
Definition permits `{!Privileged call} (rules : list PolicyRule) (c : call) : Prop :=
  emits c = false → forallb (granted rules) (needs c) = true.

Definition permitted `{!Privileged call} {A} (rules : list PolicyRule) (p : prog ans A) : Prop :=
  licensed (permits rules) p.

End Licensed.

(** Reconcilers whose every possible call is licensed. *)
Ltac each_call :=
  apply licensed_all; let c := fresh in let He := fresh in intros c He; destruct c;
  repeat first
    [done|reflexivity
    |match goal with
     | |- context [needs (_ ?c)] => is_var c; destruct c
     | |- context [needs (_ ?t _)] => is_var t; destruct t
     end].

(** Reconcilers of the shared workload calls: step through the handler and
    check the calls it does make. *)
Ltac licensed_step :=
  lazymatch goal with
  | |- _ ∧ _ => split
  | |- ∀ _, True → _ => intros ? _
  | |- wp _ _ _ _ _ => wstep
  | |- match ?x with _ => _ end => destruct x
  | |- True => exact I
  | |- _ => solve [reflexivity|intros _; reflexivity]
  end.

Ltac open_proxy :=
  unfold ProxyCtl.Reconcile, ProxyCtl.reportTLSMisconfigured, ProxyCtl.reconcileConfigMap,
    ProxyCtl.reconcileHeadlessService, ProxyCtl.reconcileStatefulSet, ProxyCtl.reconcilePDB.
Ltac open_autoRecovery :=
  unfold AutoRecoveryCtl.Reconcile, AutoRecoveryCtl.reconcileDedicated,
    AutoRecoveryCtl.reconcileEmbedded, AutoRecoveryCtl.reconcileConfigMap,
    AutoRecoveryCtl.reconcileDeployment, AutoRecoveryCtl.reconcilePDB.
Ltac open_functionsWorker :=
  unfold FunctionsCtl.Reconcile, FunctionsCtl.reconcileStandalone,
    FunctionsCtl.reconcileColocated, FunctionsCtl.colocatedReadyCondition, FunctionsCtl.reconcileConfigMap,
    FunctionsCtl.reconcileHeadlessService, FunctionsCtl.reconcileStatefulSet, FunctionsCtl.reconcilePDB.
Ltac open_broker :=
  unfold BrokerCtl.Reconcile, BrokerCtl.reconcileConfigMap,
    BrokerCtl.reconcileFunctionsWorkerConfigMap, BrokerCtl.reconcileHeadlessService,
    BrokerCtl.reconcileStatefulSet, BrokerCtl.reconcilePDB, BrokerCtl.updateStatus.
Ltac open_bookKeeper :=
  unfold BookieCtl.Reconcile, BookieCtl.reconcileConfigMap,
    BookieCtl.reconcileHeadlessService, BookieCtl.reconcilePodDisruptionBudget,
    BookieCtl.reconcileStatefulSet, BookieCtl.updateStatus.
Ltac open_oxia :=
  unfold OxiaCtl.Reconcile, OxiaCtl.reconcileServer, OxiaCtl.reconcileServerHeadlessService,
    OxiaCtl.reconcileServerPublicService, OxiaCtl.reconcileServerStatefulSet, OxiaCtl.reconcileServerPDB,
    OxiaCtl.reconcileCoordinator, OxiaCtl.reconcileCoordinatorServiceAccount, OxiaCtl.reconcileCoordinatorRole,
    OxiaCtl.reconcileCoordinatorRoleBinding, OxiaCtl.reconcileCoordinatorStatusConfigMap,
    OxiaCtl.reconcileCoordinatorConfigMap, OxiaCtl.reconcileCoordinatorService,
    OxiaCtl.reconcileCoordinatorDeployment, OxiaCtl.reconcileCoordinatorPDB, OxiaCtl.reconcileStatus,
    OxiaCtl.getOrZero.

(** Whichever of the six handlers it is. *)
Ltac licensed_workload :=
  apply licensed_wp;
  first [progress open_proxy|progress open_autoRecovery|progress open_functionsWorker|progress open_broker
        |progress open_bookKeeper|progress open_oxia];
  repeat licensed_step.

(** * The permissions suffice *)

(** Events are the exception: the role knows them in the core group only. *)
Lemma events_core_only group v : granted managerRole (group, "events", v) = true → group = coreGroup.
Proof.
  assert (Forall (λ n : Need, n.1.2 = "events" → n.1.1 = coreGroup) (expand managerRole)) as H.
  { apply (bool_decide_unpack _). by vm_compute. }
  intros Hn%granted_expand. rewrite Forall_forall in H. by apply (H _ Hn).
Qed.

(** So the events the recorders write are refused. *)
Lemma recording_refused n : n ∈ recording → granted managerRole n = false.
Proof. intros [v [-> _]]%list_elem_of_fmap. apply not_true_iff_false. by intros ?%events_core_only. Qed.

Section Sufficient.
Context `{AM : !ApiMeta} (sha256hex : string → string) (yamlMarshal : gmap string string → res string).

(** C19: The operator is allowed to do what it does.  In every run of each of
    the fourteen reconcilers, interrupted or not and whatever is answered,
    every call that is not an event asks only for verbs on resources that the
    permission markers of that very controller grant (a Role it writes for the
    Oxia coordinator allows nothing the controller may not do itself), and the
    ClusterRole the manager runs under grants exactly what the markers add up
    to.  Events are granted in the core group alone. *)
Theorem permissions_suffice `{QP : !LoadReport.QuantityParser, AJ : !PodExec.AdminJSON, AD : !BookieAdmin.AdminDecoders, SF : !ScheduleCtl.SortFuncs,
    RM : !ScheduleCtl.RangeMap} marshal oxiaMarshal image parseExport parseImport ParseStandard recorder injected wired req :
  permitted pulsarClusterMarkers (Umbrella.Reconcile marshal sha256hex req) ∧
  permitted oxiaClusterMarkers (OxiaCtl.Reconcile sha256hex oxiaMarshal req) ∧
  permitted bookKeeperMarkers (BookieCtl.Reconcile sha256hex req) ∧
  permitted autoRecoveryMarkers (AutoRecoveryCtl.Reconcile sha256hex req) ∧
  permitted brokerMarkers (BrokerCtl.Reconcile sha256hex yamlMarshal req) ∧
  permitted proxyMarkers (ProxyCtl.Reconcile sha256hex recorder req) ∧
  permitted functionsWorkerMarkers (FunctionsCtl.Reconcile sha256hex yamlMarshal req) ∧
  permitted brokerAutoscalerMarkers (LoadReport.deployedReconcile recorder req) ∧
  permitted bookKeeperAutoscalerMarkers (BookieAdmin.deployedReconcile req) ∧
  permitted decommissionMarkers (PodExec.deployedReconcile recorder req) ∧
  permitted rackMarkers (RackCtl.Reconcile injected wired req) ∧
  permitted backupMarkers (BackupCtl.Reconcile image parseExport req) ∧
  permitted restoreMarkers (RestoreCtl.Reconcile image parseImport req) ∧
  permitted backupScheduleMarkers (ScheduleCtl.Reconcile ParseStandard req) ∧
  (∀ n, granted managerRole n = granted allMarkers n) ∧
  (∀ group v, granted managerRole (group, "events", v) = true → group = coreGroup).
Proof.
  split_and!; [each_call|licensed_workload|licensed_workload|licensed_workload|licensed_workload
    |licensed_workload|licensed_workload|each_call ..|apply role_is_markers|apply events_core_only].
Qed.

End Sufficient.
End Rbac.
