(* ===== verification/Manager.v ===== *)
(** The manager process (cmd/main.go): its flags, the options of its servers,
    the fourteen controllers it builds and what each of them watches (the
    SetupWithManager methods), and the order in which all of that happens. *)

From S2P Require Import Prelude Effects Kube GoFlag BrokerScale BookKeeper BookieScale BackupTypes BackupCtl Restore ScheduleCtl BackupCLI Config Rollout Workload ClusterTypes MetadataInit Umbrella FunctionsConf BrokerCtl BookieCtl ProxyCtl AutoRecoveryCtl FunctionsCtl OxiaCtl WorkloadProps Rbac.
Import Workload.
Open Scope Z_scope.
Open Scope go_scope.

Module Manager.

(** * What a controller watches *)

(** The kinds of the API the controllers register for. *)
Inductive Object :=
| PulsarCluster | Broker | BookKeeper | Proxy | AutoRecovery | FunctionsWorker
| OxiaCluster | Backup | Restore | BackupSchedule
| Job | Child (k : Kind).

#[export] Instance Object_eq : EqDecision Object.
Proof. solve_decision. Defined.

Inductive Handler := EnqueueRequestForOwner (o : Object) | EnqueueRequestsFromBroker.

(** A built controller: [For], whether only changes of the generation count
    for it, [Owns], [Watches] and [Named]. *)
Record Setup := mkSetup {
  suFor : Object;
  suGenerationChanged : bool;
  suOwns : list Object;
  suWatches : list (Object * Handler);
  suNamed : string
}.

(** ** Reconcilers, with the fields main sets besides the client and scheme *)

Section Reconcilers.
Context {RESTConfig Clientset : Type}.

Inductive Reconciler :=
| PulsarClusterReconciler (recorder : string)
| BrokerReconciler
| BrokerAutoscalerReconciler (recorder : string)
| BookKeeperReconciler
| BookKeeperAutoscalerReconciler (recorder : string)
| BookKeeperDecommissionReconciler (recorder : string) (restConfig : RESTConfig) (clientset : Clientset)
| BookKeeperRackReconciler (restConfig : RESTConfig) (clientset : Clientset) (recorder : string)
| ProxyReconciler (recorder : string)
| AutoRecoveryReconciler
| FunctionsWorkerReconciler
| OxiaClusterReconciler
| BackupReconciler (recorder operatorImage : string)
| RestoreReconciler (recorder operatorImage : string)
| BackupScheduleReconciler (recorder : string).

End Reconcilers.
Arguments Reconciler : clear implicits.

Definition pulsarClusterSetup : Setup :=
  mkSetup PulsarCluster false
    [Broker; BookKeeper; Proxy; AutoRecovery; FunctionsWorker; OxiaCluster; Job] [] "cluster-pulsarcluster".

Definition brokerSetup : Setup :=
  mkSetup Broker false [Child KStatefulSet; Child KService; Child KConfigMap; Child KPDB] [] "cluster-broker".

Definition brokerAutoscalerSetup : Setup := mkSetup Broker false [] [] "cluster-broker-autoscaler".

Definition bookKeeperSetup : Setup :=
  mkSetup BookKeeper false [Child KStatefulSet; Child KService; Child KConfigMap; Child KPDB] []
    "cluster-bookkeeper".

Definition bookKeeperAutoscalerSetup : Setup := mkSetup BookKeeper false [] [] "cluster-bookkeeper-autoscaler".

Definition bookKeeperDecommissionSetup : Setup :=
  mkSetup BookKeeper false [] [(Child KStatefulSet, EnqueueRequestForOwner BookKeeper)]
    "cluster-bookkeeper-decommission".

Definition bookKeeperRackSetup : Setup := mkSetup BookKeeper false [] [] "cluster-bookkeeper-rack-sync".

Definition proxySetup : Setup :=
  mkSetup Proxy false [Child KStatefulSet; Child KService; Child KConfigMap; Child KPDB] [] "cluster-proxy".

Definition autoRecoverySetup : Setup :=
  mkSetup AutoRecovery false [Child KDeployment; Child KConfigMap; Child KPDB] [] "cluster-autorecovery".

Definition functionsWorkerSetup : Setup :=
  mkSetup FunctionsWorker false [Child KStatefulSet; Child KService; Child KConfigMap; Child KPDB]
    [(Broker, EnqueueRequestsFromBroker)] "cluster-functionsworker".

Definition oxiaClusterSetup : Setup :=
  mkSetup OxiaCluster false
    [Child KDeployment; Child KStatefulSet; Child KService; Child KConfigMap; Child KServiceAccount;
     Child KRole; Child KRoleBinding; Child KPDB] [] "metadata-oxiacluster".

Definition backupSetup : Setup := mkSetup Backup false [Job] [] "backup-backup".
Definition restoreSetup : Setup := mkSetup Restore false [Job] [] "backup-restore".
Definition backupScheduleSetup : Setup := mkSetup BackupSchedule true [Backup] [] "backup-backupschedule".

Definition SetupWithManager {RC CS} (r : Reconciler RC CS) : Setup :=
  match r with
  | PulsarClusterReconciler _ => pulsarClusterSetup
  | BrokerReconciler => brokerSetup
  | BrokerAutoscalerReconciler _ => brokerAutoscalerSetup
  | BookKeeperReconciler => bookKeeperSetup
  | BookKeeperAutoscalerReconciler _ => bookKeeperAutoscalerSetup
  | BookKeeperDecommissionReconciler _ _ _ => bookKeeperDecommissionSetup
  | BookKeeperRackReconciler _ _ _ => bookKeeperRackSetup
  | ProxyReconciler _ => proxySetup
  | AutoRecoveryReconciler => autoRecoverySetup
  | FunctionsWorkerReconciler => functionsWorkerSetup
  | OxiaClusterReconciler => oxiaClusterSetup
  | BackupReconciler _ _ => backupSetup
  | RestoreReconciler _ _ => restoreSetup
  | BackupScheduleReconciler _ => backupScheduleSetup
  end.

(** * Options of the servers *)

(** The field of crypto/tls's Config that main touches. *)
Record TLSConfig := mkTLSConfig { NextProtos : list string }.

Record WebhookOptions := mkWebhook {
  whTLSOpts : list (TLSConfig → TLSConfig);
  whCertDir : string;
  whCertName : string;
  whKeyName : string
}.

Inductive FilterProvider := WithAuthenticationAndAuthorization.

Record MetricsOptions := mkMetrics {
  meBindAddress : string;
  meSecureServing : bool;
  meTLSOpts : list (TLSConfig → TLSConfig);
  meFilterProvider : option FilterProvider;
  meCertDir : string;
  meCertName : string;
  meKeyName : string
}.

Record ManagerOptions := mkManager {
  moMetrics : MetricsOptions;
  moWebhook : WebhookOptions;
  moHealthProbeBindAddress : string;
  moLeaderElection : bool;
  moLeaderElectionID : string
}.

(** ** Flags *)

Definition flags : list Flag := [
  mkFlag "metrics-bind-address" "0" false;
  mkFlag "health-probe-bind-address" ":8081" false;
  mkFlag "leader-elect" "false" true;
  mkFlag "metrics-secure" "true" true;
  mkFlag "webhook-cert-path" "" false;
  mkFlag "webhook-cert-name" "tls.crt" false;
  mkFlag "webhook-cert-key" "tls.key" false;
  mkFlag "metrics-cert-path" "" false;
  mkFlag "metrics-cert-name" "tls.crt" false;
  mkFlag "metrics-cert-key" "tls.key" false;
  mkFlag "enable-http2" "false" true].

Definition isSet (fs : list Flag) (vals : values) (name : string) : bool :=
  String.eqb (Get fs vals name) "true".

Definition disableHTTP2 (_ : TLSConfig) : TLSConfig := mkTLSConfig ["http/1.1"].

Definition tlsOpts (enableHTTP2 : bool) : list (TLSConfig → TLSConfig) :=
  if negb enableHTTP2 then [disableHTTP2] else [].

(** A server's TLS configuration: its options applied in order. *)
Definition applyTLSOpts (opts : list (TLSConfig → TLSConfig)) (c : TLSConfig) : TLSConfig :=
  fold_left (λ c f, f c) opts c.

Definition webhookServerOptions (fs : list Flag) (vals : values) : WebhookOptions :=
  let opts := tlsOpts (isSet fs vals "enable-http2") in
  let webhookCertPath := Get fs vals "webhook-cert-path" in
  if Nat.ltb 0 (String.length webhookCertPath) then
    mkWebhook opts webhookCertPath (Get fs vals "webhook-cert-name") (Get fs vals "webhook-cert-key")
  else mkWebhook opts "" "" "".

Definition metricsServerOptions (fs : list Flag) (vals : values) : MetricsOptions :=
  let secureMetrics := isSet fs vals "metrics-secure" in
  let opts := tlsOpts (isSet fs vals "enable-http2") in
  let metricsCertPath := Get fs vals "metrics-cert-path" in
  let provider := if secureMetrics then Some WithAuthenticationAndAuthorization else None in
  if Nat.ltb 0 (String.length metricsCertPath) then
    mkMetrics (Get fs vals "metrics-bind-address") secureMetrics opts provider metricsCertPath
      (Get fs vals "metrics-cert-name") (Get fs vals "metrics-cert-key")
  else mkMetrics (Get fs vals "metrics-bind-address") secureMetrics opts provider "" "" "".

Definition managerOptions (fs : list Flag) (vals : values) : ManagerOptions :=
  mkManager (metricsServerOptions fs vals) (webhookServerOptions fs vals)
    (Get fs vals "health-probe-bind-address") (isSet fs vals "leader-elect") "9d73b313.pulsaroperator.io".

(** * The process *)

Section Main.
Context {RESTConfig Clientset : Type}.

Inductive call :=
| Subcommand (c : BackupCLI.call)
| LogInfo (msg : string)
| LogError (err : goerr) (msg : string)
| GetConfig
| NewManager (cfg : RESTConfig) (opts : ManagerOptions)
| NewClientset (cfg : RESTConfig)
| Complete (s : Setup) (r : Reconciler RESTConfig Clientset)
| AddHealthzCheck (name : string)
| AddReadyzCheck (name : string)
| Start.

Definition ans (c : call) : Type :=
  match c with
  | Subcommand c => BackupCLI.ans c
  | LogInfo _ | LogError _ _ => unit
  | GetConfig => res RESTConfig
  | NewClientset _ => res Clientset
  | _ => res unit
  end.

(** Flags other packages register: zap's, and client config's. *)
Context `{MJ : !BackupCLI.ManifestJSON} (digest : list Manifest.ManifestRecord → string)
  (libraryFlags : list Flag) (OPERATOR_IMAGE : string).

Abbreviation M A := (prog ans A).

(** Log and exit with 1 on an error. *)
Definition orExit {A} (msg : string) (p : M (res A)) (k : A → M Z) : M Z :=
  (let! r := p in
   match r with
   | Err e => let! _ := perform ans (LogError e msg) in Ret 1
   | Ok a => k a
   end)%prog.

(** [SetupWithManager] of a reconciler. *)
Definition create (r : Reconciler RESTConfig Clientset) (k : M Z) : M Z :=
  orExit "Failed to create controller" (perform ans (Complete (SetupWithManager r) r)) (λ _, k).

Definition note (cond : bool) (msg : string) (k : M Z) : M Z :=
  if cond then (let! _ := perform ans (LogInfo msg) in k)%prog else k.

Definition startManager : M Z :=
  orExit "Failed to set up health check" (perform ans (AddHealthzCheck "healthz")) (λ _,
  orExit "Failed to set up ready check" (perform ans (AddReadyzCheck "readyz")) (λ _,
  note true "Starting manager" (
  orExit "Failed to run manager" (perform ans Start) (λ _, Ret 0)))).

Definition controllers (restConfig : RESTConfig) : M Z :=
  create (PulsarClusterReconciler "cluster-pulsarcluster") (
  create BrokerReconciler (
  create (BrokerAutoscalerReconciler "broker-autoscaler") (
  create BookKeeperReconciler (
  create (BookKeeperAutoscalerReconciler "cluster-bookkeeper-autoscaler") (
  orExit "Failed to create Kubernetes clientset" (perform ans (NewClientset restConfig)) (λ clientset,
  create (BookKeeperDecommissionReconciler "bookkeeper-decommission-controller" restConfig clientset) (
  create (BookKeeperRackReconciler restConfig clientset "cluster-bookkeeper-rack-sync") (
  create (ProxyReconciler "cluster-proxy") (
  create AutoRecoveryReconciler (
  create FunctionsWorkerReconciler (
  create OxiaClusterReconciler (
  create (BackupReconciler "backup-backup" OPERATOR_IMAGE) (
  create (RestoreReconciler "backup-restore" OPERATOR_IMAGE) (
  create (BackupScheduleReconciler "backup-backupschedule")
  startManager)))))))))))))).

(** [flag.Parse] exits by itself: with 0 when help was asked for, with 2 on
    any other error. *)
Definition manager (args : list string) : M Z :=
  let fs := flags ++ libraryFlags in
  match Parse fs args ∅ with
  | Err e => Ret (if isErrHelp e then 0 else 2)
  | Ok (vals, _) =>
      note (Nat.ltb 0 (String.length (Get fs vals "webhook-cert-path")))
        "Initializing webhook certificate watcher using provided certificates" (
      note (Nat.ltb 0 (String.length (Get fs vals "metrics-cert-path")))
        "Initializing metrics certificate watcher using provided certificates" (
      orExit "unable to get kubeconfig" (perform ans GetConfig) (λ restConfig,
      orExit "Failed to start manager" (perform ans (NewManager restConfig (managerOptions fs vals))) (λ _,
      controllers restConfig))))
  end.

Definition subcommandName (name : string) : bool :=
  String.eqb name BackupCtl.ExportCommandName || String.eqb name RestoreCtl.ImportCommandName.

(** [args] without the name of the binary. *)
Definition main (args : list string) (now : Z) : M Z :=
  match args with
  | [] => manager []
  | name :: rest =>
      (let! handled := hoist (λ c, perform ans (Subcommand c))
                         (BackupCLI.runBackupSubcommand digest name rest now) in
       match handled with
       | Some exitCode => Ret exitCode
       | None => manager args
       end)%prog
  end.


(** * Order and exit codes *)

(** The controllers of the manager, in the order they are built. *)
Definition reconcilers (cfg : RESTConfig) (cs : Clientset) : list (Reconciler RESTConfig Clientset) :=
  [PulsarClusterReconciler "cluster-pulsarcluster"; BrokerReconciler;
   BrokerAutoscalerReconciler "broker-autoscaler"; BookKeeperReconciler;
   BookKeeperAutoscalerReconciler "cluster-bookkeeper-autoscaler";
   BookKeeperDecommissionReconciler "bookkeeper-decommission-controller" cfg cs;
   BookKeeperRackReconciler cfg cs "cluster-bookkeeper-rack-sync"; ProxyReconciler "cluster-proxy";
   AutoRecoveryReconciler; FunctionsWorkerReconciler; OxiaClusterReconciler;
   BackupReconciler "backup-backup" OPERATOR_IMAGE; RestoreReconciler "backup-restore" OPERATOR_IMAGE;
   BackupScheduleReconciler "backup-backupschedule"].

(** The controllers that were built so far. *)
Definition built (h : list (event ans)) : list (Setup * Reconciler RESTConfig Clientset) :=
  omap (λ e, match e with
             | Ev c x => match c return ans c → _ with
                         | Complete s r => λ x, match x with Ok _ => Some (s, r) | Err _ => None end
                         | _ => λ _, None
                         end x
             end) h.

Lemma built_app h h' : built (h ++ h') = built h ++ built h'.
Proof. apply omap_app. Qed.

(** What must have happened when the manager starts. *)
Definition startGuard (args : list string) (h : list (event ans)) (c : call) : Prop :=
  match c with
  | Start => ∃ vals rest cfg cs,
      Parse (flags ++ libraryFlags) args ∅ = Ok (vals, rest) ∧
      Ev (NewManager cfg (managerOptions (flags ++ libraryFlags) vals)) (Ok tt) ∈ h ∧
      built h = map (λ r, (SetupWithManager r, r)) (reconcilers cfg cs) ∧
      Ev (NewClientset cfg) (Ok cs) ∈ h ∧
      Ev (AddHealthzCheck "healthz") (Ok tt) ∈ h ∧ Ev (AddReadyzCheck "readyz") (Ok tt) ∈ h
  | _ => True
  end.

(** What the exit code of the manager says of the run. *)
Definition managerExit (args : list string) (code : Z) (h : list (event ans)) : Prop :=
  match Parse (flags ++ libraryFlags) args ∅ with
  | Err e => code = (if isErrHelp e then 0 else 2)
  | Ok _ =>
      (code = 0 ∧ last h = Some (Ev Start (Ok tt))) ∨
      (code = 1 ∧ ∃ e msg, last h = Some (Ev (LogError e msg) tt))
  end.

(** An event at a known place of the history. *)
Ltac here :=
  apply elem_of_app; first [right; apply list_elem_of_singleton; reflexivity|left; here|left; assumption].

Lemma controllers_wp args vals rest cfg h :
  Parse (flags ++ libraryFlags) args ∅ = Ok (vals, rest) →
  Ev (NewManager cfg (managerOptions (flags ++ libraryFlags) vals)) (Ok tt) ∈ h → built h = [] →
  wp (startGuard args) (λ _ _, True) (controllers cfg) (managerExit args) h.
Proof.
  intros Ep Hm Hb. unfold managerExit. rewrite Ep. unfold controllers, create, startManager, orExit, note.
  repeat wstep.
  all: repeat match goal with u : unit |- _ => destruct u end.
  all: lazymatch goal with
    | |- startGuard _ _ _ => idtac
    | |- _ => rewrite last_snoc; eauto 6
    end.
  match goal with |- context [Ev (NewClientset cfg) (Ok ?cs)] => exists vals, rest, cfg, cs end.
  split; [exact Ep|]. split; [here|]. split; [by rewrite !built_app, Hb|]. split_and!; here.
Qed.

Lemma manager_wp args h :
  built h = [] → wp (startGuard args) (λ _ _, True) (manager args) (managerExit args) h.
Proof.
  intros Hb. unfold manager. destruct (Parse _ args ∅) as [[vals rest]|e] eqn:Ep.
  2: { cbn. unfold managerExit. by rewrite Ep. }
  unfold orExit, note. repeat first [wstep|eapply controllers_wp; [exact Ep| |]].
  all: repeat match goal with u : unit |- _ => destruct u end.
  all: first [here|by rewrite !built_app, Hb|unfold managerExit; rewrite Ep, last_snoc; eauto 6].
Qed.

(** ** Subcommands *)

Definition ofSubcommand (c : call) : Prop := match c with Subcommand _ => True | _ => False end.

(** Every leaf satisfies [Q]. *)
Fixpoint returns {A} (Q : A → Prop) (p : prog BackupCLI.ans A) : Prop :=
  match p with Ret a => Q a | Vis c k => ∀ x, returns Q (k x) end.

Lemma returns_bind {A B} (Q : B → Prop) (p : prog BackupCLI.ans A) f :
  (∀ a, returns Q (f a)) → returns Q (bind p f).
Proof. intros H. induction p; simpl; auto. Qed.

Lemma runBackupSubcommand_returns name rest now :
  returns (λ r, if subcommandName name then r = Some 0 ∨ r = Some 1 else r = None)
    (BackupCLI.runBackupSubcommand digest name rest now).
Proof.
  unfold BackupCLI.runBackupSubcommand, subcommandName.
  repeat case_match; simplify_eq/=; try done; apply returns_bind; intros []; simpl; auto.
Qed.

Lemma subcommand_wp (G : list (event ans) → call → Prop) {A} (Q : A → Prop) (p : prog BackupCLI.ans A) h :
  (∀ h c, G h (Subcommand c)) → returns Q p →
  wp G (λ _ _, True) (hoist (λ c, perform ans (Subcommand c)) p)
    (λ a h', Q a ∧ ∃ l, h' = h ++ l ∧ Forall (λ e, ofSubcommand (ev_call e)) l) h.
Proof.
  intros HG. revert h. induction p as [a|c k IH]; intros h; simpl.
  { intros HQ. split; [done|]. exists []. by rewrite app_nil_r. }
  intros HQ. split; [apply HG|]. intros x _. eapply wp_mono; [|by apply IH].
  intros a h' _ (Ha & l & -> & Hl). split; [done|]. exists (Ev (Subcommand c) x :: l).
  rewrite <- (assoc_L (++)). split; [done|]. by constructor.
Qed.

(** What the exit code of the process says of the run. *)
Definition processExit (args : list string) (code : Z) (h : list (event ans)) : Prop :=
  if match args with name :: _ => subcommandName name | [] => false end then
    Forall (λ e, ofSubcommand (ev_call e)) h ∧ (code = 0 ∨ code = 1)
  else managerExit args code h.

Lemma built_subcommand l : Forall (λ e, ofSubcommand (ev_call e)) l → built l = [].
Proof. induction 1 as [|[[] ?]]; try done. Qed.

Lemma main_wp args now :
  wp (startGuard args) (λ _ _, True) (main args now) (processExit args) [].
Proof.
  destruct args as [|name rest]; [by apply manager_wp|]. cbn [main]. apply wp_bind.
  eapply wp_mono; [|apply subcommand_wp, runBackupSubcommand_returns; done].
  intros handled h _ [Hr (l & -> & Hl)]. unfold processExit. simpl.
  destruct (subcommandName name) eqn:En.
  - destruct Hr as [->| ->]; cbn; (split; [done|auto]).
  - subst handled. eapply wp_mono; [|by apply manager_wp, built_subcommand].
    intros code h' _ Hx. exact Hx.
Qed.

(** C20: The manager starts only when it is complete.  In every run of the
    process, interrupted or not, the manager is started only after it was
    created with the options the flags ask for, all fourteen controllers were
    built, in order, each with its own watches, and the health and readiness
    checks were added, every one of these without an error.  A run of a backup
    subcommand never touches the manager and exits with 0 or 1; otherwise the
    process exits with 0 only for a request for help or after the manager ended
    well, with 2 on bad flags, and with 1 on any other failure, which it logged
    last. *)
Theorem manager_starts args now t :
  part (main args now) t →
  guaranteed (startGuard args) [] t ∧ (∀ code, runs (main args now) t code → processExit args code t).
Proof.
  intros Hp. split.
  - exact (wp_part _ _ _ _ _ _ (main_wp args now) Hp (relies_top _ _)).
  - intros code Hr. exact (wp_runs _ _ _ _ _ _ _ (main_wp args now) Hr (relies_top _ _)).
Qed.

End Main.
Arguments call : clear implicits.

(** * The servers *)

(** Unless HTTP/2 was asked for, both servers offer HTTP/1.1 alone, and the
    metrics are served over TLS exactly if their clients are authenticated and
    authorized. *)
Theorem servers_hardened fs vals :
  let opts := managerOptions fs vals in
  (isSet fs vals "enable-http2" = false → ∀ c,
     NextProtos (applyTLSOpts (meTLSOpts (moMetrics opts)) c) = ["http/1.1"] ∧
     NextProtos (applyTLSOpts (whTLSOpts (moWebhook opts)) c) = ["http/1.1"]) ∧
  meSecureServing (moMetrics opts) = isSet fs vals "metrics-secure" ∧
  (meSecureServing (moMetrics opts) = true ↔
   meFilterProvider (moMetrics opts) = Some WithAuthenticationAndAuthorization).
Proof.
  unfold managerOptions, metricsServerOptions, webhookServerOptions, tlsOpts. cbn.
  split_and!; [intros -> c|..]; repeat case_match; simpl; naive_solver.
Qed.

(** Without flags: no metrics endpoint, no leader election, and the strict
    choice everywhere else. *)
Lemma default_options libraryFlags :
  let opts := managerOptions (flags ++ libraryFlags) ∅ in
  meBindAddress (moMetrics opts) = "0" ∧ meSecureServing (moMetrics opts) = true ∧
  moLeaderElection opts = false ∧ moHealthProbeBindAddress opts = ":8081" ∧
  isSet (flags ++ libraryFlags) ∅ "enable-http2" = false.
Proof. done. Qed.

(** * What comes back *)

(** The kinds of objects a call reads, writes or deletes are watched. *)
Class Watching (C : Type) := { watchedBy : Setup → C → bool }.

Definition owns (s : Setup) (o : Object) : bool := bool_decide (o ∈ suOwns s).

#[export] Instance workload_watching R : Watching (Workload.call R) :=
  {| watchedBy s c := match c with
       | CreateOrUpdate k _ _ _ | GetObject k _ | CreateObject k _ _ | UpdateObject k _ _
       | DeleteObject k _ => owns s (Child k)
       | GetBrokerConditions _ =>
           existsb (λ w, match w with (Broker, EnqueueRequestsFromBroker) => true | _ => false end) (suWatches s)
       | _ => true
       end |}.

Definition tierObject (t : Rollout.tierName) : Object :=
  match t with
  | Rollout.tierOxia => OxiaCluster
  | Rollout.tierBookKeeper => BookKeeper
  | Rollout.tierAutoRecovery => AutoRecovery
  | Rollout.tierBroker => Broker
  | Rollout.tierProxy => Proxy
  | Rollout.tierFunctionsWorker => FunctionsWorker
  end.

(** The ConfigMap of the metadata Job and the volume claim of the packages are
    the two objects a controller writes and does not watch. *)
#[export] Instance umbrella_watching : Watching Umbrella.call :=
  {| watchedBy s c := match c with
       | Umbrella.OnChild t _ | Umbrella.DeleteChild t _ => owns s (tierObject t)
       | Umbrella.OnMetadata (MetadataInit.GetJob _ | MetadataInit.CreateJob _ _ | MetadataInit.DeleteJob _ _) =>
           owns s Job
       | _ => true
       end |}.

#[export] Instance backup_watching : Watching BackupCtl.call :=
  {| watchedBy s c := match c with BackupCtl.GetJob _ | BackupCtl.CreateJob _ => owns s Job | _ => true end |}.
#[export] Instance restore_watching : Watching RestoreCtl.call :=
  {| watchedBy s c := match c with RestoreCtl.GetJob _ | RestoreCtl.CreateJob _ => owns s Job | _ => true end |}.
#[export] Instance schedule_watching : Watching ScheduleCtl.call :=
  {| watchedBy s c := match c with
       | ScheduleCtl.ListBackups _ _ | ScheduleCtl.CreateBackup _ | ScheduleCtl.DeleteBackup _ => owns s Backup
       | _ => true
       end |}.

Definition watched {C : Type} `{!Watching C} {ans : C → Type} {A} (s : Setup) (p : prog ans A) : Prop :=
  Rbac.licensed (λ c, watchedBy s c = true) p.

Ltac each_watched :=
  apply Rbac.licensed_all; let c := fresh in intros c; destruct c; repeat first
    [reflexivity
    |match goal with
     | |- context [watchedBy _ (_ ?c)] => is_var c; destruct c
     | |- context [watchedBy _ (_ ?t _)] => is_var t; destruct t
     end].

Section Watches.
Context `{AM : !ApiMeta} (sha256hex : string → string) (yamlMarshal : gmap string string → res string).

(** What a controller handles, it watches: in every run, interrupted or not,
    the kinds of the objects a reconciler reads, writes or deletes on behalf of
    its resource are kinds its controller was built to watch, so that a change
    of one of them brings the reconciler back; and no two controllers have the
    same name. *)
Theorem handled_is_watched `{SF : !ScheduleCtl.SortFuncs, RM : !ScheduleCtl.RangeMap} marshal oxiaMarshal image
    parseExport parseImport ParseStandard recorder req {RC CS} (cfg : RC) (cs : CS) :
  watched pulsarClusterSetup (Umbrella.Reconcile marshal sha256hex req) ∧
  watched oxiaClusterSetup (OxiaCtl.Reconcile sha256hex oxiaMarshal req) ∧
  watched bookKeeperSetup (BookieCtl.Reconcile sha256hex req) ∧
  watched autoRecoverySetup (AutoRecoveryCtl.Reconcile sha256hex req) ∧
  watched brokerSetup (BrokerCtl.Reconcile sha256hex yamlMarshal req) ∧
  watched proxySetup (ProxyCtl.Reconcile sha256hex recorder req) ∧
  watched functionsWorkerSetup (FunctionsCtl.Reconcile sha256hex yamlMarshal req) ∧
  watched backupSetup (BackupCtl.Reconcile image parseExport req) ∧
  watched restoreSetup (RestoreCtl.Reconcile image parseImport req) ∧
  watched backupScheduleSetup (ScheduleCtl.Reconcile ParseStandard req) ∧
  NoDup (map (λ r, suNamed (SetupWithManager r)) (reconcilers image cfg cs)).
Proof.
  split_and!; [each_watched|Rbac.licensed_workload|Rbac.licensed_workload|Rbac.licensed_workload
    |Rbac.licensed_workload|Rbac.licensed_workload|Rbac.licensed_workload|each_watched|each_watched|each_watched|].
  apply (bool_decide_unpack _). by vm_compute.
Qed.

End Watches.
End Manager.

(** * A manager whose every step succeeds *)

Module ManagerDemo.
Import Manager.

#[local] Instance demoJSON : BackupCLI.ManifestJSON :=
  {| BackupCLI.MarshalExportResult _ := Ok ""; BackupCLI.MarshalImportResult _ := Ok "";
     BackupCLI.encodedSize _ := 0 |}.

Definition started : prog (@ans unit unit) Z := main (λ _, "") [] "operator:1" ["--leader-elect"] 0.

Ltac answered := first
  [exact (conj eq_refl eq_refl)
  |refine (ex_intro _ tt (ex_intro _ _ (conj eq_refl _))); cbn
  |refine (ex_intro _ (Ok tt) (ex_intro _ _ (conj eq_refl _))); cbn].

Lemma started_runs : ∃ t, runs started t 0.
Proof. eexists. unfold started. cbn. repeat answered. Qed.

Lemma manager_starts_witness :
  ∃ t, runs started t 0 ∧ guaranteed (startGuard [] "operator:1" ["--leader-elect"]) [] t ∧
       last t = Some (Ev Start (Ok tt)).
Proof.
  destruct started_runs as [t Hr]. exists t. split; [exact Hr|].
  destruct (manager_starts (λ _, "") [] "operator:1" ["--leader-elect"] 0 t (runs_part _ _ _ Hr)) as [Hg Hx].
  split; [exact Hg|]. destruct (Hx 0 Hr) as [[_ Hl]|[? _]]; [exact Hl|done].
Defined.

End ManagerDemo.
